(** * Block mapping and snapshot COW engine of next3 / ext4-snapshots

    A shallow embedding of the block-mapping code of [fs/next3/inode.c]
    (path resolver, goal selection, branch allocator, truncate entry) and of
    the snapshot COW engine of [fs/ext4/snapshot.c] and [fs/ext4/snapshot.h],
    followed by the properties established about them.

    Conventions.
    - C integers are [Z]; shifts and masks are [Z.shiftl], [Z.shiftr] and
      [Z.land]; a [__u32] that the code relies on to wrap is reduced with
      [wrap32].
    - A pointer into a slot array ([__le32 *p]) is a pair of the holder (the
      inode's [i_data] or the data of a buffer, named by its block number)
      and an index; [le32_to_cpu] and [cpu_to_le32] are the identity.
    - Stateful code threads a state record explicitly; calls to services that
      live outside these files (journal, allocator, quota, buffer cache) are
      either recorded in an event log or taken as section variables. *)

From Stdlib Require Import ZArith List Bool Lia.
From stdpp Require Import base option list gmap.

Local Open Scope Z_scope.

(** ** Constants and basic structures *)

Module Layout.

(** Modelled from the spec: [next3.h] is not part of the sources at hand; the
    slot array has DIR_BLOCKS = 12 direct slots followed by the IND, DIND and
    TIND slots (scenario S1 and S2: the TIND slot is slot 14). *)
Definition NEXT3_NDIR_BLOCKS : Z := 12.
Definition NEXT3_IND_BLOCK : Z := NEXT3_NDIR_BLOCKS.
Definition NEXT3_DIND_BLOCK : Z := NEXT3_IND_BLOCK + 1.
Definition NEXT3_TIND_BLOCK : Z := NEXT3_DIND_BLOCK + 1.
Definition NEXT3_N_BLOCKS : Z := NEXT3_TIND_BLOCK + 1.

(** Error numbers of [errno.h]; the kernel returns them negated. *)
Definition EPERM : Z := 1.
Definition EIO : Z := 5.
Definition EAGAIN : Z := 11.
Definition ENOSPC : Z := 28.
Definition EROFS : Z := 30.

(** File type bits of [i_mode] ([linux/stat.h]). *)
Definition S_IFMT : Z := 61440.   (* 0170000 *)
Definition S_IFREG : Z := 32768.  (* 0100000 *)
Definition S_IFDIR : Z := 16384.  (* 0040000 *)
Definition S_IFLNK : Z := 40960.  (* 0120000 *)

Definition S_ISREG (m : Z) : bool := Z.land m S_IFMT =? S_IFREG.
Definition S_ISDIR (m : Z) : bool := Z.land m S_IFMT =? S_IFDIR.
Definition S_ISLNK (m : Z) : bool := Z.land m S_IFMT =? S_IFLNK.

(** VFS inode flags ([linux/fs.h]): [IS_APPEND] and [IS_IMMUTABLE] test
    these bits of [inode->i_flags]. *)
Definition S_APPEND : Z := 4.
Definition S_IMMUTABLE : Z := 8.

Definition wrap32 (x : Z) : Z := x mod 2 ^ 32.

(** What the code reads from the super block. *)
Record super_block := {
  s_blocksize_bits : Z;       (* log2 of the block size *)
  s_blocks_per_group : Z;     (* NEXT3_BLOCKS_PER_GROUP(sb) *)
}.

Definition s_blocksize (sb : super_block) : Z := Z.shiftl 1 (s_blocksize_bits sb).

(** Modelled from the spec: p = addr_per_block = block_size / 4 and
    p_bits = log2 p (the macros themselves live in [next3.h]). *)
Definition NEXT3_ADDR_PER_BLOCK_BITS (sb : super_block) : Z := s_blocksize_bits sb - 2.
Definition NEXT3_ADDR_PER_BLOCK (sb : super_block) : Z :=
  Z.shiftl 1 (NEXT3_ADDR_PER_BLOCK_BITS sb).
Definition NEXT3_BLOCK_SIZE_BITS (sb : super_block) : Z := s_blocksize_bits sb.

(** [struct next3_block_alloc_info], the two fields the block mapper uses. *)
Record block_alloc_info := {
  last_alloc_logical_block : Z;
  last_alloc_physical_block : Z;
}.

(** The in-memory inode ([struct inode] with its [next3_inode_info]). *)
Record inode := {
  i_ino : Z;
  i_mode : Z;
  i_flags : Z;                 (* VFS flags: S_APPEND, S_IMMUTABLE, ... *)
  i_nlink : Z;
  i_size : Z;
  i_disksize : Z;
  i_blocks : Z;                (* in 512-byte sectors *)
  i_file_acl : Z;
  i_block_group : Z;
  i_data : list Z;             (* the slot array *)
  i_block_alloc_info : option block_alloc_info;
  i_snapfile : bool;           (* the SNAPFILE inode flag *)
  i_snaplist : bool;           (* on the on-disk snapshot list *)
}.

(** [next3_snapshot_file]: a regular file carrying the SNAPFILE flag
    (a snapshots directory carries the flag too but is not a snapshot). *)
Definition next3_snapshot_file (ino : inode) : bool :=
  if negb (S_ISREG (i_mode ino)) then false else i_snapfile ino.

Definition next3_snapshot_list (ino : inode) : bool := i_snaplist ino.

(** Build-time configuration: the [CONFIG_NEXT3_FS_SNAPSHOT_*] switches the
    modelled functions test, and the constants of the missing headers that
    the spec leaves open. *)
Record config := {
  cfg_file_huge : bool;        (* CONFIG_NEXT3_FS_SNAPSHOT_FILE_HUGE *)
  cfg_file_goal : bool;        (* CONFIG_NEXT3_FS_SNAPSHOT_FILE_GOAL *)
  cfg_file_perm : bool;        (* CONFIG_NEXT3_FS_SNAPSHOT_FILE_PERM *)
  cfg_block_move : bool;       (* CONFIG_NEXT3_FS_SNAPSHOT_BLOCK_MOVE *)
  cfg_journal_bypass : bool;   (* CONFIG_NEXT3_FS_SNAPSHOT_JOURNAL_BYPASS *)
  cfg_bits_per_long : Z;       (* BITS_PER_LONG, the width of a long *)
  NEXT3_SNAPSHOT_NTIND_BLOCKS : Z;
  NEXT3_MAX_TRANS_DATA : Z;
  NEXT3_DATA_TRANS_BLOCKS : super_block -> Z;
}.

(** [loff_t] is a signed 64-bit number. *)
Definition wrap_loff (x : Z) : Z := (x + 2 ^ 63) mod 2 ^ 64 - 2 ^ 63.

(** A [long] is a signed number of [cfg_bits_per_long] bits. *)
Definition wrap_long (cfg : config) (x : Z) : Z :=
  (x + 2 ^ (cfg_bits_per_long cfg - 1)) mod 2 ^ cfg_bits_per_long cfg
  - 2 ^ (cfg_bits_per_long cfg - 1).

End Layout.
Export Layout.

(** ** 4.1 PathResolver: [next3_block_to_path] *)

Module PathResolver.

Record path := {
  depth : Z;                   (* the return value n *)
  offsets : list Z;            (* offsets[0 .. n-1] *)
  boundary : Z;                (* what is stored through [boundary] *)
}.

Section BlockToPath.
Variable cfg : config.
Variable sb : super_block.

Let ptrs := NEXT3_ADDR_PER_BLOCK sb.
Let ptrs_bits := NEXT3_ADDR_PER_BLOCK_BITS sb.

(** The common tail of the function: [n] is the number of offsets stored,
    and [*boundary = final - 1 - (i_block & (ptrs - 1))] is computed from
    the value [i_block] has when the chain of tests ends. *)
Definition finish (offs : list Z) (final i_block : Z) : path :=
  {| depth := Z.of_nat (length offs);
     offsets := offs;
     boundary := final - 1 - Z.land i_block (ptrs - 1) |}.

(** The parameter [i_block] is a [__u32] when FILE_HUGE is configured and a
    [long] otherwise: the block number a caller passes (a [sector_t], a
    [long]) is converted to that type. Only the [long] can be negative. *)
Definition to_i_block (i_block : Z) : Z :=
  if cfg_file_huge cfg then wrap32 i_block else wrap_long cfg i_block.

(** The body of [next3_block_to_path], on the value of the parameter. *)
Definition block_to_path_body (ino : inode) (i_block : Z) : path :=
  let direct_blocks := NEXT3_NDIR_BLOCKS in
  let indirect_blocks := ptrs in
  let double_blocks := Z.shiftl 1 (ptrs_bits * 2) in
  if negb (cfg_file_huge cfg) && (i_block <? 0) then
    (* next3_warning "block < 0" *)
    finish [] 0 i_block
  else if i_block <? direct_blocks then
    finish [i_block] direct_blocks i_block
  else
    let i_block := i_block - direct_blocks in
    if i_block <? indirect_blocks then
      finish [NEXT3_IND_BLOCK; i_block] ptrs i_block
    else
      let i_block := i_block - indirect_blocks in
      if i_block <? double_blocks then
        finish [NEXT3_DIND_BLOCK;
                Z.shiftr i_block ptrs_bits;
                Z.land i_block (ptrs - 1)] ptrs i_block
      else
        let i_block := i_block - double_blocks in
        if Z.shiftr i_block (ptrs_bits * 2) <? ptrs then
          finish [NEXT3_TIND_BLOCK;
                  Z.shiftr i_block (ptrs_bits * 2);
                  Z.land (Z.shiftr i_block ptrs_bits) (ptrs - 1);
                  Z.land i_block (ptrs - 1)] ptrs i_block
        else
          let tind := Z.shiftr i_block (ptrs_bits * 3) in
          if cfg_file_huge cfg && next3_snapshot_file ino
             && (tind <? NEXT3_SNAPSHOT_NTIND_BLOCKS cfg) then
            (* use up to 4 triple indirect blocks to map 2^32 blocks *)
            let i_block := wrap32 (i_block - Z.shiftl tind (ptrs_bits * 3)) in
            finish [NEXT3_TIND_BLOCK + tind;
                    Z.shiftr i_block (ptrs_bits * 2);
                    Z.land (Z.shiftr i_block ptrs_bits) (ptrs - 1);
                    Z.land i_block (ptrs - 1)] ptrs i_block
          else
            (* next3_warning "block > big" *)
            finish [] 0 i_block.

Definition next3_block_to_path (ino : inode) (i_block : Z) : path :=
  block_to_path_body ino (to_i_block i_block).

End BlockToPath.

End PathResolver.
Export PathResolver.

(** ** 4.2 BranchWalker: chains and the allocation-locality helpers *)

Module BranchWalker.

(** One triple of a branch chain ([Indirect] in the source): [p] is kept as
    the index of the slot inside its holder; the holder is the data of the
    buffer [bh] (named by its block number) or, when [bh] is NULL, the
    inode's [i_data]. *)
Record Indirect := {
  ind_p : Z;
  ind_key : Z;
  ind_bh : option Z;
}.

(** Buffer data by block number: each buffer is an array of 32-bit slots. *)
Definition buffers := gmap Z (list Z).

Definition holder_data (ino : inode) (bufs : gmap Z (list Z)) (bh : option Z) : list Z :=
  match bh with
  | None => i_data ino
  | Some b => default [] (bufs !! b)
  end.

(** Reading a slot; a slot outside the holder reads as 0 (a hole). *)
Definition read_slot (l : list Z) (i : Z) : Z :=
  if i <? 0 then 0 else default 0 (l !! Z.to_nat i).

(** The loop [for (p = ind->p - 1; p >= start; p--) if ( *p ) return *p;]
    of [next3_find_near], counting the slots left of position [n]. *)
Fixpoint scan_left (l : list Z) (n : nat) : option Z :=
  match n with
  | O => None
  | S m => if read_slot l (Z.of_nat m) =? 0 then scan_left l m
           else Some (read_slot l (Z.of_nat m))
  end.

Section Goal.
Variable cfg : config.
Variable sb : super_block.
(** [next3_group_first_block_no(sb, group)], from the missing header. *)
Variable next3_group_first_block_no : super_block -> Z -> Z.
(** [current->pid]. *)
Variable pid : Z.

Definition next3_find_near (ino : inode) (bufs : gmap Z (list Z)) (ind : Indirect) : Z :=
  let start := holder_data ino bufs (ind_bh ind) in
  (* Try to find previous block *)
  match scan_left start (Z.to_nat (ind_p ind)) with
  | Some blk => blk
  | None =>
    (* No such thing, so let's try location of indirect block *)
    match ind_bh ind with
    | Some blocknr => blocknr
    | None =>
      (* referred to from the inode itself: same cylinder group *)
      let bg_start := next3_group_first_block_no sb (i_block_group ino) in
      let colour := Z.rem pid 16 * Z.quot (s_blocks_per_group sb) 16 in
      bg_start + colour
    end
  end.

Definition SNAPSHOT_BLOCK (iblock : Z) : Z := iblock.
Definition SNAPSHOT_IBLOCK (block : Z) : Z := block.

Definition next3_find_goal (ino : inode) (bufs : gmap Z (list Z))
    (block : Z) (partial : Indirect) : Z :=
  let otherwise :=
    (* snapshot file copied blocks are allocated close to their source *)
    if cfg_file_goal cfg && next3_snapshot_file ino then SNAPSHOT_BLOCK block
    else next3_find_near ino bufs partial in
  (* try the heuristic for sequential allocation,
     failing that at least try to get decent locality *)
  match i_block_alloc_info ino with
  | Some block_i =>
    if (block =? last_alloc_logical_block block_i + 1)
       && negb (last_alloc_physical_block block_i =? 0)
    then last_alloc_physical_block block_i + 1
    else otherwise
  | None => otherwise
  end.

End Goal.

(** The loop of [next3_blks_to_allocate]:
    [while (count < blks && count <= blocks_to_boundary
            && *(branch[0].p + count) == 0) count++;]
    [fuel] bounds the number of iterations; [blocks_to_boundary] of them
    are enough, since [count] starts at 1 and stops above it. *)
Fixpoint zero_run (fuel : nat) (l : list Z) (p blks blocks_to_boundary count : Z) : Z :=
  match fuel with
  | O => count
  | S fuel' =>
    if (count <? blks) && (count <=? blocks_to_boundary)
       && (read_slot l (p + count) =? 0)
    then zero_run fuel' l p blks blocks_to_boundary (count + 1)
    else count
  end.

Definition next3_blks_to_allocate (ino : inode) (bufs : gmap Z (list Z))
    (branch0 : Indirect) (k blks blocks_to_boundary : Z) : Z :=
  if 0 <? k then
    (* right now we don't handle cross boundary allocation *)
    if blks <? blocks_to_boundary + 1 then 0 + blks
    else 0 + (blocks_to_boundary + 1)
  else
    zero_run (Z.to_nat blocks_to_boundary)
      (holder_data ino bufs (ind_bh branch0)) (ind_p branch0)
      blks blocks_to_boundary 1.

End BranchWalker.
Export BranchWalker.

(** ** 4.4 TruncateEngine: the transaction budget and the entry guards *)

(** Calls into the services outside the modelled files, in call order. *)
Inductive event :=
  | EvJournalStart (nblocks : Z)
  | EvJournalStop
  | EvStdError
  | EvOrphanAdd (ino : Z)
  | EvOrphanDel (ino : Z)
  | EvNewBlocks (ino goal first count : Z)
  | EvFreeBlocks (ino block count : Z)
  | EvDquotAlloc (ino count : Z)
  | EvDquotFree (ino count : Z)
  | EvGetCreateAccess (blocknr : Z)
  | EvGetWriteAccess (blocknr : Z)
  | EvDirtyMetadata (blocknr : Z)
  | EvSyncDirtyBuffer (blocknr : Z)
  | EvJournalForget (bh : option Z)
  | EvMarkInodeDirty (ino : Z)
  | EvTruncatePage (size : Z)
  | EvFlushOnClose (ino : Z)
  | EvDiscardReservation (ino : Z).

Module TruncateEngine.

Section Truncate.
Variable cfg : config.
Variable sb : super_block.

Definition next3_inode_is_fast_symlink (ino : inode) : bool :=
  let ea_blocks := if i_file_acl ino =? 0 then 0
                   else Z.shiftr (s_blocksize sb) 9 in
  S_ISLNK (i_mode ino) && (i_blocks ino - ea_blocks =? 0).

Definition blocks_for_truncate (ino : inode) : Z :=
  let needed := Z.shiftr (i_blocks ino) (s_blocksize_bits sb - 9) in
  (* room to cope with inodes in which i_blocks is corrupt *)
  let needed := if needed <? 2 then 2 else needed in
  (* bound the transaction so we don't overflow the journal *)
  let needed := if needed >? NEXT3_MAX_TRANS_DATA cfg
                then NEXT3_MAX_TRANS_DATA cfg else needed in
  NEXT3_DATA_TRANS_BLOCKS cfg sb + needed.

Definition IS_APPEND (ino : inode) : bool := negb (Z.land (i_flags ino) S_APPEND =? 0).
Definition IS_IMMUTABLE (ino : inode) : bool := negb (Z.land (i_flags ino) S_IMMUTABLE =? 0).

Definition next3_can_truncate (ino : inode) : bool :=
  if IS_APPEND ino || IS_IMMUTABLE ino then false
  else if S_ISREG (i_mode ino) then true
  else if S_ISDIR (i_mode ino) then true
  else if S_ISLNK (i_mode ino) then negb (next3_inode_is_fast_symlink ino)
  else false.

(** The journal answers [next3_journal_start] with a handle or with an
    error pointer; the answer may depend on what happened before. *)
Variable journal_start_ok : list event -> Z -> bool.
(** [grab_cache_page] may fail to return the EOF page. *)
Variable grab_cache_page_ok : list event -> Z -> bool.
Variable next3_should_writeback_data : inode -> bool.
(** [next3_orphan_add]: 0 or an error. *)
Variable orphan_add_err : list event -> Z -> Z.
(** Everything between [mutex_lock(&ei->truncate_mutex)] and
    [mutex_unlock]: the walk that frees the branches right of the cut
    ([next3_free_data], [next3_find_shared], [next3_free_branches]),
    given the path of the first block to go; it returns the inode and
    the calls it made. *)
Variable free_branches_from : path -> inode -> list event -> inode * list event.

(** [start_transaction]: [true] when a handle was obtained. *)
Definition start_transaction (ino : inode) (log : list event) : bool * list event :=
  let log := log ++ [EvJournalStart (blocks_for_truncate ino)] in
  if journal_start_ok log (blocks_for_truncate ino) then (true, log)
  else (false, log ++ [EvStdError]).

(** The exit [out_notrans]. *)
Definition out_notrans (ino : inode) (log : list event) : inode * list event :=
  if negb (i_nlink ino =? 0) then (ino, log ++ [EvOrphanDel (i_ino ino)])
  else (ino, log).

(** The exit [out_stop]. *)
Definition out_stop (ino : inode) (log : list event) : inode * list event :=
  let log := if negb (i_nlink ino =? 0) then log ++ [EvOrphanDel (i_ino ino)]
             else log in
  (ino, log ++ [EvJournalStop]).

Definition set_disksize (ino : inode) (sz : Z) : inode :=
  {| i_ino := i_ino ino; i_mode := i_mode ino; i_flags := i_flags ino;
     i_nlink := i_nlink ino; i_size := i_size ino; i_disksize := sz;
     i_blocks := i_blocks ino; i_file_acl := i_file_acl ino;
     i_block_group := i_block_group ino; i_data := i_data ino;
     i_block_alloc_info := i_block_alloc_info ino;
     i_snapfile := i_snapfile ino; i_snaplist := i_snaplist ino |}.

Definition next3_truncate (ino : inode) (log : list event) : inode * list event :=
  let blocksize := s_blocksize sb in
  if cfg_file_perm cfg && next3_snapshot_list ino then
    (* prevent truncate of files on snapshot list *)
    (ino, log)
  else if negb (next3_can_truncate ino) then out_notrans ino log
  else
    let log := if (i_size ino =? 0) && next3_should_writeback_data ino
               then log ++ [EvFlushOnClose (i_ino ino)] else log in
    (* lock the EOF page, unless i_size sits on a block boundary *)
    let need_page := negb (Z.land (i_size ino) (blocksize - 1) =? 0) in
    if need_page && negb (grab_cache_page_ok log (i_size ino)) then
      out_notrans ino log
    else
      let '(started, log) := start_transaction ino log in
      if negb started then out_notrans ino log
      else
        (* the sum is made in [loff_t] and stored in a [long] *)
        let last_block :=
          wrap_long cfg
            (Z.shiftr (wrap_loff (wrap_loff (i_size ino + blocksize) - 1))
               (NEXT3_BLOCK_SIZE_BITS sb)) in
        let log := if need_page then log ++ [EvTruncatePage (i_size ino)]
                   else log in
        let pth := next3_block_to_path cfg sb ino last_block in
        if depth pth =? 0 then out_stop ino log
        else
          let log := log ++ [EvOrphanAdd (i_ino ino)] in
          if negb (orphan_add_err log (i_ino ino) =? 0) then out_stop ino log
          else
            let ino := set_disksize ino (i_size ino) in
            let '(ino, calls) := free_branches_from pth ino log in
            let log := log ++ calls in
            let log := log ++ [EvDiscardReservation (i_ino ino);
                               EvMarkInodeDirty (i_ino ino)] in
            out_stop ino log.

End Truncate.

End TruncateEngine.
Export TruncateEngine.

(** ** 4.3 BranchAllocator: [next3_alloc_blocks], [next3_alloc_branch_cow],
       [next3_splice_branch_cow] *)

Module BranchAllocator.

(** Modelled from the spec: the mapping modes are orthogonal flags of the
    [cmd] argument (create, cow, move, sync); their bit positions live in
    the missing headers, and only their being distinct bits matters. *)
Definition GET_BLOCKS_CREATE : Z := 1.
Definition GET_BLOCKS_COW : Z := 2.
Definition GET_BLOCKS_MOVE : Z := 4.
Definition GET_BLOCKS_SYNC : Z := 8.

Definition SNAPMAP_READ : Z := 0.
Definition SNAPMAP_WRITE : Z := GET_BLOCKS_CREATE.
Definition SNAPMAP_COW : Z := Z.lor SNAPMAP_WRITE GET_BLOCKS_COW.
Definition SNAPMAP_MOVE : Z := Z.lor SNAPMAP_WRITE GET_BLOCKS_MOVE.
Definition SNAPMAP_BITMAP : Z := Z.lor SNAPMAP_COW GET_BLOCKS_SYNC.

Definition SNAPMAP_ISCOW (cmd : Z) : bool := negb (Z.land cmd GET_BLOCKS_COW =? 0).
Definition SNAPMAP_ISMOVE (cmd : Z) : bool := negb (Z.land cmd GET_BLOCKS_MOVE =? 0).
Definition SNAPMAP_ISSYNC (cmd : Z) : bool := negb (Z.land cmd GET_BLOCKS_SYNC =? 0).

(** The memory the allocator works on, and the log of its outside calls. *)
Record mstate := {
  m_inode : inode;
  m_bufs : gmap Z (list Z);
  m_log : list event;
}.

Definition set_i_data (ino : inode) (l : list Z) : inode :=
  {| i_ino := i_ino ino; i_mode := i_mode ino; i_flags := i_flags ino;
     i_nlink := i_nlink ino; i_size := i_size ino; i_disksize := i_disksize ino;
     i_blocks := i_blocks ino; i_file_acl := i_file_acl ino;
     i_block_group := i_block_group ino; i_data := l;
     i_block_alloc_info := i_block_alloc_info ino;
     i_snapfile := i_snapfile ino; i_snaplist := i_snaplist ino |}.

Definition set_block_alloc_info (ino : inode) (bi : option block_alloc_info) : inode :=
  {| i_ino := i_ino ino; i_mode := i_mode ino; i_flags := i_flags ino;
     i_nlink := i_nlink ino; i_size := i_size ino; i_disksize := i_disksize ino;
     i_blocks := i_blocks ino; i_file_acl := i_file_acl ino;
     i_block_group := i_block_group ino; i_data := i_data ino;
     i_block_alloc_info := bi;
     i_snapfile := i_snapfile ino; i_snaplist := i_snaplist ino |}.

Definition log_event (ev : event) (st : mstate) : mstate :=
  {| m_inode := m_inode st; m_bufs := m_bufs st; m_log := m_log st ++ [ev] |}.

Definition log_events (evs : list event) (st : mstate) : mstate :=
  {| m_inode := m_inode st; m_bufs := m_bufs st; m_log := m_log st ++ evs |}.

(** [*p = v] for the slot [idx] of the holder of [bh]; a store outside the
    holder is dropped. *)
Definition store_slot (bh : option Z) (idx v : Z) (st : mstate) : mstate :=
  if idx <? 0 then st
  else match bh with
  | None =>
    {| m_inode := set_i_data (m_inode st) (<[Z.to_nat idx := v]> (i_data (m_inode st)));
       m_bufs := m_bufs st; m_log := m_log st |}
  | Some b =>
    {| m_inode := m_inode st;
       m_bufs := alter (fun l => <[Z.to_nat idx := v]> l) b (m_bufs st);
       m_log := m_log st |}
  end.

(** [for (i = 1; i < num; i++) *(p + i) = ++current_block;] with [n] the
    number of iterations left and [i] the current index. *)
Fixpoint store_run (n : nat) (bh : option Z) (p i current_block : Z) (st : mstate) : mstate :=
  match n with
  | O => st
  | S n' => store_run n' bh p (i + 1) (current_block + 1)
              (store_slot bh (p + i) (current_block + 1) st)
  end.

(** [memset(bh->b_data, 0, blocksize)] *)
Definition zero_buffer (sb : super_block) (b : Z) (st : mstate) : mstate :=
  {| m_inode := m_inode st;
     m_bufs := <[b := replicate (Z.to_nat (NEXT3_ADDR_PER_BLOCK sb)) 0]> (m_bufs st);
     m_log := m_log st |}.

Definition entry (l : list Z) (i : Z) : Z := read_slot l i.

Definition chain_at (c : list Indirect) (i : Z) : Indirect :=
  if i <? 0 then {| ind_p := 0; ind_key := 0; ind_bh := None |}
  else default {| ind_p := 0; ind_key := 0; ind_bh := None |} (c !! Z.to_nat i).

(** Blocks charged to an inode's owner by the calls in a log. *)
Fixpoint quota_charged (ino : Z) (log : list event) : Z :=
  match log with
  | [] => 0
  | EvDquotAlloc i n :: rest => (if i =? ino then n else 0) + quota_charged ino rest
  | EvDquotFree i n :: rest => quota_charged ino rest - (if i =? ino then n else 0)
  | _ :: rest => quota_charged ino rest
  end.

Section Allocator.
Variable cfg : config.
Variable sb : super_block.
(** [next3_new_blocks(handle, inode, goal, &count, &err)]: the error, the
    first block and the number of blocks granted, as a function of what
    happened so far. On success the allocator grants at least one block
    and at most the [count] asked for. *)
Variable new_blocks_oracle : list event -> Z -> Z -> Z -> Z * Z * Z.
(** The return value of a journal call, given what happened so far. *)
Variable jbd : list event -> event -> Z.

Definition journal_call (ev : event) (st : mstate) : Z * mstate :=
  (jbd (m_log st) ev, log_event ev st).

Definition granted_count (asked granted : Z) : Z := Z.max 1 (Z.min asked granted).

(** The [while (1)] loop of [next3_alloc_blocks]. [nb] holds
    [new_blocks[0 .. index-1]], so [index] is its length. The result is
    the error, the return value, the array and the log. *)
Fixpoint alloc_loop (fuel : nat) (ino goal indirect_blks blks target : Z)
    (nb : list Z) (log : list event) : option (Z * Z * list Z * list event) :=
  match fuel with
  | O => None
  | S fuel' =>
    let index := Z.of_nat (length nb) in
    let count := target in
    (* allocating blocks for indirect blocks and direct blocks *)
    let '(err, current_block, granted) := new_blocks_oracle log ino goal count in
    if negb (err =? 0) then
      (* failed_out *)
      Some (err, 0, nb, log ++ map (fun b => EvFreeBlocks ino b 1) nb)
    else
      let count := granted_count count granted in
      let log := log ++ [EvNewBlocks ino goal current_block count] in
      let target := target - count in
      (* allocate blocks for indirect blocks *)
      let k := Z.max 0 (Z.min (indirect_blks - index) count) in
      let nb := nb ++ seqZ current_block k in
      let current_block := current_block + k in
      let count := count - k in
      if cfg_block_move cfg && (blks =? 0) && (target =? 0) then
        (* mapping data blocks *)
        Some (0, 0, nb, log)
      else if 0 <? count then
        (* save the new block number for the first direct block *)
        Some (0, count, nb ++ [current_block], log)
      else alloc_loop fuel' ino goal indirect_blks blks target nb log
  end.

(** [next3_alloc_blocks]; the default is never taken for a call with
    [indirect_blks >= 0] and [blks >= 1] (or [blks = 0] when BLOCK_MOVE
    is configured), see [alloc_loop_enough_fuel]. *)
Definition next3_alloc_blocks (ino goal indirect_blks blks : Z)
    (log : list event) : Z * Z * list Z * list event :=
  let target := blks + indirect_blks in
  default (- ENOSPC, 0, [], log)
    (alloc_loop (S (Z.to_nat target)) ino goal indirect_blks blks target [] log).

Definition bypass (cmd : Z) : bool := cfg_journal_bypass cfg && SNAPMAP_ISSYNC cmd.
Definition moving (cmd : Z) : bool := cfg_block_move cfg && SNAPMAP_ISMOVE cmd.

(** The label [failed] of [next3_alloc_branch_cow]; [n] is the step of the
    loop that failed. *)
Definition alloc_branch_failed (ino cmd indirect_blks num n : Z)
    (new_blocks : list Z) (branch : list Indirect) (st : mstate) : mstate :=
  (* Allocation failed, free what we already allocated *)
  let st :=
    if bypass cmd then st
    else log_events
           (map (fun i => EvJournalForget (ind_bh (chain_at branch i))) (seqZ 1 n)) st in
  let st :=
    log_events
      (map (fun i => EvFreeBlocks ino (entry new_blocks i) 1) (seqZ 0 indirect_blks)) st in
  if cfg_block_move cfg then
    if SNAPMAP_ISMOVE cmd && (0 <? num) then
      (* don't charge snapshot file owner if move failed *)
      log_event (EvDquotFree ino num) st
    else if 0 <? num then
      log_event (EvFreeBlocks ino (entry new_blocks indirect_blks) num) st
    else st
  else log_event (EvFreeBlocks ino (entry new_blocks indirect_blks) num) st.

(** The loop [for (n = 1; n <= indirect_blks; n++)] of
    [next3_alloc_branch_cow]; [steps] is the number of iterations left.
    The result is the error, the step reached, the branch and the state;
    a non-zero error means the jump to [failed]. *)
Fixpoint link_loop (steps : nat) (cmd indirect_blks num n : Z)
    (offs new_blocks : list Z) (branch : list Indirect) (st : mstate)
    : Z * Z * list Indirect * mstate :=
  match steps with
  | O => (0, n, branch, st)
  | S steps' =>
    (* Get buffer_head for parent block, zero it out and set the
       pointer to new one, then send parent to disk. *)
    let bh := entry new_blocks (n - 1) in
    let branch_bh := branch ++ [{| ind_p := 0; ind_key := 0; ind_bh := Some bh |}] in
    let '(err, st) :=
      if bypass cmd then (0, st) else journal_call (EvGetCreateAccess bh) st in
    if negb (err =? 0) then (err, n, branch_bh, st)
    else
      let st := zero_buffer sb bh st in
      let p := entry offs n in
      let key := entry new_blocks n in
      let branch := branch ++ [{| ind_p := p; ind_key := key; ind_bh := Some bh |}] in
      let st := store_slot (Some bh) p key st in
      let st :=
        if n =? indirect_blks then
          (* End of chain, update the last new metablock of the chain to
             point to the new allocated data blocks numbers *)
          store_run (Z.to_nat (num - 1)) (Some bh) p 1 key st
        else st in
      let '(err, st) :=
        if bypass cmd then (0, log_event (EvSyncDirtyBuffer bh) st)
        else journal_call (EvDirtyMetadata bh) st in
      if negb (err =? 0) then (err, n, branch, st)
      else link_loop steps' cmd indirect_blks num (n + 1) offs new_blocks branch st
  end.

Definition set_key (i : Indirect) (k : Z) : Indirect :=
  {| ind_p := ind_p i; ind_key := k; ind_bh := ind_bh i |}.

(** [next3_alloc_branch_cow]: the error, the value left in [*blks], the
    branch and the state. [branch0] is the triple [partial] points to;
    the triples after it are written by the function. *)
Definition next3_alloc_branch_cow (iblock indirect_blks blks goal : Z)
    (offs : list Z) (branch0 : Indirect) (cmd : Z) (st : mstate)
    : Z * Z * list Indirect * mstate :=
  let ino := i_ino (m_inode st) in
  let '(err, num, new_blocks, st) :=
    if moving cmd then
      (* mapping snapshot block to block device block *)
      let current_block := SNAPSHOT_BLOCK iblock in
      let '(err, new_blocks, st) :=
        if 0 <? indirect_blks then
          (* allocating only indirect blocks *)
          let '(err, _, nb, log) :=
            next3_alloc_blocks ino goal indirect_blks 0 (m_log st) in
          (err, nb, {| m_inode := m_inode st; m_bufs := m_bufs st; m_log := log |})
        else (0, [], st) in
      if negb (err =? 0) then (err, 0, new_blocks, st)
      else
        (* charge snapshot file owner for moved blocks *)
        let st := log_event (EvDquotAlloc ino blks) st in
        (0, blks, take (Z.to_nat indirect_blks) new_blocks ++ [current_block], st)
    else
      let '(err, num, nb, log) :=
        next3_alloc_blocks ino goal indirect_blks blks (m_log st) in
      (err, num, nb, {| m_inode := m_inode st; m_bufs := m_bufs st; m_log := log |}) in
  if negb (err =? 0) then (err, blks, [branch0], st)
  else
    let branch := [set_key branch0 (entry new_blocks 0)] in
    (* metadata blocks and data blocks are allocated *)
    let '(err, n, branch, st) :=
      link_loop (Z.to_nat indirect_blks) cmd indirect_blks num 1
        offs new_blocks branch st in
    if negb (err =? 0) then
      (err, blks, branch,
       alloc_branch_failed ino cmd indirect_blks num n new_blocks branch st)
    else (0, num, branch, st).

(** The label [err_out] of [next3_splice_branch_cow]. *)
Definition splice_err_out (ino cmd num blks : Z) (where_ : list Indirect)
    (st : mstate) : mstate :=
  let st :=
    log_events
      (flat_map
         (fun i =>
            (if bypass cmd then []
             else [EvJournalForget (ind_bh (chain_at where_ i))])
            ++ [EvFreeBlocks ino (ind_key (chain_at where_ (i - 1))) 1])
         (seqZ 1 num)) st in
  if moving cmd then
    (* don't charge snapshot file owner if move failed *)
    log_event (EvDquotFree ino blks) st
  else log_event (EvFreeBlocks ino (ind_key (chain_at where_ num)) blks) st.

Definition set_alloc_info_st (bi : option block_alloc_info) (st : mstate) : mstate :=
  {| m_inode := set_block_alloc_info (m_inode st) bi;
     m_bufs := m_bufs st; m_log := m_log st |}.

(** [next3_splice_branch_cow]: [where_] is the chain from the triple of
    the missing link on, [num] the number of indirect blocks and [blks]
    the number of direct blocks being added. *)
Definition next3_splice_branch_cow (block : Z) (where_ : list Indirect)
    (num blks cmd : Z) (st : mstate) : Z * mstate :=
  let ino := i_ino (m_inode st) in
  let w := chain_at where_ 0 in
  let block_i := i_block_alloc_info (m_inode st) in
  (* splicing into a [td]indirect block needs write access to it *)
  let '(err, st) :=
    match ind_bh w with
    | Some b => journal_call (EvGetWriteAccess b) st
    | None => (0, st)
    end in
  if negb (err =? 0) then (err, splice_err_out ino cmd num blks where_ st)
  else
    (* That's it *)
    let st := store_slot (ind_bh w) (ind_p w) (ind_key w) st in
    (* point to more just allocated direct blocks *)
    let st :=
      if (num =? 0) && (1 <? blks) then
        store_run (Z.to_nat (blks - 1)) (ind_bh w) (ind_p w) 1 (ind_key w) st
      else st in
    (* don't update i_block_alloc_info with moved block *)
    let block_i := if moving cmd then None else block_i in
    let st :=
      match block_i with
      | Some _ =>
        set_alloc_info_st
          (Some {| last_alloc_logical_block := block + blks - 1;
                   last_alloc_physical_block :=
                     ind_key (chain_at where_ num) + blks - 1 |}) st
      | None => st
      end in
    (* We are done with atomic stuff, now do the rest of housekeeping *)
    let st := log_event (EvMarkInodeDirty ino) st in
    match ind_bh w with
    | Some b =>
      let '(err, st) := journal_call (EvDirtyMetadata b) st in
      if negb (err =? 0) then (err, splice_err_out ino cmd num blks where_ st)
      else (0, st)
    | None => (0, st)
    end.

End Allocator.

End BranchAllocator.
Export BranchAllocator.

(** ** 4.5 SnapshotCowEngine: [fs/ext4/snapshot.c] and the hooks of
       [fs/ext4/snapshot.h] *)

Module CowEngine.

(** [handle_t]: what the engine reads and writes. [h_tid] stands for
    [handle->h_transaction->t_tid]. *)
Record handle := {
  h_cowing : bool;
  h_tid : Z;
  h_buffer_credits : Z;
  h_user_credits : Z;
}.

Record journal_head := { b_cow_tid : Z }.

(** [struct buffer_head]: [b_jbd] is [buffer_jbd(bh)] (the buffer is
    attached to the journal) and [b_jh] is [bh2jh(bh)]. *)
Record buffer_head := {
  b_blocknr : Z;
  b_jbd : bool;
  b_mapped : bool;
  b_uptodate : bool;
  b_jh : option journal_head;
}.

Definition no_buffer : buffer_head :=
  {| b_blocknr := 0; b_jbd := false; b_mapped := false; b_uptodate := false;
     b_jh := None |}.

(** Build and mount parameters of the engine. [cow_cache_var] is the debug
    switch [cow_cache_enabled] that exists only under CONFIG_EXT4_DEBUG. *)
Record cow_config := {
  PAGE_SHIFT : Z;
  CONFIG_EXT4_DEBUG : bool;
  cow_cache_var : bool;
  snapshot_unrm : inode -> bool;     (* EXT4_UNRM_FL of a snapshot inode *)
}.

(** The collaborators of the engine that are not part of the modelled
    files, over the world [W] outside the engine (block device, snapshot
    file mapping, allocator, quota) and the contents [B] of a COW bitmap
    buffer:
    - [svc_read_cow_bitmap] is [ext4_snapshot_read_cow_bitmap];
    - [svc_test_bit_range] is [ext4_mb_test_bit_range], returning the value
      and what it leaves in [*maxblocks];
    - [svc_map_blocks] is [ext4_map_blocks], returning the value and
      [map.m_pblk];
    - [svc_getblk] is [ext4_getblk], returning the buffer and [*errp];
    - [svc_file_inode] is [ext4_jbd2_file_inode];
    - [svc_read_block] is [ll_rw_block(READ, 1, &bh); wait_on_buffer(bh)],
      telling whether the buffer is up to date afterwards;
    - [svc_copy_buffer] is [memcpy(sbh->b_data, bh->b_data, ...)] followed
      by marking the snapshot buffer up to date;
    - [svc_mark_dirty], [svc_sync_dirty] and [svc_dquot_free] are
      [mark_buffer_dirty], [sync_dirty_buffer] and [dquot_free_block]. *)
Record services (W B : Type) := {
  svc_read_cow_bitmap : handle -> inode -> Z -> W -> option B * W;
  svc_test_bit_range : Z -> B -> Z -> Z * Z;
  svc_map_blocks : handle -> inode -> Z -> Z -> Z -> W -> Z * Z * W;
  svc_getblk : handle -> inode -> Z -> Z -> W -> option Z * Z * W;
  svc_file_inode : handle -> inode -> W -> Z * W;
  svc_read_block : Z -> W -> bool * W;
  svc_copy_buffer : Z -> Z -> W -> W;
  svc_mark_dirty : Z -> W -> W;
  svc_sync_dirty : Z -> W -> W;
  svc_dquot_free : inode -> Z -> W -> W;
}.

Arguments svc_read_cow_bitmap {W B}.
Arguments svc_test_bit_range {W B}.
Arguments svc_map_blocks {W B}.
Arguments svc_getblk {W B}.
Arguments svc_file_inode {W B}.
Arguments svc_read_block {W B}.
Arguments svc_copy_buffer {W B}.
Arguments svc_mark_dirty {W B}.
Arguments svc_sync_dirty {W B}.
Arguments svc_dquot_free {W B}.

Section Engine.
Variable ccfg : cow_config.
Variable W : Type.
Variable B : Type.

(** State: the world, the buffer heads the journal layer hands to the
    hooks (shared objects, named by an identifier), the active snapshot
    [EXT4_SB(sb)->s_active_snapshot] and the HAS_SNAPSHOT feature. *)
Record cstate := {
  c_world : W;
  c_bufs : gmap Z buffer_head;
  c_active_snapshot : option inode;
  c_has_snapshot : bool;
}.

(** The collaborators, named as in the source. *)
Variable svc : services W B.
Local Abbreviation ext4_snapshot_read_cow_bitmap := (svc_read_cow_bitmap svc).
Local Abbreviation ext4_mb_test_bit_range := (svc_test_bit_range svc).
Local Abbreviation ext4_map_blocks := (svc_map_blocks svc).
Local Abbreviation ext4_getblk := (svc_getblk svc).
Local Abbreviation ext4_jbd2_file_inode := (svc_file_inode svc).
Local Abbreviation ll_rw_block_read := (svc_read_block svc).
Local Abbreviation copy_buffer := (svc_copy_buffer svc).
Local Abbreviation mark_buffer_dirty := (svc_mark_dirty svc).
Local Abbreviation sync_dirty_buffer := (svc_sync_dirty svc).
Local Abbreviation dquot_free_block := (svc_dquot_free svc).

Definition with_world (st : cstate) (w : W) : cstate :=
  {| c_world := w; c_bufs := c_bufs st;
     c_active_snapshot := c_active_snapshot st;
     c_has_snapshot := c_has_snapshot st |}.

Definition with_bufs (st : cstate) (m : gmap Z buffer_head) : cstate :=
  {| c_world := c_world st; c_bufs := m;
     c_active_snapshot := c_active_snapshot st;
     c_has_snapshot := c_has_snapshot st |}.

Definition get_bh (st : cstate) (b : Z) : buffer_head :=
  default no_buffer (c_bufs st !! b).

(** *** Macros of [snapshot.h] *)
Definition SNAPSHOT_BLOCK_SIZE_BITS : Z := PAGE_SHIFT ccfg.
Definition SNAPSHOT_ADDR_PER_BLOCK_BITS : Z := SNAPSHOT_BLOCK_SIZE_BITS - 2.
Definition SNAPSHOT_ADDR_PER_BLOCK : Z := Z.shiftl 1 SNAPSHOT_ADDR_PER_BLOCK_BITS.
Definition SNAPSHOT_BLOCK_OFFSET : Z := NEXT3_NDIR_BLOCKS + SNAPSHOT_ADDR_PER_BLOCK.
Definition SNAPSHOT_BLOCKS_PER_GROUP_BITS : Z := SNAPSHOT_BLOCK_SIZE_BITS + 3.
Definition SNAPSHOT_BLOCKS_PER_GROUP : Z := Z.shiftl 1 SNAPSHOT_BLOCKS_PER_GROUP_BITS.
Definition SNAPSHOT_BLOCK_GROUP (block : Z) : Z :=
  Z.shiftr block SNAPSHOT_BLOCKS_PER_GROUP_BITS.
Definition SNAPSHOT_BLOCK_GROUP_OFFSET (block : Z) : Z :=
  Z.land block (SNAPSHOT_BLOCKS_PER_GROUP - 1).
Definition SNAPSHOT_BYTES_OFFSET : Z :=
  Z.shiftl SNAPSHOT_BLOCK_OFFSET SNAPSHOT_BLOCK_SIZE_BITS.
Definition SNAPSHOT_SIZE (ino : inode) : Z := i_disksize ino - SNAPSHOT_BYTES_OFFSET.
(** The cast to [ext4_fsblk_t] makes the block count an unsigned 64-bit
    number. *)
Definition SNAPSHOT_BLOCKS (ino : inode) : Z :=
  Z.shiftr (SNAPSHOT_SIZE ino) SNAPSHOT_BLOCK_SIZE_BITS mod 2 ^ 64.

Definition IS_COWING (h : handle) : bool := h_cowing h.

Definition ext4_snapshot_file (ino : inode) : bool :=
  if negb (S_ISREG (i_mode ino)) then false else i_snapfile ino.

(** [ext4_snapshot_excluded]: 0 for a normal file, negative for an
    'ignored' file (snapshot files are ignored). *)
Definition ext4_snapshot_excluded (ino : option inode) : Z :=
  match ino with
  | None => 0
  | Some i =>
    if negb (S_ISREG (i_mode i)) then 0
    else if ext4_snapshot_file i then -1
    else 0
  end.

Definition ext4_snapshot_has_active (st : cstate) : option inode :=
  c_active_snapshot st.

(** Pointer equality [inode == active_snapshot]. *)
Definition same_inode (ino : option inode) (active_snapshot : inode) : bool :=
  match ino with
  | Some i => i_ino i =? i_ino active_snapshot
  | None => false
  end.

(** *** COW helper functions *)

Definition ext4_snapshot_map_blocks (h : handle) (ino : inode)
    (block maxblocks : Z) (mapped : Z) (cmd : Z) (w : W) : Z * Z * W :=
  let '(err, m_pblk, w) :=
    ext4_map_blocks h ino (SNAPSHOT_IBLOCK block) maxblocks cmd w in
  (err, if 0 <? err then m_pblk else mapped, w).

Definition ext4_snapshot_complete_cow (h : handle) (snapshot : inode)
    (sbh : Z) (sync : bool) (w : W) : Z * W :=
  let '(err, w) := ext4_jbd2_file_inode h snapshot w in
  if negb (err =? 0) then (err, w)
  else
    let w := mark_buffer_dirty sbh w in
    (err, if sync then sync_dirty_buffer sbh w else w).

Definition ext4_snapshot_copy_buffer_cow (h : handle) (snapshot : inode)
    (sbh bh : Z) (w : W) : Z * W :=
  ext4_snapshot_complete_cow h snapshot sbh false (copy_buffer sbh bh w).

(** [ext4_snapshot_test_cow_bitmap]: the return value, the value left in
    [*maxblocks] and the world. *)
Definition ext4_snapshot_test_cow_bitmap (h : handle) (snapshot : inode)
    (block maxblocks : Z) (w : W) : Z * Z * W :=
  let block_group := SNAPSHOT_BLOCK_GROUP block in
  let bit := SNAPSHOT_BLOCK_GROUP_OFFSET block in
  let snapshot_blocks := SNAPSHOT_BLOCKS snapshot in
  if snapshot_blocks <=? block then
    (* past the last f/s block at the time the snapshot was taken *)
    (0, maxblocks, w)
  else
    match ext4_snapshot_read_cow_bitmap h snapshot block_group w with
    | (None, w) => (- EIO, maxblocks, w)
    | (Some cow_data, w) =>
      (* if the bit is set in the COW bitmap, the block is in use *)
      let '(ret, maxblocks) := ext4_mb_test_bit_range bit cow_data maxblocks in
      (ret, maxblocks, w)
    end.

(** *** The journal COW cache *)

Definition cow_cache_enabled : bool :=
  if CONFIG_EXT4_DEBUG ccfg then cow_cache_var ccfg else true.

Definition test_cow_tid (jh : journal_head) (h : handle) : bool :=
  b_cow_tid jh =? h_tid h.

Definition ext4_snapshot_test_cowed (st : cstate) (h : handle) (bh : option Z) : bool :=
  if negb cow_cache_enabled then false
  else
    (* check the COW tid in the journal head *)
    match bh with
    | Some b =>
      if b_jbd (get_bh st b) then
        match b_jh (get_bh st b) with
        | Some jh => test_cow_tid jh h
        | None => false
        end
      else false
    | None => false
    end.

Definition set_cow_tid (bhd : buffer_head) (h : handle) : buffer_head :=
  {| b_blocknr := b_blocknr bhd; b_jbd := b_jbd bhd; b_mapped := b_mapped bhd;
     b_uptodate := b_uptodate bhd; b_jh := Some {| b_cow_tid := h_tid h |} |}.

Definition ext4_snapshot_mark_cowed (st : cstate) (h : handle) (bh : option Z) : cstate :=
  if negb cow_cache_enabled then st
  else
    match bh with
    | Some b =>
      if b_jbd (get_bh st b) then
        match b_jh (get_bh st b) with
        | Some jh =>
          if negb (test_cow_tid jh h) then
            (* first time this block was COWed in the running
               transaction: update the COW tid in the journal head *)
            with_bufs st (<[b := set_cow_tid (get_bh st b) h]> (c_bufs st))
          else st
        | None => st
        end
      else st
    | None => st
    end.

(** *** Begin and end of a COW or move operation *)

Definition set_cowing (h : handle) (v : bool) : handle :=
  {| h_cowing := v; h_tid := h_tid h;
     h_buffer_credits := h_buffer_credits h;
     h_user_credits := h_user_credits h |}.

Definition ext4_snapshot_cow_begin (h : handle) : handle := set_cowing h true.
Definition ext4_snapshot_cow_end (h : handle) : handle := set_cowing h false.

Definition set_uptodate (st : cstate) (b : Z) (v : bool) : cstate :=
  let bhd := get_bh st b in
  with_bufs st
    (<[b := {| b_blocknr := b_blocknr bhd; b_jbd := b_jbd bhd;
               b_mapped := b_mapped bhd; b_uptodate := v;
               b_jh := b_jh bhd |}]> (c_bufs st)).

(** [if (!buffer_uptodate(bh)) { ll_rw_block(READ, 1, &bh);
    wait_on_buffer(bh); }] and the test of [buffer_uptodate(bh)] that
    follows. *)
Definition read_if_stale (st : cstate) (b : Z) : bool * cstate :=
  if b_uptodate (get_bh st b) then (true, st)
  else
    let '(ok, w) := ll_rw_block_read (b_blocknr (get_bh st b)) (c_world st) in
    (ok, set_uptodate (with_world st w) b ok).

(** The exits of [ext4_snapshot_test_and_cow]: the label [out], and the
    labels [test_pending_cow] and [cowed], which fall through to it. *)
Definition cow_out (err : Z) (h : handle) (st : cstate) : Z * handle * cstate :=
  (* END COWing *)
  (err, ext4_snapshot_cow_end h, st).

Definition cow_cowed (err : Z) (h : handle) (bh : option Z) (st : cstate)
    : Z * handle * cstate :=
  (* mark the buffer COWed in the current transaction *)
  cow_out err h (ext4_snapshot_mark_cowed st h bh).

(** [ext4_snapshot_test_and_cow]: the return value, the handle and the
    state afterwards. *)
Definition ext4_snapshot_test_and_cow (st : cstate) (h : handle)
    (ino : option inode) (block : Z) (bh : option Z) (cow : bool)
    : Z * handle * cstate :=
  match ext4_snapshot_has_active st with
  | None =>
    (* no active snapshot - no need to COW *)
    (0, h, st)
  | Some active_snapshot =>
    if IS_COWING h then
      (* avoid recursion on active snapshot updates *)
      (0, h, st)
    else if same_inode ino active_snapshot then
      (* active snapshot may only be modified during COW *)
      (- EPERM, h, st)
    else if ext4_snapshot_test_cowed st h bh then
      (* buffer found in COW cache - skip block cow *)
      (0, h, st)
    else
      (* BEGIN COWing *)
      let h := ext4_snapshot_cow_begin h in
      let clear := match ino with
                   | Some _ => ext4_snapshot_excluded ino
                   | None => 0
                   end in
      (* excluded file block access - don't COW *)
      let cow := if clear <? 0 then false else cow in
      (* get the COW bitmap and test if blocks are in use by snapshot *)
      let '(err, count, w) :=
        ext4_snapshot_test_cow_bitmap h active_snapshot block 1 (c_world st) in
      let st := with_world st w in
      if err <? 0 then cow_out err h st
      else if err =? 0 then cow_cowed err h bh st
      else
        (* block is in use by snapshot - check if it is mapped *)
        let '(err, blk, w) :=
          ext4_snapshot_map_blocks h active_snapshot block 1 0 SNAPMAP_READ
            (c_world st) in
        let st := with_world st w in
        if err <? 0 then cow_out err h st
        else if 0 <? err then cow_cowed 0 h bh st
        else if negb cow then
          (* block needs to be COWed; don't COW - we were just checking *)
          cow_out 1 h st
        else
          (* make sure we hold an uptodate source buffer *)
          match bh with
          | None => cow_out (- EIO) h st
          | Some b =>
            if negb (b_mapped (get_bh st b)) then cow_out (- EIO) h st
            else
              let '(uptodate, st) := read_if_stale st b in
              if negb uptodate then cow_out (- EIO) h st
              else
                (* try to allocate snapshot block to make a backup copy *)
                let '(sbh, err, w) :=
                  ext4_getblk h active_snapshot (SNAPSHOT_IBLOCK block)
                    SNAPMAP_COW (c_world st) in
                let st := with_world st w in
                match sbh with
                | None => cow_out err h st
                | Some s =>
                  if err =? 0 then
                    (* another COWing task must have allocated it *)
                    cow_cowed err h bh st
                  else
                    (* we allocated this block - copy block data to
                       snapshot and complete COW operation *)
                    let '(err, w) :=
                      ext4_snapshot_copy_buffer_cow h active_snapshot s
                        (b_blocknr (get_bh st b)) (c_world st) in
                    let st := with_world st w in
                    if negb (err =? 0) then cow_out err h st
                    else cow_cowed err h bh st
                end
          end
  end.

(** The loop [while (count)] of [ext4_snapshot_test_and_move], run for at
    most [fuel] rounds. The result tells whether the loop ran to its end
    ([true]) or left through [goto out] ([false]), with the value of [err],
    the number of blocks moved so far and the world; [None] when the rounds
    are used up. *)
Fixpoint move_loop (fuel : nat) (h : handle) (snapshot : inode)
    (blk count moved_blks : Z) (w : W) : option (bool * Z * Z * W) :=
  match fuel with
  | O => None
  | S fuel' =>
    if count =? 0 then Some (true, moved_blks, moved_blks, w)
    else
      let '(err, _, w) :=
        ext4_snapshot_map_blocks h snapshot blk count 0 SNAPMAP_MOVE w in
      if err <=? 0 then Some (false, err, moved_blks, w)
      else move_loop fuel' h snapshot (blk + err) (count - err) (moved_blks + err) w
  end.

Definition move_out (err count : Z) (h : handle) (st : cstate)
    : option (Z * Z * handle * cstate) :=
  (* END moving *)
  Some (err, count, ext4_snapshot_cow_end h, st).

(** [ext4_snapshot_test_and_move]: the return value, the value left in
    [*maxblocks], the handle and the state. [None] is the kernel BUG of the
    [BUG_ON], or a loop that has not stopped after [count] rounds; the loop
    stops within them when [ext4_map_blocks] maps no more blocks than it is
    asked for. *)
Definition ext4_snapshot_test_and_move (st : cstate) (h : handle)
    (ino : option inode) (block maxblocks : Z) (move : bool)
    : option (Z * Z * handle * cstate) :=
  match ext4_snapshot_has_active st with
  | None =>
    (* no active snapshot - no need to move *)
    Some (0, maxblocks, h, st)
  | Some active_snapshot =>
    if IS_COWING h || same_inode ino active_snapshot then None
    else
      (* BEGIN moving *)
      let h := ext4_snapshot_cow_begin h in
      let excluded := match ino with
                      | Some _ => ext4_snapshot_excluded ino
                      | None => 0
                      end in
      (* don't move excluded file block to snapshot *)
      let move := if negb (excluded =? 0) then false else move in
      (* get the COW bitmap and test if blocks are in use by snapshot *)
      let '(err, count, w) :=
        ext4_snapshot_test_cow_bitmap h active_snapshot block maxblocks
          (c_world st) in
      let st := with_world st w in
      if err <? 0 then move_out err count h st
      else if err =? 0 then
        (* block not in COW bitmap - no need to move *)
        move_out err count h st
      else if CONFIG_EXT4_DEBUG ccfg
              && match ino with None => true | Some _ => false end
              && negb (snapshot_unrm ccfg active_snapshot) then
        (* ext4_group_extend() "freeing" the blocks added to the group *)
        move_out 0 count h st
      else
        (* count blocks are in use by snapshot - check if @block is mapped *)
        let '(err, blk, w) :=
          ext4_snapshot_map_blocks h active_snapshot block count 0 SNAPMAP_READ
            (c_world st) in
        let st := with_world st w in
        if err <? 0 then move_out err count h st
        else if 0 <? err then
          (* blocks already mapped in snapshot - no need to move *)
          move_out 0 err h st
        else if negb move then
          (* @count blocks need to be moved; we were just checking *)
          move_out count count h st
        else
          (* try to move @count blocks from inode to snapshot *)
          match move_loop (S (Z.to_nat count)) h active_snapshot block count 0
                  (c_world st) with
          | None => None
          | Some (completed, err, moved_blks, w) =>
            let st := with_world st w in
            if negb completed then
              move_out err (count - moved_blks) h st
            else
              (* User should no longer be charged for these blocks.
                 Snapshot file owner was charged for these blocks when
                 they were mapped to snapshot file. *)
              let st :=
                match ino with
                | Some i => with_world st (dquot_free_block i moved_blks (c_world st))
                | None => st
                end in
              move_out moved_blks moved_blks h st
          end
  end.

(** *** Block access hooks ([snapshot.h]) *)

Definition ext4_snapshot_cow := ext4_snapshot_test_and_cow.
Definition ext4_snapshot_move := ext4_snapshot_test_and_move.

Definition EXT4_SNAPSHOTS (st : cstate) : bool := c_has_snapshot st.

Definition ext4_snapshot_get_write_access (st : cstate) (h : handle)
    (ino : option inode) (bh : Z) : Z * handle * cstate :=
  if negb (EXT4_SNAPSHOTS st) then (0, h, st)
  else ext4_snapshot_cow st h ino (b_blocknr (get_bh st bh)) (Some bh) true.

Definition ext4_snapshot_get_create_access (st : cstate) (h : handle) (bh : Z)
    : Z * handle * cstate :=
  if negb (EXT4_SNAPSHOTS st) then (0, h, st)
  else
    (* Should block be COWed? *)
    let '(err, h, st) :=
      ext4_snapshot_cow st h None (b_blocknr (get_bh st bh)) (Some bh) false in
    (* a new block shouldn't need to be COWed *)
    let err := if 0 <? err then - EIO else err in
    (err, h, st).

Definition ext4_snapshot_get_move_access (st : cstate) (h : handle)
    (ino : inode) (block pcount : Z) (move : bool)
    : option (Z * Z * handle * cstate) :=
  if negb (EXT4_SNAPSHOTS st) then Some (0, pcount, h, st)
  else ext4_snapshot_move st h (Some ino) block pcount move.

Definition ext4_snapshot_get_delete_access (st : cstate) (h : handle)
    (ino : option inode) (block pcount : Z)
    : option (Z * Z * handle * cstate) :=
  if negb (EXT4_SNAPSHOTS st) then Some (0, pcount, h, st)
  else ext4_snapshot_move st h ino block pcount true.

End Engine.

Arguments Build_cstate {W}.
Arguments c_world {W}.
Arguments c_bufs {W}.
Arguments c_active_snapshot {W}.
Arguments c_has_snapshot {W}.
Arguments with_world {W}.
Arguments with_bufs {W}.
Arguments get_bh {W}.
Arguments set_uptodate {W}.
Arguments read_if_stale {W B}.
Arguments ext4_snapshot_has_active {W}.
Arguments EXT4_SNAPSHOTS {W}.
Arguments ext4_snapshot_map_blocks {W B}.
Arguments ext4_snapshot_complete_cow {W B}.
Arguments ext4_snapshot_copy_buffer_cow {W B}.
Arguments ext4_snapshot_test_cow_bitmap ccfg {W B}.
Arguments ext4_snapshot_test_cowed ccfg {W}.
Arguments ext4_snapshot_mark_cowed ccfg {W}.
Arguments cow_out {W}.
Arguments cow_cowed ccfg {W}.
Arguments ext4_snapshot_test_and_cow ccfg {W B}.
Arguments move_loop {W B}.
Arguments move_out {W}.
Arguments ext4_snapshot_test_and_move ccfg {W B}.
Arguments ext4_snapshot_cow ccfg {W B}.
Arguments ext4_snapshot_move ccfg {W B}.
Arguments ext4_snapshot_get_write_access ccfg {W B}.
Arguments ext4_snapshot_get_create_access ccfg {W B}.
Arguments ext4_snapshot_get_move_access ccfg {W B}.
Arguments ext4_snapshot_get_delete_access ccfg {W B}.

End CowEngine.
Export CowEngine.

(** ** The mapping primitive: [next3_get_branch] and the lookup, allocate
       and splice path of [next3_get_blocks_handle] *)

Module MapBlocks.

(** The loop [while (--depth)] of [next3_get_branch]: [k] is the index of
    the triple to fill and [key] the block number found in the previous
    one. [sb_bread] fails for a block that has no buffer. The result is the
    chain filled so far, the index of the last triple when the walk stopped
    early (the returned pointer; [None] for NULL) and [*err]. As a single
    task runs, [verify_chain] never fails. *)
Fixpoint get_branch_loop (steps : nat) (bufs : gmap Z (list Z)) (offs : list Z)
    (k : Z) (chain : list Indirect) (key : Z) : list Indirect * option Z * Z :=
  match steps with
  | O => (chain, None, 0)
  | S steps' =>
    match bufs !! key with
    | None => (chain, Some (k - 1), - EIO)
    | Some data =>
      let t := {| ind_p := entry offs k;
                  ind_key := read_slot data (entry offs k);
                  ind_bh := Some key |} in
      if ind_key t =? 0 then (chain ++ [t], Some k, 0)
      else get_branch_loop steps' bufs offs (k + 1) (chain ++ [t]) (ind_key t)
    end
  end.

Definition next3_get_branch (ino : inode) (bufs : gmap Z (list Z))
    (depth : Z) (offs : list Z) : list Indirect * option Z * Z :=
  (* i_data is not going away, no lock needed *)
  let c0 := {| ind_p := entry offs 0;
               ind_key := read_slot (i_data ino) (entry offs 0);
               ind_bh := None |} in
  if ind_key c0 =? 0 then ([c0], Some 0, 0)
  else get_branch_loop (Z.to_nat (depth - 1)) bufs offs 1 [c0] (ind_key c0).

(** The loop that maps more blocks after the first one was found:
    [while (count < maxblocks && count <= blocks_to_boundary)]. *)
Fixpoint mapped_run (fuel : nat) (l : list Z) (p first_block maxblocks
    blocks_to_boundary count : Z) : Z :=
  match fuel with
  | O => count
  | S fuel' =>
    if (count <? maxblocks) && (count <=? blocks_to_boundary)
       && (read_slot l (p + count) =? first_block + count)
    then mapped_run fuel' l p first_block maxblocks blocks_to_boundary (count + 1)
    else count
  end.

Section GetBlocks.
Variable cfg : config.
Variable sb : super_block.
Variable new_blocks_oracle : list event -> Z -> Z -> Z -> Z * Z * Z.
Variable jbd : list event -> event -> Z.
Variable next3_group_first_block_no : super_block -> Z -> Z.
Variable pid : Z.
(** [next3_init_block_alloc_info] of the missing [balloc.c]: what it leaves
    in [ei->i_block_alloc_info] (NULL when it cannot allocate). *)
Variable next3_init_block_alloc_info : inode -> option block_alloc_info.

(** [next3_get_blocks_handle] for a caller that passes a plain
    [bh_result]: the lookup, and for [create != 0] the allocation and the
    splice of the missing branch. The result is the return value, the block
    mapped into [bh_result], whether it is new, and the state. Not modelled:
    the read-through of snapshot files and its tracked reads, the
    move-on-write of the file's own data blocks, the marking of pending
    COWs, and the retry after a chain changed under a concurrent task. *)
Definition next3_get_blocks_handle (iblock maxblocks create : Z) (st : mstate)
    : Z * Z * bool * mstate :=
  let ino := m_inode st in
  let pth := next3_block_to_path cfg sb ino iblock in
  if depth pth =? 0 then (- EIO, 0, false, st)
  else
    let '(chain, partial, err) :=
      next3_get_branch ino (m_bufs st) (depth pth) (offsets pth) in
    match partial with
    | None =>
      (* Simplest case - block found, no allocation needed *)
      let last := chain_at chain (depth pth - 1) in
      let first_block := ind_key last in
      let count :=
        mapped_run (Z.to_nat (boundary pth))
          (holder_data ino (m_bufs st) (ind_bh last)) (ind_p last)
          first_block maxblocks (boundary pth) 1 in
      (count, first_block, false, st)
    | Some k =>
      (* Next simple case - plain lookup or failed read of indirect block *)
      if (create =? 0) || (err =? - EIO) then (err, 0, false, st)
      else
        (* Okay, we need to do block allocation. Lazily initialize the
           block allocation info here if necessary *)
        let st :=
          if S_ISREG (i_mode ino)
             && match i_block_alloc_info ino with None => true | Some _ => false end
          then set_alloc_info_st (next3_init_block_alloc_info ino) st
          else st in
        let ino := m_inode st in
        let partial := chain_at chain k in
        let goal :=
          next3_find_goal cfg sb next3_group_first_block_no pid ino (m_bufs st)
            iblock partial in
        (* the number of blocks need to allocate for [d,t]indirect blocks *)
        let indirect_blks := depth pth - k - 1 in
        let count :=
          next3_blks_to_allocate ino (m_bufs st) partial indirect_blks
            maxblocks (boundary pth) in
        let '(err, count, branch, st) :=
          next3_alloc_branch_cow cfg sb new_blocks_oracle jbd iblock indirect_blks
            count goal (drop (Z.to_nat k) (offsets pth)) partial create st in
        if negb (err =? 0) then (err, 0, false, st)
        else
          let '(err, st) :=
            next3_splice_branch_cow cfg jbd iblock branch indirect_blks count
              create st in
          if negb (err =? 0) then (err, 0, false, st)
          else (count, ind_key (chain_at branch indirect_blks), true, st)
    end.

(** [next3_getblk] as the COW engine uses it: the buffer, [*errp] and the
    state; a new block of a COW mapping is returned locked with
    [*errp = 1]. (For a new block of another mapping the source goes on to
    journal the buffer; that path is not modelled.) *)
Definition next3_getblk (block create : Z) (st : mstate) : option Z * Z * mstate :=
  let '(err, blocknr, new, st) := next3_get_blocks_handle block 1 create st in
  let err := if 0 <? err then 0 else err in
  if (err =? 0) && negb (blocknr =? 0) then
    if new && SNAPMAP_ISCOW create then (Some blocknr, 1, st)
    else (Some blocknr, err, st)
  else (None, err, st).

End GetBlocks.

End MapBlocks.
Export MapBlocks.

(** ** Reading the call log *)

(** The blocks the allocator granted, the blocks given back to it, and the
    buffers the journal was asked to create or to forget, in call order. *)
Definition granted_blocks (log : list event) : list Z :=
  flat_map (fun ev => match ev with
                      | EvNewBlocks _ _ first count => seqZ first count
                      | _ => []
                      end) log.

Definition freed_blocks (log : list event) : list Z :=
  flat_map (fun ev => match ev with
                      | EvFreeBlocks _ b n => seqZ b n
                      | _ => []
                      end) log.

Definition created_buffers (log : list event) : list Z :=
  flat_map (fun ev => match ev with
                      | EvGetCreateAccess b => [b]
                      | _ => []
                      end) log.

Definition forgotten_buffers (log : list event) : list (option Z) :=
  flat_map (fun ev => match ev with
                      | EvJournalForget bh => [bh]
                      | _ => []
                      end) log.

(** What a failed allocation or splice must leave behind, read off the
    calls [added] it made: every block the allocator granted has been given
    back, the quota of the inode is what it was, every buffer handed to the
    journal has been forgotten, and neither the inode nor any buffer other
    than those of the granted blocks has been written. *)
Definition cleaned_up (ino : Z) (st st' : mstate) (added : list event) : Prop :=
  m_log st' = m_log st ++ added
  /\ freed_blocks added = granted_blocks added
  /\ quota_charged ino added = 0
  /\ (forall b, In b (created_buffers added) -> In (Some b) (forgotten_buffers added))
  /\ m_inode st' = m_inode st
  /\ (forall b, ~ In b (granted_blocks added) -> m_bufs st' !! b = m_bufs st !! b).

(** A call that touches neither the quota nor a journal buffer. *)
Definition allocator_call (ev : event) : bool :=
  match ev with
  | EvNewBlocks _ _ _ _ | EvFreeBlocks _ _ _ => true
  | _ => false
  end.

(** ** Sample data: a file system with 1 KiB blocks *)

Module Samples.

Definition sb1k : super_block := {| s_blocksize_bits := 10; s_blocks_per_group := 8192 |}.

Definition cfg_all : config :=
  {| cfg_file_huge := true; cfg_file_goal := true; cfg_file_perm := true;
     cfg_block_move := true; cfg_journal_bypass := true;
     cfg_bits_per_long := 64;
     NEXT3_SNAPSHOT_NTIND_BLOCKS := 4; NEXT3_MAX_TRANS_DATA := 64;
     NEXT3_DATA_TRANS_BLOCKS := fun _ => 11 |}.

(** A regular file (mode 0100644) with an empty block tree. *)
Definition plain_file : inode :=
  {| i_ino := 20; i_mode := 33188; i_flags := 0; i_nlink := 1; i_size := 0;
     i_disksize := 0; i_blocks := 0; i_file_acl := 0; i_block_group := 0;
     i_data := replicate 15 0; i_block_alloc_info := None;
     i_snapfile := false; i_snaplist := false |}.

Definition with_mode_flags (ino : inode) (mode flags : Z) : inode :=
  {| i_ino := i_ino ino; i_mode := mode; i_flags := flags;
     i_nlink := i_nlink ino; i_size := i_size ino; i_disksize := i_disksize ino;
     i_blocks := i_blocks ino; i_file_acl := i_file_acl ino;
     i_block_group := i_block_group ino; i_data := i_data ino;
     i_block_alloc_info := i_block_alloc_info ino;
     i_snapfile := i_snapfile ino; i_snaplist := i_snaplist ino |}.

Definition with_blocks (ino : inode) (blocks : Z) : inode :=
  {| i_ino := i_ino ino; i_mode := i_mode ino; i_flags := i_flags ino;
     i_nlink := i_nlink ino; i_size := i_size ino; i_disksize := i_disksize ino;
     i_blocks := blocks; i_file_acl := i_file_acl ino;
     i_block_group := i_block_group ino; i_data := i_data ino;
     i_block_alloc_info := i_block_alloc_info ino;
     i_snapfile := i_snapfile ino; i_snaplist := i_snaplist ino |}.

Definition group_first_block (sb : super_block) (g : Z) : Z :=
  g * s_blocks_per_group sb + 1.

End Samples.
Export Samples.

(** ** A small world for the COW engine

    The snapshot file is a next3 file whose tree is mapped with
    [next3_get_blocks_handle]; the allocator hands out blocks from 2000 on
    until its pool is used up; the journal never fails; all calls,
    including the quota calls, go to one log. *)

Module Sim.

Record world := {
  sw_fs : mstate;              (* the snapshot file and the call log *)
  sw_cow_bits : list Z;        (* the bits set in the COW bitmap *)
  sw_pool : Z;                 (* blocks the allocator can grant *)
  sw_copies : list (Z * Z);    (* (snapshot block, source block) copied *)
}.

Definition with_fs (w : world) (fs : mstate) : world :=
  {| sw_fs := fs; sw_cow_bits := sw_cow_bits w; sw_pool := sw_pool w;
     sw_copies := sw_copies w |}.

Definition new_blocks (pool : Z) (log : list event) (ino goal count : Z) : Z * Z * Z :=
  let used := Z.of_nat (length (granted_blocks log)) in
  if pool <=? used then (- ENOSPC, 0, 0)
  else (0, 2000 + used, Z.min count (pool - used)).

Definition journal_ok (log : list event) (ev : event) : Z := 0.

(** A fresh block allocation info remembers no block. *)
Definition init_block_alloc_info (ino : inode) : option block_alloc_info :=
  Some {| last_alloc_logical_block := 0; last_alloc_physical_block := 0 |}.

Definition get_blocks (w : world) (iblock maxblocks create : Z) : Z * Z * bool * mstate :=
  next3_get_blocks_handle cfg_all sb1k (new_blocks (sw_pool w)) journal_ok
    group_first_block 7 init_block_alloc_info iblock maxblocks create (sw_fs w).

Definition map_blocks (h : handle) (ino : inode) (lblk len flags : Z) (w : world)
    : Z * Z * world :=
  let '(ret, pblk, _, fs) := get_blocks w lblk len flags in
  (ret, pblk, with_fs w fs).

Definition getblk (h : handle) (ino : inode) (iblock cmd : Z) (w : world)
    : option Z * Z * world :=
  let '(sbh, err, fs) :=
    next3_getblk cfg_all sb1k (new_blocks (sw_pool w)) journal_ok
      group_first_block 7 init_block_alloc_info iblock cmd (sw_fs w) in
  (sbh, err, with_fs w fs).

Definition bit_set (bits : list Z) (bit : Z) : bool := bool_decide (bit ∈ bits).

(** The number of bits from [bit] on, [maxblocks] at most, that agree with
    the first one. *)
Fixpoint same_bits (fuel : nat) (bits : list Z) (bit i maxblocks : Z) : Z :=
  match fuel with
  | O => i
  | S fuel' =>
    if (i <? maxblocks) && eqb (bit_set bits (bit + i)) (bit_set bits bit)
    then same_bits fuel' bits bit (i + 1) maxblocks
    else i
  end.

Definition test_bit_range (bit : Z) (bits : list Z) (maxblocks : Z) : Z * Z :=
  (if bit_set bits bit then 1 else 0,
   same_bits (Z.to_nat maxblocks) bits bit 1 maxblocks).

Definition dquot_free (ino : inode) (n : Z) (w : world) : world :=
  with_fs w (log_event (EvDquotFree (i_ino ino) n) (sw_fs w)).

Definition copy (sbh bh : Z) (w : world) : world :=
  {| sw_fs := sw_fs w; sw_cow_bits := sw_cow_bits w; sw_pool := sw_pool w;
     sw_copies := sw_copies w ++ [(sbh, bh)] |}.

Definition svc : services world (list Z) :=
  {| svc_read_cow_bitmap := fun _ _ _ w => (Some (sw_cow_bits w), w);
     svc_test_bit_range := test_bit_range;
     svc_map_blocks := map_blocks;
     svc_getblk := getblk;
     svc_file_inode := fun _ _ w => (0, w);
     svc_read_block := fun _ w => (true, w);
     svc_copy_buffer := copy;
     svc_mark_dirty := fun _ w => w;
     svc_sync_dirty := fun _ w => w;
     svc_dquot_free := dquot_free |}.

Definition ccfg : cow_config :=
  {| PAGE_SHIFT := 10; CONFIG_EXT4_DEBUG := false; cow_cache_var := true;
     snapshot_unrm := fun _ => false |}.

(** The active snapshot: inode 30, taken of a file system of 8192 blocks.
    Its DIND slot points to block 1000, whose first slot points to the
    indirect block 1001; nothing is mapped through it yet. *)
Definition snapshot_inode : inode :=
  {| i_ino := 30; i_mode := 33188; i_flags := 0; i_nlink := 1; i_size := 0;
     i_disksize := (8192 + 12 + 256) * 1024; i_blocks := 0; i_file_acl := 0;
     i_block_group := 0;
     i_data := <[13%nat := 1000]> (replicate 15 0);
     i_block_alloc_info := None;
     i_snapfile := true; i_snaplist := true |}.

Definition snapshot_fs : mstate :=
  {| m_inode := snapshot_inode;
     m_bufs := {[ 1000 := <[0%nat := 1001]> (replicate 256 0);
                  1001 := replicate 256 0 ]};
     m_log := [] |}.

(** An older snapshot file, not the active one. *)
Definition old_snapshot : inode :=
  {| i_ino := 31; i_mode := 33188; i_flags := 0; i_nlink := 1; i_size := 0;
     i_disksize := 0; i_blocks := 0; i_file_acl := 0; i_block_group := 0;
     i_data := replicate 15 0; i_block_alloc_info := None;
     i_snapfile := true; i_snaplist := true |}.

Definition world0 (bits : list Z) (pool : Z) : world :=
  {| sw_fs := snapshot_fs; sw_cow_bits := bits; sw_pool := pool; sw_copies := [] |}.

(** A metadata buffer of block [blk], attached to the journal, last COWed
    in transaction [tid]. *)
Definition journalled (blk tid : Z) : buffer_head :=
  {| b_blocknr := blk; b_jbd := true; b_mapped := true; b_uptodate := true;
     b_jh := Some {| b_cow_tid := tid |} |}.

Definition state0 (bits : list Z) (pool : Z) (bufs : gmap Z buffer_head) : cstate world :=
  {| c_world := world0 bits pool; c_bufs := bufs;
     c_active_snapshot := Some snapshot_inode; c_has_snapshot := true |}.

Definition handle0 (tid : Z) : handle :=
  {| h_cowing := false; h_tid := tid; h_buffer_credits := 8; h_user_credits := 8 |}.

End Sim.

(** What the spec's sentence on [boundary] counts, in its own words: the
    leaf slots of the deepest holder from the mapped position on. The
    deepest holder is the inode's direct slots at depth 1 and an indirect
    block otherwise. *)
Definition leaf_slots (sb : super_block) (pth : path) : Z :=
  if depth pth =? 1 then NEXT3_NDIR_BLOCKS else NEXT3_ADDR_PER_BLOCK sb.

Definition slots_from_position (sb : super_block) (pth : path) : Z :=
  leaf_slots sb pth - List.last (offsets pth) 0.

(** The block number is a value of the type of the parameter [i_block] of
    [next3_block_to_path]. *)
Definition is_i_block (cfg : config) (i : Z) : Prop :=
  if cfg_file_huge cfg then 0 <= i < 2 ^ 32
  else - 2 ^ (cfg_bits_per_long cfg - 1) <= i < 2 ^ (cfg_bits_per_long cfg - 1).

(** The number of logical blocks the tree of an inode can map. *)
Definition tree_capacity (cfg : config) (sb : super_block) (ino : inode) : Z :=
  let p := NEXT3_ADDR_PER_BLOCK sb in
  NEXT3_NDIR_BLOCKS + p + p * p
  + (if cfg_file_huge cfg && next3_snapshot_file ino
     then Z.max 1 (NEXT3_SNAPSHOT_NTIND_BLOCKS cfg) else 1) * (p * p * p).

(** ** Statements about the collaborators of the engine *)

(** What the engine may rely on: [ext4_getblk] returns no buffer only with
    an error (or zero) in [*errp], never with the 1 that flags a new
    buffer, and [ext4_jbd2_file_inode] returns zero or a negative error. *)
Definition well_behaved {W B : Type} (svc : services W B) : Prop :=
  (forall h ino blk cmd w,
      fst (fst (svc_getblk svc h ino blk cmd w)) = None ->
      snd (fst (svc_getblk svc h ino blk cmd w)) <= 0)
  /\ (forall h ino w, fst (svc_file_inode svc h ino w) <= 0).

(** [ext4_map_blocks] maps no more blocks than the [m_len] it is asked
    for. *)
Definition maps_at_most {W B : Type} (svc : services W B) : Prop :=
  forall h ino lblk len flags w,
    fst (fst (svc_map_blocks svc h ino lblk len flags w)) <= len.

(** The collaborators cut down to what they do for a handle that is
    marked as cowing: called with any other handle, those that take a
    handle fail with an I/O error and leave the world alone. *)
Definition only_cowing {W B : Type} (svc : services W B) : services W B :=
  {| svc_read_cow_bitmap := fun h ino g w =>
       if h_cowing h then svc_read_cow_bitmap svc h ino g w else (None, w);
     svc_test_bit_range := svc_test_bit_range svc;
     svc_map_blocks := fun h ino lblk len flags w =>
       if h_cowing h then svc_map_blocks svc h ino lblk len flags w
       else (- EIO, 0, w);
     svc_getblk := fun h ino blk cmd w =>
       if h_cowing h then svc_getblk svc h ino blk cmd w else (None, - EIO, w);
     svc_file_inode := fun h ino w =>
       if h_cowing h then svc_file_inode svc h ino w else (- EIO, w);
     svc_read_block := svc_read_block svc;
     svc_copy_buffer := svc_copy_buffer svc;
     svc_mark_dirty := svc_mark_dirty svc;
     svc_sync_dirty := svc_sync_dirty svc;
     svc_dquot_free := svc_dquot_free svc |}.

(** The two lookups [ext4_snapshot_test_and_cow] makes once it has begun:
    is the block in use by the snapshot (its bit is set in the COW bitmap),
    and is it mapped in the snapshot file? Both are what the collaborators
    answer for the cowing handle, the second one in the world the first one
    leaves. *)
Definition in_use_answer {W B : Type} (ccfg : cow_config) (svc : services W B)
    (st : cstate W) (h : handle) (snapshot : inode) (block : Z) : Z :=
  fst (fst (ext4_snapshot_test_cow_bitmap ccfg svc (ext4_snapshot_cow_begin h)
              snapshot block 1 (c_world st))).

Definition mapped_answer {W B : Type} (ccfg : cow_config) (svc : services W B)
    (st : cstate W) (h : handle) (snapshot : inode) (block : Z) : Z :=
  let w := snd (ext4_snapshot_test_cow_bitmap ccfg svc (ext4_snapshot_cow_begin h)
                  snapshot block 1 (c_world st)) in
  fst (fst (ext4_snapshot_map_blocks svc (ext4_snapshot_cow_begin h)
              snapshot block 1 0 SNAPMAP_READ w)).

(** What [ext4_getblk] answers when [ext4_snapshot_test_and_cow] asks it
    for the snapshot block of the copy: the buffer and [*errp], in the world
    left by the two lookups and the read of the source buffer [b]. *)
Definition getblk_answer {W B : Type} (ccfg : cow_config) (svc : services W B)
    (st : cstate W) (h : handle) (snapshot : inode) (block : Z) (b : Z)
    : option Z * Z :=
  let h := ext4_snapshot_cow_begin h in
  let '(_, _, w) :=
    ext4_snapshot_test_cow_bitmap ccfg svc h snapshot block 1 (c_world st) in
  let '(_, _, w) :=
    ext4_snapshot_map_blocks svc h snapshot block 1 0 SNAPMAP_READ w in
  let '(_, st) := read_if_stale svc (with_world st w) b in
  fst (svc_getblk svc h snapshot (SNAPSHOT_IBLOCK block) SNAPMAP_COW (c_world st)).

(** A buffer attached to the journal whose journal head is tagged with the
    transaction of [h]. *)
Definition tagged {W : Type} (st : cstate W) (b : Z) (h : handle) : Prop :=
  b_jbd (get_bh st b) = true
  /\ exists jh, b_jh (get_bh st b) = Some jh /\ b_cow_tid jh = h_tid h.

(** ** Statements and sample data used by the properties *)


(** The sequential-allocation heuristic applies: the inode remembers the
    previous logical block together with a non-zero physical block. *)
Definition remembers_previous (ino : inode) (iblock : Z) : Prop :=
  exists bi, i_block_alloc_info ino = Some bi
             /\ last_alloc_logical_block bi = iblock - 1
             /\ last_alloc_physical_block bi <> 0.

Definition file_with_history (logical physical : Z) (slots : list Z) : inode :=
  set_block_alloc_info (set_i_data plain_file slots)
    (Some {| last_alloc_logical_block := logical;
             last_alloc_physical_block := physical |}).

(** What a run of the allocation loop has done when it returns. *)
Definition alloc_loop_post (ino indirect_blks blks : Z) (nb : list Z) (log : list event)
    (r : Z * Z * list Z * list event) : Prop :=
  let '(err, ret, nb', log') := r in
  exists added G,
    log' = log ++ added
    /\ forallb allocator_call added = true
    /\ ((err <> 0 /\ ret = 0 /\ nb' = nb ++ G
         /\ granted_blocks added = G /\ freed_blocks added = nb')
        \/ (err = 0 /\ 0 < ret <= blks /\ freed_blocks added = []
            /\ exists cur, nb' = nb ++ G ++ [cur]
                           /\ Z.of_nat (length (nb ++ G)) = indirect_blks
                           /\ granted_blocks added = G ++ seqZ cur ret)
        \/ (err = 0 /\ ret = 0 /\ blks = 0 /\ freed_blocks added = []
            /\ nb' = nb ++ G
            /\ Z.of_nat (length nb') = indirect_blks
            /\ granted_blocks added = G)).

(** What the linking loop has done when it stops: [n0] is the step it
    started at and [r] its result. *)
Definition link_loop_post (cfg : config) (indirect_blks n0 : Z) (new_blocks : list Z)
    (branch : list Indirect) (st : mstate) (cmd : Z)
    (r : Z * Z * list Indirect * mstate) : Prop :=
  let '(err, n, branch', st') := r in
  exists added,
    m_log st' = m_log st ++ added
    /\ m_inode st' = m_inode st
    /\ granted_blocks added = [] /\ freed_blocks added = []
    /\ (forall i, quota_charged i added = 0)
    /\ forgotten_buffers added = []
    /\ (forall b, (forall i, n0 <= i <= indirect_blks -> b <> entry new_blocks (i - 1)) ->
                  m_bufs st' !! b = m_bufs st !! b)
    /\ (err <> 0 ->
        bypass cfg cmd = false
        /\ n0 <= n <= indirect_blks
        /\ (forall b, In b (created_buffers added) ->
                      exists i, n0 <= i <= n /\ b = entry new_blocks (i - 1))
        /\ (forall i, n0 <= i <= n ->
                      ind_bh (chain_at branch' i) = Some (entry new_blocks (i - 1)))).

(** The calls made at the label [err_out] of the splice. *)
Definition splice_cleanup (cfg : config) (ino cmd num blks : Z) (where_ : list Indirect) : list event :=
  flat_map
    (fun i =>
       (if bypass cfg cmd then []
        else [EvJournalForget (ind_bh (chain_at where_ i))])
       ++ [EvFreeBlocks ino (ind_key (chain_at where_ (i - 1))) 1])
    (seqZ 1 num)
  ++ [if moving cfg cmd then EvDquotFree ino blks
      else EvFreeBlocks ino (ind_key (chain_at where_ num)) blks].

(** The calls a function added to the log. *)
Definition calls_added (st st' : mstate) : list event :=
  drop (length (m_log st)) (m_log st').

(** A file whose IND slot (slot 12) is still empty, and a journal that
    refuses to dirty block 2001. *)
Definition grant_from_2000 (log : list event) (ino goal count : Z) : Z * Z * Z :=
  (0, 2000, count).

Definition fail_dirty_2001 (log : list event) (ev : event) : Z :=
  match ev with
  | EvDirtyMetadata 2001 => - EIO
  | _ => 0
  end.

Definition fail_write_access (log : list event) (ev : event) : Z :=
  match ev with
  | EvGetWriteAccess _ => - EROFS
  | _ => 0
  end.

Definition fail_dirty (log : list event) (ev : event) : Z :=
  match ev with
  | EvDirtyMetadata _ => - EROFS
  | _ => 0
  end.

Definition fresh_state : mstate :=
  {| m_inode := plain_file; m_bufs := ∅; m_log := [] |}.

(** A parent indirect block 50 with an empty slot 3, and a new branch made
    of the indirect block 60 and the data block 61. *)
Definition parent_state : mstate :=
  {| m_inode := set_i_data plain_file (<[12%nat := 50]> (replicate 15 0));
     m_bufs := {[ 50 := replicate 256 0; 60 := <[0%nat := 61]> (replicate 256 0) ]};
     m_log := [] |}.

Definition new_branch : list Indirect :=
  [ {| ind_p := 3; ind_key := 60; ind_bh := Some 50 |};
    {| ind_p := 0; ind_key := 61; ind_bh := Some 60 |} ].

(** ** Further code of the modelled files *)

(** [verify_chain(from, to)] of [fs/next3/inode.c]:
    [while (from <= to && from->key == *from->p) from++; return (from > to);]
    with the triples named by their index in the chain. *)
Fixpoint verify_chain_loop (fuel : nat) (ino : inode) (bufs : gmap Z (list Z))
    (chain : list Indirect) (from to : Z) : bool :=
  match fuel with
  | O => to <? from
  | S fuel' =>
    let t := chain_at chain from in
    if (from <=? to)
       && (ind_key t =? read_slot (holder_data ino bufs (ind_bh t)) (ind_p t))
    then verify_chain_loop fuel' ino bufs chain (from + 1) to
    else to <? from
  end.

Definition verify_chain (ino : inode) (bufs : gmap Z (list Z))
    (chain : list Indirect) (from to : Z) : bool :=
  verify_chain_loop (Z.to_nat (to - from + 1)) ino bufs chain from to.

(** A chain as [next3_get_branch] describes it: the triple [i] sits at
    offset [offs[i]] of its holder and carries the number stored there; the
    first holder is the inode, and each further one is the block the
    previous triple names. *)
Definition linked (ino : inode) (bufs : gmap Z (list Z)) (offs : list Z)
    (chain : list Indirect) : Prop :=
  forall i, 0 <= i < Z.of_nat (length chain) ->
    let t := chain_at chain i in
    ind_p t = entry offs i
    /\ ind_key t = read_slot (holder_data ino bufs (ind_bh t)) (ind_p t)
    /\ ind_bh t = (if i =? 0 then None else Some (ind_key (chain_at chain (i - 1)))).

(** A new indirect block as [next3_alloc_branch_cow] leaves it: it has
    [addr_per_block] slots, all zero except [cnt] of them from [off] on,
    which hold [key], [key + 1], ... *)
Definition holds_only_run (sb : super_block) (data : list Z) (off key cnt : Z) : Prop :=
  length data = Z.to_nat (NEXT3_ADDR_PER_BLOCK sb)
  /\ forall j, read_slot data j
               = if (off <=? j) && (j <? off + cnt) then key + (j - off) else 0.

(** The collaborators cut down to what a lookup needs: testing bits of a
    COW bitmap and looking a block up in the snapshot file. Whatever
    changes the snapshot file, a buffer or the quota fails or does
    nothing. *)
Definition testing_only {W B : Type} (svc : services W B) : services W B :=
  {| svc_read_cow_bitmap := fun h ino g w => (None, w);
     svc_test_bit_range := svc_test_bit_range svc;
     svc_map_blocks := fun h ino lblk len flags w =>
       if flags =? SNAPMAP_READ then svc_map_blocks svc h ino lblk len flags w
       else (- EIO, 0, w);
     svc_getblk := fun h ino blk cmd w => (None, - EIO, w);
     svc_file_inode := fun h ino w => (- EIO, w);
     svc_read_block := fun b w => (false, w);
     svc_copy_buffer := fun sbh bh w => w;
     svc_mark_dirty := fun b w => w;
     svc_sync_dirty := fun b w => w;
     svc_dquot_free := fun ino n w => w |}.

(** [snapshot.h]: the size of the snapshot image is recorded in
    [i_disksize], behind the bytes of the blocks the image does not use. *)

Definition SNAPSHOT_ISIZE (ccfg : cow_config) (size : Z) : Z :=
  wrap_loff (size + SNAPSHOT_BYTES_OFFSET ccfg).

Definition SNAPSHOT_SET_SIZE (ccfg : cow_config) (ino : inode) (size : Z) : inode :=
  set_disksize ino (SNAPSHOT_ISIZE ccfg size).

Definition SNAPSHOT_SET_BLOCKS (ccfg : cow_config) (ino : inode) (blocks : Z) : inode :=
  SNAPSHOT_SET_SIZE ccfg ino
    (wrap_loff (Z.shiftl blocks (SNAPSHOT_BLOCK_SIZE_BITS ccfg))).

(** [next3_inode_blocks] and [next3_inode_blocks_set] of
    [fs/next3/inode.c] (configured with FILE_HUGE): the block count of an
    inode, in units of 512 bytes, and its two on-disk fields. The flag
    [NEXT3_HUGE_FILE_FL] of [ei->i_flags] tells that the fields count file
    system blocks instead. *)
Definition EFBIG : Z := 27.

Record blocks_fields := {
  i_blocks_lo : Z;        (* __le32 raw_inode->i_blocks_lo *)
  i_blocks_high : Z;      (* __le16 raw_inode->i_blocks_high *)
  huge_file_fl : bool;    (* ei->i_flags & NEXT3_HUGE_FILE_FL *)
}.

Definition next3_inode_blocks (i_blkbits : Z) (ino : inode) (raw : blocks_fields) : Z :=
  if next3_snapshot_file ino then
    (* we never set i_blocks_high, but fsck may do it when it fixes i_blocks *)
    let blocks := Z.lor (Z.shiftl (i_blocks_high raw) 32) (i_blocks_lo raw) in
    if huge_file_fl raw then
      (* i_blocks represent file system block size *)
      Z.shiftl blocks (i_blkbits - 9) mod 2 ^ 64
    else blocks
  else i_blocks_lo raw.

(** The result is the return value and the fields as they are left. *)
Definition next3_inode_blocks_set (i_blkbits : Z) (ino : inode) (raw : blocks_fields)
    : Z * blocks_fields :=
  let blocks := i_blocks ino in
  if blocks <=? 2 ^ 32 - 1 then
    (* i_blocks can be represented in a 32 bit variable as multiple of
       512 bytes *)
    (0, {| i_blocks_lo := wrap32 blocks; i_blocks_high := 0; huge_file_fl := false |})
  else if negb (next3_snapshot_file ino) then
    (* only snapshot files may be represented as huge files *)
    (- EFBIG, raw)
  else
    let blocks := Z.shiftr blocks (i_blkbits - 9) in
    if blocks <=? 2 ^ 32 - 1 then
      (* i_blocks can be represented in a 32 bit variable as multiple of
         file system block size *)
      (0, {| i_blocks_lo := wrap32 blocks; i_blocks_high := 0; huge_file_fl := true |})
    else
      (* there is no sense in storing a 48 bit representation of i_blocks
         on a file system whose blocks address space is 32 bit *)
      (- EFBIG, raw).

(** The COW bitmap of a block group ([fs/ext4/snapshot.c]). A buffer head
    is named by the number of its block. Besides the collaborators of the
    engine the code calls:
    - [ext4_get_group_desc], which may find no descriptor;
    - [ext4_block_bitmap], the block of the group's block bitmap;
    - [sb_bread], which may fail to read a block;
    - [ext4_bread], returning the buffer and [*err];
    - [ext4_read_block_bitmap], which may fail;
    - the [memcpy] of the block bitmap into the COW bitmap buffer.
    [grp->bg_cow_bitmap] of every group is kept in a map; 0 stands for a
    COW bitmap that is not initialized. *)
Section CowBitmap.
Variable W : Type.
Variable B : Type.
Variable svc : services W B.
Variable ext4_get_group_desc_ok : Z -> bool.
Variable ext4_block_bitmap : Z -> Z.
Variable sb_bread_ok : Z -> W -> bool.
Variable ext4_bread : handle -> inode -> Z -> Z -> W -> option Z * Z * W.
Variable ext4_read_block_bitmap : Z -> W -> option Z.
Variable memcpy_bitmap : Z -> Z -> W -> W.

Definition bg_cow_bitmap (cache : gmap Z Z) (block_group : Z) : Z :=
  default 0 (cache !! block_group).

(** [__ext4_snapshot_copy_bitmap] as [ext4_snapshot_init_cow_bitmap] calls
    it, with [mask == NULL]. *)
Definition ext4_snapshot_init_cow_bitmap (block_group cow_bh : Z) (w : W) : Z * W :=
  match ext4_read_block_bitmap block_group w with
  | None => (- EIO, w)
  | Some bitmap_bh => (0, memcpy_bitmap cow_bh bitmap_bh w)
  end.

(** The part of [ext4_snapshot_read_cow_bitmap] that creates the COW
    bitmap: the buffer, [err] and the world at the label [out]. *)
Definition create_cow_bitmap (h : handle) (snapshot : inode)
    (block_group bitmap_blk : Z) (w : W) : option Z * Z * W :=
  (* allocate snapshot block for COW bitmap *)
  let '(cow_bh, err, w) :=
    svc_getblk svc h snapshot (SNAPSHOT_IBLOCK bitmap_blk) SNAPMAP_BITMAP w in
  match cow_bh with
  | None => (None, err, w)
  | Some b =>
    if err =? 0 then
      (* someone mapped this block before us *)
      (Some b, - EIO, w)
    else
      let '(err, w) := ext4_snapshot_init_cow_bitmap block_group b w in
      if negb (err =? 0) then (Some b, err, w)
      else
        (* complete pending COW operation *)
        let '(err, w) := ext4_snapshot_complete_cow svc h snapshot b true w in
        (Some b, err, w)
  end.

(** [ext4_snapshot_read_cow_bitmap]: the buffer (or NULL), the cache and
    the world. *)
Definition ext4_snapshot_read_cow_bitmap (h : handle) (snapshot : inode)
    (block_group : Z) (cache : gmap Z Z) (w : W) : option Z * gmap Z Z * W :=
  if negb (ext4_get_group_desc_ok block_group) then (None, cache, w)
  else
    let bitmap_blk := ext4_block_bitmap block_group in
    let cow_bitmap_blk := bg_cow_bitmap cache block_group in
    if negb (cow_bitmap_blk =? 0) then
      ((if sb_bread_ok cow_bitmap_blk w then Some cow_bitmap_blk else None), cache, w)
    else
      (* Try to read cow bitmap block from snapshot file. If COW bitmap is
         not yet allocated, create the new COW bitmap block. *)
      let '(cow_bh, err, w) :=
        ext4_bread h snapshot (SNAPSHOT_IBLOCK bitmap_blk) SNAPMAP_READ w in
      let '(cow_bh, err, w) :=
        match cow_bh with
        | Some _ => (cow_bh, err, w)
        | None => create_cow_bitmap h snapshot block_group bitmap_blk w
        end in
      match cow_bh with
      | Some b =>
        if err =? 0 then
          (* initialized COW bitmap block: update COW bitmap cache *)
          (Some b, <[block_group := b]> cache, w)
        else
          (* uninitialized COW bitmap block: reset COW bitmap cache *)
          (None, <[block_group := 0]> cache, w)
      | None => (None, <[block_group := 0]> cache, w)
      end.

End CowBitmap.

(** [next3_set_inode_flags] and [next3_get_inode_flags] of
    [fs/next3/inode.c]: the flags of the on-disk inode, kept in
    [ei->i_flags], and the VFS flags in [inode->i_flags]. The bits are those
    of [linux/fs.h] and of the on-disk format next3 shares with ext3. *)
Definition S_SYNC : Z := 1.
Definition S_NOATIME : Z := 2.
Definition S_DIRSYNC : Z := 64.
Definition NEXT3_SYNC_FL : Z := 8.           (* 0x00000008 *)
Definition NEXT3_IMMUTABLE_FL : Z := 16.     (* 0x00000010 *)
Definition NEXT3_APPEND_FL : Z := 32.        (* 0x00000020 *)
Definition NEXT3_NOATIME_FL : Z := 128.      (* 0x00000080 *)
Definition NEXT3_DIRSYNC_FL : Z := 65536.    (* 0x00010000 *)

(** [flags & bit] as a condition. *)
Definition flag_set (flags bit : Z) : bool := negb (Z.land flags bit =? 0).

Definition set_i_flags (ino : inode) (flags : Z) : inode :=
  {| i_ino := i_ino ino; i_mode := i_mode ino; i_flags := flags;
     i_nlink := i_nlink ino; i_size := i_size ino; i_disksize := i_disksize ino;
     i_blocks := i_blocks ino; i_file_acl := i_file_acl ino;
     i_block_group := i_block_group ino; i_data := i_data ino;
     i_block_alloc_info := i_block_alloc_info ino;
     i_snapfile := i_snapfile ino; i_snaplist := i_snaplist ino |}.

(** The inode with [inode->i_flags] set from [ei->i_flags]. *)
Definition next3_set_inode_flags (ei_flags : Z) (ino : inode) : inode :=
  let flags := ei_flags in
  let f := Z.land (i_flags ino)
             (Z.lnot (Z.lor (Z.lor (Z.lor (Z.lor S_SYNC S_APPEND) S_IMMUTABLE) S_NOATIME)
                        S_DIRSYNC)) in
  let f := if flag_set flags NEXT3_SYNC_FL then Z.lor f S_SYNC else f in
  let f := if flag_set flags NEXT3_APPEND_FL then Z.lor f S_APPEND else f in
  let f := if flag_set flags NEXT3_IMMUTABLE_FL then Z.lor f S_IMMUTABLE else f in
  let f := if flag_set flags NEXT3_NOATIME_FL then Z.lor f S_NOATIME else f in
  let f := if flag_set flags NEXT3_DIRSYNC_FL then Z.lor f S_DIRSYNC else f in
  set_i_flags ino f.

(** Propagate flags from [i_flags] to [NEXT3_I(inode)->i_flags]: the new
    value of [ei->i_flags]. *)
Definition next3_get_inode_flags (ei_flags : Z) (ino : inode) : Z :=
  let flags := i_flags ino in
  let e := Z.land ei_flags
             (Z.lnot (Z.lor (Z.lor (Z.lor (Z.lor NEXT3_SYNC_FL NEXT3_APPEND_FL)
                                      NEXT3_IMMUTABLE_FL) NEXT3_NOATIME_FL)
                        NEXT3_DIRSYNC_FL)) in
  let e := if flag_set flags S_SYNC then Z.lor e NEXT3_SYNC_FL else e in
  let e := if flag_set flags S_APPEND then Z.lor e NEXT3_APPEND_FL else e in
  let e := if flag_set flags S_IMMUTABLE then Z.lor e NEXT3_IMMUTABLE_FL else e in
  let e := if flag_set flags S_NOATIME then Z.lor e NEXT3_NOATIME_FL else e in
  let e := if flag_set flags S_DIRSYNC then Z.lor e NEXT3_DIRSYNC_FL else e in
  e.

(** [all_zeroes(p, q)] of [fs/next3/inode.c]:
    [while (p < q) if ( *p++ ) return 0; return 1;] over the slots
    [p .. q - 1] of a holder. *)
Fixpoint all_zeroes_loop (n : nat) (l : list Z) (p : Z) : bool :=
  match n with
  | O => true
  | S n' => if negb (read_slot l p =? 0) then false else all_zeroes_loop n' l (p + 1)
  end.

Definition all_zeroes (l : list Z) (p q : Z) : bool :=
  all_zeroes_loop (Z.to_nat (q - p)) l p.

(** [for (k = depth; k > 1 && !offsets[k-1]; k--) ;] of
    [next3_find_shared]. *)
Fixpoint deepest_offset (fuel : nat) (offs : list Z) (k : Z) : Z :=
  match fuel with
  | O => k
  | S fuel' =>
    if (1 <? k) && (entry offs (k - 1) =? 0) then deepest_offset fuel' offs (k - 1)
    else k
  end.

(** [for (p = partial; p > chain && all_zeroes(p->bh->b_data, p->p); p--) ;]
    with the triples named by their index. *)
Fixpoint last_survivor (fuel : nat) (ino : inode) (bufs : gmap Z (list Z))
    (chain : list Indirect) (p : Z) : Z :=
  match fuel with
  | O => p
  | S fuel' =>
    let t := chain_at chain p in
    if (0 <? p) && all_zeroes (holder_data ino bufs (ind_bh t)) 0 (ind_p t)
    then last_survivor fuel' ino bufs chain (p - 1)
    else p
  end.

Definition set_p (i : Indirect) (p : Z) : Indirect :=
  {| ind_p := p; ind_key := ind_key i; ind_bh := ind_bh i |}.

(** [next3_find_shared]: the chain, the index of the triple returned and
    [*top]. *)
Definition next3_find_shared (ino : inode) (bufs : gmap Z (list Z))
    (depth : Z) (offs : list Z) : list Indirect * Z * Z :=
  (* Make k index the deepest non-null offset + 1 *)
  let k := deepest_offset (Z.to_nat depth) offs depth in
  let '(chain, partial, _) := next3_get_branch ino bufs k offs in
  let partial := match partial with
                 | Some j => j
                 | None => k - 1
                 end in
  let t := chain_at chain partial in
  if (ind_key t =? 0)
     && negb (read_slot (holder_data ino bufs (ind_bh t)) (ind_p t) =? 0) then
    (* the branch acquired continuation since we've looked at it *)
    (chain, partial, 0)
  else
    let p := last_survivor (Z.to_nat partial) ino bufs chain partial in
    (* OK, we've found the last block that must survive. *)
    if (p =? k - 1) && (0 <? p) then
      (<[Z.to_nat p := set_p (chain_at chain p) (ind_p (chain_at chain p) - 1)]> chain,
       p, 0)
    else
      let tp := chain_at chain p in
      (chain, p, read_slot (holder_data ino bufs (ind_bh tp)) (ind_p tp)).

(** ** Freeing data blocks ([next3_clear_blocks] and [next3_free_data] of
       [fs/next3/inode.c])

    The calls the freeing code of [next3_truncate] makes, in call order:
    into the journal, into [next3_forget] and into the allocator. *)
Inductive free_call :=
  | FcGetWriteAccess (blocknr : Z)
  | FcDirtyMetadata (blocknr : Z)
  | FcMarkInodeDirty
  | FcRestartTransaction
  | FcForget (is_metadata : bool) (blocknr : Z)
  | FcFreeBlocks (block count : Z)
  | FcCircularError (blocknr : Z)
  | FcReadError (blocknr : Z).

(** The array of block numbers the code works on (the inode's [i_data] or
    the data of the indirect block [this_bh]) and the calls made. *)
Record fstate := {
  f_slots : list Z;
  f_calls : list free_call;
}.

Definition call (c : free_call) (st : fstate) : fstate :=
  {| f_slots := f_slots st; f_calls := f_calls st ++ [c] |}.

Definition set_slot (p v : Z) (st : fstate) : fstate :=
  {| f_slots := <[Z.to_nat p := v]> (f_slots st); f_calls := f_calls st |}.

Section FreeData.
(** What the journal answers, given the calls made so far:
    [next3_journal_get_write_access_inode], [try_to_extend_transaction]
    (true when the transaction must be restarted), [is_handle_aborted] and
    [bh2jh(this_bh)]. *)
Variable get_write_access_err : list free_call -> Z -> Z.
Variable must_restart : list free_call -> bool.
Variable is_handle_aborted : list free_call -> bool.
Variable bh2jh : list free_call -> Z -> bool.

(** [for (p = first; p < last; p++)] of [next3_clear_blocks], with no COW
    bitmap to consult. *)
Fixpoint clear_loop (n : nat) (p : Z) (st : fstate) : fstate :=
  match n with
  | O => st
  | S n' =>
    let nr := read_slot (f_slots st) p in
    let st := if negb (nr =? 0)
              then call (FcForget false nr) (set_slot p 0 st) else st in
    clear_loop n' (p + 1) st
  end.

(** [next3_clear_blocks_cow] with [bitmap == NULL] and [pblocks == NULL],
    which is [next3_clear_blocks]. *)
Definition next3_clear_blocks (bh : option Z) (block_to_free count first last : Z)
    (st : fstate) : fstate :=
  let '(returned, st) :=
    if must_restart (f_calls st) then
      let st := match bh with
                | Some b => call (FcDirtyMetadata b) st
                | None => st
                end in
      let st := call FcMarkInodeDirty st in
      let st := call FcRestartTransaction st in
      match bh with
      | Some b =>
        (* retaking write access *)
        let st := call (FcGetWriteAccess b) st in
        (* we may have lost write_access on bh *)
        (is_handle_aborted (f_calls st), st)
      | None => (false, st)
      end
    else (false, st) in
  if returned then st
  else
    let st := clear_loop (Z.to_nat (last - first)) first st in
    call (FcFreeBlocks block_to_free count) st.

(** [for (p = first; p < last; p++)] of [next3_free_data]; the first
    component tells that the function has returned from inside the loop.
    ([next3_fsblk_t] and [count] are [unsigned long]; with block numbers of
    32 bits the sum [block_to_free + count] does not wrap where that type
    has 64 bits.) *)
Fixpoint free_data_loop (n : nat) (this_bh : option Z)
    (p block_to_free count block_to_free_p : Z) (st : fstate)
    : bool * Z * Z * Z * fstate :=
  match n with
  | O => (false, block_to_free, count, block_to_free_p, st)
  | S n' =>
    let nr := read_slot (f_slots st) p in
    if negb (nr =? 0) then
      (* accumulate blocks to free if they're contiguous *)
      if count =? 0 then free_data_loop n' this_bh (p + 1) nr 1 p st
      else if nr =? block_to_free + count then
        free_data_loop n' this_bh (p + 1) block_to_free (count + 1) block_to_free_p st
      else
        let st := next3_clear_blocks this_bh block_to_free count block_to_free_p p st in
        (* we may have lost write_access on this_bh *)
        if is_handle_aborted (f_calls st)
        then (true, block_to_free, count, block_to_free_p, st)
        else free_data_loop n' this_bh (p + 1) nr 1 p st
    else free_data_loop n' this_bh (p + 1) block_to_free count block_to_free_p st
  end.

(** [next3_free_data], that is [next3_free_data_cow] with no bitmap and no
    counters. *)
Definition next3_free_data (this_bh : option Z) (first last : Z) (st : fstate) : fstate :=
  let '(err, st) :=
    match this_bh with
    | Some b => (get_write_access_err (f_calls st) b, call (FcGetWriteAccess b) st)
    | None => (0, st)
    end in
  (* Important: if we can't update the indirect pointers to the blocks, we
     can't free them. *)
  if negb (err =? 0) then st
  else
    let '(returned, block_to_free, count, block_to_free_p, st) :=
      free_data_loop (Z.to_nat (last - first)) this_bh first 0 0 0 st in
    if returned then st
    else
      let st := if 0 <? count
                then next3_clear_blocks this_bh block_to_free count block_to_free_p last st
                else st in
      if is_handle_aborted (f_calls st) then st
      else
        match this_bh with
        | Some b =>
          if bh2jh (f_calls st) b then call (FcDirtyMetadata b) st
          else call (FcCircularError b) st
        | None => st
        end.

End FreeData.

(** The blocks freed and the blocks forgotten by a sequence of calls, and
    the block numbers found in the slots [first .. last - 1] of an array. *)
Definition freed_by (calls : list free_call) : list Z :=
  flat_map (fun c => match c with
                     | FcFreeBlocks b n => seqZ b n
                     | _ => []
                     end) calls.

Definition forgotten_by (calls : list free_call) : list Z :=
  flat_map (fun c => match c with
                     | FcForget _ nr => [nr]
                     | _ => []
                     end) calls.

Fixpoint blocks_from (n : nat) (l : list Z) (p : Z) : list Z :=
  match n with
  | O => []
  | S n' => (if read_slot l p =? 0 then [] else [read_slot l p])
            ++ blocks_from n' l (p + 1)
  end.

Definition blocks_in (l : list Z) (first last : Z) : list Z :=
  blocks_from (Z.to_nat (last - first)) l first.

(** ** Freeing branches ([next3_free_branches] of [fs/next3/inode.c])

    The buffers of the tree and the calls made. The array of block numbers
    [first .. last - 1] lies in the data of the indirect block [parent_bh],
    or it is the single number held in a local variable of the caller,
    which passes [&nr, &nr + 1] with a NULL [parent_bh]. *)
Record tstate := {
  t_bufs : gmap Z (list Z);
  t_calls : list free_call;
}.

Inductive array_ref :=
  | InBuffer (parent_bh : Z)
  | Local (nr : Z).

Definition tcall (c : free_call) (st : tstate) : tstate :=
  {| t_bufs := t_bufs st; t_calls := t_calls st ++ [c] |}.

Definition array_slots (st : tstate) (a : array_ref) : list Z :=
  match a with
  | InBuffer b => default [] (t_bufs st !! b)
  | Local nr => [nr]
  end.

Definition array_bh (a : array_ref) : option Z :=
  match a with
  | InBuffer b => Some b
  | Local _ => None
  end.

Section FreeBranches.
Variable sb : super_block.
Variable get_write_access_err : list free_call -> Z -> Z.
Variable must_restart : list free_call -> bool.
Variable is_handle_aborted : list free_call -> bool.
Variable bh2jh : list free_call -> Z -> bool.

(** [next3_free_data] on the array: what it stores goes to the data of
    [parent_bh]; the local variable of the caller is not part of the
    tree. *)
Definition free_data_in (a : array_ref) (first last : Z) (st : tstate) : tstate :=
  let r := next3_free_data get_write_access_err must_restart is_handle_aborted bh2jh
             (array_bh a) first last
             {| f_slots := array_slots st a; f_calls := t_calls st |} in
  {| t_bufs := match a with
               | InBuffer b => alter (fun _ => f_slots r) b (t_bufs st)
               | Local _ => t_bufs st
               end;
     t_calls := f_calls r |}.

(** [p = last; while (--p >= first)] of [next3_free_branches], with [n]
    rounds left; [below] frees the branches of the block just read. *)
Fixpoint branches_loop (below : Z -> tstate -> tstate) (n : nat) (a : array_ref)
    (p : Z) (st : tstate) : tstate :=
  match n with
  | O => st
  | S n' =>
    let p := p - 1 in
    let nr := read_slot (array_slots st a) p in
    if nr =? 0 then
      (* A hole *)
      branches_loop below n' a p st
    else
      (* Go read the buffer for the next level down *)
      match t_bufs st !! nr with
      | None =>
        (* A read failure? Report error and clear slot (should be rare). *)
        branches_loop below n' a p (tcall (FcReadError nr) st)
      | Some _ =>
        (* This zaps the entire block. Bottom up. *)
        let st := below nr st in
        if is_handle_aborted (t_calls st) then st
        else
          let st := if must_restart (t_calls st)
                    then tcall FcRestartTransaction (tcall FcMarkInodeDirty st)
                    else st in
          let st := tcall (FcForget true nr) st in
          let st := tcall (FcFreeBlocks nr 1) st in
          let st :=
            match a with
            | InBuffer pb =>
              (* The block which we have just freed is pointed to by an
                 indirect block: journal it *)
              let err := get_write_access_err (t_calls st) pb in
              let st := tcall (FcGetWriteAccess pb) st in
              if err =? 0 then
                tcall (FcDirtyMetadata pb)
                  {| t_bufs := alter (fun l => <[Z.to_nat p := 0]> l) pb (t_bufs st);
                     t_calls := t_calls st |}
              else st
            | Local _ => st
            end in
          branches_loop below n' a p st
      end
  end.

(** [next3_free_branches_cow] with [pblocks == NULL], which is
    [next3_free_branches]. *)
Fixpoint next3_free_branches (depth : nat) (a : array_ref) (first last : Z)
    (st : tstate) : tstate :=
  if is_handle_aborted (t_calls st) then st
  else
    match depth with
    | S depth' =>
      branches_loop
        (fun nr st =>
           next3_free_branches depth' (InBuffer nr) 0 (NEXT3_ADDR_PER_BLOCK sb) st)
        (Z.to_nat (last - first)) a last st
    | O =>
      (* We have reached the bottom of the tree. *)
      free_data_in a first last st
    end.

End FreeBranches.

(** The block numbers in the slots [first .. last - 1] of an array, and
    the non-zero ones among a list of numbers. *)
Definition range_values (l : list Z) (first last : Z) : list Z :=
  map (read_slot l) (seqZ first (last - first)).

Definition nonzero (vals : list Z) : list Z :=
  flat_map (fun v => if v =? 0 then [] else [v]) vals.

(** The branches that hang from a list of block numbers, [depth] levels
    above the data blocks: the indirect blocks among them, the order in
    which [next3_free_branches] frees their blocks (from the last number
    to the first, each branch below its root), and what it takes for all
    indirect blocks to be readable and of full size. *)
Fixpoint indirect_blocks (depth : nat) (bufs : gmap Z (list Z)) (vals : list Z) : list Z :=
  match depth with
  | O => []
  | S depth' =>
    flat_map (fun nr => if nr =? 0 then []
                        else nr :: indirect_blocks depth' bufs (default [] (bufs !! nr)))
      vals
  end.

Fixpoint freed_order (depth : nat) (bufs : gmap Z (list Z)) (vals : list Z) : list Z :=
  match depth with
  | O => nonzero vals
  | S depth' =>
    flat_map (fun nr => if nr =? 0 then []
                        else freed_order depth' bufs (default [] (bufs !! nr)) ++ [nr])
      (rev vals)
  end.

Fixpoint readable_tree (per_block : Z) (depth : nat) (bufs : gmap Z (list Z))
    (vals : list Z) : Prop :=
  match depth with
  | O => True
  | S depth' =>
    forall nr, In nr vals -> nr <> 0 ->
      exists data,
        bufs !! nr = Some data /\ Z.of_nat (length data) = per_block
        /\ readable_tree per_block depth' bufs data
  end.

(** [readable_tree] as a check that can be run. *)
Fixpoint readable_treeb (per_block : Z) (depth : nat) (bufs : gmap Z (list Z))
    (vals : list Z) : bool :=
  match depth with
  | O => true
  | S depth' =>
    forallb (fun nr =>
               (nr =? 0)
               || match bufs !! nr with
                  | Some data =>
                    (Z.of_nat (length data) =? per_block)
                    && readable_treeb per_block depth' bufs data
                  | None => false
                  end) vals
  end.


(** ** Tracked readers of a block device buffer ([snapshot.h])

    [b_count] is an [atomic_t], a signed 32-bit counter that wraps around.
    A tracked reader takes 0x10000 references at once, so the high half of
    the counter counts the tracked readers and the low half the references
    taken with [get_bh]. *)
Definition wrap_int (x : Z) : Z := (x + 2 ^ 31) mod 2 ^ 32 - 2 ^ 31.

Definition BH_TRACKED_READERS_COUNT_SHIFT : Z := 16.

Definition get_bh_tracked_reader (b_count : Z) : Z :=
  wrap_int (b_count + Z.shiftl 1 BH_TRACKED_READERS_COUNT_SHIFT).

Definition put_bh_tracked_reader (b_count : Z) : Z :=
  wrap_int (b_count - Z.shiftl 1 BH_TRACKED_READERS_COUNT_SHIFT).

Definition buffer_tracked_readers_count (b_count : Z) : Z :=
  Z.shiftr b_count BH_TRACKED_READERS_COUNT_SHIFT.

(** ** The largest file size ([next3_max_size] of [super.c])

    [res] and [upper_limit] are [loff_t], [meta_blocks] is an [int]; the
    sums are made in [long long] and stored back into their variable.
    [MAX_LFS_FILESIZE] is the kernel's limit. *)
Definition next3_max_size (MAX_LFS_FILESIZE : Z) (bits : Z) : Z :=
  let res := NEXT3_NDIR_BLOCKS in
  let upper_limit := wrap_loff (Z.shiftl 1 32 - 1) in
  (* total blocks in file system block size *)
  let upper_limit := Z.shiftr upper_limit (bits - 9) in
  (* indirect blocks *)
  let meta_blocks := 1 in
  (* double indirect blocks *)
  let meta_blocks := wrap_int (wrap_loff (meta_blocks
                       + wrap_loff (1 + wrap_loff (Z.shiftl 1 (bits - 2))))) in
  (* tripple indirect blocks *)
  let meta_blocks := wrap_int (wrap_loff (meta_blocks
                       + wrap_loff (wrap_loff (1 + wrap_loff (Z.shiftl 1 (bits - 2)))
                                    + wrap_loff (Z.shiftl 1 (2 * (bits - 2)))))) in
  let upper_limit := wrap_loff (upper_limit - meta_blocks) in
  let upper_limit := wrap_loff (Z.shiftl upper_limit bits) in
  let res := wrap_loff (res + wrap_loff (Z.shiftl 1 (bits - 2))) in
  let res := wrap_loff (res + wrap_loff (Z.shiftl 1 (2 * (bits - 2)))) in
  let res := wrap_loff (res + wrap_loff (Z.shiftl 1 (3 * (bits - 2)))) in
  let res := wrap_loff (Z.shiftl res bits) in
  let res := if res >? upper_limit then upper_limit else res in
  let res := if res >? MAX_LFS_FILESIZE then MAX_LFS_FILESIZE else res in
  res.


(** ** The layout of a block group ([super.c], [inode.c])

    [unsigned long] has [BITS_PER_LONG] bits; on-disk fields are 32-bit
    little-endian numbers. *)
Definition wrap_ulong (BITS_PER_LONG : Z) (x : Z) : Z := x mod 2 ^ BITS_PER_LONG.

Record next3_group_desc := {
  bg_block_bitmap : Z;
  bg_inode_bitmap : Z;
  bg_inode_table : Z;
}.

(** The fields of [struct next3_sb_info] and of the on-disk super block
    [s_es] that the layout code reads or writes. *)
Record next3_sb_info := {
  s_groups_count : Z;
  s_itb_per_group : Z;
  s_inodes_per_group : Z;
  s_inode_size : Z;
  es_blocks_count : Z;
  es_free_blocks_count : Z;
  es_free_inodes_count : Z;
}.

Inductive descriptor_error :=
  | BlockBitmapNotInGroup (i block : Z)
  | InodeBitmapNotInGroup (i block : Z)
  | InodeTableNotInGroup (i block : Z).

Section CheckDescriptors.
Variable BITS_PER_LONG : Z.
Variable sb : super_block.
(** [next3_group_first_block_no(sb, i)], from the missing header. *)
Variable next3_group_first_block_no : Z -> Z.
(** [next3_get_group_desc(sb, i, NULL)]; the result is used unchecked. *)
Variable next3_get_group_desc : Z -> next3_group_desc.
Variable next3_count_free_blocks : Z.
Variable next3_count_free_inodes : Z.

(** One round of the loop of [next3_check_descriptors]. *)
Definition check_group (sbi : next3_sb_info) (i : Z) : option descriptor_error :=
  let gdp := next3_get_group_desc i in
  let first_block := next3_group_first_block_no i in
  let last_block :=
    if i =? wrap_ulong BITS_PER_LONG (s_groups_count sbi - 1)
    then wrap32 (es_blocks_count sbi - 1)
    else wrap_ulong BITS_PER_LONG
           (first_block + wrap_ulong BITS_PER_LONG (s_blocks_per_group sb - 1)) in
  if (bg_block_bitmap gdp <? first_block) || (bg_block_bitmap gdp >? last_block)
  then Some (BlockBitmapNotInGroup i (bg_block_bitmap gdp))
  else if (bg_inode_bitmap gdp <? first_block) || (bg_inode_bitmap gdp >? last_block)
  then Some (InodeBitmapNotInGroup i (bg_inode_bitmap gdp))
  else if (bg_inode_table gdp <? first_block)
          || (wrap_ulong BITS_PER_LONG
                (wrap_ulong BITS_PER_LONG (bg_inode_table gdp + s_itb_per_group sbi) - 1)
              >? last_block)
  then Some (InodeTableNotInGroup i (bg_inode_table gdp))
  else None.

Fixpoint check_loop (sbi : next3_sb_info) (n : nat) (i : Z) : option descriptor_error :=
  match n with
  | O => None
  | S n' =>
    match check_group sbi i with
    | Some e => Some e
    | None => check_loop sbi n' (i + 1)
    end
  end.

(** The result, the errors reported with [next3_error], and the super
    block information afterwards. *)
Definition next3_check_descriptors (sbi : next3_sb_info)
    : Z * list descriptor_error * next3_sb_info :=
  match check_loop sbi (Z.to_nat (s_groups_count sbi)) 0 with
  | Some e => (0, [e], sbi)
  | None =>
    (1, [],
     {| s_groups_count := s_groups_count sbi;
        s_itb_per_group := s_itb_per_group sbi;
        s_inodes_per_group := s_inodes_per_group sbi;
        s_inode_size := s_inode_size sbi;
        es_blocks_count := es_blocks_count sbi;
        es_free_blocks_count := wrap32 next3_count_free_blocks;
        es_free_inodes_count := wrap32 next3_count_free_inodes |})
  end.

(** The block range of group [i] and what the check asks of its
    descriptor, in plain numbers. *)
Definition group_last_block (sbi : next3_sb_info) (i : Z) : Z :=
  if i =? s_groups_count sbi - 1 then es_blocks_count sbi - 1
  else next3_group_first_block_no i + s_blocks_per_group sb - 1.

Definition descriptor_in_group (sbi : next3_sb_info) (i : Z) : Prop :=
  let gdp := next3_get_group_desc i in
  let first_block := next3_group_first_block_no i in
  first_block <= bg_block_bitmap gdp <= group_last_block sbi i
  /\ first_block <= bg_inode_bitmap gdp <= group_last_block sbi i
  /\ first_block <= bg_inode_table gdp
  /\ bg_inode_table gdp + s_itb_per_group sbi - 1 <= group_last_block sbi i.

End CheckDescriptors.

Definition error_group (e : descriptor_error) : Z :=
  match e with
  | BlockBitmapNotInGroup i _ => i
  | InodeBitmapNotInGroup i _ => i
  | InodeTableNotInGroup i _ => i
  end.

(** [struct next3_iloc], the fields [next3_get_inode_block] fills in. *)
Record next3_iloc := {
  iloc_block_group : Z;
  iloc_offset : Z;
}.

Section InodeBlock.
Variable BITS_PER_LONG : Z.
Variable sb : super_block.
Variable sbi : next3_sb_info.
(** [next3_valid_inum(sb, ino)], from the missing header. *)
Variable next3_valid_inum : Z -> bool.
(** [next3_get_group_desc(sb, block_group, NULL)], [None] for [NULL]. *)
Variable next3_get_group_desc : Z -> option next3_group_desc.

(** The block that holds the inode, 0 on failure, and [iloc] afterwards. *)
Definition next3_get_inode_block (ino : Z) (iloc : next3_iloc) : Z * next3_iloc :=
  if negb (next3_valid_inum ino) then (0, iloc)
  else
    let block_group := wrap_ulong BITS_PER_LONG (ino - 1) / s_inodes_per_group sbi in
    match next3_get_group_desc block_group with
    | None => (0, iloc)
    | Some gdp =>
      (* Figure out the offset within the block group inode table *)
      let offset := wrap_ulong BITS_PER_LONG
                      ((wrap_ulong BITS_PER_LONG (ino - 1) mod s_inodes_per_group sbi)
                       * s_inode_size sbi) in
      let block := wrap_ulong BITS_PER_LONG
                     (bg_inode_table gdp + Z.shiftr offset (NEXT3_BLOCK_SIZE_BITS sb)) in
      (block,
       {| iloc_block_group := block_group;
          iloc_offset := Z.land offset (s_blocksize sb - 1) |})
    end.

End InodeBlock.


(** ** The snapshot flags of an overlay dentry ([fs/overlayfs/snapshot.c])

    [snapflags] is an [unsigned long]: the two low bits are the flags, the
    bits above them the id of the snapshot the flags were recorded for. *)
Definition OVL_SNAP_NOCOW : Z := 0.
Definition OVL_SNAP_CHILDREN_NOCOW : Z := 1.
Definition OVL_SNAP_ID_SHIFT : Z := 2.

Definition test_bit (nr : Z) (word : Z) : bool := Z.testbit word nr.
Definition set_bit (nr : Z) (word : Z) : Z := Z.lor word (Z.shiftl 1 nr).

Section OverlaySnapshotFlags.
Variable BITS_PER_LONG : Z.

Definition ovl_snapshot_get_id (snapflags : Z) : Z :=
  Z.shiftr snapflags OVL_SNAP_ID_SHIFT.

(** Set new snapshot id and reset flags *)
Definition ovl_snapshot_reset_id (id : Z) : Z :=
  wrap_ulong BITS_PER_LONG (Z.shiftl id OVL_SNAP_ID_SHIFT).

Definition ovl_snapshot_test_flag (nr : Z) (snapflags : Z) (id : Z) : bool :=
  let oldid := ovl_snapshot_get_id snapflags in
  if (nr >=? OVL_SNAP_ID_SHIFT) || negb (oldid =? id) then false
  else test_bit nr snapflags && (ovl_snapshot_get_id snapflags =? id).

Definition ovl_snapshot_set_flag (nr : Z) (snapflags : Z) (id : Z) : Z :=
  let oldid := ovl_snapshot_get_id snapflags in
  (* Reset existing cached flags if cached snapid is older *)
  let snapflags :=
    if negb (id =? 0) && (oldid <? id) then ovl_snapshot_reset_id id else snapflags in
  (* Discard set flag request if cached snapid is newer *)
  if (id =? 0) || (oldid <=? id) then set_bit nr snapflags else snapflags.

Definition ovl_snapshot_need_cow (snapflags : Z) (id : Z) : bool :=
  negb (ovl_snapshot_test_flag OVL_SNAP_NOCOW snapflags id).

Definition ovl_snapshot_children_need_cow (snapflags : Z) (id : Z) : bool :=
  negb (ovl_snapshot_test_flag OVL_SNAP_CHILDREN_NOCOW snapflags id).

Definition ovl_snapshot_set_nocow (snapflags : Z) (id : Z) : Z :=
  ovl_snapshot_set_flag OVL_SNAP_NOCOW snapflags id.

Definition ovl_snapshot_set_children_nocow (snapflags : Z) (id : Z) : Z :=
  ovl_snapshot_set_flag OVL_SNAP_CHILDREN_NOCOW snapflags id.

End OverlaySnapshotFlags.


(** The collaborators under watch: every call that takes the handle
    notes, in call order, whether the handle was marked as cowing. The
    notes are kept beside the world. *)
Definition watching {W B : Type} (svc : services W B) : services (W * list bool) B :=
  {| svc_read_cow_bitmap := fun h ino g w =>
       let '(r, w') := svc_read_cow_bitmap svc h ino g (fst w) in
       (r, (w', snd w ++ [h_cowing h]));
     svc_test_bit_range := svc_test_bit_range svc;
     svc_map_blocks := fun h ino lblk len flags w =>
       let '(e, pblk, w') := svc_map_blocks svc h ino lblk len flags (fst w) in
       (e, pblk, (w', snd w ++ [h_cowing h]));
     svc_getblk := fun h ino blk cmd w =>
       let '(bh, e, w') := svc_getblk svc h ino blk cmd (fst w) in
       (bh, e, (w', snd w ++ [h_cowing h]));
     svc_file_inode := fun h ino w =>
       let '(e, w') := svc_file_inode svc h ino (fst w) in
       (e, (w', snd w ++ [h_cowing h]));
     svc_read_block := fun b w =>
       let '(ok, w') := svc_read_block svc b (fst w) in (ok, (w', snd w));
     svc_copy_buffer := fun sbh bh w => (svc_copy_buffer svc sbh bh (fst w), snd w);
     svc_mark_dirty := fun b w => (svc_mark_dirty svc b (fst w), snd w);
     svc_sync_dirty := fun b w => (svc_sync_dirty svc b (fst w), snd w);
     svc_dquot_free := fun ino n w => (svc_dquot_free svc ino n (fst w), snd w) |}.

(** A state with the notes [seen] beside its world, and back. *)
Definition watch {W : Type} (st : cstate W) (seen : list bool) : cstate (W * list bool) :=
  {| c_world := (c_world st, seen); c_bufs := c_bufs st;
     c_active_snapshot := c_active_snapshot st;
     c_has_snapshot := c_has_snapshot st |}.

Definition unwatch {W : Type} (st : cstate (W * list bool)) : cstate W :=
  {| c_world := fst (c_world st); c_bufs := c_bufs st;
     c_active_snapshot := c_active_snapshot st;
     c_has_snapshot := c_has_snapshot st |}.

Definition seen {W : Type} (st : cstate (W * list bool)) : list bool :=
  snd (c_world st).


(** The source buffer [b] of a copy is ready: it is mapped and, after the
    read [ext4_snapshot_test_and_cow] makes for a stale buffer, up to date
    (in the world left by the two lookups). *)
Definition source_ready {W B : Type} (ccfg : cow_config) (svc : services W B)
    (st : cstate W) (h : handle) (snapshot : inode) (block : Z) (b : Z) : bool :=
  let h := ext4_snapshot_cow_begin h in
  let '(_, _, w) :=
    ext4_snapshot_test_cow_bitmap ccfg svc h snapshot block 1 (c_world st) in
  let '(_, _, w) :=
    ext4_snapshot_map_blocks svc h snapshot block 1 0 SNAPMAP_READ w in
  b_mapped (get_bh (with_world st w) b)
  && fst (read_if_stale svc (with_world st w) b).

(** What [ext4_snapshot_copy_buffer_cow] answers when
    [ext4_snapshot_test_and_cow] copies the source buffer [b] into the new
    snapshot buffer [s], in the world [ext4_getblk] leaves. *)
Definition copy_answer {W B : Type} (ccfg : cow_config) (svc : services W B)
    (st : cstate W) (h : handle) (snapshot : inode) (block : Z) (b s : Z) : Z :=
  let h := ext4_snapshot_cow_begin h in
  let '(_, _, w) :=
    ext4_snapshot_test_cow_bitmap ccfg svc h snapshot block 1 (c_world st) in
  let '(_, _, w) :=
    ext4_snapshot_map_blocks svc h snapshot block 1 0 SNAPMAP_READ w in
  let '(_, st) := read_if_stale svc (with_world st w) b in
  let '(_, _, w) :=
    svc_getblk svc h snapshot (SNAPSHOT_IBLOCK block) SNAPMAP_COW (c_world st) in
  let st := with_world st w in
  fst (ext4_snapshot_copy_buffer_cow svc h snapshot s (b_blocknr (get_bh st b))
         (c_world st)).


(** The engine over the code of [ext4_snapshot_read_cow_bitmap]: in place
    of the collaborator [svc_read_cow_bitmap] stands the function of
    [snapshot.c] itself, run on the other collaborators and on the cache
    [grp->bg_cow_bitmap], which is kept beside the world; [cow_bitmap_data]
    reads the data of a COW bitmap buffer. *)
Section CowBitmapServices.
Variable W : Type.
Variable B : Type.
Variable svc : services W B.
Variable ext4_get_group_desc_ok : Z -> bool.
Variable ext4_block_bitmap : Z -> Z.
Variable sb_bread_ok : Z -> W -> bool.
Variable ext4_bread : handle -> inode -> Z -> Z -> W -> option Z * Z * W.
Variable ext4_read_block_bitmap : Z -> W -> option Z.
Variable memcpy_bitmap : Z -> Z -> W -> W.
Variable cow_bitmap_data : Z -> W -> B.

Definition with_cow_bitmap : services (gmap Z Z * W) B :=
  {| svc_read_cow_bitmap := fun h snapshot block_group cw =>
       let '(cow_bh, cache, w) :=
         ext4_snapshot_read_cow_bitmap W B svc ext4_get_group_desc_ok ext4_block_bitmap
           sb_bread_ok ext4_bread ext4_read_block_bitmap memcpy_bitmap
           h snapshot block_group (fst cw) (snd cw) in
       (match cow_bh with
        | Some b => Some (cow_bitmap_data b w)
        | None => None
        end, (cache, w));
     svc_test_bit_range := svc_test_bit_range svc;
     svc_map_blocks := fun h ino lblk len flags cw =>
       let '(e, pblk, w) := svc_map_blocks svc h ino lblk len flags (snd cw) in
       (e, pblk, (fst cw, w));
     svc_getblk := fun h ino blk cmd cw =>
       let '(bh, e, w) := svc_getblk svc h ino blk cmd (snd cw) in
       (bh, e, (fst cw, w));
     svc_file_inode := fun h ino cw =>
       let '(e, w) := svc_file_inode svc h ino (snd cw) in (e, (fst cw, w));
     svc_read_block := fun b cw =>
       let '(ok, w) := svc_read_block svc b (snd cw) in (ok, (fst cw, w));
     svc_copy_buffer := fun sbh bh cw => (fst cw, svc_copy_buffer svc sbh bh (snd cw));
     svc_mark_dirty := fun b cw => (fst cw, svc_mark_dirty svc b (snd cw));
     svc_sync_dirty := fun b cw => (fst cw, svc_sync_dirty svc b (snd cw));
     svc_dquot_free := fun ino n cw => (fst cw, svc_dquot_free svc ino n (snd cw)) |}.

End CowBitmapServices.

(** A state with the COW bitmap cache beside its world. *)
Definition with_cache {W : Type} (st : cstate W) (cache : gmap Z Z)
    : cstate (gmap Z Z * W) :=
  {| c_world := (cache, c_world st); c_bufs := c_bufs st;
     c_active_snapshot := c_active_snapshot st;
     c_has_snapshot := c_has_snapshot st |}.


(** * Properties *)

(** ** PathResolver *)

Section PathFacts.
Variable cfg : config.
Variable sb : super_block.
Hypothesis bits_nonneg : 0 <= NEXT3_ADDR_PER_BLOCK_BITS sb.

Local Abbreviation p := (NEXT3_ADDR_PER_BLOCK sb).

Lemma ptrs_pow : NEXT3_ADDR_PER_BLOCK sb = 2 ^ NEXT3_ADDR_PER_BLOCK_BITS sb.
Proof. unfold NEXT3_ADDR_PER_BLOCK. apply Z.shiftl_1_l. Qed.

Lemma ptrs_pos : 0 < NEXT3_ADDR_PER_BLOCK sb.
Proof. rewrite ptrs_pow. apply Z.pow_pos_nonneg; lia. Qed.

Lemma mask_mod (x : Z) : Z.land x (NEXT3_ADDR_PER_BLOCK sb - 1) = x mod NEXT3_ADDR_PER_BLOCK sb.
Proof.
  rewrite ptrs_pow. rewrite <- Z.land_ones by assumption.
  f_equal. rewrite Z.ones_equiv. lia.
Qed.

Lemma shr_div (x : Z) : Z.shiftr x (NEXT3_ADDR_PER_BLOCK_BITS sb) = x / NEXT3_ADDR_PER_BLOCK sb.
Proof. rewrite ptrs_pow. apply Z.shiftr_div_pow2; assumption. Qed.

Lemma pow_double : 2 ^ (NEXT3_ADDR_PER_BLOCK_BITS sb * 2)
                   = NEXT3_ADDR_PER_BLOCK sb * NEXT3_ADDR_PER_BLOCK sb.
Proof.
  rewrite ptrs_pow. rewrite <- Z.pow_add_r by assumption. f_equal. lia.
Qed.

Lemma pow_triple : 2 ^ (NEXT3_ADDR_PER_BLOCK_BITS sb * 3)
                   = NEXT3_ADDR_PER_BLOCK sb * NEXT3_ADDR_PER_BLOCK sb * NEXT3_ADDR_PER_BLOCK sb.
Proof.
  rewrite ptrs_pow. rewrite <- !Z.pow_add_r by lia. f_equal. lia.
Qed.

Lemma shr2_div (x : Z) :
  Z.shiftr x (NEXT3_ADDR_PER_BLOCK_BITS sb * 2)
  = x / (NEXT3_ADDR_PER_BLOCK sb * NEXT3_ADDR_PER_BLOCK sb).
Proof. rewrite <- pow_double. apply Z.shiftr_div_pow2. lia. Qed.

Lemma shr3_div (x : Z) :
  Z.shiftr x (NEXT3_ADDR_PER_BLOCK_BITS sb * 3)
  = x / (NEXT3_ADDR_PER_BLOCK sb * NEXT3_ADDR_PER_BLOCK sb * NEXT3_ADDR_PER_BLOCK sb).
Proof. rewrite <- pow_triple. apply Z.shiftr_div_pow2. lia. Qed.

Lemma double_blocks_eq :
  Z.shiftl 1 (NEXT3_ADDR_PER_BLOCK_BITS sb * 2)
  = NEXT3_ADDR_PER_BLOCK sb * NEXT3_ADDR_PER_BLOCK sb.
Proof. rewrite Z.shiftl_1_l. apply pow_double. Qed.

Lemma path_direct ino i :
  0 <= i < NEXT3_NDIR_BLOCKS ->
  block_to_path_body cfg sb ino i
  = finish sb [i] NEXT3_NDIR_BLOCKS i.
Proof.
  intros Hi. unfold block_to_path_body.
  destruct (Z.ltb_spec i 0); [lia|]. rewrite andb_false_r.
  destruct (Z.ltb_spec i NEXT3_NDIR_BLOCKS); [reflexivity | lia].
Qed.

Lemma path_indirect ino i :
  NEXT3_NDIR_BLOCKS <= i < NEXT3_NDIR_BLOCKS + p ->
  block_to_path_body cfg sb ino i
  = finish sb [NEXT3_IND_BLOCK; i - NEXT3_NDIR_BLOCKS] p (i - NEXT3_NDIR_BLOCKS).
Proof.
  intros Hi. unfold block_to_path_body.
  assert (0 <= NEXT3_NDIR_BLOCKS) by (unfold NEXT3_NDIR_BLOCKS; lia).
  destruct (Z.ltb_spec i 0); [lia|]. rewrite andb_false_r.
  destruct (Z.ltb_spec i NEXT3_NDIR_BLOCKS); [lia|].
  destruct (Z.ltb_spec (i - NEXT3_NDIR_BLOCKS) (NEXT3_ADDR_PER_BLOCK sb)); [reflexivity | lia].
Qed.

Lemma path_double ino i :
  NEXT3_NDIR_BLOCKS + p <= i < NEXT3_NDIR_BLOCKS + p + p * p ->
  block_to_path_body cfg sb ino i
  = finish sb [NEXT3_DIND_BLOCK;
               (i - NEXT3_NDIR_BLOCKS - p) / p;
               (i - NEXT3_NDIR_BLOCKS - p) mod p] p (i - NEXT3_NDIR_BLOCKS - p).
Proof.
  intros Hi. unfold block_to_path_body.
  pose proof ptrs_pos as Hp.
  assert (0 <= NEXT3_NDIR_BLOCKS) by (unfold NEXT3_NDIR_BLOCKS; lia).
  destruct (Z.ltb_spec i 0); [lia|]. rewrite andb_false_r.
  destruct (Z.ltb_spec i NEXT3_NDIR_BLOCKS); [lia|].
  destruct (Z.ltb_spec (i - NEXT3_NDIR_BLOCKS) (NEXT3_ADDR_PER_BLOCK sb)); [lia|].
  rewrite double_blocks_eq.
  destruct (Z.ltb_spec (i - NEXT3_NDIR_BLOCKS - NEXT3_ADDR_PER_BLOCK sb)
              (NEXT3_ADDR_PER_BLOCK sb * NEXT3_ADDR_PER_BLOCK sb)); [|lia].
  rewrite shr_div, mask_mod. reflexivity.
Qed.

Lemma path_triple ino i :
  NEXT3_NDIR_BLOCKS + p + p * p <= i < NEXT3_NDIR_BLOCKS + p + p * p + p * p * p ->
  let j := i - NEXT3_NDIR_BLOCKS - p - p * p in
  block_to_path_body cfg sb ino i
  = finish sb [NEXT3_TIND_BLOCK; j / (p * p); (j / p) mod p; j mod p] p j.
Proof.
  intros Hi j. unfold block_to_path_body. subst j.
  pose proof ptrs_pos as Hp.
  assert (0 <= NEXT3_NDIR_BLOCKS) by (unfold NEXT3_NDIR_BLOCKS; lia).
  destruct (Z.ltb_spec i 0); [lia|]. rewrite andb_false_r.
  destruct (Z.ltb_spec i NEXT3_NDIR_BLOCKS); [lia|].
  destruct (Z.ltb_spec (i - NEXT3_NDIR_BLOCKS) (NEXT3_ADDR_PER_BLOCK sb)); [lia|].
  rewrite double_blocks_eq.
  destruct (Z.ltb_spec (i - NEXT3_NDIR_BLOCKS - NEXT3_ADDR_PER_BLOCK sb)
              (NEXT3_ADDR_PER_BLOCK sb * NEXT3_ADDR_PER_BLOCK sb)); [lia|].
  rewrite shr2_div.
  match goal with |- context [?a / ?q <? ?r] => destruct (Z.ltb_spec (a / q) r) as [Hd | Hd] end.
  - rewrite shr_div, !mask_mod. reflexivity.
  - exfalso.
    match type of Hd with _ <= ?a / ?q =>
      pose proof (Z.mul_div_le a q ltac:(nia)) end.
    nia.
Qed.

Lemma path_out_of_range ino i :
  tree_capacity cfg sb ino <= i ->
  block_to_path_body cfg sb ino i = finish sb [] 0
    (i - NEXT3_NDIR_BLOCKS - p - p * p).
Proof.
  unfold tree_capacity. intros Hi. unfold block_to_path_body.
  pose proof ptrs_pos as Hp.
  assert (0 <= NEXT3_NDIR_BLOCKS) by (unfold NEXT3_NDIR_BLOCKS; lia).
  set (q := NEXT3_ADDR_PER_BLOCK sb) in *.
  assert (Hq3 : 0 < q * q * q) by nia.
  assert (Hq2 : 0 < q * q) by nia.
  assert (Hcap : NEXT3_NDIR_BLOCKS + q + q * q + q * q * q <= i).
  { destruct (cfg_file_huge cfg && next3_snapshot_file ino); nia. }
  destruct (Z.ltb_spec i 0); [lia|]. rewrite andb_false_r.
  destruct (Z.ltb_spec i NEXT3_NDIR_BLOCKS); [lia|].
  destruct (Z.ltb_spec (i - NEXT3_NDIR_BLOCKS) q); [lia|].
  rewrite double_blocks_eq. fold q.
  destruct (Z.ltb_spec (i - NEXT3_NDIR_BLOCKS - q) (q * q)); [lia|].
  rewrite shr2_div. fold q.
  match goal with |- context [?a / ?d <? ?r] => destruct (Z.ltb_spec (a / d) r) as [Hd | Hd] end.
  { exfalso.
    match type of Hd with ?a / ?d < _ =>
      pose proof (Z.div_le_lower_bound a d q ltac:(nia) ltac:(nia)) end.
    lia. }
  rewrite shr3_div. fold q.
  destruct (cfg_file_huge cfg && next3_snapshot_file ino) eqn:Hs; simpl; [|reflexivity].
  match goal with |- context [?a / ?d <? ?r] => destruct (Z.ltb_spec (a / d) r) as [Ht | Ht] end;
    [|reflexivity].
  exfalso.
  match type of Ht with ?a / ?d < ?r =>
    pose proof (Z.div_le_lower_bound a d r ltac:(nia) ltac:(nia)) end.
  lia.
Qed.

Lemma to_i_block_id (i : Z) : is_i_block cfg i -> to_i_block cfg i = i.
Proof.
  unfold is_i_block, to_i_block. destruct (cfg_file_huge cfg); intros Hi.
  - unfold wrap32. apply Z.mod_small. exact Hi.
  - unfold wrap_long. set (b := cfg_bits_per_long cfg) in *.
    assert (Hb : 1 <= b).
    { destruct (Z_lt_le_dec b 1) as [Hlt | Hle]; [|exact Hle].
      rewrite (Z.pow_neg_r 2 (b - 1)) in Hi by lia. lia. }
    assert (Hpow : 2 ^ b = 2 * 2 ^ (b - 1)).
    { replace b with (Z.succ (b - 1)) at 1 by lia. apply Z.pow_succ_r. lia. }
    rewrite Z.mod_small by lia. lia.
Qed.

Lemma block_to_path_fits ino i :
  is_i_block cfg i ->
  next3_block_to_path cfg sb ino i = block_to_path_body cfg sb ino i.
Proof.
  intros Hi. unfold next3_block_to_path. rewrite to_i_block_id by exact Hi. reflexivity.
Qed.

End PathFacts.

(** C5 (amended). The resolver partitions the logical block space as the
    spec says, for every block number that is a value of the type of its
    parameter (an unsigned 32-bit number when FILE_HUGE is configured, a
    [long] otherwise): the first DIR_BLOCKS = 12 blocks are direct (depth 1,
    offsets [iblock]); the next p blocks go through the IND slot (depth 2);
    the next p*p blocks through the DIND slot (depth 3); the next p*p*p
    blocks through the TIND slot (depth 4); a block number at or beyond the
    capacity of the tree, and a negative one, gives depth 0; and with 1 KiB
    blocks (p = 256) block 65804 resolves to depth 4 with offsets
    [14; 0; 0; 0]. A block number outside the type is not refused: it is
    converted to the type first, so that with FILE_HUGE block [i + 2^32]
    resolves like block [i]. *)
Theorem block_to_path_partition (cfg : config) (sb : super_block) (ino : inode) (i : Z) :
  0 <= NEXT3_ADDR_PER_BLOCK_BITS sb ->
  is_i_block cfg i ->
  let p := NEXT3_ADDR_PER_BLOCK sb in
  let r := next3_block_to_path cfg sb ino i in
  NEXT3_NDIR_BLOCKS = 12 /\
  (0 <= i < 12 -> depth r = 1 /\ offsets r = [i]) /\
  (12 <= i < 12 + p -> depth r = 2 /\ offsets r = [NEXT3_IND_BLOCK; i - 12]) /\
  (12 + p <= i < 12 + p + p * p ->
     depth r = 3 /\
     offsets r = [NEXT3_DIND_BLOCK; (i - 12 - p) / p; (i - 12 - p) mod p]) /\
  (12 + p + p * p <= i < 12 + p + p * p + p * p * p ->
     let j := i - 12 - p - p * p in
     depth r = 4 /\
     offsets r = [NEXT3_TIND_BLOCK; j / (p * p); (j / p) mod p; j mod p]) /\
  (tree_capacity cfg sb ino <= i -> depth r = 0 /\ offsets r = []) /\
  (i < 0 -> depth r = 0 /\ offsets r = []) /\
  (s_blocksize_bits sb = 10 -> is_i_block cfg 65804 ->
     p = 256 /\
     depth (next3_block_to_path cfg sb ino 65804) = 4 /\
     offsets (next3_block_to_path cfg sb ino 65804) = [14; 0; 0; 0]) /\
  (cfg_file_huge cfg = true ->
     next3_block_to_path cfg sb ino (i + 2 ^ 32) = r).
Proof.
  intros Hb Hfit p r. subst p r.
  rewrite (block_to_path_fits cfg sb ino i Hfit).
  split; [reflexivity|].
  split. { intros Hi. rewrite path_direct by (unfold NEXT3_NDIR_BLOCKS; lia). split; reflexivity. }
  split. { intros Hi. rewrite path_indirect by (unfold NEXT3_NDIR_BLOCKS; lia). split; reflexivity. }
  split. { intros Hi. rewrite path_double by (unfold NEXT3_NDIR_BLOCKS; lia). split; reflexivity. }
  split. { intros Hi j. rewrite path_triple by (unfold NEXT3_NDIR_BLOCKS; lia). split; reflexivity. }
  split. { intros Hi. rewrite path_out_of_range by assumption. split; reflexivity. }
  split.
  { intros Hneg. unfold is_i_block in Hfit. unfold block_to_path_body.
    destruct (cfg_file_huge cfg); [lia|]. cbn [negb andb].
    destruct (Z.ltb_spec i 0); [split; reflexivity | lia]. }
  split.
  { intros H10 Hfit'.
    assert (Hp : NEXT3_ADDR_PER_BLOCK sb = 256).
    { unfold NEXT3_ADDR_PER_BLOCK, NEXT3_ADDR_PER_BLOCK_BITS. rewrite H10. reflexivity. }
    split; [exact Hp|].
    rewrite (block_to_path_fits cfg sb ino 65804 Hfit').
    rewrite path_triple; [| assumption | rewrite Hp; unfold NEXT3_NDIR_BLOCKS; lia].
    rewrite Hp. split; reflexivity. }
  intros Hhuge. unfold next3_block_to_path, to_i_block. rewrite Hhuge.
  unfold is_i_block in Hfit. rewrite Hhuge in Hfit.
  unfold wrap32. rewrite <- (Z.mul_1_l (2 ^ 32)) at 1. rewrite Z.mod_add by lia.
  rewrite Z.mod_small by lia. reflexivity.
Qed.

Lemma block_to_path_partition_witness :
  depth (next3_block_to_path cfg_all sb1k plain_file 65804) = 4
  /\ offsets (next3_block_to_path cfg_all sb1k plain_file 65804) = [14; 0; 0; 0]
  /\ depth (next3_block_to_path cfg_all sb1k plain_file 16843020) = 0
  /\ next3_block_to_path cfg_all sb1k plain_file (5 + 2 ^ 32)
     = next3_block_to_path cfg_all sb1k plain_file 5.
Proof.
  assert (Hb : 0 <= NEXT3_ADDR_PER_BLOCK_BITS sb1k) by (vm_compute; discriminate).
  assert (Hfit : forall i, 0 <= i < 2 ^ 32 -> is_i_block cfg_all i)
    by (intros i Hi; exact Hi).
  destruct (block_to_path_partition cfg_all sb1k plain_file 65804 Hb (Hfit 65804 ltac:(lia)))
    as (_ & _ & _ & _ & _ & _ & _ & H10 & _).
  destruct (H10 eq_refl (Hfit 65804 ltac:(lia))) as (_ & Hd & Ho).
  destruct (block_to_path_partition cfg_all sb1k plain_file 16843020 Hb
              (Hfit 16843020 ltac:(lia)))
    as (_ & _ & _ & _ & _ & Hout & _).
  destruct (block_to_path_partition cfg_all sb1k plain_file 5 Hb (Hfit 5 ltac:(lia)))
    as (_ & _ & _ & _ & _ & _ & _ & _ & Hwrap).
  split; [exact Hd|]. split; [exact Ho|].
  split; [apply Hout; vm_compute; discriminate|].
  apply Hwrap. reflexivity.
Defined.

(** C5 as stated fails: with FILE_HUGE the parameter is a 32-bit number,
    and block 2^32 + 5, far beyond the capacity of the tree, is resolved as
    block 5 (depth 1) instead of being refused. *)
Lemma block_beyond_range_is_resolved :
  ~ (forall (cfg : config) (sb : super_block) (ino : inode) (i : Z),
       0 <= NEXT3_ADDR_PER_BLOCK_BITS sb ->
       tree_capacity cfg sb ino <= i ->
       depth (next3_block_to_path cfg sb ino i) = 0).
Proof.
  intros H.
  specialize (H cfg_all sb1k plain_file (2 ^ 32 + 5)
                ltac:(vm_compute; discriminate) ltac:(vm_compute; discriminate)).
  vm_compute in H. discriminate H.
Qed.

(** ** Boundary and the batch cap *)

Lemma zero_run_bounds (fuel : nat) (l : list Z) (p blks btb count : Z) :
  count <= btb + 1 -> count <= blks ->
  count <= zero_run fuel l p blks btb count
  /\ zero_run fuel l p blks btb count <= btb + 1
  /\ zero_run fuel l p blks btb count <= blks.
Proof.
  revert count. induction fuel as [|fuel IH]; intros count H1 H2; simpl.
  - lia.
  - destruct (Z.ltb_spec count blks); simpl; [|lia].
    destruct (Z.leb_spec count btb); simpl; [|lia].
    destruct (read_slot l (p + count) =? 0); [|lia].
    specialize (IH (count + 1) ltac:(lia) ltac:(lia)). lia.
Qed.

Lemma blks_to_allocate_capped (ino : inode) (bufs : gmap Z (list Z))
    (branch0 : Indirect) (k blks btb : Z) :
  0 <= btb -> 1 <= blks ->
  1 <= next3_blks_to_allocate ino bufs branch0 k blks btb <= Z.min blks (btb + 1).
Proof.
  intros Hb Hk. unfold next3_blks_to_allocate.
  destruct (0 <? k).
  - destruct (Z.ltb_spec blks (btb + 1)); lia.
  - pose proof (zero_run_bounds (Z.to_nat btb)
                  (holder_data ino bufs (ind_bh branch0)) (ind_p branch0)
                  blks btb 1 ltac:(lia) ltac:(lia)).
    lia.
Qed.

Lemma boundary_formula_body (cfg : config) (sb : super_block) (ino : inode) (i : Z) :
  10 <= s_blocksize_bits sb -> 0 <= i ->
  let r := block_to_path_body cfg sb ino i in
  depth r <> 0 ->
  boundary r = leaf_slots sb r - 1 - List.last (offsets r) 0
  /\ 0 <= List.last (offsets r) 0 < leaf_slots sb r.
Proof.
  intros Hbits Hi r. subst r.
  assert (Hb : 0 <= NEXT3_ADDR_PER_BLOCK_BITS sb) by (unfold NEXT3_ADDR_PER_BLOCK_BITS; lia).
  pose proof (ptrs_pos sb Hb) as Hp.
  assert (H256 : 256 <= NEXT3_ADDR_PER_BLOCK sb).
  { rewrite ptrs_pow by assumption. change 256 with (2 ^ 8).
    apply Z.pow_le_mono_r; unfold NEXT3_ADDR_PER_BLOCK_BITS; lia. }
  assert (Hmod : forall x, 0 <= Z.land x (NEXT3_ADDR_PER_BLOCK sb - 1) < NEXT3_ADDR_PER_BLOCK sb).
  { intros x. rewrite mask_mod by assumption. apply Z.mod_pos_bound. assumption. }
  assert (Hsmall : forall x, 0 <= x < NEXT3_ADDR_PER_BLOCK sb ->
                             Z.land x (NEXT3_ADDR_PER_BLOCK sb - 1) = x).
  { intros x Hx. rewrite mask_mod by assumption. apply Z.mod_small. assumption. }
  unfold block_to_path_body.
  destruct (Z.ltb_spec i 0); [lia|]. rewrite andb_false_r.
  destruct (Z.ltb_spec i NEXT3_NDIR_BLOCKS) as [Hd|Hd].
  { intros _. unfold finish, leaf_slots, NEXT3_NDIR_BLOCKS in *; simpl.
    rewrite Hsmall by lia. lia. }
  destruct (Z.ltb_spec (i - NEXT3_NDIR_BLOCKS) (NEXT3_ADDR_PER_BLOCK sb)) as [Hi1|Hi1].
  { intros _. unfold finish, leaf_slots, NEXT3_NDIR_BLOCKS in *; simpl.
    rewrite Hsmall by lia. lia. }
  match goal with |- context [if ?c then _ else _] => destruct c end.
  { intros _. unfold finish, leaf_slots; simpl.
    specialize (Hmod (i - NEXT3_NDIR_BLOCKS - NEXT3_ADDR_PER_BLOCK sb)). lia. }
  match goal with |- context [if ?c then _ else _] => destruct c end.
  { intros _. unfold finish, leaf_slots; simpl.
    match goal with |- context [Z.land ?x _] => specialize (Hmod x) end. lia. }
  match goal with |- context [if ?c then _ else _] => destruct c end.
  { intros _. unfold finish, leaf_slots; simpl.
    match goal with |- context [boundary] => idtac | _ => idtac end.
    match goal with |- _ - 1 - Z.land ?x _ = _ /\ _ => specialize (Hmod x) end. lia. }
  unfold finish; simpl. intros Hne. exfalso. apply Hne. reflexivity.
Qed.

Lemma boundary_formula (cfg : config) (sb : super_block) (ino : inode) (i : Z) :
  10 <= s_blocksize_bits sb ->
  let r := next3_block_to_path cfg sb ino i in
  depth r <> 0 ->
  boundary r = leaf_slots sb r - 1 - List.last (offsets r) 0
  /\ 0 <= List.last (offsets r) 0 < leaf_slots sb r.
Proof.
  intros Hbits r Hd. subst r. unfold next3_block_to_path in *.
  destruct (Z_lt_le_dec (to_i_block cfg i) 0) as [Hneg | Hpos].
  - exfalso. apply Hd. revert Hneg. unfold to_i_block, block_to_path_body.
    destruct (cfg_file_huge cfg); intros Hneg.
    + unfold wrap32 in Hneg. pose proof (Z.mod_pos_bound i (2 ^ 32) ltac:(lia)). lia.
    + cbn [negb andb]. destruct (Z.ltb_spec (wrap_long cfg i) 0); [reflexivity | lia].
  - apply boundary_formula_body; assumption.
Qed.

(** ** The truncate budget and the truncate guards *)

Section TruncateFacts.
Variable cfg : config.
Variable sb : super_block.
Variable journal_start_ok : list event -> Z -> bool.
Variable grab_cache_page_ok : list event -> Z -> bool.
Variable next3_should_writeback_data : inode -> bool.
Variable orphan_add_err : list event -> Z -> Z.
Variable free_branches_from : path -> inode -> list event -> inode * list event.

Local Abbreviation truncate :=
  (next3_truncate cfg sb journal_start_ok grab_cache_page_ok
     next3_should_writeback_data orphan_add_err free_branches_from).


Lemma can_truncate_refuses (ino : inode) :
  IS_APPEND ino = true \/ IS_IMMUTABLE ino = true
  \/ next3_inode_is_fast_symlink sb ino = true
  \/ (S_ISREG (i_mode ino) = false /\ S_ISDIR (i_mode ino) = false
      /\ S_ISLNK (i_mode ino) = false) ->
  next3_can_truncate sb ino = false.
Proof.
  unfold next3_can_truncate.
  intros [H | [H | [H | (Hr & Hd & Hl)]]].
  - rewrite H. reflexivity.
  - rewrite H, orb_true_r. reflexivity.
  - destruct (IS_APPEND ino || IS_IMMUTABLE ino); [reflexivity|].
    unfold next3_inode_is_fast_symlink in *.
    apply andb_prop in H as [Hl Hz].
    assert (S_ISREG (i_mode ino) = false) as ->.
    { unfold S_ISLNK, S_ISREG in *. apply Z.eqb_eq in Hl. rewrite Hl. reflexivity. }
    assert (S_ISDIR (i_mode ino) = false) as ->.
    { unfold S_ISLNK, S_ISDIR in *. apply Z.eqb_eq in Hl. rewrite Hl. reflexivity. }
    rewrite Hl. simpl. rewrite Hz. reflexivity.
  - rewrite Hr, Hd, Hl. destruct (IS_APPEND ino || IS_IMMUTABLE ino); reflexivity.
Qed.

Lemma truncate_refused (ino : inode) (log : list event) :
  (cfg_file_perm cfg && next3_snapshot_list ino = true)
  \/ next3_can_truncate sb ino = false ->
  fst (truncate ino log) = ino
  /\ (snd (truncate ino log) = log
      \/ snd (truncate ino log) = log ++ [EvOrphanDel (i_ino ino)]).
Proof.
  intros H. unfold next3_truncate.
  destruct (cfg_file_perm cfg && next3_snapshot_list ino) eqn:Hs.
  - simpl. auto.
  - destruct H as [H | H]; [discriminate|].
    rewrite H. simpl. unfold out_notrans.
    destruct (negb (i_nlink ino =? 0)); simpl; auto.
Qed.

End TruncateFacts.


(** C10. [next3_truncate] leaves the inode (its block tree, size and block
    count) as it was and frees no block when its preconditions fail: for an
    inode on the snapshot list it returns at once, without any outside call;
    for an append-only or immutable inode, a fast symlink, or an inode that
    is not a regular file, directory or symlink, the only thing it may do is
    take the inode off the orphan list. *)
Theorem truncate_guards_frame
    (cfg : config) (sb : super_block)
    (journal_start_ok grab_cache_page_ok : list event -> Z -> bool)
    (writeback : inode -> bool) (orphan_add_err : list event -> Z -> Z)
    (free_branches_from : path -> inode -> list event -> inode * list event)
    (ino : inode) (log : list event) :
  let r := next3_truncate cfg sb journal_start_ok grab_cache_page_ok
             writeback orphan_add_err free_branches_from ino log in
  (cfg_file_perm cfg = true -> next3_snapshot_list ino = true -> r = (ino, log))
  /\ (IS_APPEND ino = true \/ IS_IMMUTABLE ino = true
      \/ next3_inode_is_fast_symlink sb ino = true
      \/ (S_ISREG (i_mode ino) = false /\ S_ISDIR (i_mode ino) = false
          /\ S_ISLNK (i_mode ino) = false) ->
      fst r = ino
      /\ i_data (fst r) = i_data ino /\ i_size (fst r) = i_size ino
      /\ i_blocks (fst r) = i_blocks ino
      /\ exists added,
           snd r = log ++ added
           /\ (added = [] \/ added = [EvOrphanDel (i_ino ino)])
           /\ forall i b n, ~ In (EvFreeBlocks i b n) added).
Proof.
  intros r. subst r. split.
  - intros Hc Hl. unfold next3_truncate. rewrite Hc, Hl. reflexivity.
  - intros H. apply (can_truncate_refuses sb) in H.
    destruct (truncate_refused cfg sb journal_start_ok grab_cache_page_ok writeback
                orphan_add_err free_branches_from ino log (or_intror H)) as [Hi Hlog].
    rewrite Hi. repeat split.
    destruct Hlog as [-> | ->].
    + exists []. rewrite app_nil_r. split; [reflexivity|]. split; [auto|].
      intros i b n [].
    + exists [EvOrphanDel (i_ino ino)]. split; [reflexivity|]. split; [auto|].
      intros i b n [Hin | []]. discriminate.
Qed.

Lemma truncate_guards_frame_witness :
  next3_truncate cfg_all sb1k (fun _ _ => true) (fun _ _ => true) (fun _ => false)
    (fun _ _ => 0) (fun _ i _ => (set_i_data i [], [EvFreeBlocks 20 100 1]))
    (with_mode_flags (with_blocks plain_file 8) 33188 S_IMMUTABLE) []
  = (with_mode_flags (with_blocks plain_file 8) 33188 S_IMMUTABLE,
     [EvOrphanDel 20]).
Proof.
  pose proof (truncate_guards_frame cfg_all sb1k (fun _ _ => true) (fun _ _ => true)
                (fun _ => false) (fun _ _ => 0)
                (fun _ i _ => (set_i_data i [], [EvFreeBlocks 20 100 1]))
                (with_mode_flags (with_blocks plain_file 8) 33188 S_IMMUTABLE) [])
    as [_ H].
  destruct (H (or_intror (or_introl eq_refl))) as (Hi & _ & _ & _ & added & Hlog & _ & _).
  reflexivity.
Defined.

(** ** Goal selection *)

Lemma scan_left_none (l : list Z) (n : nat) :
  scan_left l n = None <->
  (forall j, 0 <= j < Z.of_nat n -> read_slot l j = 0).
Proof.
  induction n as [|n IH]; simpl.
  - split; [intros _ j Hj; lia | reflexivity].
  - destruct (Z.eqb_spec (read_slot l (Z.of_nat n)) 0) as [Hz | Hnz].
    + rewrite IH. split.
      * intros H j Hj. destruct (Z.eq_dec j (Z.of_nat n)) as [-> | Hne]; [exact Hz|].
        apply H. lia.
      * intros H j Hj. apply H. lia.
    + split; [discriminate|]. intros H. exfalso. apply Hnz. apply H. lia.
Qed.

Lemma scan_left_nearest (l : list Z) (n : nat) (j : Z) :
  0 <= j < Z.of_nat n -> read_slot l j <> 0 ->
  (forall k, j < k < Z.of_nat n -> read_slot l k = 0) ->
  scan_left l n = Some (read_slot l j).
Proof.
  induction n as [|n IH]; intros Hj Hnz Hz; simpl.
  - lia.
  - destruct (Z.eq_dec j (Z.of_nat n)) as [-> | Hne].
    + destruct (Z.eqb_spec (read_slot l (Z.of_nat n)) 0); [contradiction | reflexivity].
    + rewrite (proj2 (Z.eqb_eq _ _) (Hz (Z.of_nat n) ltac:(lia))).
      apply IH; [lia | assumption | intros k Hk; apply Hz; lia].
Qed.

Section GoalFacts.
Variable cfg : config.
Variable sb : super_block.
Variable group_first_block_no : super_block -> Z -> Z.
Variable pid : Z.

Local Abbreviation find_near := (next3_find_near sb group_first_block_no pid).
Local Abbreviation find_goal := (next3_find_goal cfg sb group_first_block_no pid).

Lemma find_goal_sequential (ino : inode) (bufs : gmap Z (list Z)) (iblock : Z)
    (partial : Indirect) (bi : block_alloc_info) :
  i_block_alloc_info ino = Some bi ->
  last_alloc_logical_block bi = iblock - 1 ->
  last_alloc_physical_block bi <> 0 ->
  find_goal ino bufs iblock partial = last_alloc_physical_block bi + 1.
Proof.
  intros Hbi Hl Hp. unfold next3_find_goal. rewrite Hbi.
  rewrite (proj2 (Z.eqb_eq iblock (last_alloc_logical_block bi + 1))) by lia.
  destruct (Z.eqb_spec (last_alloc_physical_block bi) 0); [contradiction | reflexivity].
Qed.

Lemma find_goal_otherwise (ino : inode) (bufs : gmap Z (list Z)) (iblock : Z)
    (partial : Indirect) :
  ~ remembers_previous ino iblock ->
  find_goal ino bufs iblock partial
  = if cfg_file_goal cfg && next3_snapshot_file ino then iblock
    else find_near ino bufs partial.
Proof.
  intros Hn. unfold next3_find_goal.
  destruct (i_block_alloc_info ino) as [bi|] eqn:Hbi; [|reflexivity].
  destruct (Z.eqb_spec iblock (last_alloc_logical_block bi + 1)) as [He|]; [|reflexivity].
  destruct (Z.eqb_spec (last_alloc_physical_block bi) 0) as [|Hp]; [reflexivity|].
  exfalso. apply Hn. exists bi.
  split; [first [assumption | reflexivity] | split; [lia | assumption]].
Qed.

Lemma find_near_left (ino : inode) (bufs : gmap Z (list Z)) (ind : Indirect) (j : Z) :
  let slots := holder_data ino bufs (ind_bh ind) in
  0 <= j < ind_p ind -> read_slot slots j <> 0 ->
  (forall k, j < k < ind_p ind -> read_slot slots k = 0) ->
  find_near ino bufs ind = read_slot slots j.
Proof.
  intros slots Hj Hnz Hz. unfold next3_find_near. fold slots.
  rewrite (scan_left_nearest slots (Z.to_nat (ind_p ind)) j); try assumption; try lia.
  intros k Hk. apply Hz. lia.
Qed.

Lemma find_near_no_left (ino : inode) (bufs : gmap Z (list Z)) (ind : Indirect) :
  let slots := holder_data ino bufs (ind_bh ind) in
  (forall k, 0 <= k < ind_p ind -> read_slot slots k = 0) ->
  find_near ino bufs ind
  = match ind_bh ind with
    | Some blocknr => blocknr
    | None => group_first_block_no sb (i_block_group ino)
              + Z.rem pid 16 * Z.quot (s_blocks_per_group sb) 16
    end.
Proof.
  intros slots Hz. unfold next3_find_near. fold slots.
  rewrite (proj2 (scan_left_none slots (Z.to_nat (ind_p ind)))); [reflexivity|].
  intros k Hk. apply Hz. lia.
Qed.

End GoalFacts.

(** C7 (amended). [next3_find_goal] returns last_alloc_physical_block + 1
    when the inode remembers last_alloc_logical_block = iblock - 1 together
    with a non-zero last_alloc_physical_block; failing that, for a snapshot
    file it returns the source physical block itself (iblock); otherwise it
    returns [next3_find_near], which yields the nearest non-zero pointer to
    the left of the current position, failing that the block number of the
    holding indirect block, and failing that group_start(inode.group) +
    (pid mod 16) * (blocks_per_group / 16). *)
Theorem find_goal_selection
    (cfg : config) (sb : super_block) (group_first_block_no : super_block -> Z -> Z)
    (pid : Z) (ino : inode) (bufs : gmap Z (list Z)) (iblock : Z) (partial : Indirect) :
  let goal := next3_find_goal cfg sb group_first_block_no pid ino bufs iblock partial in
  let near := next3_find_near sb group_first_block_no pid ino bufs partial in
  let slots := holder_data ino bufs (ind_bh partial) in
  (forall bi, i_block_alloc_info ino = Some bi ->
              last_alloc_logical_block bi = iblock - 1 ->
              last_alloc_physical_block bi <> 0 ->
              goal = last_alloc_physical_block bi + 1)
  /\ (~ remembers_previous ino iblock ->
      cfg_file_goal cfg = true -> next3_snapshot_file ino = true ->
      goal = iblock)
  /\ (~ remembers_previous ino iblock ->
      cfg_file_goal cfg && next3_snapshot_file ino = false ->
      goal = near)
  /\ (forall j, 0 <= j < ind_p partial -> read_slot slots j <> 0 ->
                (forall k, j < k < ind_p partial -> read_slot slots k = 0) ->
                near = read_slot slots j)
  /\ ((forall k, 0 <= k < ind_p partial -> read_slot slots k = 0) ->
      forall blocknr, ind_bh partial = Some blocknr -> near = blocknr)
  /\ ((forall k, 0 <= k < ind_p partial -> read_slot slots k = 0) ->
      ind_bh partial = None -> 0 <= pid -> 0 <= s_blocks_per_group sb ->
      near = group_first_block_no sb (i_block_group ino)
             + (pid mod 16) * (s_blocks_per_group sb / 16)).
Proof.
  intros goal near slots. subst goal near slots.
  split; [intros bi H1 H2 H3; eapply find_goal_sequential; eassumption|].
  split.
  { intros Hn Hc Hs. rewrite find_goal_otherwise by assumption. rewrite Hc, Hs. reflexivity. }
  split.
  { intros Hn Hc. rewrite find_goal_otherwise by assumption. rewrite Hc. reflexivity. }
  split; [intros j H1 H2 H3; apply find_near_left; assumption|].
  split.
  { intros Hz blocknr Hbh. rewrite find_near_no_left by assumption. rewrite Hbh. reflexivity. }
  intros Hz Hbh Hpid Hbpg. rewrite find_near_no_left by assumption. rewrite Hbh.
  rewrite Z.rem_mod_nonneg by lia. rewrite Z.quot_div_nonneg by lia. reflexivity.
Qed.

Lemma find_goal_selection_witness :
  next3_find_goal cfg_all sb1k group_first_block 7
    (file_with_history 4 100 (replicate 15 0)) ∅ 5
    {| ind_p := 5; ind_key := 0; ind_bh := None |} = 101.
Proof.
  destruct (find_goal_selection cfg_all sb1k group_first_block 7
              (file_with_history 4 100 (replicate 15 0)) ∅ 5
              {| ind_p := 5; ind_key := 0; ind_bh := None |}) as [H _].
  apply (H {| last_alloc_logical_block := 4; last_alloc_physical_block := 100 |}).
  - reflexivity.
  - reflexivity.
  - discriminate.
Defined.

(** C7 as stated fails: a freshly initialised allocation record remembers
    logical block 0 with physical block 0; for iblock 1 the sequential rule
    would give goal 1, but the code falls back to [next3_find_near] and
    returns the pointer left of the position (500). *)
Lemma find_goal_needs_physical_block :
  ~ (forall (cfg : config) (sb : super_block) (gfb : super_block -> Z -> Z) (pid : Z)
            (ino : inode) (bufs : gmap Z (list Z)) (iblock : Z) (partial : Indirect)
            (bi : block_alloc_info),
       i_block_alloc_info ino = Some bi ->
       last_alloc_logical_block bi = iblock - 1 ->
       next3_find_goal cfg sb gfb pid ino bufs iblock partial
       = last_alloc_physical_block bi + 1).
Proof.
  intros H.
  specialize (H cfg_all sb1k group_first_block 7
                (file_with_history 0 0 (500 :: replicate 14 0)) ∅ 1
                {| ind_p := 1; ind_key := 0; ind_bh := None |}
                {| last_alloc_logical_block := 0; last_alloc_physical_block := 0 |}
                eq_refl eq_refl).
  vm_compute in H. discriminate.
Qed.

(** ** Branch allocation: what a failed call leaves behind *)

Lemma granted_blocks_app (a b : list event) :
  granted_blocks (a ++ b) = granted_blocks a ++ granted_blocks b.
Proof. unfold granted_blocks. apply flat_map_app. Qed.

Lemma freed_blocks_app (a b : list event) :
  freed_blocks (a ++ b) = freed_blocks a ++ freed_blocks b.
Proof. unfold freed_blocks. apply flat_map_app. Qed.

Lemma created_buffers_app (a b : list event) :
  created_buffers (a ++ b) = created_buffers a ++ created_buffers b.
Proof. unfold created_buffers. apply flat_map_app. Qed.

Lemma forgotten_buffers_app (a b : list event) :
  forgotten_buffers (a ++ b) = forgotten_buffers a ++ forgotten_buffers b.
Proof. unfold forgotten_buffers. apply flat_map_app. Qed.

Lemma quota_charged_app (i : Z) (a b : list event) :
  quota_charged i (a ++ b) = quota_charged i a + quota_charged i b.
Proof.
  induction a as [|ev a IH]; simpl; [reflexivity|].
  destruct ev; rewrite ?IH; lia.
Qed.

Lemma freed_blocks_singles (ino : Z) (l : list Z) :
  freed_blocks (map (fun b => EvFreeBlocks ino b 1) l) = l.
Proof.
  induction l as [|b l IH]; simpl; [reflexivity|].
  unfold freed_blocks in *. simpl. rewrite IH. reflexivity.
Qed.

Lemma allocator_calls_quiet (i : Z) (l : list event) :
  forallb allocator_call l = true ->
  quota_charged i l = 0 /\ created_buffers l = [] /\ forgotten_buffers l = [].
Proof.
  induction l as [|ev l IH]; simpl; [auto|].
  intros H. apply andb_prop in H as [Hev Hl]. destruct (IH Hl) as (Hq & Hc & Hf).
  unfold created_buffers, forgotten_buffers in *.
  destruct ev; simpl in *; try discriminate; auto.
Qed.

Lemma allocator_calls_free (ino : Z) (l : list Z) :
  forallb allocator_call (map (fun b => EvFreeBlocks ino b 1) l) = true.
Proof. induction l; simpl; auto. Qed.

Section AllocatorFacts.
Variable cfg : config.
Variable sb : super_block.
Variable new_blocks_oracle : list event -> Z -> Z -> Z -> Z * Z * Z.
Variable jbd : list event -> event -> Z.

Lemma alloc_loop_spec (fuel : nat) :
  forall (ino goal indirect_blks blks target : Z) (nb : list Z) (log : list event)
         (r : Z * Z * list Z * list event),
    alloc_loop cfg new_blocks_oracle fuel ino goal indirect_blks blks target nb log = Some r ->
    Z.of_nat (length nb) <= indirect_blks ->
    target = blks + indirect_blks - Z.of_nat (length nb) ->
    1 <= target -> 0 <= blks ->
    1 <= blks \/ cfg_block_move cfg = true ->
    alloc_loop_post ino indirect_blks blks nb log r.
Proof.
  induction fuel as [|fuel IH];
    intros ino goal ib blks target nb log r Hr Hlen Htarget Htpos Hblks Hcfg;
    simpl in Hr; [discriminate|].
  destruct (new_blocks_oracle log ino goal target) as [[err cur] granted] eqn:Ho.
  destruct (Z.eqb_spec err 0) as [He | He]; simpl in Hr.
  2:{ injection Hr as <-. unfold alloc_loop_post.
      exists (map (fun b => EvFreeBlocks ino b 1) nb), [].
      split; [reflexivity|]. split; [apply allocator_calls_free|].
      left. rewrite app_nil_r, freed_blocks_singles.
      repeat split; try assumption.
      unfold granted_blocks. clear. induction nb; simpl; auto. }
  set (count := granted_count target granted) in *.
  assert (Hcount : 1 <= count) by (unfold count, granted_count; lia).
  set (k := Z.max 0 (Z.min (ib - Z.of_nat (length nb)) count)) in *.
  assert (Hk : 0 <= k <= count) by (unfold k; lia).
  assert (Hk2 : k <= ib - Z.of_nat (length nb)) by (unfold k; lia).
  assert (Hlen1 : Z.of_nat (length (nb ++ seqZ cur k)) = Z.of_nat (length nb) + k).
  { rewrite length_app, length_seqZ. lia. }
  assert (Hsplit : seqZ cur count = seqZ cur k ++ seqZ (cur + k) (count - k)).
  { replace count with (k + (count - k)) at 1 by lia. apply seqZ_app; lia. }
  destruct (cfg_block_move cfg && (blks =? 0) && (target - count =? 0)) eqn:Hmove.
  { injection Hr as <-. unfold alloc_loop_post.
    apply andb_prop in Hmove as [Hm1 Ht]. apply andb_prop in Hm1 as [_ Hb].
    apply Z.eqb_eq in Ht, Hb.
    exists [EvNewBlocks ino goal cur count], (seqZ cur k).
    split; [reflexivity|]. split; [reflexivity|].
    right; right.
    assert (k = count) by lia.
    repeat split; try assumption; try reflexivity.
    - rewrite Hlen1. lia.
    - unfold granted_blocks. simpl. rewrite app_nil_r. congruence. }
  destruct (Z.ltb_spec 0 (count - k)) as [Hleft | Hleft].
  { injection Hr as <-. unfold alloc_loop_post.
    exists [EvNewBlocks ino goal cur count], (seqZ cur k).
    split; [reflexivity|]. split; [reflexivity|].
    right; left.
    assert (Hct : count <= target) by (unfold count, granted_count; lia).
    split; [reflexivity|]. split; [unfold k in *; lia|]. split; [reflexivity|].
    exists (cur + k).
    split; [rewrite app_assoc; reflexivity|].
    split; [rewrite Hlen1; unfold k; lia|].
    unfold granted_blocks. simpl. rewrite app_nil_r. exact Hsplit. }
  assert (Hkc : k = count) by lia.
  apply IH in Hr; [| rewrite Hlen1; lia | rewrite Hlen1; lia | | assumption | assumption].
  2:{ destruct Hcfg as [Hb1 | Hm]; [lia|].
      rewrite Hm in Hmove. simpl in Hmove.
      destruct (Z.eqb_spec blks 0) as [Hb0 | Hb0]; simpl in Hmove; [|lia].
      apply Z.eqb_neq in Hmove. lia. }
  unfold alloc_loop_post in *. destruct r as [[[err' ret] nb'] log'].
  destruct Hr as (added & G & Hlog & Hcalls & Hcases).
  exists (EvNewBlocks ino goal cur count :: added), (seqZ cur k ++ G).
  split; [rewrite Hlog, <- app_assoc; reflexivity|].
  split; [simpl; exact Hcalls|].
  assert (Hg : forall t, granted_blocks (EvNewBlocks ino goal cur count :: t)
                         = seqZ cur k ++ granted_blocks t).
  { intros t. unfold granted_blocks. simpl. rewrite Hkc. reflexivity. }
  assert (Hf : forall t, freed_blocks (EvNewBlocks ino goal cur count :: t) = freed_blocks t)
    by reflexivity.
  destruct Hcases as [(H1 & H2 & H3 & H4 & H5) | [(H1 & H2 & H3 & cur' & H4 & H5 & H6)
                     | (H1 & H2 & H3 & H4 & H5 & H6 & H7)]].
  - left. rewrite Hg, Hf, H4, H5, H3, <- !app_assoc. repeat split; auto.
  - right; left. rewrite Hf, Hg, H6.
    split; [assumption|]. split; [assumption|]. split; [assumption|].
    exists cur'. rewrite H4, <- !app_assoc. repeat split; auto.
    rewrite <- H5, <- !app_assoc. reflexivity.
  - right; right. rewrite Hf, Hg, H7, H5, <- !app_assoc. repeat split; auto.
    rewrite <- H6, H5, <- !app_assoc. reflexivity.
Qed.

End AllocatorFacts.

Section AllocatorTotal.
Variable cfg : config.
Variable sb : super_block.
Variable new_blocks_oracle : list event -> Z -> Z -> Z -> Z * Z * Z.
Variable jbd : list event -> event -> Z.

(** The fuel handed to the allocation loop is enough: the loop never runs
    out before it returns. *)
Lemma alloc_loop_enough_fuel (fuel : nat) :
  forall (ino goal indirect_blks blks target : Z) (nb : list Z) (log : list event),
    Z.of_nat (length nb) <= indirect_blks ->
    target = blks + indirect_blks - Z.of_nat (length nb) ->
    0 <= blks ->
    (Z.to_nat target < fuel)%nat ->
    is_Some (alloc_loop cfg new_blocks_oracle fuel ino goal indirect_blks blks target nb log).
Proof.
  induction fuel as [|fuel IH]; intros ino goal ib blks target nb log Hlen Htarget Hblks Hfuel;
    [lia|].
  simpl.
  destruct (new_blocks_oracle log ino goal target) as [[err cur] granted].
  destruct (negb (err =? 0)); [eexists; reflexivity|].
  set (count := granted_count target granted).
  assert (Hcount : 1 <= count) by (unfold count, granted_count; lia).
  set (k := Z.max 0 (Z.min (ib - Z.of_nat (length nb)) count)).
  destruct (cfg_block_move cfg && (blks =? 0) && (target - count =? 0));
    [eexists; reflexivity|].
  destruct (Z.ltb_spec 0 (count - k)); [eexists; reflexivity|].
  assert (Hk : k = count) by (unfold k in *; lia).
  assert (Hlen1 : Z.of_nat (length (nb ++ seqZ cur k)) = Z.of_nat (length nb) + k).
  { rewrite length_app, length_seqZ. lia. }
  apply IH; try assumption.
  - rewrite Hlen1. unfold k. lia.
  - rewrite Hlen1. lia.
  - unfold k in Hk. lia.
Qed.

Lemma next3_alloc_blocks_spec (ino goal indirect_blks blks : Z) (log : list event) :
  0 <= indirect_blks -> 0 <= blks -> 1 <= blks + indirect_blks ->
  1 <= blks \/ cfg_block_move cfg = true ->
  alloc_loop_post ino indirect_blks blks [] log
    (next3_alloc_blocks cfg new_blocks_oracle ino goal indirect_blks blks log).
Proof.
  intros Hib Hblks Hpos Hcfg. unfold next3_alloc_blocks.
  assert (Hsome : is_Some (alloc_loop cfg new_blocks_oracle
                             (S (Z.to_nat (blks + indirect_blks)))
                             ino goal indirect_blks blks (blks + indirect_blks) [] log)).
  { apply alloc_loop_enough_fuel; simpl; lia. }
  destruct Hsome as [r Hr]. rewrite Hr. simpl.
  eapply alloc_loop_spec; [exact Hr | simpl; lia | simpl; lia | lia | lia | assumption].
Qed.

(** Stores into a buffer leave the inode, the log and all other buffers
    alone. *)
Lemma store_slot_frame (b idx v : Z) (st : mstate) :
  m_inode (store_slot (Some b) idx v st) = m_inode st
  /\ m_log (store_slot (Some b) idx v st) = m_log st
  /\ forall b', b' <> b -> m_bufs (store_slot (Some b) idx v st) !! b' = m_bufs st !! b'.
Proof.
  unfold store_slot. destruct (idx <? 0); simpl; [auto|].
  repeat split. intros b' Hne. apply lookup_alter_ne. congruence.
Qed.

Lemma store_run_frame (n : nat) (b p i cur : Z) (st : mstate) :
  m_inode (store_run n (Some b) p i cur st) = m_inode st
  /\ m_log (store_run n (Some b) p i cur st) = m_log st
  /\ forall b', b' <> b -> m_bufs (store_run n (Some b) p i cur st) !! b' = m_bufs st !! b'.
Proof.
  revert i cur st. induction n as [|n IH]; intros i cur st; simpl; [auto|].
  destruct (IH (i + 1) (cur + 1) (store_slot (Some b) (p + i) (cur + 1) st)) as (H1 & H2 & H3).
  destruct (store_slot_frame b (p + i) (cur + 1) st) as (H4 & H5 & H6).
  rewrite H1, H2, H4, H5. repeat split.
  intros b' Hne. rewrite H3, H6 by assumption. reflexivity.
Qed.

Lemma chain_at_app_last (c : list Indirect) (x : Indirect) :
  chain_at (c ++ [x]) (Z.of_nat (length c)) = x.
Proof.
  unfold chain_at. destruct (Z.ltb_spec (Z.of_nat (length c)) 0); [lia|].
  rewrite Nat2Z.id. rewrite lookup_app_r by lia. rewrite Nat.sub_diag. reflexivity.
Qed.

Lemma chain_at_app_before (c c' : list Indirect) (i : Z) :
  0 <= i < Z.of_nat (length c) -> chain_at (c ++ c') i = chain_at c i.
Proof.
  intros Hi. unfold chain_at. destruct (Z.ltb_spec i 0); [lia|].
  rewrite lookup_app_l by lia. reflexivity.
Qed.

End AllocatorTotal.

Section LinkFacts.
Variable cfg : config.
Variable sb : super_block.
Variable jbd : list event -> event -> Z.

Lemma link_loop_spec (steps : nat) :
  forall (cmd indirect_blks num n : Z) (offs new_blocks : list Z)
         (branch : list Indirect) (st : mstate),
    Z.of_nat steps = indirect_blks - n + 1 -> 1 <= n ->
    Z.of_nat (length branch) = n ->
    link_loop_post cfg indirect_blks n new_blocks branch st cmd
      (link_loop cfg sb jbd steps cmd indirect_blks num n offs new_blocks branch st)
    /\ (forall i, 0 <= i < n ->
          chain_at (snd (fst (link_loop cfg sb jbd steps cmd indirect_blks num n
                                offs new_blocks branch st))) i
          = chain_at branch i).
Proof.
  induction steps as [|steps IH];
    intros cmd ib num n offs nb branch st Hsteps Hn Hlen.
  { simpl. split; [|auto].
    exists []. rewrite app_nil_r.
    split; [reflexivity|]. split; [reflexivity|]. split; [reflexivity|].
    split; [reflexivity|]. split; [reflexivity|]. split; [reflexivity|].
    split; [reflexivity|].
    intros He. exfalso. apply He. reflexivity. }
  cbn [link_loop].
  set (bh := entry nb (n - 1)).
  set (tbh := {| ind_p := 0; ind_key := 0; ind_bh := Some bh |}).
  set (t := {| ind_p := entry offs n; ind_key := entry nb n; ind_bh := Some bh |}).
  assert (Hbh_in : forall b, (forall i, n <= i <= ib -> b <> entry nb (i - 1)) -> b <> bh).
  { intros b Hb. apply Hb. lia. }
  (* the state after the stores of this step, from a state [s] *)
  set (stores := fun s : mstate =>
         let s := store_slot (Some bh) (entry offs n) (entry nb n) (zero_buffer sb bh s) in
         if n =? ib
         then store_run (Z.to_nat (num - 1)) (Some bh) (entry offs n) 1 (entry nb n) s
         else s).
  assert (Hstores : forall s,
             m_inode (stores s) = m_inode s /\ m_log (stores s) = m_log s
             /\ forall b, b <> bh -> m_bufs (stores s) !! b = m_bufs s !! b).
  { intros s. unfold stores.
    destruct (store_slot_frame bh (entry offs n) (entry nb n) (zero_buffer sb bh s))
      as (H1 & H2 & H3).
    assert (Hz : forall b, b <> bh -> m_bufs (zero_buffer sb bh s) !! b = m_bufs s !! b).
    { intros b Hb. unfold zero_buffer. simpl. apply lookup_insert_ne. congruence. }
    destruct (n =? ib).
    - destruct (store_run_frame (Z.to_nat (num - 1)) bh (entry offs n) 1 (entry nb n)
                  (store_slot (Some bh) (entry offs n) (entry nb n) (zero_buffer sb bh s)))
        as (H4 & H5 & H6).
      rewrite H4, H5, H1, H2. repeat split.
      intros b Hb. rewrite H6, H3, Hz by assumption. reflexivity.
    - rewrite H1, H2. repeat split. intros b Hb. rewrite H3, Hz by assumption. reflexivity. }
  destruct (bypass cfg cmd) eqn:Hbyp.
  - (* journal bypassed: no failure in this step *)
    cbn [negb Z.eqb]. fold (stores st).
    specialize (IH cmd ib num (n + 1) offs nb (branch ++ [t])
                  (log_event (EvSyncDirtyBuffer bh) (stores st))
                  ltac:(lia) ltac:(lia)
                  ltac:(rewrite length_app; simpl; lia)).
    destruct IH as [IHpost IHchain].
    destruct (link_loop cfg sb jbd steps cmd ib num (n + 1) offs nb (branch ++ [t])
                (log_event (EvSyncDirtyBuffer bh) (stores st)))
      as [[[err n'] branch'] st'] eqn:Hr.
    destruct (Hstores st) as (Hs1 & Hs2 & Hs3).
    split.
    + unfold link_loop_post in *. destruct IHpost as (added & Hl & Hi & Hg & Hf & Hq & Hfo & Hb & Herr).
      exists (EvSyncDirtyBuffer bh :: added).
      split; [rewrite Hl; simpl; rewrite Hs2, <- app_assoc; reflexivity|].
      split; [rewrite Hi; simpl; exact Hs1|].
      split; [exact Hg|]. split; [exact Hf|]. split; [exact Hq|]. split; [exact Hfo|].
      split.
      { intros b Hne. rewrite Hb by (intros i Hi'; apply Hne; lia).
        simpl. apply Hs3. apply Hbh_in. exact Hne. }
      intros He. destruct (Herr He) as (Hc & _). congruence.
    + intros i Hi. simpl in IHchain. rewrite IHchain by lia.
      apply chain_at_app_before. lia.
  - (* through the journal *)
    unfold journal_call. cbn [fst snd].
    destruct (Z.eqb_spec (jbd (m_log st) (EvGetCreateAccess bh)) 0) as [Hc | Hc]; cbn [negb].
    2:{ (* get_create_access failed *)
        split.
        - unfold link_loop_post. exists [EvGetCreateAccess bh].
          split; [reflexivity|]. split; [reflexivity|]. split; [reflexivity|].
          split; [reflexivity|]. split; [reflexivity|]. split; [reflexivity|].
          split; [reflexivity|].
          intros _. split; [exact Hbyp|]. split; [lia|]. split.
          + intros b [<- | []]. exists n. split; [lia | reflexivity].
          + intros i Hi. assert (i = n) by lia. subst i.
            pose proof (chain_at_app_last branch tbh) as Hx.
            rewrite Hlen in Hx. rewrite Hx. reflexivity.
        - intros i Hi. simpl. apply chain_at_app_before. lia. }
    fold (stores (log_event (EvGetCreateAccess bh) st)).
    set (s1 := stores (log_event (EvGetCreateAccess bh) st)).
    destruct (Hstores (log_event (EvGetCreateAccess bh) st)) as (Hs1 & Hs2 & Hs3).
    fold s1 in Hs1, Hs2, Hs3. simpl in Hs1, Hs2, Hs3.
    destruct (Z.eqb_spec (jbd (m_log s1) (EvDirtyMetadata bh)) 0) as [Hd | Hd]; cbn [negb].
    2:{ (* journal_dirty_metadata failed *)
        split.
        - unfold link_loop_post. exists [EvGetCreateAccess bh; EvDirtyMetadata bh].
          split; [simpl; rewrite Hs2, <- app_assoc; reflexivity|].
          split; [simpl; exact Hs1|].
          split; [reflexivity|]. split; [reflexivity|]. split; [reflexivity|].
          split; [reflexivity|].
          split.
          { intros b Hne. simpl. apply Hs3. apply Hbh_in. exact Hne. }
          intros _. split; [exact Hbyp|]. split; [lia|]. split.
          + intros b [<- | []]. exists n. split; [lia | reflexivity].
          + intros i Hi. assert (i = n) by lia. subst i.
            pose proof (chain_at_app_last branch t) as Hx.
            rewrite Hlen in Hx. rewrite Hx. reflexivity.
        - intros i Hi. simpl. apply chain_at_app_before. lia. }
    specialize (IH cmd ib num (n + 1) offs nb (branch ++ [t])
                  (log_event (EvDirtyMetadata bh) s1)
                  ltac:(lia) ltac:(lia)
                  ltac:(rewrite length_app; simpl; lia)).
    destruct IH as [IHpost IHchain].
    destruct (link_loop cfg sb jbd steps cmd ib num (n + 1) offs nb (branch ++ [t])
                (log_event (EvDirtyMetadata bh) s1))
      as [[[err n'] branch'] st'] eqn:Hr.
    split.
    + unfold link_loop_post in *.
      destruct IHpost as (added & Hl & Hi & Hg & Hf & Hq & Hfo & Hb & Herr).
      exists (EvGetCreateAccess bh :: EvDirtyMetadata bh :: added).
      split; [rewrite Hl; simpl; rewrite Hs2, <- !app_assoc; reflexivity|].
      split; [rewrite Hi; simpl; exact Hs1|].
      split; [exact Hg|]. split; [exact Hf|]. split; [exact Hq|]. split; [exact Hfo|].
      split.
      { intros b Hne. rewrite Hb by (intros i Hi'; apply Hne; lia).
        simpl. apply Hs3. apply Hbh_in. exact Hne. }
      intros He. destruct (Herr He) as (_ & Hn' & Hcr & Hch).
      split; [exact Hbyp|]. split; [lia|]. split.
      * intros b [<- | Hin].
        -- exists n. split; [lia | reflexivity].
        -- destruct (Hcr b Hin) as (i & Hi' & ->). exists i. split; [lia | reflexivity].
      * intros i Hi'. destruct (Z.eq_dec i n) as [-> | Hne].
        -- simpl in IHchain. rewrite IHchain by lia.
           pose proof (chain_at_app_last branch t) as Hx.
           rewrite Hlen in Hx. rewrite Hx. reflexivity.
        -- apply Hch. lia.
    + intros i Hi. simpl in IHchain. rewrite IHchain by lia.
      apply chain_at_app_before. lia.
Qed.

End LinkFacts.

Lemma forget_events_read (f : Z -> option Z) (l : list Z) :
  let evs := map (fun i => EvJournalForget (f i)) l in
  granted_blocks evs = [] /\ freed_blocks evs = [] /\ created_buffers evs = []
  /\ forgotten_buffers evs = map f l /\ forall i, quota_charged i evs = 0.
Proof.
  induction l as [|x l IH]; simpl; [auto 6|].
  destruct IH as (H1 & H2 & H3 & H4 & H5).
  unfold granted_blocks, freed_blocks, created_buffers, forgotten_buffers in *. simpl.
  rewrite H4. auto 6.
Qed.

Lemma free_events_read (ino : Z) (g : Z -> Z) (l : list Z) :
  let evs := map (fun i => EvFreeBlocks ino (g i) 1) l in
  granted_blocks evs = [] /\ freed_blocks evs = map g l /\ created_buffers evs = []
  /\ forgotten_buffers evs = [] /\ forall i, quota_charged i evs = 0.
Proof.
  induction l as [|x l IH]; simpl; [auto 6|].
  destruct IH as (H1 & H2 & H3 & H4 & H5).
  unfold granted_blocks, freed_blocks, created_buffers, forgotten_buffers in *. simpl.
  rewrite H2. auto 6.
Qed.

Lemma entry_lookup (l : list Z) (m : nat) (x : Z) :
  l !! m = Some x -> entry l (Z.of_nat m) = x.
Proof.
  intros H. unfold entry, read_slot.
  destruct (Z.ltb_spec (Z.of_nat m) 0); [lia|].
  rewrite Nat2Z.id, H. reflexivity.
Qed.

Lemma map_entry_take (l : list Z) (m : nat) :
  (m <= length l)%nat ->
  map (entry l) (seqZ 0 (Z.of_nat m)) = take m l.
Proof.
  induction m as [|m IH]; intros Hm; [reflexivity|].
  replace (Z.of_nat (S m)) with (Z.of_nat m + 1) by lia.
  rewrite seqZ_app by lia. rewrite map_app, IH by lia.
  destruct (lookup_lt_is_Some_2 l m ltac:(lia)) as [x Hx].
  rewrite (take_S_r l m x Hx). f_equal.
  cbn. f_equal. rewrite <- (entry_lookup l m x Hx). reflexivity.
Qed.

Lemma entry_in (l : list Z) (i : Z) :
  0 <= i < Z.of_nat (length l) -> In (entry l i) l.
Proof.
  intros Hi.
  destruct (lookup_lt_is_Some_2 l (Z.to_nat i) ltac:(lia)) as [x Hx].
  replace i with (Z.of_nat (Z.to_nat i)) by lia.
  rewrite (entry_lookup l _ x Hx).
  apply list_elem_of_In. eapply list_elem_of_lookup_2. exact Hx.
Qed.

Lemma entry_app_l (l l' : list Z) (i : Z) :
  0 <= i < Z.of_nat (length l) -> entry (l ++ l') i = entry l i.
Proof.
  intros Hi. unfold entry, read_slot. destruct (Z.ltb_spec i 0); [lia|].
  rewrite lookup_app_l by lia. reflexivity.
Qed.

Lemma entry_app_r (l : list Z) (x : Z) :
  entry (l ++ [x]) (Z.of_nat (length l)) = x.
Proof.
  unfold entry, read_slot. destruct (Z.ltb_spec (Z.of_nat (length l)) 0); [lia|].
  rewrite Nat2Z.id, lookup_app_r by lia. rewrite Nat.sub_diag. reflexivity.
Qed.

Section BranchFailure.
Variable cfg : config.
Variable sb : super_block.
Variable new_blocks_oracle : list event -> Z -> Z -> Z -> Z * Z * Z.
Variable jbd : list event -> event -> Z.

(** The linking loop followed by the label [failed]. *)
Lemma link_then_failed (ino cmd indirect_blks num : Z) (offs new_blocks : list Z)
    (b0 : Indirect) (st1 : mstate) :
  0 <= indirect_blks -> 1 <= num ->
  indirect_blks < Z.of_nat (length new_blocks) ->
  forall err n branch' st2,
    link_loop cfg sb jbd (Z.to_nat indirect_blks) cmd indirect_blks num 1
      offs new_blocks [b0] st1 = (err, n, branch', st2) ->
    err <> 0 ->
    let st' := alloc_branch_failed cfg ino cmd indirect_blks num n new_blocks branch' st2 in
    exists added,
      m_log st' = m_log st1 ++ added
      /\ granted_blocks added = []
      /\ freed_blocks added
         = take (Z.to_nat indirect_blks) new_blocks
           ++ (if moving cfg cmd then [] else seqZ (entry new_blocks indirect_blks) num)
      /\ quota_charged ino added = (if moving cfg cmd then - num else 0)
      /\ (forall b, In b (created_buffers added) -> In (Some b) (forgotten_buffers added))
      /\ m_inode st' = m_inode st1
      /\ (forall b, ~ In b (take (Z.to_nat indirect_blks) new_blocks) ->
                    m_bufs st' !! b = m_bufs st1 !! b).
Proof.
  intros Hib Hnum Hlen err n branch' st2 Hloop Herr st'.
  destruct (link_loop_spec cfg sb jbd (Z.to_nat indirect_blks) cmd indirect_blks num 1
              offs new_blocks [b0] st1 ltac:(lia) ltac:(lia) eq_refl) as [Hpost _].
  rewrite Hloop in Hpost. unfold link_loop_post in Hpost.
  destruct Hpost as (added & Hlog & Hino & Hg & Hf & Hq & Hfo & Hbufs & Hfail).
  destruct (Hfail Herr) as (Hbyp & Hn & Hcreated & Hchain).
  set (forgets := map (fun i => EvJournalForget (ind_bh (chain_at branch' i))) (seqZ 1 n)).
  set (frees := map (fun i => EvFreeBlocks ino (entry new_blocks i) 1) (seqZ 0 indirect_blks)).
  set (last_ev := if moving cfg cmd then EvDquotFree ino num
                  else EvFreeBlocks ino (entry new_blocks indirect_blks) num).
  assert (Hst' : m_log st' = m_log st2 ++ forgets ++ frees ++ [last_ev]
                 /\ m_inode st' = m_inode st2 /\ m_bufs st' = m_bufs st2).
  { subst st'. unfold alloc_branch_failed. rewrite Hbyp.
    unfold last_ev, moving.
    destruct (cfg_block_move cfg); simpl.
    - destruct (SNAPMAP_ISMOVE cmd); simpl.
      + destruct (Z.ltb_spec 0 num); [|lia]. simpl.
        rewrite <- !app_assoc. auto.
      + destruct (Z.ltb_spec 0 num); [|lia]. simpl.
        rewrite <- !app_assoc. auto.
    - rewrite <- !app_assoc. auto. }
  destruct Hst' as (Hl' & Hi' & Hb').
  destruct (forget_events_read (fun i => ind_bh (chain_at branch' i)) (seqZ 1 n))
    as (Fg & Ff & Fc & Ffo & Fq).
  destruct (free_events_read ino (entry new_blocks) (seqZ 0 indirect_blks))
    as (Rg & Rf & Rc & Rfo & Rq).
  fold forgets in Fg, Ff, Fc, Ffo, Fq. fold frees in Rg, Rf, Rc, Rfo, Rq.
  exists (added ++ forgets ++ frees ++ [last_ev]).
  split; [rewrite Hl', Hlog, <- !app_assoc; reflexivity|].
  split.
  { rewrite !granted_blocks_app, Hg, Fg, Rg. unfold last_ev.
    destruct (moving cfg cmd); reflexivity. }
  split.
  { rewrite !freed_blocks_app, Hf, Ff, Rf. simpl.
    replace indirect_blks with (Z.of_nat (Z.to_nat indirect_blks)) at 1 by lia.
    rewrite map_entry_take by lia. f_equal.
    unfold last_ev. destruct (moving cfg cmd); [reflexivity|].
    unfold freed_blocks. simpl. apply app_nil_r. }
  split.
  { rewrite !quota_charged_app, Hq, Fq, Rq. unfold last_ev.
    destruct (moving cfg cmd); simpl; [rewrite Z.eqb_refl|]; lia. }
  split.
  { intros b Hb.
    rewrite !created_buffers_app, Fc, Rc in Hb.
    assert (Hin : In b (created_buffers added)).
    { apply in_app_or in Hb as [Hb | Hb]; [exact Hb|].
      unfold last_ev in Hb. destruct (moving cfg cmd); destruct Hb. }
    destruct (Hcreated b Hin) as (i & Hi & ->).
    rewrite !forgotten_buffers_app, Ffo.
    apply in_or_app. right. apply in_or_app. left.
    apply in_map_iff. exists i. split; [apply Hchain; exact Hi|].
    apply list_elem_of_In. apply elem_of_seqZ. lia. }
  split; [rewrite Hi', Hino; reflexivity|].
  intros b Hb. rewrite Hb'. apply Hbufs.
  intros i Hi Heq. apply Hb. subst b.
  rewrite <- (take_drop (Z.to_nat indirect_blks) new_blocks) at 1.
  rewrite entry_app_l by (rewrite length_take; lia).
  apply entry_in. rewrite length_take. lia.
Qed.

End BranchFailure.

Section BranchFailureMain.
Variable cfg : config.
Variable sb : super_block.
Variable new_blocks_oracle : list event -> Z -> Z -> Z -> Z * Z * Z.
Variable jbd : list event -> event -> Z.

Local Abbreviation alloc_branch :=
  (next3_alloc_branch_cow cfg sb new_blocks_oracle jbd).
Local Abbreviation splice_branch := (next3_splice_branch_cow cfg jbd).

Lemma alloc_branch_failure (iblock indirect_blks blks goal : Z) (offs : list Z)
    (branch0 : Indirect) (cmd : Z) (st : mstate) :
  0 <= indirect_blks -> 1 <= blks ->
  forall err blks' branch' st',
    alloc_branch iblock indirect_blks blks goal offs branch0 cmd st
    = (err, blks', branch', st') ->
    err <> 0 ->
    blks' = blks
    /\ exists added, cleaned_up (i_ino (m_inode st)) st st' added.
Proof.
  intros Hib Hblks err blks' branch' st' Hcall Herr.
  unfold next3_alloc_branch_cow in Hcall.
  set (ino := i_ino (m_inode st)) in *.
  destruct (moving cfg cmd) eqn:Hmv.
  - (* move mode: only the indirect blocks are allocated *)
    assert (Hcm : cfg_block_move cfg = true).
    { unfold moving in Hmv. apply andb_prop in Hmv. tauto. }
    destruct (Z.ltb_spec 0 indirect_blks) as [Hpos | Hzero].
    + pose proof (next3_alloc_blocks_spec cfg new_blocks_oracle ino goal indirect_blks 0
                    (m_log st) Hib ltac:(lia) ltac:(lia) (or_intror Hcm)) as Hpost.
      destruct (next3_alloc_blocks cfg new_blocks_oracle ino goal indirect_blks 0 (m_log st))
        as [[[e ret] nb] log'].
      unfold alloc_loop_post in Hpost.
      destruct Hpost as (added & G & Hlog & Hcalls & Hcases).
      destruct (allocator_calls_quiet ino added Hcalls) as (Hq & Hc & Hfo).
      destruct Hcases as [(He & Hret & Hnb & Hg & Hf) | [(He & Hret & _)
                         | (He & Hret & _ & Hf & Hnb & Hlen & Hg)]].
      * (* the allocator failed *)
        destruct (Z.eqb_spec e 0) as [|_]; [contradiction|]. simpl in Hcall.
        destruct (Z.eqb_spec e 0) as [|_]; [contradiction|]. simpl in Hcall.
        injection Hcall as <- <- <- <-.
        split; [reflexivity|]. exists added. unfold cleaned_up. simpl.
        split; [assumption|]. split; [rewrite Hf, Hg, Hnb; reflexivity|].
        split; [assumption|]. split; [rewrite Hc; intros b []|]. auto.
      * lia.
      * subst e. simpl in Hcall. simpl in Hnb. subst nb.
        rewrite firstn_all2 in Hcall by lia.
        set (st1 := log_event (EvDquotAlloc ino blks)
                      {| m_inode := m_inode st; m_bufs := m_bufs st; m_log := log' |}) in *.
        destruct (link_loop cfg sb jbd (Z.to_nat indirect_blks) cmd indirect_blks blks 1 offs
                    (G ++ [SNAPSHOT_BLOCK iblock])
                    [set_key branch0 (entry (G ++ [SNAPSHOT_BLOCK iblock]) 0)] st1)
          as [[[e n] br] st2] eqn:Hloop.
        destruct (Z.eqb_spec e 0) as [He0 | He0]; simpl in Hcall.
        { injection Hcall as <- _ _ _. contradiction. }
        injection Hcall as <- <- <- <-.
        split; [reflexivity|].
        destruct (link_then_failed cfg sb jbd ino cmd indirect_blks blks offs
                    (G ++ [SNAPSHOT_BLOCK iblock]) _ st1 Hib Hblks
                    ltac:(rewrite length_app; simpl; lia) e n br st2 Hloop He0)
          as (added2 & Hl2 & Hg2 & Hf2 & Hq2 & Hcr2 & Hi2 & Hb2).
        rewrite Hmv in Hf2, Hq2. rewrite app_nil_r in Hf2.
        rewrite take_app_length' in Hf2 by lia.
        rewrite take_app_length' in Hb2 by lia.
        exists (added ++ EvDquotAlloc ino blks :: added2). unfold cleaned_up.
        split.
        { rewrite Hl2. unfold st1. simpl. rewrite Hlog, <- !app_assoc. reflexivity. }
        change (EvDquotAlloc ino blks :: added2)
          with ([EvDquotAlloc ino blks] ++ added2).
        split.
        { rewrite !freed_blocks_app, !granted_blocks_app, Hf, Hf2, Hg, Hg2. simpl.
          rewrite app_nil_r. reflexivity. }
        split.
        { rewrite !quota_charged_app, Hq, Hq2. simpl. rewrite Z.eqb_refl. lia. }
        split.
        { intros b Hb. rewrite !created_buffers_app, Hc in Hb. simpl in Hb.
          rewrite !forgotten_buffers_app. apply in_or_app. right. simpl.
          apply Hcr2. exact Hb. }
        split; [rewrite Hi2; reflexivity|].
        intros b Hb. rewrite Hb2; [reflexivity|].
        intros Hin. apply Hb. rewrite !granted_blocks_app, Hg, Hg2. simpl.
        rewrite app_nil_r. exact Hin.
    + (* no indirect block to allocate: nothing can fail *)
      assert (indirect_blks = 0) by lia. subst indirect_blks.
      simpl in Hcall. injection Hcall as <- _ _ _. contradiction.
  - (* the blocks of the branch are allocated together *)
    pose proof (next3_alloc_blocks_spec cfg new_blocks_oracle ino goal indirect_blks blks
                  (m_log st) Hib ltac:(lia) ltac:(lia) (or_introl Hblks)) as Hpost.
    destruct (next3_alloc_blocks cfg new_blocks_oracle ino goal indirect_blks blks (m_log st))
      as [[[e ret] nb] log'].
    unfold alloc_loop_post in Hpost.
    destruct Hpost as (added & G & Hlog & Hcalls & Hcases).
    destruct (allocator_calls_quiet ino added Hcalls) as (Hq & Hc & Hfo).
    destruct Hcases as [(He & Hret & Hnb & Hg & Hf)
                       | [(He & Hret & Hf & cur & Hnb & Hlen & Hg)
                         | (He & Hret & Hb0 & _)]].
    + destruct (Z.eqb_spec e 0) as [|_]; [contradiction|]. simpl in Hcall.
      injection Hcall as <- <- <- <-.
      split; [reflexivity|]. exists added. unfold cleaned_up. simpl.
      split; [assumption|]. split; [rewrite Hf, Hg, Hnb; reflexivity|].
      split; [assumption|]. split; [rewrite Hc; intros b []|]. auto.
    + subst e. simpl in Hcall. simpl in Hnb, Hlen. subst nb.
      set (st1 := {| m_inode := m_inode st; m_bufs := m_bufs st; m_log := log' |}) in *.
      destruct (link_loop cfg sb jbd (Z.to_nat indirect_blks) cmd indirect_blks ret 1 offs
                  (G ++ [cur]) [set_key branch0 (entry (G ++ [cur]) 0)] st1)
        as [[[e n] br] st2] eqn:Hloop.
      destruct (Z.eqb_spec e 0) as [He0 | He0]; simpl in Hcall.
      { injection Hcall as <- _ _ _. contradiction. }
      injection Hcall as <- <- <- <-.
      split; [reflexivity|].
      destruct (link_then_failed cfg sb jbd ino cmd indirect_blks ret offs
                  (G ++ [cur]) _ st1 Hib ltac:(lia)
                  ltac:(rewrite length_app; simpl; lia) e n br st2 Hloop He0)
        as (added2 & Hl2 & Hg2 & Hf2 & Hq2 & Hcr2 & Hi2 & Hb2).
      rewrite Hmv in Hf2, Hq2.
      rewrite take_app_length' in Hf2 by lia.
      rewrite take_app_length' in Hb2 by lia.
      replace (entry (G ++ [cur]) indirect_blks) with cur in Hf2
        by (rewrite <- Hlen, entry_app_r; reflexivity).
      exists (added ++ added2). unfold cleaned_up.
      split; [rewrite Hl2; unfold st1; simpl; rewrite Hlog, <- !app_assoc; reflexivity|].
      split; [rewrite !freed_blocks_app, !granted_blocks_app, Hf, Hf2, Hg, Hg2, app_nil_r;
              reflexivity|].
      split; [rewrite !quota_charged_app, Hq, Hq2; lia|].
      split.
      { intros b Hb. rewrite !created_buffers_app, Hc in Hb. simpl in Hb.
        rewrite !forgotten_buffers_app. apply in_or_app. right.
        apply Hcr2. exact Hb. }
      split; [rewrite Hi2; reflexivity|].
      intros b Hb. rewrite Hb2; [reflexivity|].
      intros Hin. apply Hb. rewrite !granted_blocks_app, Hg, Hg2, app_nil_r.
      apply in_or_app. left. exact Hin.
    + lia.
Qed.

End BranchFailureMain.

Section SpliceFailure.
Variable cfg : config.
Variable sb : super_block.
Variable new_blocks_oracle : list event -> Z -> Z -> Z -> Z * Z * Z.
Variable jbd : list event -> event -> Z.

Lemma splice_err_out_log (ino cmd num blks : Z) (where_ : list Indirect) (st : mstate) :
  m_log (splice_err_out cfg ino cmd num blks where_ st)
  = m_log st ++ splice_cleanup cfg ino cmd num blks where_
  /\ m_inode (splice_err_out cfg ino cmd num blks where_ st) = m_inode st
  /\ m_bufs (splice_err_out cfg ino cmd num blks where_ st) = m_bufs st.
Proof.
  unfold splice_err_out, splice_cleanup.
  destruct (moving cfg cmd); simpl; rewrite <- !app_assoc; auto.
Qed.

Lemma splice_cleanup_read (ino cmd num blks : Z) (where_ : list Indirect) :
  let evs := splice_cleanup cfg ino cmd num blks where_ in
  freed_blocks evs
  = map (fun i => ind_key (chain_at where_ (i - 1))) (seqZ 1 num)
    ++ (if moving cfg cmd then [] else seqZ (ind_key (chain_at where_ num)) blks)
  /\ forgotten_buffers evs
     = (if bypass cfg cmd then []
        else map (fun i => ind_bh (chain_at where_ i)) (seqZ 1 num))
  /\ quota_charged ino evs = (if moving cfg cmd then - blks else 0)
  /\ granted_blocks evs = [].
Proof.
  unfold splice_cleanup.
  set (l := seqZ 1 num). clearbody l.
  set (last_ev := if moving cfg cmd then EvDquotFree ino blks
                  else EvFreeBlocks ino (ind_key (chain_at where_ num)) blks).
  assert (Hlast : freed_blocks [last_ev]
                  = (if moving cfg cmd then [] else seqZ (ind_key (chain_at where_ num)) blks)
                  /\ forgotten_buffers [last_ev] = []
                  /\ quota_charged ino [last_ev] = (if moving cfg cmd then - blks else 0)
                  /\ granted_blocks [last_ev] = []).
  { unfold last_ev. destruct (moving cfg cmd); simpl.
    - rewrite Z.eqb_refl. repeat split; lia.
    - unfold freed_blocks. simpl. rewrite app_nil_r. auto. }
  destruct Hlast as (L1 & L2 & L3 & L4).
  simpl. rewrite freed_blocks_app, forgotten_buffers_app, quota_charged_app,
           granted_blocks_app, L1, L2, L3, L4.
  induction l as [|i l IH]; simpl.
  - destruct (bypass cfg cmd); auto.
  - destruct IH as (I1 & I2 & I3 & I4).
    rewrite !freed_blocks_app, !forgotten_buffers_app, !quota_charged_app,
      !granted_blocks_app in *.
    rewrite !app_nil_r in *.
    apply app_inv_tail in I1.
    destruct (bypass cfg cmd) eqn:Hb; simpl in *.
    + unfold freed_blocks, forgotten_buffers, granted_blocks in *. simpl.
      rewrite I1, I2, I4. repeat split; try reflexivity. lia.
    + unfold freed_blocks, forgotten_buffers, granted_blocks in *. simpl.
      rewrite I1, I2, I4. repeat split; try reflexivity. lia.
Qed.

Lemma splice_failure (block : Z) (where_ : list Indirect) (num blks cmd : Z) (st : mstate) :
  forall err st',
    next3_splice_branch_cow cfg jbd block where_ num blks cmd st = (err, st') ->
    err <> 0 ->
    exists b pre,
      ind_bh (chain_at where_ 0) = Some b
      /\ m_log st' = m_log st ++ pre
                     ++ splice_cleanup cfg (i_ino (m_inode st)) cmd num blks where_
      /\ (jbd (m_log st) (EvGetWriteAccess b) <> 0 ->
          pre = [EvGetWriteAccess b]
          /\ m_inode st' = m_inode st /\ m_bufs st' = m_bufs st).
Proof.
  intros err st' Hcall Herr. unfold next3_splice_branch_cow in Hcall.
  destruct (ind_bh (chain_at where_ 0)) as [b|] eqn:Hbh.
  2:{ simpl in Hcall. injection Hcall as <- _. contradiction. }
  exists b. unfold journal_call in Hcall.
  destruct (Z.eqb_spec (jbd (m_log st) (EvGetWriteAccess b)) 0) as [Hw | Hw];
    cbn [negb] in Hcall.
  - (* write access granted: the failure is in journal_dirty_metadata *)
    match type of Hcall with
    | context [jbd (m_log ?s) (EvDirtyMetadata b)] => set (s1 := s) in *
    end.
    destruct (Z.eqb_spec (jbd (m_log s1) (EvDirtyMetadata b)) 0) as [He | He];
      cbn [negb] in Hcall.
    { injection Hcall as <- _. contradiction. }
    injection Hcall as <- <-.
    destruct (splice_err_out_log (i_ino (m_inode st)) cmd num blks where_
                (log_event (EvDirtyMetadata b) s1)) as (Hl & _ & _).
    assert (Hs1 : m_log s1 = m_log st ++ [EvGetWriteAccess b;
                                          EvMarkInodeDirty (i_ino (m_inode st))]).
    { subst s1.
      assert (Hrun : forall n bh p i c s, m_log (store_run n bh p i c s) = m_log s).
      { induction n as [|n IH]; intros; simpl; [reflexivity|].
        rewrite IH. unfold store_slot. destruct (p + i <? 0); [reflexivity|].
        destruct bh; reflexivity. }
      assert (Hslot : forall bh p v s, m_log (store_slot bh p v s) = m_log s).
      { intros. unfold store_slot. destruct (p <? 0); [reflexivity|].
        destruct bh; reflexivity. }
      destruct (moving cfg cmd); destruct (i_block_alloc_info (m_inode st));
        destruct ((num =? 0) && (1 <? blks)); simpl;
        rewrite ?Hrun, ?Hslot; simpl; rewrite <- ?app_assoc; reflexivity. }
    exists [EvGetWriteAccess b; EvMarkInodeDirty (i_ino (m_inode st)); EvDirtyMetadata b].
    split; [reflexivity|]. split.
    + rewrite Hl. unfold log_event at 1. cbn [m_log]. rewrite Hs1.
      rewrite <- !app_assoc. reflexivity.
    + intros Hne. contradiction.
  - (* journal_get_write_access failed *)
    injection Hcall as <- <-.
    destruct (splice_err_out_log (i_ino (m_inode st)) cmd num blks where_
                (log_event (EvGetWriteAccess b) st)) as (Hl & Hi & Hb).
    exists [EvGetWriteAccess b].
    split; [reflexivity|]. split.
    + rewrite Hl. simpl. rewrite <- !app_assoc. reflexivity.
    + intros _. split; [reflexivity|]. split; [rewrite Hi | rewrite Hb]; reflexivity.
Qed.

End SpliceFailure.

(** C6 (amended). If [next3_alloc_branch_cow] fails after blocks were
    allocated, every indirect buffer handed to the journal is forgotten,
    every block the allocator granted is freed, the quota of the inode is
    back to what it was (in move mode the charge for the moved data blocks
    is refunded, and the moved blocks themselves are not freed), and neither
    the inode nor any buffer other than those of the new blocks has been
    written. If [next3_splice_branch_cow] fails, the keys of the new branch
    are freed one by one and its data blocks are freed (in move mode the
    quota is refunded instead); the buffers of the branch are forgotten
    unless the mapping bypasses the journal (sync mode); and when the
    failure is the write-access request on the parent buffer, neither the
    inode nor any buffer has been written. *)
Theorem failed_branch_is_cleaned_up
    (cfg : config) (sb : super_block)
    (new_blocks_oracle : list event -> Z -> Z -> Z -> Z * Z * Z)
    (jbd : list event -> event -> Z) :
  (forall (iblock indirect_blks blks goal : Z) (offs : list Z) (branch0 : Indirect)
          (cmd : Z) (st : mstate) err blks' branch' st',
      0 <= indirect_blks -> 1 <= blks ->
      next3_alloc_branch_cow cfg sb new_blocks_oracle jbd
        iblock indirect_blks blks goal offs branch0 cmd st
      = (err, blks', branch', st') ->
      err <> 0 ->
      blks' = blks
      /\ exists added, cleaned_up (i_ino (m_inode st)) st st' added)
  /\ (forall (block : Z) (where_ : list Indirect) (num blks cmd : Z) (st : mstate) err st',
      next3_splice_branch_cow cfg jbd block where_ num blks cmd st = (err, st') ->
      err <> 0 ->
      exists b pre cleanup,
        ind_bh (chain_at where_ 0) = Some b
        /\ m_log st' = m_log st ++ pre ++ cleanup
        /\ freed_blocks cleanup
           = map (fun i => ind_key (chain_at where_ (i - 1))) (seqZ 1 num)
             ++ (if moving cfg cmd then []
                 else seqZ (ind_key (chain_at where_ num)) blks)
        /\ forgotten_buffers cleanup
           = (if bypass cfg cmd then []
              else map (fun i => ind_bh (chain_at where_ i)) (seqZ 1 num))
        /\ quota_charged (i_ino (m_inode st)) cleanup
           = (if moving cfg cmd then - blks else 0)
        /\ (jbd (m_log st) (EvGetWriteAccess b) <> 0 ->
            pre = [EvGetWriteAccess b]
            /\ m_inode st' = m_inode st /\ m_bufs st' = m_bufs st)).
Proof.
  split.
  - intros. eapply alloc_branch_failure; eassumption.
  - intros block where_ num blks cmd st err st' Hcall Herr.
    destruct (splice_failure cfg jbd block where_ num blks cmd st err st' Hcall Herr)
      as (b & pre & Hbh & Hlog & Hw).
    destruct (splice_cleanup_read cfg (i_ino (m_inode st)) cmd num blks where_)
      as (Hf & Hfo & Hq & _).
    exists b, pre, (splice_cleanup cfg (i_ino (m_inode st)) cmd num blks where_).
    auto 8.
Qed.

Lemma failed_branch_is_cleaned_up_witness :
  exists st' added,
    snd (next3_alloc_branch_cow cfg_all sb1k grant_from_2000 fail_dirty_2001
           65804 3 1 0 [14; 0; 0; 0] {| ind_p := 14; ind_key := 0; ind_bh := None |}
           SNAPMAP_WRITE fresh_state) = st'
    /\ cleaned_up 20 fresh_state st' added.
Proof.
  destruct (next3_alloc_branch_cow cfg_all sb1k grant_from_2000 fail_dirty_2001
              65804 3 1 0 [14; 0; 0; 0] {| ind_p := 14; ind_key := 0; ind_bh := None |}
              SNAPMAP_WRITE fresh_state) as [[[err blks'] branch'] st'] eqn:Hcall.
  assert (Herr : err <> 0).
  { vm_compute in Hcall. injection Hcall as <- _ _ _. discriminate. }
  destruct (failed_branch_is_cleaned_up cfg_all sb1k grant_from_2000 fail_dirty_2001)
    as [Halloc _].
  destruct (Halloc 65804 3 1 0 [14; 0; 0; 0] {| ind_p := 14; ind_key := 0; ind_bh := None |}
              SNAPMAP_WRITE fresh_state err blks' branch' st'
              ltac:(lia) ltac:(lia) Hcall Herr) as (_ & added & Hclean).
  exists st', added. split; [reflexivity | exact Hclean].
Defined.

(** C6 as stated fails for the splice: in sync (journal-bypass) mode the
    buffer of the new indirect block is not forgotten when the write access
    to the parent is refused. *)
Lemma splice_failure_skips_forget_in_sync_mode :
  ~ (forall (cfg : config) (jbd : list event -> event -> Z) (block : Z)
            (where_ : list Indirect) (num blks cmd : Z) (st : mstate) err st',
       next3_splice_branch_cow cfg jbd block where_ num blks cmd st = (err, st') ->
       err <> 0 ->
       (forall i, 1 <= i <= num ->
                  In (ind_bh (chain_at where_ i))
                     (forgotten_buffers (calls_added st st')))
       /\ m_inode st' = m_inode st /\ m_bufs st' = m_bufs st).
Proof.
  intros H.
  destruct (next3_splice_branch_cow cfg_all fail_write_access 271 new_branch 1 1
              SNAPMAP_BITMAP parent_state) as [err st'] eqn:Hcall.
  assert (Herr : err <> 0).
  { vm_compute in Hcall. injection Hcall as <- _. discriminate. }
  destruct (H cfg_all fail_write_access 271 new_branch 1 1 SNAPMAP_BITMAP parent_state
              err st' Hcall Herr) as (Hforget & _).
  specialize (Hforget 1 ltac:(lia)).
  vm_compute in Hcall. injection Hcall as _ <-.
  vm_compute in Hforget. exact Hforget.
Qed.

(** When the splice fails in [journal_dirty_metadata], the pointer has
    already been stored in the parent buffer (slot 3 of block 50) and stays
    there, although the blocks it names have been freed. *)
Example splice_dirty_failure_leaves_pointer :
  let '(err, st') := next3_splice_branch_cow cfg_all fail_dirty 271 new_branch 1 1
                       SNAPMAP_WRITE parent_state in
  err = - EROFS
  /\ read_slot (default [] (m_bufs parent_state !! 50)) 3 = 0
  /\ read_slot (default [] (m_bufs st' !! 50)) 3 = 60
  /\ freed_blocks (m_log st') = [60; 61].
Proof. vm_compute. auto. Qed.

(** ** The COW engine *)

Section EngineFacts.
Variable ccfg : cow_config.
Variable W : Type.
Variable B : Type.
Variable svc : services W B.

Local Abbreviation test_and_cow := (ext4_snapshot_test_and_cow ccfg svc).
Local Abbreviation test_and_move := (ext4_snapshot_test_and_move ccfg svc).

Lemma cow_without_snapshot (st : cstate W) h ino block bh cow :
  c_active_snapshot st = None -> test_and_cow st h ino block bh cow = (0, h, st).
Proof.
  intros H. unfold ext4_snapshot_test_and_cow, ext4_snapshot_has_active.
  rewrite H. reflexivity.
Qed.

Lemma cow_reentered (st : cstate W) h ino block bh cow :
  h_cowing h = true -> test_and_cow st h ino block bh cow = (0, h, st).
Proof.
  intros H. unfold ext4_snapshot_test_and_cow, ext4_snapshot_has_active, IS_COWING.
  rewrite H. destruct (c_active_snapshot st); reflexivity.
Qed.

Lemma cow_denied (st : cstate W) h ino block bh cow a :
  c_active_snapshot st = Some a -> h_cowing h = false -> same_inode ino a = true ->
  test_and_cow st h ino block bh cow = (- EPERM, h, st).
Proof.
  intros Ha Hc Hs.
  unfold ext4_snapshot_test_and_cow, ext4_snapshot_has_active, IS_COWING.
  rewrite Ha, Hc, Hs. reflexivity.
Qed.

Lemma cow_cached (st : cstate W) h ino block bh cow a :
  c_active_snapshot st = Some a -> h_cowing h = false -> same_inode ino a = false ->
  ext4_snapshot_test_cowed ccfg st h bh = true ->
  test_and_cow st h ino block bh cow = (0, h, st).
Proof.
  intros Ha Hc Hs Ht.
  unfold ext4_snapshot_test_and_cow, ext4_snapshot_has_active, IS_COWING.
  rewrite Ha, Hc, Hs, Ht. reflexivity.
Qed.

Lemma excluded_clear (ino : option inode) :
  match ino with Some _ => ext4_snapshot_excluded ino | None => 0 end
  = ext4_snapshot_excluded ino.
Proof. destruct ino; reflexivity. Qed.

(** The value returned by a call that gets past the guards. *)
Lemma cow_return_value (st : cstate W) h ino block bh cow a :
  well_behaved svc ->
  c_active_snapshot st = Some a -> h_cowing h = false -> same_inode ino a = false ->
  ext4_snapshot_test_cowed ccfg st h bh = false ->
  let ret := fst (fst (test_and_cow st h ino block bh cow)) in
  let r1 := in_use_answer ccfg svc st h a block in
  let r2 := mapped_answer ccfg svc st h a block in
  (ret = 1 <-> 0 < r1 /\ r2 = 0 /\ (cow = false \/ ext4_snapshot_excluded ino < 0))
  /\ (r1 = 0 -> ret = 0)
  /\ (0 < r1 -> 0 < r2 -> ret = 0)
  /\ (r1 < 0 -> ret = r1)
  /\ (0 < r1 -> r2 < 0 -> ret = r2)
  /\ ret <= 1.
Proof.
  intros [Hgetblk Hfile] Ha Hc Hs Ht ret r1 r2. subst ret r1 r2.
  unfold in_use_answer, mapped_answer.
  unfold ext4_snapshot_test_and_cow, ext4_snapshot_has_active, IS_COWING.
  rewrite Ha, Hc, Hs, Ht. rewrite excluded_clear.
  destruct (ext4_snapshot_test_cow_bitmap ccfg svc (ext4_snapshot_cow_begin h) a block 1
              (c_world st)) as [[r1 c1] w1].
  cbn [fst snd with_world c_world].
  destruct (Z.ltb_spec r1 0) as [Hr1 | Hr1].
  { cbn. repeat split; intros; lia. }
  destruct (Z.eqb_spec r1 0) as [Hr10 | Hr10].
  { cbn. repeat split; intros; lia. }
  destruct (ext4_snapshot_map_blocks svc (ext4_snapshot_cow_begin h) a block 1 0
              SNAPMAP_READ w1) as [[r2 blk] w2].
  cbn [fst snd with_world c_world].
  destruct (Z.ltb_spec r2 0) as [Hr2 | Hr2].
  { cbn. repeat split; intros; lia. }
  destruct (Z.ltb_spec 0 r2) as [Hr2p | Hr2p].
  { cbn. repeat split; intros; lia. }
  assert (r2 = 0) by lia. subst r2.
  destruct (Z.ltb_spec (ext4_snapshot_excluded ino) 0) as [Hex | Hex].
  { cbn. repeat split; intros; try lia; auto. }
  destruct cow.
  2:{ cbn. repeat split; intros; try lia; auto. }
  (* the copy path never returns 1 *)
  assert (Hne : forall x : Z * handle * cstate W,
             fst (fst x) <= 0 ->
             (fst (fst x) = 1 <-> 0 < r1 /\ 0 = 0 /\ (true = false \/ ext4_snapshot_excluded ino < 0))
             /\ (r1 = 0 -> fst (fst x) = 0)
             /\ (0 < r1 -> 0 < 0 -> fst (fst x) = 0)
             /\ (r1 < 0 -> fst (fst x) = r1)
             /\ (0 < r1 -> 0 < 0 -> fst (fst x) = 0)
             /\ fst (fst x) <= 1).
  { intros x Hx. repeat split; intros; lia. }
  destruct bh as [b|]; [|apply Hne; cbn; unfold EIO; lia].
  match goal with
  | |- context [negb (b_mapped ?x)] => destruct (b_mapped x)
  end; [|apply Hne; cbn; unfold EIO; lia].
  cbn [negb].
  match goal with
  | |- context [let '(_, _) := ?x in _] => destruct x as [uptodate st2]
  end.
  destruct uptodate; [|apply Hne; cbn; unfold EIO; lia].
  cbn [negb].
  pose proof (Hgetblk (ext4_snapshot_cow_begin h) a (SNAPSHOT_IBLOCK block) SNAPMAP_COW
                (c_world st2)) as Hg.
  destruct (svc_getblk svc (ext4_snapshot_cow_begin h) a (SNAPSHOT_IBLOCK block)
              SNAPMAP_COW (c_world st2)) as [[sbh e] w3].
  cbn [fst snd] in Hg.
  destruct sbh as [s|]; [|apply Hne; cbn; apply Hg; reflexivity].
  destruct (Z.eqb_spec e 0) as [He | He]; [apply Hne; cbn; lia|].
  unfold ext4_snapshot_copy_buffer_cow, ext4_snapshot_complete_cow.
  match goal with
  | |- context [svc_file_inode svc ?hh ?aa ?ww] =>
    pose proof (Hfile hh aa ww) as Hf; destruct (svc_file_inode svc hh aa ww) as [e2 w4]
  end.
  cbn [fst] in Hf.
  destruct (Z.eqb_spec e2 0) as [He2 | He2]; cbn [negb fst snd].
  - rewrite (proj2 (Z.eqb_eq e2 0) He2). cbn [negb]. apply Hne. cbn. lia.
  - rewrite (proj2 (Z.eqb_neq e2 0) He2). cbn [negb]. apply Hne. cbn. lia.
Qed.

End EngineFacts.

Section EngineGuards.
Variable ccfg : cow_config.
Variable W : Type.
Variable B : Type.
Variable svc : services W B.

Local Abbreviation test_and_cow := (ext4_snapshot_test_and_cow ccfg svc).
Local Abbreviation test_and_move := (ext4_snapshot_test_and_move ccfg svc).

Lemma mark_cowed_active (st : cstate W) h bh :
  c_active_snapshot (ext4_snapshot_mark_cowed ccfg st h bh) = c_active_snapshot st.
Proof.
  unfold ext4_snapshot_mark_cowed.
  repeat match goal with
         | |- context [match ?x with _ => _ end] => destruct x
         end; reflexivity.
Qed.

Lemma read_if_stale_active (st : cstate W) b :
  c_active_snapshot (snd (read_if_stale svc st b)) = c_active_snapshot st.
Proof.
  unfold read_if_stale. destruct (b_uptodate (get_bh st b)); [reflexivity|].
  destruct (svc_read_block svc (b_blocknr (get_bh st b)) (c_world st)). reflexivity.
Qed.

Lemma cow_preserves_active (st : cstate W) h ino block bh cow :
  c_active_snapshot (snd (test_and_cow st h ino block bh cow)) = c_active_snapshot st.
Proof.
  unfold ext4_snapshot_test_and_cow, ext4_snapshot_has_active, cow_cowed, cow_out.
  destruct (c_active_snapshot st) as [a|] eqn:Ha; [|cbn; exact Ha].
  repeat match goal with
         | |- context [read_if_stale svc ?s ?b] =>
           let H := fresh "Hstale" in
           pose proof (read_if_stale_active s b) as H;
           destruct (read_if_stale svc s b); cbn [snd] in H
         | |- context [match ?x with _ => _ end] => destruct x
         end; cbn [snd]; rewrite ?mark_cowed_active; cbn;
    repeat match goal with H : c_active_snapshot _ = _ |- _ => cbn in H; rewrite H; clear H end;
    try exact Ha; try reflexivity.
Qed.

(** The tag a successful COW leaves on the journal head of an attached
    buffer is the transaction of the handle. *)
Lemma mark_cowed_tag (st : cstate W) h b jh :
  cow_cache_enabled ccfg = true ->
  b_jbd (get_bh st b) = true -> b_jh (get_bh st b) = Some jh ->
  let st' := ext4_snapshot_mark_cowed ccfg st h (Some b) in
  b_jbd (get_bh st' b) = true
  /\ exists jh', b_jh (get_bh st' b) = Some jh' /\ b_cow_tid jh' = h_tid h.
Proof.
  intros He Hj Hh st'. subst st'. unfold ext4_snapshot_mark_cowed.
  rewrite He, Hj, Hh. cbn [negb].
  unfold test_cow_tid. destruct (Z.eqb_spec (b_cow_tid jh) (h_tid h)) as [Heq | Hne]; cbn [negb].
  - split; [exact Hj|]. exists jh. auto.
  - unfold get_bh, with_bufs. cbn [c_bufs]. rewrite lookup_insert_eq. cbn.
    split; [exact Hj|]. eexists. split; reflexivity.
Qed.

Lemma cache_off_when_detached (st : cstate W) h b :
  b_jbd (get_bh st b) = false -> ext4_snapshot_test_cowed ccfg st h (Some b) = false.
Proof.
  intros H. unfold ext4_snapshot_test_cowed. rewrite H.
  destruct (negb (cow_cache_enabled ccfg)); reflexivity.
Qed.

Lemma cache_hit (st : cstate W) h b jh :
  cow_cache_enabled ccfg = true ->
  b_jbd (get_bh st b) = true -> b_jh (get_bh st b) = Some jh ->
  h_tid h = b_cow_tid jh ->
  ext4_snapshot_test_cowed ccfg st h (Some b) = true.
Proof.
  intros He Hj Hh Ht. unfold ext4_snapshot_test_cowed, test_cow_tid.
  rewrite He, Hj, Hh. cbn. apply Z.eqb_eq. auto.
Qed.

Lemma bitmap_only_cowing h a block maxblocks (w : W) :
  h_cowing h = true ->
  ext4_snapshot_test_cow_bitmap ccfg (only_cowing svc) h a block maxblocks w
  = ext4_snapshot_test_cow_bitmap ccfg svc h a block maxblocks w.
Proof.
  intros Hc. unfold ext4_snapshot_test_cow_bitmap.
  cbn [only_cowing svc_read_cow_bitmap svc_test_bit_range]. rewrite Hc. reflexivity.
Qed.

Lemma map_blocks_only_cowing h a block maxblocks mapped cmd (w : W) :
  h_cowing h = true ->
  ext4_snapshot_map_blocks (only_cowing svc) h a block maxblocks mapped cmd w
  = ext4_snapshot_map_blocks svc h a block maxblocks mapped cmd w.
Proof.
  intros Hc. unfold ext4_snapshot_map_blocks.
  cbn [only_cowing svc_map_blocks]. rewrite Hc. reflexivity.
Qed.

Lemma copy_only_cowing h a sbh bh (w : W) :
  h_cowing h = true ->
  ext4_snapshot_copy_buffer_cow (only_cowing svc) h a sbh bh w
  = ext4_snapshot_copy_buffer_cow svc h a sbh bh w.
Proof.
  intros Hc. unfold ext4_snapshot_copy_buffer_cow, ext4_snapshot_complete_cow.
  cbn [only_cowing svc_file_inode svc_copy_buffer svc_mark_dirty svc_sync_dirty].
  rewrite Hc. reflexivity.
Qed.

Lemma move_loop_only_cowing (fuel : nat) :
  forall h snapshot blk count moved w,
    h_cowing h = true ->
    move_loop (only_cowing svc) fuel h snapshot blk count moved w
    = move_loop svc fuel h snapshot blk count moved w.
Proof.
  induction fuel as [|fuel IH]; intros h snapshot blk count moved w Hc; [reflexivity|].
  cbn [move_loop]. rewrite (map_blocks_only_cowing _ _ _ _ _ _ _ Hc).
  destruct (count =? 0); [reflexivity|].
  destruct (ext4_snapshot_map_blocks svc h snapshot blk count 0 SNAPMAP_MOVE w)
    as [[err p] w'].
  destruct (err <=? 0); [reflexivity|]. apply IH; exact Hc.
Qed.

Lemma move_loop_stops (fuel : nat) :
  maps_at_most svc ->
  forall h snapshot blk count moved w,
    (Z.to_nat count < fuel)%nat ->
    is_Some (move_loop svc fuel h snapshot blk count moved w).
Proof.
  intros Hmost.
  induction fuel as [|fuel IH]; intros h snapshot blk count moved w Hf; [lia|].
  cbn [move_loop].
  destruct (Z.eqb_spec count 0) as [Hz | Hz]; [eexists; reflexivity|].
  unfold ext4_snapshot_map_blocks.
  pose proof (Hmost h snapshot (SNAPSHOT_IBLOCK blk) count SNAPMAP_MOVE w) as Hle.
  destruct (svc_map_blocks svc h snapshot (SNAPSHOT_IBLOCK blk) count SNAPMAP_MOVE w)
    as [[err pblk] w'].
  cbn [fst] in Hle.
  destruct (Z.leb_spec err 0) as [Hneg | Hpos]; [eexists; reflexivity|].
  apply IH. lia.
Qed.

Lemma cow_only_cowing (st : cstate W) h ino block bh cow :
  ext4_snapshot_test_and_cow ccfg (only_cowing svc) st h ino block bh cow
  = test_and_cow st h ino block bh cow.
Proof.
  assert (Hc : h_cowing (ext4_snapshot_cow_begin h) = true) by reflexivity.
  unfold ext4_snapshot_test_and_cow.
  destruct (ext4_snapshot_has_active st) as [a|]; [|reflexivity].
  destruct (IS_COWING h); [reflexivity|].
  destruct (same_inode ino a); [reflexivity|].
  destruct (ext4_snapshot_test_cowed ccfg st h bh); [reflexivity|].
  rewrite (bitmap_only_cowing _ _ _ _ _ Hc).
  destruct (ext4_snapshot_test_cow_bitmap ccfg svc (ext4_snapshot_cow_begin h) a block 1
              (c_world st)) as [[e c] w].
  rewrite (map_blocks_only_cowing _ _ _ _ _ _ _ Hc).
  destruct (e <? 0); [reflexivity|]. destruct (e =? 0); [reflexivity|].
  match goal with
  | |- context [ext4_snapshot_map_blocks svc ?a1 ?a2 ?a3 ?a4 ?a5 ?a6 ?a7] =>
    destruct (ext4_snapshot_map_blocks svc a1 a2 a3 a4 a5 a6 a7) as [[e2 blk] w2]
  end.
  destruct (e2 <? 0); [reflexivity|]. destruct (0 <? e2); [reflexivity|].
  match goal with |- context [negb ?c] => destruct (negb c) end; [reflexivity|].
  destruct bh as [b|]; [|reflexivity].
  match goal with |- context [negb ?c] => destruct (negb c) end; [reflexivity|].
  unfold read_if_stale at 1. cbn [only_cowing svc_read_block]. fold (read_if_stale svc).
  change (if b_uptodate (get_bh ?s b) then (true, ?s)
          else let '(ok, w) := svc_read_block svc (b_blocknr (get_bh ?s b)) (c_world ?s) in
               (ok, set_uptodate (with_world ?s w) b ok))
    with (read_if_stale svc s b).
  destruct (read_if_stale svc _ b) as [u st2].
  destruct (negb u); [reflexivity|].
  cbn [only_cowing svc_getblk]. rewrite Hc.
  destruct (svc_getblk svc (ext4_snapshot_cow_begin h) a (SNAPSHOT_IBLOCK block)
              SNAPMAP_COW (c_world st2)) as [[sbh e3] w3].
  destruct sbh as [s|]; [|reflexivity].
  destruct (e3 =? 0); [reflexivity|].
  rewrite (copy_only_cowing _ _ _ _ _ Hc). reflexivity.
Qed.

Lemma move_only_cowing (st : cstate W) h ino block maxblocks move :
  ext4_snapshot_test_and_move ccfg (only_cowing svc) st h ino block maxblocks move
  = test_and_move st h ino block maxblocks move.
Proof.
  assert (Hc : h_cowing (ext4_snapshot_cow_begin h) = true) by reflexivity.
  unfold ext4_snapshot_test_and_move.
  destruct (ext4_snapshot_has_active st) as [a|]; [|reflexivity].
  destruct (IS_COWING h || same_inode ino a); [reflexivity|].
  rewrite (bitmap_only_cowing _ _ _ _ _ Hc).
  destruct (ext4_snapshot_test_cow_bitmap ccfg svc (ext4_snapshot_cow_begin h) a block
              maxblocks (c_world st)) as [[e c] w].
  destruct (e <? 0); [reflexivity|]. destruct (e =? 0); [reflexivity|].
  match goal with |- context [if ?c then move_out 0 _ _ _ else _] => destruct c end;
    [reflexivity|].
  rewrite (map_blocks_only_cowing _ _ _ _ _ _ _ Hc).
  match goal with
  | |- context [ext4_snapshot_map_blocks svc ?a1 ?a2 ?a3 ?a4 ?a5 ?a6 ?a7] =>
    destruct (ext4_snapshot_map_blocks svc a1 a2 a3 a4 a5 a6 a7) as [[e2 blk] w2]
  end.
  destruct (e2 <? 0); [reflexivity|]. destruct (0 <? e2); [reflexivity|].
  match goal with |- context [negb ?c] => destruct (negb c) end; [reflexivity|].
  rewrite (move_loop_only_cowing _ _ _ _ _ _ _ Hc).
  reflexivity.
Qed.

(** A move that gets past the [BUG_ON] returns, when [ext4_map_blocks]
    keeps to the length it is given. *)
Lemma move_returns (st : cstate W) h ino block maxblocks move a :
  maps_at_most svc ->
  c_active_snapshot st = Some a -> h_cowing h = false -> same_inode ino a = false ->
  is_Some (test_and_move st h ino block maxblocks move).
Proof.
  intros Hmost Ha Hc Hs.
  unfold ext4_snapshot_test_and_move, ext4_snapshot_has_active, IS_COWING, move_out.
  rewrite Ha, Hc, Hs. cbn [orb].
  repeat match goal with
         | |- context [move_loop svc ?f ?hh ?s ?b ?c ?m ?w] =>
           let H := fresh "Hloop" in
           destruct (move_loop_stops f Hmost hh s b c m w ltac:(lia)) as [[[[? ?] ?] ?] H];
           rewrite H
         | |- context [match ?x with _ => _ end] => destruct x
         end; eexists; reflexivity.
Qed.

Lemma cow_ends_not_cowing (st : cstate W) h ino block bh cow a :
  c_active_snapshot st = Some a -> h_cowing h = false ->
  same_inode ino a = false -> ext4_snapshot_test_cowed ccfg st h bh = false ->
  h_cowing (snd (fst (test_and_cow st h ino block bh cow))) = false.
Proof.
  intros Ha Hc Hs Ht.
  unfold ext4_snapshot_test_and_cow, ext4_snapshot_has_active, IS_COWING, cow_cowed, cow_out.
  rewrite Ha, Hc, Hs, Ht.
  repeat match goal with
         | |- context [match ?x with _ => _ end] => destruct x
         end; reflexivity.
Qed.

Lemma move_ends_not_cowing (st : cstate W) h ino block maxblocks move a e c h' st' :
  c_active_snapshot st = Some a ->
  test_and_move st h ino block maxblocks move = Some (e, c, h', st') ->
  h_cowing h' = false.
Proof.
  unfold ext4_snapshot_test_and_move, ext4_snapshot_has_active, IS_COWING, move_out.
  intros Ha. rewrite Ha.
  repeat match goal with
         | |- context [match ?x with _ => _ end] => destruct x
         end; intros Hr; try discriminate; injection Hr as _ _ <- _; reflexivity.
Qed.

Lemma read_if_stale_attached (st : cstate W) b :
  b_jbd (get_bh (snd (read_if_stale svc st b)) b) = b_jbd (get_bh st b)
  /\ b_jh (get_bh (snd (read_if_stale svc st b)) b) = b_jh (get_bh st b).
Proof.
  unfold read_if_stale. destruct (b_uptodate (get_bh st b)); [split; reflexivity|].
  destruct (svc_read_block svc (b_blocknr (get_bh st b)) (c_world st)) as [ok w].
  cbn [snd]. unfold set_uptodate, get_bh, with_bufs, with_world. cbn [c_bufs].
  rewrite lookup_insert_eq. split; reflexivity.
Qed.

Lemma cowed_tagged (st : cstate W) h b jh err :
  cow_cache_enabled ccfg = true ->
  b_jbd (get_bh st b) = true -> b_jh (get_bh st b) = Some jh ->
  tagged (snd (cow_cowed ccfg err (ext4_snapshot_cow_begin h) (Some b) st)) b h.
Proof.
  intros He Hj Hh. unfold cow_cowed, cow_out. cbn [snd].
  exact (mark_cowed_tag st (ext4_snapshot_cow_begin h) b jh He Hj Hh).
Qed.

(** A call that returns 0 for an attached buffer leaves it tagged with the
    transaction of the handle, provided [ext4_getblk] does not come back
    with neither a buffer nor an error. *)
Lemma cow_success_tags (st : cstate W) h ino block b cow a h1 st1 jh :
  cow_cache_enabled ccfg = true ->
  c_active_snapshot st = Some a -> h_cowing h = false ->
  test_and_cow st h ino block (Some b) cow = (0, h1, st1) ->
  (fst (getblk_answer ccfg svc st h a block b) = None ->
   snd (getblk_answer ccfg svc st h a block b) <> 0) ->
  b_jbd (get_bh st b) = true -> b_jh (get_bh st b) = Some jh ->
  tagged st1 b h.
Proof.
  intros He Ha Hc Hcall Hg Hj Hh.
  unfold getblk_answer in Hg.
  unfold ext4_snapshot_test_and_cow, ext4_snapshot_has_active, IS_COWING in Hcall.
  rewrite Ha, Hc in Hcall.
  destruct (same_inode ino a); [discriminate Hcall|].
  destruct (ext4_snapshot_test_cowed ccfg st h (Some b)) eqn:Ht.
  { injection Hcall as <- <-. split; [exact Hj|]. exists jh. split; [exact Hh|].
    unfold ext4_snapshot_test_cowed, test_cow_tid in Ht.
    rewrite He, Hj, Hh in Ht. cbn in Ht. apply Z.eqb_eq. exact Ht. }
  destruct (ext4_snapshot_test_cow_bitmap ccfg svc (ext4_snapshot_cow_begin h) a block 1
              (c_world st)) as [[r1 c1] w1].
  cbn [c_world with_world] in Hcall.
  destruct (r1 <? 0) eqn:E1.
  { unfold cow_out in Hcall. injection Hcall as -> _ _. discriminate E1. }
  destruct (r1 =? 0) eqn:E2.
  { apply (f_equal snd) in Hcall; cbn [snd] in Hcall; rewrite <- Hcall.
    eapply cowed_tagged; eassumption. }
  destruct (ext4_snapshot_map_blocks svc (ext4_snapshot_cow_begin h) a block 1 0
              SNAPMAP_READ w1) as [[r2 blk] w2].
  cbn [c_world with_world] in Hcall.
  destruct (r2 <? 0) eqn:E3.
  { unfold cow_out in Hcall. injection Hcall as -> _ _. discriminate E3. }
  destruct (0 <? r2) eqn:E4.
  { apply (f_equal snd) in Hcall; cbn [snd] in Hcall; rewrite <- Hcall.
    eapply cowed_tagged; eassumption. }
  match type of Hcall with
  | context [if negb ?c then cow_out 1 _ _ else _] => destruct c
  end; cbn [negb] in Hcall; [|discriminate Hcall].
  match type of Hcall with
  | context [negb (b_mapped ?x)] => destruct (b_mapped x)
  end; cbn [negb] in Hcall; [|discriminate Hcall].
  match type of Hcall with
  | context [read_if_stale svc ?s b] =>
    pose proof (read_if_stale_attached s b) as [Hj2 Hh2];
    change (get_bh s b) with (get_bh st b) in Hj2, Hh2;
    change (with_world st w2) with s in Hg;
    destruct (read_if_stale svc s b) as [u st2]
  end.
  cbn [snd] in Hj2, Hh2. rewrite Hj in Hj2. rewrite Hh in Hh2.
  destruct u; cbn [negb] in Hcall; [|discriminate Hcall].
  destruct (svc_getblk svc (ext4_snapshot_cow_begin h) a (SNAPSHOT_IBLOCK block)
              SNAPMAP_COW (c_world st2)) as [[sbh e] w3].
  cbn [fst snd] in Hg.
  destruct sbh as [s|].
  2:{ unfold cow_out in Hcall. injection Hcall as -> _ _. exfalso. apply Hg; reflexivity. }
  destruct (e =? 0) eqn:E5.
  { apply (f_equal snd) in Hcall; cbn [snd] in Hcall; rewrite <- Hcall.
    eapply cowed_tagged; eassumption. }
  match type of Hcall with
  | context [ext4_snapshot_copy_buffer_cow svc ?a1 ?a2 ?a3 ?a4 ?a5] =>
    destruct (ext4_snapshot_copy_buffer_cow svc a1 a2 a3 a4 a5) as [e2 w4]
  end.
  destruct (e2 =? 0) eqn:E6; cbn [negb] in Hcall.
  - apply (f_equal snd) in Hcall; cbn [snd] in Hcall; rewrite <- Hcall.
    eapply cowed_tagged; eassumption.
  - unfold cow_out in Hcall. injection Hcall as -> _ _. discriminate E6.
Qed.

End EngineGuards.

(** A copy that is made, or found made, returns 0. *)
Lemma cow_copy_success
    (ccfg : cow_config) (W B : Type) (svc : services W B)
    (st : cstate W) (h : handle) (ino : option inode) (block b : Z) (a : inode)
    (s e : Z) :
  c_active_snapshot st = Some a -> h_cowing h = false ->
  same_inode ino a = false -> ext4_snapshot_test_cowed ccfg st h (Some b) = false ->
  ~ ext4_snapshot_excluded ino < 0 ->
  0 < in_use_answer ccfg svc st h a block ->
  mapped_answer ccfg svc st h a block = 0 ->
  source_ready ccfg svc st h a block b = true ->
  getblk_answer ccfg svc st h a block b = (Some s, e) ->
  e = 0 \/ copy_answer ccfg svc st h a block b s = 0 ->
  fst (fst (ext4_snapshot_test_and_cow ccfg svc st h ino block (Some b) true)) = 0.
Proof.
  intros Ha Hc Hs Ht Hex Hr1 Hr2 Hready Hget Hcopy.
  unfold in_use_answer in Hr1. unfold mapped_answer in Hr2.
  unfold source_ready in Hready. unfold getblk_answer in Hget.
  unfold copy_answer in Hcopy. cbv zeta in *.
  unfold ext4_snapshot_test_and_cow, ext4_snapshot_has_active, IS_COWING.
  rewrite Ha, Hc, Hs, Ht. rewrite excluded_clear.
  destruct (ext4_snapshot_test_cow_bitmap ccfg svc (ext4_snapshot_cow_begin h) a block 1
              (c_world st)) as [[r1 c1] w1].
  cbn [fst snd with_world c_world] in *.
  destruct (Z.ltb_spec r1 0); [lia|].
  destruct (Z.eqb_spec r1 0); [lia|].
  destruct (ext4_snapshot_map_blocks svc (ext4_snapshot_cow_begin h) a block 1 0
              SNAPMAP_READ w1) as [[r2 blk] w2].
  cbn [fst snd with_world c_world] in *. subst r2. cbn [Z.ltb Z.compare].
  destruct (Z.ltb_spec (ext4_snapshot_excluded ino) 0); [contradiction|].
  cbn [negb].
  apply andb_prop in Hready as [Hmapped Hup].
  match goal with
  | |- context [negb (b_mapped ?x)] => change x with (get_bh (with_world st w2) b)
  end.
  rewrite Hmapped. cbn [negb].
  match goal with
  | |- context [read_if_stale svc ?x b] => change x with (with_world st w2)
  end.
  destruct (read_if_stale svc (with_world st w2) b) as [ok st2].
  cbn [fst] in Hup. subst ok. cbn [negb].
  destruct (svc_getblk svc (ext4_snapshot_cow_begin h) a (SNAPSHOT_IBLOCK block)
              SNAPMAP_COW (c_world st2)) as [[sbh e0] w3].
  cbn [fst] in Hget. injection Hget as -> ->.
  destruct (Z.eqb_spec e 0) as [-> | Hne]; [reflexivity|].
  destruct Hcopy as [? | Hcopy]; [contradiction|].
  cbn [with_world c_world] in *.
  match goal with
  | |- context [ext4_snapshot_copy_buffer_cow svc ?a1 ?a2 ?a3 ?a4 ?a5] =>
    change (fst (ext4_snapshot_copy_buffer_cow svc a1 a2 a3 a4 a5) = 0) in Hcopy;
    destruct (ext4_snapshot_copy_buffer_cow svc a1 a2 a3 a4 a5) as [e2 w4]
  end.
  cbn [fst] in Hcopy. subst e2. reflexivity.
Qed.

(** X28. The values [ext4_snapshot_test_and_cow] returns for a call that
    gets past the guards (a snapshot is active, the handle is not cowing,
    the inode is not the active snapshot, the buffer is not in the COW
    cache), with collaborators that keep their contract: it returns 1
    exactly when the block is in use by the snapshot (its bit is set in the
    COW bitmap), is not yet mapped in the snapshot file, and the call is
    test-only or the inode is a file ignored by snapshots, for which the
    engine turns the call into a test-only one; it returns 0 when the block
    is not in use by the snapshot or is already mapped in the snapshot file,
    and when it copies the block: the source buffer is ready, [ext4_getblk]
    hands out the snapshot buffer, and the buffer was there already or the
    copy completes; an error of one of the two lookups is passed on; and it
    never returns more than 1. With no active snapshot it returns 0 and
    changes nothing. [ext4_snapshot_get_create_access] turns the answer 1
    into [-EIO] and never returns a positive value. *)
Theorem cow_hook_return_values
    (ccfg : cow_config) (W B : Type) (svc : services W B)
    (st : cstate W) (h : handle) (ino : option inode) (block : Z)
    (bh : option Z) (cow : bool) (a : inode) :
  well_behaved svc ->
  c_active_snapshot st = Some a -> h_cowing h = false ->
  same_inode ino a = false -> ext4_snapshot_test_cowed ccfg st h bh = false ->
  let ret := fst (fst (ext4_snapshot_test_and_cow ccfg svc st h ino block bh cow)) in
  let r1 := in_use_answer ccfg svc st h a block in
  let r2 := mapped_answer ccfg svc st h a block in
  (ret = 1 <-> 0 < r1 /\ r2 = 0 /\ (cow = false \/ ext4_snapshot_excluded ino < 0))
  /\ (r1 = 0 -> ret = 0)
  /\ (0 < r1 -> 0 < r2 -> ret = 0)
  /\ (forall b s e,
        bh = Some b -> cow = true -> ~ ext4_snapshot_excluded ino < 0 ->
        0 < r1 -> r2 = 0 ->
        source_ready ccfg svc st h a block b = true ->
        getblk_answer ccfg svc st h a block b = (Some s, e) ->
        e = 0 \/ copy_answer ccfg svc st h a block b s = 0 ->
        ret = 0)
  /\ (r1 < 0 -> ret = r1)
  /\ (0 < r1 -> r2 < 0 -> ret = r2)
  /\ ret <= 1
  /\ (forall st0 : cstate W,
        c_active_snapshot st0 = None ->
        ext4_snapshot_test_and_cow ccfg svc st0 h ino block bh cow = (0, h, st0))
  /\ (forall b : Z,
        c_has_snapshot st = true ->
        ext4_snapshot_test_cowed ccfg st h (Some b) = false ->
        0 < in_use_answer ccfg svc st h a (b_blocknr (get_bh st b)) ->
        mapped_answer ccfg svc st h a (b_blocknr (get_bh st b)) = 0 ->
        fst (fst (ext4_snapshot_get_create_access ccfg svc st h b)) = - EIO)
  /\ (forall b : Z, fst (fst (ext4_snapshot_get_create_access ccfg svc st h b)) <= 0).
Proof.
  intros Hwb Ha Hc Hs Ht ret r1 r2.
  destruct (cow_return_value ccfg W B svc st h ino block bh cow a Hwb Ha Hc Hs Ht)
    as (H1 & H2 & H3 & H4 & H5 & H6).
  split; [exact H1|]. split; [exact H2|]. split; [exact H3|].
  split.
  { intros b s e -> -> Hex Hr1 Hr2 Hready Hget Hcopy.
    exact (cow_copy_success ccfg W B svc st h ino block b a s e Ha Hc Hs Ht Hex Hr1 Hr2
             Hready Hget Hcopy). }
  split; [exact H4|]. split; [exact H5|]. split; [exact H6|].
  split; [intros st0 H0; apply cow_without_snapshot; exact H0|].
  split.
  - intros b Hsnap Htb Hin Hmap.
    destruct (cow_return_value ccfg W B svc st h None (b_blocknr (get_bh st b)) (Some b)
                false a Hwb Ha Hc eq_refl Htb) as (Hone & _).
    assert (Hret : fst (fst (ext4_snapshot_test_and_cow ccfg svc st h None
                               (b_blocknr (get_bh st b)) (Some b) false)) = 1).
    { apply Hone. split; [exact Hin|]. split; [exact Hmap|]. left. reflexivity. }
    unfold ext4_snapshot_get_create_access, EXT4_SNAPSHOTS, ext4_snapshot_cow.
    rewrite Hsnap. cbn [negb].
    destruct (ext4_snapshot_test_and_cow ccfg svc st h None (b_blocknr (get_bh st b))
                (Some b) false) as [[e h'] st'].
    cbn [fst] in Hret. subst e. reflexivity.
  - intros b. unfold ext4_snapshot_get_create_access, ext4_snapshot_cow.
    destruct (negb (EXT4_SNAPSHOTS st)); [cbn; lia|].
    destruct (ext4_snapshot_test_and_cow ccfg svc st h None (b_blocknr (get_bh st b))
                (Some b) false) as [[e h'] st'].
    cbn [fst]. destruct (Z.ltb_spec 0 e); [unfold EIO|]; lia.
Qed.

Lemma sim_well_behaved : well_behaved Sim.svc.
Proof.
  split.
  - intros h ino blk cmd w. cbn [Sim.svc svc_getblk]. unfold Sim.getblk, next3_getblk.
    match goal with
    | |- context [next3_get_blocks_handle ?a1 ?a2 ?a3 ?a4 ?a5 ?a6 ?a7 ?a8 ?a9 ?a10 ?a11] =>
      destruct (next3_get_blocks_handle a1 a2 a3 a4 a5 a6 a7 a8 a9 a10 a11)
        as [[[err blocknr] new] fs]
    end.
    destruct (Z.ltb_spec 0 err) as [Hpos | Hneg].
    + destruct ((0 =? 0) && negb (blocknr =? 0)); [|cbn; lia].
      destruct (new && SNAPMAP_ISCOW cmd); cbn; discriminate.
    + destruct ((err =? 0) && negb (blocknr =? 0)); [|cbn; intros _; exact Hneg].
      destruct (new && SNAPMAP_ISCOW cmd); cbn; discriminate.
  - intros h ino w. cbn. lia.
Qed.

Lemma cow_hook_return_values_witness :
  fst (fst (ext4_snapshot_test_and_cow Sim.ccfg Sim.svc
              (Sim.state0 [300] 5 {[ 1 := Sim.journalled 300 4 ]}) (Sim.handle0 5)
              None 300 (Some 1) false)) = 1
  /\ fst (fst (ext4_snapshot_test_and_cow Sim.ccfg Sim.svc
                 (Sim.state0 [300] 5 {[ 1 := Sim.journalled 300 4 ]}) (Sim.handle0 5)
                 None 300 (Some 1) true)) = 0
  /\ fst (fst (ext4_snapshot_get_create_access Sim.ccfg Sim.svc
                 (Sim.state0 [300] 5 {[ 1 := Sim.journalled 300 4 ]}) (Sim.handle0 5) 1))
     = - EIO.
Proof.
  assert (Ht : ext4_snapshot_test_cowed Sim.ccfg
                 (Sim.state0 [300] 5 {[ 1 := Sim.journalled 300 4 ]}) (Sim.handle0 5)
                 (Some 1) = false) by (vm_compute; reflexivity).
  destruct (cow_hook_return_values Sim.ccfg Sim.world (list Z) Sim.svc
              (Sim.state0 [300] 5 {[ 1 := Sim.journalled 300 4 ]}) (Sim.handle0 5)
              None 300 (Some 1) false Sim.snapshot_inode
              sim_well_behaved eq_refl eq_refl eq_refl Ht)
    as (H1 & _ & _ & _ & _ & _ & _ & _ & H5 & _).
  destruct (cow_hook_return_values Sim.ccfg Sim.world (list Z) Sim.svc
              (Sim.state0 [300] 5 {[ 1 := Sim.journalled 300 4 ]}) (Sim.handle0 5)
              None 300 (Some 1) true Sim.snapshot_inode
              sim_well_behaved eq_refl eq_refl eq_refl Ht)
    as (_ & _ & _ & Hcopy & _).
  split; [|split].
  - apply H1. vm_compute. split; [reflexivity|]. split; [reflexivity|]. left. reflexivity.
  - apply (Hcopy 1 2000 1).
    + reflexivity.
    + reflexivity.
    + vm_compute. intros H. discriminate H.
    + vm_compute. reflexivity.
    + vm_compute. reflexivity.
    + vm_compute. reflexivity.
    + vm_compute. reflexivity.
    + right. vm_compute. reflexivity.
  - apply H5; vm_compute; reflexivity.
Defined.

(** C1. The claim holds of the written contract and fails on the code: a
    write to an indirect block of an older snapshot file, a file ignored by
    snapshots, asks [ext4_snapshot_get_write_access] for a COW; the block is
    in use by the active snapshot and not yet mapped in it. The engine turns
    the call into a test and the hook returns 1, the answer reserved for
    test-only calls, although its contract knows only 0 and negative errors.
    The same write for an ordinary file copies the block and returns 0, and
    [ext4_snapshot_get_create_access] turns the answer 1 into [-EIO]. *)
Theorem write_access_answers_one_for_ignored_file :
  let st := Sim.state0 [300] 5 {[ 1 := Sim.journalled 300 4 ]} in
  ext4_snapshot_excluded (Some Sim.old_snapshot) < 0
  /\ fst (fst (ext4_snapshot_get_write_access Sim.ccfg Sim.svc st (Sim.handle0 5)
                 (Some Sim.old_snapshot) 1)) = 1
  /\ Sim.sw_copies
       (c_world (snd (ext4_snapshot_get_write_access Sim.ccfg Sim.svc st (Sim.handle0 5)
                        (Some Sim.old_snapshot) 1))) = []
  /\ fst (fst (ext4_snapshot_get_write_access Sim.ccfg Sim.svc st (Sim.handle0 5)
                 (Some plain_file) 1)) = 0
  /\ fst (fst (ext4_snapshot_get_create_access Sim.ccfg Sim.svc st (Sim.handle0 5) 1))
     = - EIO.
Proof.
  intros st. split; [vm_compute; reflexivity|]. repeat split; vm_compute; reflexivity.
Qed.

(** C2. With the COW cache enabled (it always is, except when the debug
    switch turns it off): a call of [ext4_snapshot_test_and_cow] that returns
    0 for a buffer attached to the journal leaves the transaction of the
    handle as the tag on the journal head of the buffer; and in the state it
    leaves, a call for that buffer under any handle whose transaction equals
    the tag returns 0 and changes nothing: no lookup, no copy. For a buffer
    that is not attached to the journal the cache never hits. *)
Theorem cow_once_per_transaction
    (ccfg : cow_config) (W B : Type) (svc : services W B)
    (st : cstate W) (h : handle) (ino : option inode) (block : Z) (b : Z)
    (cow : bool) (a : inode) (h1 : handle) (st1 : cstate W) :
  cow_cache_enabled ccfg = true ->
  c_active_snapshot st = Some a -> h_cowing h = false ->
  ext4_snapshot_test_and_cow ccfg svc st h ino block (Some b) cow = (0, h1, st1) ->
  (forall jh,
      b_jbd (get_bh st b) = true -> b_jh (get_bh st b) = Some jh ->
      (fst (getblk_answer ccfg svc st h a block b) = None ->
       snd (getblk_answer ccfg svc st h a block b) <> 0) ->
      tagged st1 b h)
  /\ (forall jh1 h2 block2 cow2,
         b_jbd (get_bh st1 b) = true -> b_jh (get_bh st1 b) = Some jh1 ->
         h_tid h2 = b_cow_tid jh1 ->
         ext4_snapshot_test_and_cow ccfg svc st1 h2 ino block2 (Some b) cow2
         = (0, h2, st1))
  /\ (forall (s : cstate W) h2,
         b_jbd (get_bh s b) = false ->
         ext4_snapshot_test_cowed ccfg s h2 (Some b) = false).
Proof.
  intros He Ha Hc Hcall.
  split; [|split].
  - intros jh Hj Hh Hg. eapply cow_success_tags; eassumption.
  - intros jh1 h2 block2 cow2 Hj Hh Ht.
    assert (Ha1 : c_active_snapshot st1 = Some a).
    { pose proof (cow_preserves_active ccfg W B svc st h ino block (Some b) cow) as Hp.
      rewrite Hcall in Hp. cbn [snd] in Hp. rewrite Hp. exact Ha. }
    assert (Hs : same_inode ino a = false).
    { destruct (same_inode ino a) eqn:Hs; [|reflexivity].
      rewrite (cow_denied ccfg W B svc st h ino block (Some b) cow a Ha Hc Hs) in Hcall.
      discriminate Hcall. }
    destruct (h_cowing h2) eqn:Hc2.
    + apply cow_reentered. exact Hc2.
    + eapply cow_cached; [exact Ha1 | exact Hc2 | exact Hs |].
      eapply cache_hit; eassumption.
  - intros s h2 Hj. apply cache_off_when_detached. exact Hj.
Qed.

Lemma cow_once_per_transaction_witness :
  exists h1 st1,
    ext4_snapshot_test_and_cow Sim.ccfg Sim.svc
      (Sim.state0 [300] 5 {[ 1 := Sim.journalled 300 4 ]}) (Sim.handle0 5)
      None 300 (Some 1) true = (0, h1, st1)
    /\ Sim.sw_copies (c_world st1) = [(2000, 300)]
    /\ tagged st1 1 (Sim.handle0 5)
    /\ ext4_snapshot_test_and_cow Sim.ccfg Sim.svc st1 (Sim.handle0 5)
         None 300 (Some 1) true = (0, Sim.handle0 5, st1).
Proof.
  destruct (ext4_snapshot_test_and_cow Sim.ccfg Sim.svc
              (Sim.state0 [300] 5 {[ 1 := Sim.journalled 300 4 ]}) (Sim.handle0 5)
              None 300 (Some 1) true) as [[e h1] st1] eqn:Hcall.
  assert (He : e = 0).
  { apply (f_equal (fun x => fst (fst x))) in Hcall. vm_compute in Hcall. congruence. }
  subst e.
  assert (Hcopies : Sim.sw_copies (c_world st1) = [(2000, 300)]).
  { apply (f_equal (fun x => Sim.sw_copies (c_world (snd x)))) in Hcall.
    vm_compute in Hcall. symmetry. exact Hcall. }
  destruct (cow_once_per_transaction Sim.ccfg Sim.world (list Z) Sim.svc
              (Sim.state0 [300] 5 {[ 1 := Sim.journalled 300 4 ]}) (Sim.handle0 5)
              None 300 1 true Sim.snapshot_inode h1 st1
              eq_refl eq_refl eq_refl Hcall) as (Htag & Hagain & _).
  assert (Ht : tagged st1 1 (Sim.handle0 5)).
  { apply (Htag {| b_cow_tid := 4 |}).
    - vm_compute; reflexivity.
    - vm_compute; reflexivity.
    - vm_compute. intros Hnone. discriminate Hnone. }
  exists h1, st1. split; [reflexivity|]. split; [exact Hcopies|]. split; [exact Ht|].
  destruct Ht as (Hj & jh1 & Hh & Htid).
  apply (Hagain jh1 (Sim.handle0 5) 300 true Hj Hh). symmetry. exact Htid.
Defined.

(** *** The cowing flag under watch *)

Section WatchFacts.
Variable ccfg : cow_config.
Variable W : Type.
Variable B : Type.
Variable svc : services W B.

Lemma watch_test_cow_bitmap (h : handle) (a : inode) (block n : Z) (w : W) (l : list bool) :
  ext4_snapshot_test_cow_bitmap ccfg (watching svc) h a block n (w, l)
  = (fst (fst (ext4_snapshot_test_cow_bitmap ccfg svc h a block n w)),
     snd (fst (ext4_snapshot_test_cow_bitmap ccfg svc h a block n w)),
     (snd (ext4_snapshot_test_cow_bitmap ccfg svc h a block n w),
      l ++ (if SNAPSHOT_BLOCKS ccfg a <=? block then [] else [h_cowing h]))).
Proof.
  unfold ext4_snapshot_test_cow_bitmap.
  destruct (SNAPSHOT_BLOCKS ccfg a <=? block); [cbn; rewrite app_nil_r; reflexivity|].
  cbn [watching svc_read_cow_bitmap svc_test_bit_range fst snd].
  destruct (svc_read_cow_bitmap svc h a (SNAPSHOT_BLOCK_GROUP ccfg block) w) as [[d|] w'];
    [|reflexivity].
  destruct (svc_test_bit_range svc (SNAPSHOT_BLOCK_GROUP_OFFSET ccfg block) d n).
  reflexivity.
Qed.

Lemma watch_map_blocks (h : handle) (a : inode) (block n m cmd : Z) (w : W) (l : list bool) :
  ext4_snapshot_map_blocks (watching svc) h a block n m cmd (w, l)
  = (fst (fst (ext4_snapshot_map_blocks svc h a block n m cmd w)),
     snd (fst (ext4_snapshot_map_blocks svc h a block n m cmd w)),
     (snd (ext4_snapshot_map_blocks svc h a block n m cmd w), l ++ [h_cowing h])).
Proof.
  unfold ext4_snapshot_map_blocks. cbn [watching svc_map_blocks fst snd].
  destruct (svc_map_blocks svc h a (SNAPSHOT_IBLOCK block) n cmd w) as [[e pb] w'].
  reflexivity.
Qed.

Lemma watch_read_if_stale (st : cstate W) (l : list bool) (b : Z) :
  read_if_stale (watching svc) (watch st l) b
  = (fst (read_if_stale svc st b), watch (snd (read_if_stale svc st b)) l).
Proof.
  unfold read_if_stale. change (get_bh (watch st l) b) with (get_bh st b).
  destruct (b_uptodate (get_bh st b)); [reflexivity|].
  cbn [watching svc_read_block c_world watch fst snd].
  destruct (svc_read_block svc (b_blocknr (get_bh st b)) (c_world st)) as [ok w'].
  reflexivity.
Qed.

Lemma watch_copy_buffer_cow (h : handle) (a : inode) (s b : Z) (w : W) (l : list bool) :
  ext4_snapshot_copy_buffer_cow (watching svc) h a s b (w, l)
  = (fst (ext4_snapshot_copy_buffer_cow svc h a s b w),
     (snd (ext4_snapshot_copy_buffer_cow svc h a s b w), l ++ [h_cowing h])).
Proof.
  unfold ext4_snapshot_copy_buffer_cow, ext4_snapshot_complete_cow.
  cbn [watching svc_file_inode svc_copy_buffer svc_mark_dirty svc_sync_dirty fst snd].
  destruct (svc_file_inode svc h a (svc_copy_buffer svc s b w)) as [e w'].
  destruct (e =? 0); reflexivity.
Qed.

Lemma watch_mark_cowed (st : cstate W) (l : list bool) (h : handle) (bh : option Z) :
  ext4_snapshot_mark_cowed ccfg (watch st l) h bh
  = watch (ext4_snapshot_mark_cowed ccfg st h bh) l.
Proof.
  unfold ext4_snapshot_mark_cowed.
  destruct (negb (cow_cache_enabled ccfg)); [reflexivity|].
  destruct bh as [b|]; [|reflexivity].
  change (get_bh (watch st l) b) with (get_bh st b).
  destruct (b_jbd (get_bh st b)); [|reflexivity].
  destruct (b_jh (get_bh st b)) as [jh|]; [|reflexivity].
  destruct (negb (test_cow_tid jh h)); reflexivity.
Qed.

Lemma watch_test_cowed (st : cstate W) (l : list bool) (h : handle) (bh : option Z) :
  ext4_snapshot_test_cowed ccfg (watch st l) h bh = ext4_snapshot_test_cowed ccfg st h bh.
Proof. reflexivity. Qed.

Local Abbreviation trace_of k := (replicate k true).

(** A COW operation under watch: the same result, and every call sees the
    handle marked. *)
Lemma cow_watched (st : cstate W) h ino block bh cow a (l : list bool) :
  c_active_snapshot st = Some a -> h_cowing h = false ->
  same_inode ino a = false -> ext4_snapshot_test_cowed ccfg st h bh = false ->
  exists k : nat,
    ext4_snapshot_test_and_cow ccfg (watching svc) (watch st l) h ino block bh cow
    = (fst (fst (ext4_snapshot_test_and_cow ccfg svc st h ino block bh cow)),
       snd (fst (ext4_snapshot_test_and_cow ccfg svc st h ino block bh cow)),
       watch (snd (ext4_snapshot_test_and_cow ccfg svc st h ino block bh cow))
         (l ++ trace_of k))
    /\ (block < SNAPSHOT_BLOCKS ccfg a -> (1 <= k)%nat).
Proof.
  intros Ha Hc Hs Ht.
  unfold ext4_snapshot_test_and_cow, ext4_snapshot_has_active, IS_COWING.
  rewrite watch_test_cowed.
  change (c_active_snapshot (watch st l)) with (c_active_snapshot st).
  rewrite Ha, Hc, Hs, Ht.
  change (c_world (watch st l)) with (c_world st, l).
  rewrite watch_test_cow_bitmap.
  set (hb := ext4_snapshot_cow_begin h).
  assert (Hhb : h_cowing hb = true) by reflexivity. rewrite Hhb.
  destruct (ext4_snapshot_test_cow_bitmap ccfg svc hb a block 1 (c_world st))
    as [[r1 c1] w1].
  cbn [fst snd].
  set (t1 := if SNAPSHOT_BLOCKS ccfg a <=? block then [] else [true]).
  assert (Ht1 : exists k1 : nat, t1 = trace_of k1
                                 /\ (block < SNAPSHOT_BLOCKS ccfg a -> (1 <= k1)%nat)).
  { subst t1. destruct (Z.leb_spec (SNAPSHOT_BLOCKS ccfg a) block).
    - exists 0%nat. split; [reflexivity | lia].
    - exists 1%nat. split; [reflexivity | lia]. }
  destruct Ht1 as (k1 & -> & Hk1).
  change (with_world (watch st l) (w1, l ++ trace_of k1))
    with (watch (with_world st w1) (l ++ trace_of k1)).
  assert (Hout : forall err (s : cstate W) (k : nat),
             (k1 <= k)%nat ->
             exists k' : nat,
               cow_out err hb (watch s (l ++ trace_of k))
               = (fst (fst (cow_out err hb s)), snd (fst (cow_out err hb s)),
                  watch (snd (cow_out err hb s)) (l ++ trace_of k'))
               /\ (block < SNAPSHOT_BLOCKS ccfg a -> (1 <= k')%nat)).
  { intros err s k Hk. exists k. split; [reflexivity|]. intros H. specialize (Hk1 H). lia. }
  assert (Hcowed : forall err (s : cstate W) (k : nat),
             (k1 <= k)%nat ->
             exists k' : nat,
               cow_cowed ccfg err hb bh (watch s (l ++ trace_of k))
               = (fst (fst (cow_cowed ccfg err hb bh s)),
                  snd (fst (cow_cowed ccfg err hb bh s)),
                  watch (snd (cow_cowed ccfg err hb bh s)) (l ++ trace_of k'))
               /\ (block < SNAPSHOT_BLOCKS ccfg a -> (1 <= k')%nat)).
  { intros err s k Hk. unfold cow_cowed. rewrite watch_mark_cowed. apply Hout. exact Hk. }
  destruct (r1 <? 0); [apply Hout; lia|].
  destruct (r1 =? 0); [apply Hcowed; lia|].
  change (c_world (watch (with_world st w1) (l ++ trace_of k1)))
    with (w1, l ++ trace_of k1).
  change (c_world (with_world st w1)) with w1.
  rewrite watch_map_blocks. rewrite Hhb.
  destruct (ext4_snapshot_map_blocks svc hb a block 1 0 SNAPMAP_READ w1) as [[r2 blk] w2].
  cbn [fst snd].
  assert (Hsnoc : forall k : nat, trace_of k ++ [true] = trace_of (S k)).
  { intros k. induction k as [|k IH]; [reflexivity|]. cbn. rewrite IH. reflexivity. }
  rewrite <- app_assoc, Hsnoc.
  change (with_world (watch (with_world st w1) (l ++ trace_of k1))
            (w2, l ++ trace_of (S k1)))
    with (watch (with_world (with_world st w1) w2) (l ++ trace_of (S k1))).
  destruct (r2 <? 0); [apply Hout; lia|].
  destruct (0 <? r2); [apply Hcowed; lia|].
  destruct (negb (if (match ino with Some _ => ext4_snapshot_excluded ino | None => 0 end) <? 0
                  then false else cow)); [apply Hout; lia|].
  destruct bh as [b|]; [|apply Hout; lia].
  change (get_bh (watch (with_world (with_world st w1) w2) (l ++ trace_of (S k1))) b)
    with (get_bh (with_world (with_world st w1) w2) b).
  destruct (negb (b_mapped (get_bh (with_world (with_world st w1) w2) b)));
    [apply Hout; lia|].
  rewrite watch_read_if_stale.
  destruct (read_if_stale svc (with_world (with_world st w1) w2) b) as [ok st2].
  cbn [fst snd].
  destruct (negb ok); [apply Hout; lia|].
  change (c_world (watch st2 (l ++ trace_of (S k1)))) with (c_world st2, l ++ trace_of (S k1)).
  cbn [watching svc_getblk fst snd]. rewrite Hhb.
  destruct (svc_getblk svc hb a (SNAPSHOT_IBLOCK block) SNAPMAP_COW (c_world st2))
    as [[sbh e] w3].
  rewrite <- app_assoc, Hsnoc.
  change (with_world (watch st2 (l ++ trace_of (S k1))) (w3, l ++ trace_of (S (S k1))))
    with (watch (with_world st2 w3) (l ++ trace_of (S (S k1)))).
  destruct sbh as [s|]; [|apply Hout; lia].
  destruct (e =? 0); [apply Hcowed; lia|].
  change (c_world (watch (with_world st2 w3) (l ++ trace_of (S (S k1)))))
    with (w3, l ++ trace_of (S (S k1))).
  change (get_bh (watch (with_world st2 w3) (l ++ trace_of (S (S k1)))) b)
    with (get_bh (with_world st2 w3) b).
  change (c_world (with_world st2 w3)) with w3.
  rewrite watch_copy_buffer_cow. rewrite Hhb.
  destruct (ext4_snapshot_copy_buffer_cow svc hb a s
              (b_blocknr (get_bh (with_world st2 w3) b)) w3) as [e2 w4].
  cbn [fst snd]. rewrite <- app_assoc, Hsnoc.
  change (with_world (watch (with_world st2 w3) (l ++ trace_of (S (S k1))))
            (w4, l ++ trace_of (S (S (S k1)))))
    with (watch (with_world (with_world st2 w3) w4) (l ++ trace_of (S (S (S k1))))).
  destruct (negb (e2 =? 0)); [apply Hout; lia | apply Hcowed; lia].
Qed.


Lemma trace_snoc (k : nat) : trace_of k ++ [true] = trace_of (S k).
Proof. induction k as [|k IH]; [reflexivity|]. cbn. rewrite IH. reflexivity. Qed.

Lemma move_loop_watched (fuel : nat) :
  forall h a blk count moved (w : W) (l : list bool) (k : nat),
    h_cowing h = true ->
    exists k' : nat,
      (k <= k')%nat
      /\ move_loop (watching svc) fuel h a blk count moved (w, l ++ trace_of k)
         = match move_loop svc fuel h a blk count moved w with
           | None => None
           | Some (completed, err, moved_blks, w') =>
             Some (completed, err, moved_blks, (w', l ++ trace_of k'))
           end.
Proof.
  induction fuel as [|fuel IH]; intros h a blk count moved w l k Hh; cbn [move_loop].
  - exists k. split; [lia | reflexivity].
  - destruct (count =? 0); [exists k; split; [lia | reflexivity]|].
    rewrite watch_map_blocks, Hh.
    destruct (ext4_snapshot_map_blocks svc h a blk count 0 SNAPMAP_MOVE w) as [[e pb] w'].
    cbn [fst snd]. rewrite <- app_assoc, trace_snoc.
    destruct (e <=? 0); [exists (S k); split; [lia | reflexivity]|].
    destruct (IH h a (blk + e) (count - e) (moved + e) w' l (S k) Hh) as (k' & Hk' & Heq).
    exists k'. split; [lia | exact Heq].
Qed.

(** A move operation under watch. *)
Lemma move_watched (st : cstate W) h ino block maxblocks move a (l : list bool) :
  c_active_snapshot st = Some a -> h_cowing h = false -> same_inode ino a = false ->
  exists k : nat,
    ext4_snapshot_test_and_move ccfg (watching svc) (watch st l) h ino block maxblocks move
    = match ext4_snapshot_test_and_move ccfg svc st h ino block maxblocks move with
      | None => None
      | Some (ret, count, h', st') => Some (ret, count, h', watch st' (l ++ trace_of k))
      end
    /\ (block < SNAPSHOT_BLOCKS ccfg a -> (1 <= k)%nat).
Proof.
  intros Ha Hc Hs.
  unfold ext4_snapshot_test_and_move, ext4_snapshot_has_active, IS_COWING.
  change (c_active_snapshot (watch st l)) with (c_active_snapshot st).
  rewrite Ha, Hc, Hs. cbn [orb].
  change (c_world (watch st l)) with (c_world st, l).
  rewrite watch_test_cow_bitmap.
  set (hb := ext4_snapshot_cow_begin h).
  assert (Hhb : h_cowing hb = true) by reflexivity. rewrite Hhb.
  destruct (ext4_snapshot_test_cow_bitmap ccfg svc hb a block maxblocks (c_world st))
    as [[r1 c1] w1].
  cbn [fst snd].
  set (t1 := if SNAPSHOT_BLOCKS ccfg a <=? block then [] else [true]).
  assert (Ht1 : exists k1 : nat, t1 = trace_of k1
                                 /\ (block < SNAPSHOT_BLOCKS ccfg a -> (1 <= k1)%nat)).
  { subst t1. destruct (Z.leb_spec (SNAPSHOT_BLOCKS ccfg a) block).
    - exists 0%nat. split; [reflexivity | lia].
    - exists 1%nat. split; [reflexivity | lia]. }
  destruct Ht1 as (k1 & -> & Hk1).
  change (with_world (watch st l) (w1, l ++ trace_of k1))
    with (watch (with_world st w1) (l ++ trace_of k1)).
  assert (Hout : forall err count (s : cstate W) (k : nat),
             (k1 <= k)%nat ->
             exists k' : nat,
               move_out err count hb (watch s (l ++ trace_of k))
               = match move_out err count hb s with
                 | None => None
                 | Some (ret, count, h', st') =>
                   Some (ret, count, h', watch st' (l ++ trace_of k'))
                 end
               /\ (block < SNAPSHOT_BLOCKS ccfg a -> (1 <= k')%nat)).
  { intros err count s k Hk. exists k. split; [reflexivity|].
    intros H. specialize (Hk1 H). lia. }
  destruct (r1 <? 0); [apply Hout; lia|].
  destruct (r1 =? 0); [apply Hout; lia|].
  destruct (CONFIG_EXT4_DEBUG ccfg && match ino with None => true | Some _ => false end
            && negb (snapshot_unrm ccfg a)); [apply Hout; lia|].
  change (c_world (watch (with_world st w1) (l ++ trace_of k1)))
    with (w1, l ++ trace_of k1).
  change (c_world (with_world st w1)) with w1.
  rewrite watch_map_blocks, Hhb.
  destruct (ext4_snapshot_map_blocks svc hb a block c1 0 SNAPMAP_READ w1) as [[r2 blk] w2].
  cbn [fst snd]. rewrite <- app_assoc, trace_snoc.
  change (with_world (watch (with_world st w1) (l ++ trace_of k1))
            (w2, l ++ trace_of (S k1)))
    with (watch (with_world (with_world st w1) w2) (l ++ trace_of (S k1))).
  destruct (r2 <? 0); [apply Hout; lia|].
  destruct (0 <? r2); [apply Hout; lia|].
  destruct (negb (if negb ((match ino with Some _ => ext4_snapshot_excluded ino | None => 0 end)
                           =? 0) then false else move)); [apply Hout; lia|].
  change (c_world (watch (with_world (with_world st w1) w2) (l ++ trace_of (S k1))))
    with (w2, l ++ trace_of (S k1)).
  change (c_world (with_world (with_world st w1) w2)) with w2.
  destruct (move_loop_watched (S (Z.to_nat c1)) hb a block c1 0 w2 l (S k1) Hhb)
    as (k2 & Hk2 & Hloop).
  rewrite Hloop.
  destruct (move_loop svc (S (Z.to_nat c1)) hb a block c1 0 w2)
    as [[[[completed err] moved] w3]|]; [|exists k2; split; [reflexivity|lia]].
  change (with_world (watch (with_world (with_world st w1) w2) (l ++ trace_of (S k1)))
            (w3, l ++ trace_of k2))
    with (watch (with_world (with_world (with_world st w1) w2) w3) (l ++ trace_of k2)).
  destruct (negb completed); [apply Hout; lia|].
  destruct ino as [i|]; [|apply Hout; lia].
  change (with_world (watch (with_world (with_world (with_world st w1) w2) w3)
                        (l ++ trace_of k2))
            (svc_dquot_free (watching svc) i moved
               (c_world (watch (with_world (with_world (with_world st w1) w2) w3)
                           (l ++ trace_of k2)))))
    with (watch (with_world (with_world (with_world (with_world st w1) w2) w3)
                   (svc_dquot_free svc i moved w3)) (l ++ trace_of k2)).
  apply Hout. lia.
Qed.

End WatchFacts.

Lemma unwatch_watch {W : Type} (st : cstate W) (l : list bool) : unwatch (watch st l) = st.
Proof. destruct st. reflexivity. Qed.

Lemma cow_end_begin (h : handle) :
  h_cowing h = false -> ext4_snapshot_cow_end (ext4_snapshot_cow_begin h) = h.
Proof. destruct h. cbn. intros ->. reflexivity. Qed.

Lemma trace_all_set (k : nat) : Forall (eq true) (replicate k true).
Proof. induction k as [|k IH]; constructor; [reflexivity | exact IH]. Qed.

Lemma trace_not_empty (k : nat) : (1 <= k)%nat -> replicate k true <> [].
Proof. destruct k; [lia | discriminate]. Qed.

Section HandleFacts.
Variable ccfg : cow_config.
Variable W : Type.
Variable B : Type.
Variable svc : services W B.

Lemma cow_returns_handle (st : cstate W) h ino block bh cow a :
  c_active_snapshot st = Some a -> h_cowing h = false ->
  same_inode ino a = false -> ext4_snapshot_test_cowed ccfg st h bh = false ->
  snd (fst (ext4_snapshot_test_and_cow ccfg svc st h ino block bh cow)) = h.
Proof.
  intros Ha Hc Hs Ht. rewrite <- (cow_end_begin h Hc) at 2.
  unfold ext4_snapshot_test_and_cow, ext4_snapshot_has_active, IS_COWING, cow_cowed, cow_out.
  rewrite Ha, Hc, Hs, Ht.
  repeat match goal with
         | |- context [match ?x with _ => _ end] => destruct x
         end; reflexivity.
Qed.

Lemma move_returns_handle (st : cstate W) h ino block maxblocks move a e c h' st' :
  c_active_snapshot st = Some a -> h_cowing h = false ->
  ext4_snapshot_test_and_move ccfg svc st h ino block maxblocks move = Some (e, c, h', st') ->
  h' = h.
Proof.
  intros Ha Hc. rewrite <- (cow_end_begin h Hc) at 2.
  unfold ext4_snapshot_test_and_move, ext4_snapshot_has_active, IS_COWING, move_out.
  rewrite Ha, Hc. cbn [orb].
  repeat match goal with
         | |- context [match ?x with _ => _ end] => destruct x
         end; intros Hr; try discriminate; injection Hr as _ _ <- _; reflexivity.
Qed.

End HandleFacts.

(** C3. For every call of [ext4_snapshot_test_and_cow]: with the cowing
    flag of the handle already set it returns 0 and changes nothing; with
    the flag clear and the active snapshot itself as the inode it returns
    [-EPERM] and changes nothing.

    A COW operation (a call that gets past these guards and the COW cache)
    and a move operation (a call that gets past the [BUG_ON]) run with the
    flag set from their first step to their last: with a watch on the
    collaborators, which notes for every call that takes the handle whether
    the handle was marked, the operation gives the same result, every note
    says that the flag was set, and there is at least one note when the
    block lies within the snapshot (the COW bitmap is then consulted). The
    handle that comes back is the handle that went in, the flag clear
    again. A move returns when [ext4_map_blocks] maps no more than it is
    asked for. *)
Theorem cowing_flag_discipline
    (ccfg : cow_config) (W B : Type) (svc : services W B)
    (st : cstate W) (h : handle) (ino : option inode) (block : Z)
    (bh : option Z) (cow : bool) :
  (h_cowing h = true ->
   ext4_snapshot_test_and_cow ccfg svc st h ino block bh cow = (0, h, st))
  /\ (forall a, c_active_snapshot st = Some a -> h_cowing h = false ->
                same_inode ino a = true ->
                ext4_snapshot_test_and_cow ccfg svc st h ino block bh cow
                = (- EPERM, h, st))
  /\ (forall a, c_active_snapshot st = Some a -> h_cowing h = false ->
                same_inode ino a = false ->
                ext4_snapshot_test_cowed ccfg st h bh = false ->
                let '(ret, h', st') :=
                  ext4_snapshot_test_and_cow ccfg (watching svc) (watch st []) h ino
                    block bh cow in
                ext4_snapshot_test_and_cow ccfg svc st h ino block bh cow
                = (ret, h', unwatch st')
                /\ Forall (eq true) (seen st')
                /\ (block < SNAPSHOT_BLOCKS ccfg a -> seen st' <> [])
                /\ h' = h)
  /\ (forall a maxblocks move,
         c_active_snapshot st = Some a -> h_cowing h = false ->
         same_inode ino a = false ->
         match ext4_snapshot_test_and_move ccfg (watching svc) (watch st []) h ino
                 block maxblocks move with
         | Some (ret, count, h', st') =>
           ext4_snapshot_test_and_move ccfg svc st h ino block maxblocks move
           = Some (ret, count, h', unwatch st')
           /\ Forall (eq true) (seen st')
           /\ (block < SNAPSHOT_BLOCKS ccfg a -> seen st' <> [])
           /\ h' = h
         | None =>
           ext4_snapshot_test_and_move ccfg svc st h ino block maxblocks move = None
         end)
  /\ (forall a maxblocks move,
         maps_at_most svc ->
         c_active_snapshot st = Some a -> h_cowing h = false ->
         same_inode ino a = false ->
         is_Some (ext4_snapshot_test_and_move ccfg svc st h ino block maxblocks move)).
Proof.
  split; [apply cow_reentered|].
  split; [intros a; apply cow_denied|].
  split.
  { intros a Ha Hc Hs Ht.
    destruct (cow_watched ccfg W B svc st h ino block bh cow a [] Ha Hc Hs Ht)
      as (k & Heq & Hk).
    rewrite Heq. cbn [app].
    pose proof (cow_returns_handle ccfg W B svc st h ino block bh cow a Ha Hc Hs Ht) as Hh.
    destruct (ext4_snapshot_test_and_cow ccfg svc st h ino block bh cow) as [[ret h'] st'].
    cbn [fst snd] in *. rewrite unwatch_watch.
    split; [reflexivity|]. split; [apply trace_all_set|].
    split; [intros Hb; apply trace_not_empty, Hk, Hb | exact Hh]. }
  split.
  { intros a maxblocks move Ha Hc Hs.
    destruct (move_watched ccfg W B svc st h ino block maxblocks move a [] Ha Hc Hs)
      as (k & Heq & Hk).
    rewrite Heq. cbn [app].
    pose proof (move_returns_handle ccfg W B svc st h ino block maxblocks move a) as Hh.
    destruct (ext4_snapshot_test_and_move ccfg svc st h ino block maxblocks move)
      as [[[[ret count] h'] st']|]; [|reflexivity].
    rewrite unwatch_watch.
    split; [reflexivity|]. split; [apply trace_all_set|].
    split; [intros Hb; apply trace_not_empty, Hk, Hb|].
    exact (Hh ret count h' st' Ha Hc eq_refl). }
  intros a maxblocks move. apply move_returns.
Qed.

Lemma cowing_flag_discipline_witness :
  let cow_run :=
    ext4_snapshot_test_and_cow Sim.ccfg (watching Sim.svc)
      (watch (Sim.state0 [300] 5 {[ 1 := Sim.journalled 300 4 ]}) [])
      (Sim.handle0 5) None 300 (Some 1) true in
  let move_run :=
    ext4_snapshot_test_and_move Sim.ccfg (watching Sim.svc)
      (watch (Sim.state0 [523; 524] 1 ∅) []) (Sim.handle0 5) (Some plain_file)
      523 2 true in
  fst (fst cow_run) = 0
  /\ Sim.sw_copies (fst (c_world (snd cow_run))) = [(2000, 300)]
  /\ seen (snd cow_run) = [true; true; true; true]
  /\ snd (fst cow_run) = Sim.handle0 5
  /\ exists st',
       move_run = Some (2, 2, Sim.handle0 5, st')
       /\ seen st' <> [] /\ Forall (eq true) (seen st').
Proof.
  intros cow_run move_run.
  pose proof (cowing_flag_discipline Sim.ccfg Sim.world (list Z) Sim.svc
                (Sim.state0 [300] 5 {[ 1 := Sim.journalled 300 4 ]}) (Sim.handle0 5)
                None 300 (Some 1) true) as (_ & _ & Hcow & _).
  specialize (Hcow Sim.snapshot_inode eq_refl eq_refl eq_refl
                ltac:(vm_compute; reflexivity)).
  fold cow_run in Hcow.
  pose proof (cowing_flag_discipline Sim.ccfg Sim.world (list Z) Sim.svc
                (Sim.state0 [523; 524] 1 ∅) (Sim.handle0 5)
                (Some plain_file) 523 None true) as (_ & _ & _ & Hmove & _).
  specialize (Hmove Sim.snapshot_inode 2 true eq_refl eq_refl eq_refl).
  fold move_run in Hmove.
  split; [vm_compute; reflexivity|].
  split; [vm_compute; reflexivity|].
  split; [vm_compute; reflexivity|].
  split.
  { destruct cow_run as [[ret h'] st']. destruct Hcow as (_ & _ & _ & Hh). exact Hh. }
  destruct move_run as [[[[ret count] h'] st']|] eqn:Hrun.
  2:{ vm_compute in Hrun. discriminate Hrun. }
  destruct Hmove as (_ & Hall & Hsome & Hh).
  assert (Hret : ret = 2 /\ count = 2).
  { apply (f_equal (fun r => match r with
                             | Some (x, y, _, _) => (x, y)
                             | None => (0, 0)
                             end)) in Hrun.
    vm_compute in Hrun. injection Hrun as <- <-. split; reflexivity. }
  destruct Hret as [-> ->]. subst h'.
  exists st'. split; [reflexivity|].
  split; [apply Hsome; vm_compute; reflexivity | exact Hall].
Defined.

(** C4. The quota calls of a move that fails half way. Two blocks, 523 and
    524, are in use by the snapshot; 523 falls into the last slot of an
    indirect block the snapshot file already has, 524 needs a new indirect
    block, and the allocator has no block left. The first round of the loop
    of [ext4_snapshot_test_and_move] moves block 523 into the snapshot file
    and charges it to the snapshot file; the second round fails with
    [-ENOSPC], and the function leaves through [out]: the charge to the
    snapshot file stays, block 523 stays mapped in the snapshot file, the
    owner is not refunded, and the caller gets the error with one block left
    in [*maxblocks]. (Only the calls to [dquot_alloc_block] and
    [dquot_free_block] are counted; the allocator accounts for the indirect
    blocks it grants by itself.) *)
Theorem partial_move_leaves_snapshot_charged :
  exists c h' st',
    ext4_snapshot_test_and_move Sim.ccfg Sim.svc (Sim.state0 [523; 524] 0 ∅)
      (Sim.handle0 5) (Some plain_file) 523 2 true
    = Some (- ENOSPC, c, h', st')
    /\ c = 1
    /\ quota_charged (i_ino Sim.snapshot_inode) (m_log (Sim.sw_fs (c_world st'))) = 1
    /\ quota_charged (i_ino plain_file) (m_log (Sim.sw_fs (c_world st'))) = 0
    /\ read_slot (default [] (m_bufs (Sim.sw_fs (c_world st')) !! 1001)) 255 = 523.
Proof.
  destruct (ext4_snapshot_test_and_move Sim.ccfg Sim.svc (Sim.state0 [523; 524] 0 ∅)
              (Sim.handle0 5) (Some plain_file) 523 2 true)
    as [[[[e c] h'] st']|] eqn:Hrun; vm_compute in Hrun; [|discriminate Hrun].
  injection Hrun as <- <- <- <-.
  eexists _, _, _. split; [reflexivity|]. vm_compute. auto.
Qed.

(** With a block left in the allocator the same move succeeds: it returns
    2, the snapshot file is charged two blocks and the owner is refunded
    two. *)
Example move_conserves_quota_on_success :
  exists h' st',
    ext4_snapshot_test_and_move Sim.ccfg Sim.svc (Sim.state0 [523; 524] 1 ∅)
      (Sim.handle0 5) (Some plain_file) 523 2 true
    = Some (2, 2, h', st')
    /\ quota_charged (i_ino Sim.snapshot_inode) (m_log (Sim.sw_fs (c_world st'))) = 2
    /\ quota_charged (i_ino plain_file) (m_log (Sim.sw_fs (c_world st'))) = - 2.
Proof.
  destruct (ext4_snapshot_test_and_move Sim.ccfg Sim.svc (Sim.state0 [523; 524] 1 ∅)
              (Sim.handle0 5) (Some plain_file) 523 2 true)
    as [[[[e c] h'] st']|] eqn:Hrun; vm_compute in Hrun; [|discriminate Hrun].
  injection Hrun as <- <- <- <-.
  eexists _, _. split; [reflexivity|]. vm_compute. auto.
Qed.

(** * Further properties of the modelled code *)

(** ** The path resolver *)

(** The four shapes of a path of a block below the first triple-indirect
    tree's end. *)
Lemma path_shape (cfg : config) (sb : super_block) (ino : inode) (i : Z) :
  0 <= NEXT3_ADDR_PER_BLOCK_BITS sb ->
  let p := NEXT3_ADDR_PER_BLOCK sb in
  0 <= i < 12 + p + p * p + p * p * p ->
  is_i_block cfg i ->
  (0 <= i < 12 /\ offsets (next3_block_to_path cfg sb ino i) = [i])
  \/ (exists a, i = 12 + a /\ 0 <= a < p
                /\ offsets (next3_block_to_path cfg sb ino i) = [12; a])
  \/ (exists a, i = 12 + p + a /\ 0 <= a < p * p
                /\ offsets (next3_block_to_path cfg sb ino i) = [13; a / p; a mod p])
  \/ (exists a, i = 12 + p + p * p + a /\ 0 <= a < p * p * p
                /\ offsets (next3_block_to_path cfg sb ino i)
                   = [14; a / (p * p); (a / p) mod p; a mod p]).
Proof.
  intros Hb p Hi Hfit. subst p.
  rewrite (block_to_path_fits cfg sb ino i Hfit).
  pose proof (ptrs_pos sb Hb) as Hp.
  destruct (Z.lt_ge_cases i 12) as [H1 | H1].
  { left. split; [lia|]. rewrite path_direct by (unfold NEXT3_NDIR_BLOCKS; lia). reflexivity. }
  destruct (Z.lt_ge_cases i (12 + NEXT3_ADDR_PER_BLOCK sb)) as [H2 | H2].
  { right; left. exists (i - 12). split; [lia|]. split; [lia|].
    rewrite path_indirect by (unfold NEXT3_NDIR_BLOCKS; lia). reflexivity. }
  destruct (Z.lt_ge_cases i (12 + NEXT3_ADDR_PER_BLOCK sb
                             + NEXT3_ADDR_PER_BLOCK sb * NEXT3_ADDR_PER_BLOCK sb))
    as [H3 | H3].
  { right; right; left. exists (i - 12 - NEXT3_ADDR_PER_BLOCK sb).
    split; [lia|]. split; [lia|].
    rewrite path_double by (unfold NEXT3_NDIR_BLOCKS; lia). reflexivity. }
  right; right; right.
  exists (i - 12 - NEXT3_ADDR_PER_BLOCK sb
          - NEXT3_ADDR_PER_BLOCK sb * NEXT3_ADDR_PER_BLOCK sb).
  split; [lia|]. split; [lia|].
  rewrite path_triple by (unfold NEXT3_NDIR_BLOCKS; lia). reflexivity.
Qed.

(** X1. Every offset [next3_block_to_path] stores for a block of the
    direct, indirect, double-indirect or (first) triple-indirect range
    that is a value of the type of its parameter is a valid index: the
    first one into the 15 slots of the inode, the others into the [p] slots
    of an indirect block; and the number of offsets is the depth, between 1
    and 4. *)
Theorem path_offsets_in_bounds
    (cfg : config) (sb : super_block) (ino : inode) (i : Z) :
  0 <= NEXT3_ADDR_PER_BLOCK_BITS sb ->
  let p := NEXT3_ADDR_PER_BLOCK sb in
  0 <= i < 12 + p + p * p + p * p * p ->
  is_i_block cfg i ->
  let r := next3_block_to_path cfg sb ino i in
  1 <= depth r <= 4
  /\ depth r = Z.of_nat (length (offsets r))
  /\ exists o rest,
       offsets r = o :: rest
       /\ 0 <= o < NEXT3_N_BLOCKS
       /\ Forall (fun x => 0 <= x < p) rest.
Proof.
  intros Hb p Hi Hfit r. subst r p.
  pose proof (ptrs_pos sb Hb) as Hp.
  assert (Hdepth : depth (next3_block_to_path cfg sb ino i)
                   = Z.of_nat (length (offsets (next3_block_to_path cfg sb ino i)))).
  { unfold next3_block_to_path, block_to_path_body.
    repeat match goal with |- context [if ?c then _ else _] => destruct c end;
      reflexivity. }
  rewrite Hdepth. change NEXT3_N_BLOCKS with 15.
  destruct (path_shape cfg sb ino i Hb Hi Hfit)
    as [(H & ->) | [(a & Hia & Ha & ->) | [(a & Hia & Ha & ->) | (a & Hia & Ha & ->)]]];
    set (p := NEXT3_ADDR_PER_BLOCK sb) in *; cbn [length].
  - split; [lia|]. split; [reflexivity|].
    exists i, []. split; [reflexivity|]. split; [lia|]. constructor.
  - split; [lia|]. split; [reflexivity|].
    exists 12, [a]. split; [reflexivity|]. split; [lia|].
    repeat constructor; lia.
  - split; [lia|]. split; [reflexivity|].
    exists 13, [a / p; a mod p]. split; [reflexivity|]. split; [lia|].
    pose proof (Z.mod_pos_bound a p Hp).
    assert (0 <= a / p < p).
    { split; [apply Z.div_pos; lia | apply Z.div_lt_upper_bound; lia]. }
    repeat constructor; lia.
  - split; [lia|]. split; [reflexivity|].
    exists 14, [a / (p * p); (a / p) mod p; a mod p].
    split; [reflexivity|]. split; [lia|].
    pose proof (Z.mod_pos_bound a p Hp).
    pose proof (Z.mod_pos_bound (a / p) p Hp).
    assert (0 <= a / (p * p) < p).
    { split; [apply Z.div_pos; nia | apply Z.div_lt_upper_bound; nia]. }
    repeat constructor; lia.
Qed.

Lemma path_offsets_in_bounds_witness :
  exists o rest,
    offsets (next3_block_to_path cfg_all sb1k plain_file 70000) = o :: rest
    /\ 0 <= o < NEXT3_N_BLOCKS
    /\ Forall (fun x => 0 <= x < 256) rest.
Proof.
  assert (Hb : 0 <= NEXT3_ADDR_PER_BLOCK_BITS sb1k) by (vm_compute; discriminate).
  assert (Hi : 0 <= 70000 < 12 + NEXT3_ADDR_PER_BLOCK sb1k
                          + NEXT3_ADDR_PER_BLOCK sb1k * NEXT3_ADDR_PER_BLOCK sb1k
                          + NEXT3_ADDR_PER_BLOCK sb1k * NEXT3_ADDR_PER_BLOCK sb1k
                            * NEXT3_ADDR_PER_BLOCK sb1k)
    by (vm_compute; split; [discriminate | reflexivity]).
  assert (Hfit : is_i_block cfg_all 70000)
    by (unfold is_i_block; cbn [cfg_all cfg_file_huge]; lia).
  destruct (path_offsets_in_bounds cfg_all sb1k plain_file 70000 Hb Hi Hfit)
    as (_ & _ & H).
  exact H.
Defined.

(** X2. Two different blocks of these ranges that are values of the type
    of the parameter never resolve to the same offsets: the path determines
    the block. (Block numbers outside the type are converted first, and
    then share the path of the block they are converted to.) *)
Theorem path_injective
    (cfg : config) (sb : super_block) (ino : inode) (i j : Z) :
  0 <= NEXT3_ADDR_PER_BLOCK_BITS sb ->
  let p := NEXT3_ADDR_PER_BLOCK sb in
  0 <= i < 12 + p + p * p + p * p * p ->
  0 <= j < 12 + p + p * p + p * p * p ->
  is_i_block cfg i -> is_i_block cfg j ->
  offsets (next3_block_to_path cfg sb ino i) = offsets (next3_block_to_path cfg sb ino j) ->
  i = j.
Proof.
  intros Hb p Hi Hj Hfi Hfj Heq. subst p.
  pose proof (ptrs_pos sb Hb) as Hp.
  destruct (path_shape cfg sb ino i Hb Hi Hfi)
    as [(H & Hoi) | [(a & -> & Ha & Hoi) | [(a & -> & Ha & Hoi) | (a & -> & Ha & Hoi)]]];
    destruct (path_shape cfg sb ino j Hb Hj Hfj)
      as [(H' & Hoj) | [(b & -> & Hb' & Hoj) | [(b & -> & Hb' & Hoj) | (b & -> & Hb' & Hoj)]]];
    rewrite Hoi, Hoj in Heq; set (p := NEXT3_ADDR_PER_BLOCK sb) in *;
    try discriminate Heq.
  - injection Heq as ->. reflexivity.
  - injection Heq as ->. reflexivity.
  - injection Heq as Hq Hr.
    rewrite (Z.div_mod a p), (Z.div_mod b p) by lia. rewrite Hq, Hr. reflexivity.
  - injection Heq as Hq Hm Hr.
    assert (Hdd : forall x, 0 <= x -> x / (p * p) = x / p / p).
    { intros x Hx. symmetry. apply Z.div_div; lia. }
    rewrite !Hdd in Hq by lia.
    assert (Hap : a / p = b / p).
    { rewrite (Z.div_mod (a / p) p), (Z.div_mod (b / p) p) by lia.
      rewrite Hq, Hm. reflexivity. }
    rewrite (Z.div_mod a p), (Z.div_mod b p) by lia. rewrite Hap, Hr. reflexivity.
Qed.

Lemma path_injective_witness :
  offsets (next3_block_to_path cfg_all sb1k plain_file 300)
  = offsets (next3_block_to_path cfg_all sb1k plain_file (12 + 256 + 32))
  /\ 300 = 12 + 256 + 32.
Proof.
  assert (Hb : 0 <= NEXT3_ADDR_PER_BLOCK_BITS sb1k) by (vm_compute; discriminate).
  assert (Ho : offsets (next3_block_to_path cfg_all sb1k plain_file 300)
               = offsets (next3_block_to_path cfg_all sb1k plain_file (12 + 256 + 32)))
    by (vm_compute; reflexivity).
  split; [exact Ho|].
  apply (path_injective cfg_all sb1k plain_file 300 (12 + 256 + 32) Hb);
    [vm_compute; split; first [discriminate | reflexivity]
    | vm_compute; split; first [discriminate | reflexivity]
    | unfold is_i_block; cbn [cfg_all cfg_file_huge]; lia
    | unfold is_i_block; cbn [cfg_all cfg_file_huge]; lia
    | exact Ho].
Defined.

(** ** The batch of a direct allocation *)

Lemma zero_run_holes (fuel : nat) (l : list Z) (p blks btb : Z) :
  forall count,
    btb + 1 <= count + Z.of_nat fuel ->
    let n := zero_run fuel l p blks btb count in
    (forall c, count <= c < n -> read_slot l (p + c) = 0)
    /\ (blks <= n \/ btb < n \/ read_slot l (p + n) <> 0).
Proof.
  induction fuel as [|fuel IH]; intros count Hf; cbn [zero_run].
  - split; [intros c Hc; lia|]. right; left. lia.
  - destruct (Z.ltb_spec count blks) as [H1 | H1]; cbn [andb].
    2:{ split; [intros c Hc; lia|]. left. lia. }
    destruct (Z.leb_spec count btb) as [H2 | H2]; cbn [andb].
    2:{ split; [intros c Hc; lia|]. right; left. lia. }
    destruct (Z.eqb_spec (read_slot l (p + count)) 0) as [H3 | H3].
    2:{ split; [intros c Hc; lia|]. right; right. exact H3. }
    destruct (IH (count + 1) ltac:(lia)) as [Hz Hstop].
    split; [|exact Hstop].
    intros c Hc. destruct (Z.eq_dec c count) as [-> | Hne]; [exact H3|].
    apply Hz. lia.
Qed.

(** X3. For an allocation right at the missing slot ([k = 0]),
    [next3_blks_to_allocate] counts the slot itself and the holes that
    follow it: every slot it counts after the first is empty, and the count
    stops only at the number of blocks asked for, at the end of the holder,
    or in front of a slot that is already mapped. *)
Theorem blks_to_allocate_counts_holes
    (ino : inode) (bufs : gmap Z (list Z)) (branch0 : Indirect) (blks btb : Z) :
  0 <= btb -> 1 <= blks ->
  let n := next3_blks_to_allocate ino bufs branch0 0 blks btb in
  let slots := holder_data ino bufs (ind_bh branch0) in
  1 <= n
  /\ (forall c, 1 <= c < n -> read_slot slots (ind_p branch0 + c) = 0)
  /\ (n = blks \/ n = btb + 1 \/ read_slot slots (ind_p branch0 + n) <> 0).
Proof.
  intros Hb Hk n slots. subst n slots. unfold next3_blks_to_allocate. cbn [Z.ltb Z.compare].
  pose proof (zero_run_bounds (Z.to_nat btb)
                (holder_data ino bufs (ind_bh branch0)) (ind_p branch0)
                blks btb 1 ltac:(lia) ltac:(lia)) as (Hlo & Hhi1 & Hhi2).
  destruct (zero_run_holes (Z.to_nat btb)
              (holder_data ino bufs (ind_bh branch0)) (ind_p branch0)
              blks btb 1 ltac:(lia)) as [Hz Hstop].
  split; [exact Hlo|]. split; [exact Hz|].
  destruct Hstop as [H | [H | H]]; [left | right; left | right; right]; first [lia | exact H].
Qed.

Lemma blks_to_allocate_counts_holes_witness :
  let file := set_i_data plain_file [0; 0; 0; 77; 0; 0; 0; 0; 0; 0; 0; 0; 0; 0; 0] in
  let here := {| ind_p := 0; ind_key := 0; ind_bh := None |} in
  next3_blks_to_allocate file ∅ here 0 8 11 = 3
  /\ (forall c, 1 <= c < next3_blks_to_allocate file ∅ here 0 8 11 ->
                read_slot (i_data file) c = 0).
Proof.
  intros file here.
  destruct (blks_to_allocate_counts_holes file ∅ here 8 11 ltac:(lia) ltac:(lia))
    as (_ & Hholes & _).
  split; [vm_compute; reflexivity | exact Hholes].
Defined.

(** ** The block allocator loop *)

(** X4. [next3_alloc_blocks] accounts for every block the allocator grants:
    when it fails it returns 0 and has freed exactly the blocks it was
    granted; when it succeeds it has freed nothing, it returns a number of
    direct blocks between 1 and the [blks] asked for, and the blocks it was
    granted are the [indirect_blks] first entries of [new_blocks] followed
    by the run of direct blocks that starts at the last entry. *)
Theorem alloc_blocks_accounts_for_every_block
    (cfg : config) (new_blocks_oracle : list event -> Z -> Z -> Z -> Z * Z * Z)
    (ino goal indirect_blks blks : Z) (log : list event) :
  0 <= indirect_blks -> 1 <= blks ->
  let '(err, ret, new_blocks, log') :=
    next3_alloc_blocks cfg new_blocks_oracle ino goal indirect_blks blks log in
  exists added,
    log' = log ++ added
    /\ (err <> 0 ->
        ret = 0 /\ freed_blocks added = granted_blocks added)
    /\ (err = 0 ->
        1 <= ret <= blks
        /\ freed_blocks added = []
        /\ Z.of_nat (length new_blocks) = indirect_blks + 1
        /\ granted_blocks added
           = take (Z.to_nat indirect_blks) new_blocks
             ++ seqZ (entry new_blocks indirect_blks) ret).
Proof.
  intros Hib Hblks.
  pose proof (next3_alloc_blocks_spec cfg new_blocks_oracle ino goal indirect_blks blks log
                Hib ltac:(lia) ltac:(lia) ltac:(left; lia)) as Hpost.
  destruct (next3_alloc_blocks cfg new_blocks_oracle ino goal indirect_blks blks log)
    as [[[err ret] nb] log'].
  unfold alloc_loop_post in Hpost.
  destruct Hpost as (added & G & Hlog & _ & Hcases).
  exists added. split; [exact Hlog|].
  destruct Hcases as [(He & Hr & Hnb & Hg & Hf) | [(He & Hr & Hf & cur & Hnb & Hlen & Hg)
                                                  | (He & Hr & Hb & _)]].
  - split; [|intros H0; contradiction].
    intros _. split; [exact Hr|]. rewrite Hf, Hg, Hnb. reflexivity.
  - split; [intros Hne; contradiction|].
    intros _. cbn [app] in Hnb, Hlen.
    assert (HlenG : length G = Z.to_nat indirect_blks) by lia.
    split; [lia|]. split; [exact Hf|].
    split; [rewrite Hnb, length_app; cbn; lia|].
    rewrite Hg, Hnb. f_equal.
    + rewrite take_app_length' by (symmetry; exact HlenG). reflexivity.
    + f_equal. unfold entry, read_slot.
      destruct (Z.ltb_spec indirect_blks 0); [lia|].
      rewrite lookup_app_r by lia. rewrite HlenG, Nat.sub_diag. reflexivity.
  - lia.
Qed.

Lemma alloc_blocks_accounts_for_every_block_witness :
  0 <= 2 /\ 1 <= 3
  /\ let '(err, ret, new_blocks, log') :=
       next3_alloc_blocks cfg_all grant_from_2000 20 0 2 3 [] in
     exists added,
       log' = [] ++ added
       /\ (err <> 0 -> ret = 0 /\ freed_blocks added = granted_blocks added)
       /\ (err = 0 ->
           1 <= ret <= 3
           /\ freed_blocks added = []
           /\ Z.of_nat (length new_blocks) = 2 + 1
           /\ granted_blocks added
              = take (Z.to_nat 2) new_blocks ++ seqZ (entry new_blocks 2) ret).
Proof.
  split; [lia|]. split; [lia|].
  apply (alloc_blocks_accounts_for_every_block cfg_all grant_from_2000 20 0 2 3 []); lia.
Defined.

(** ** The branch walk *)

Section BranchWalkFacts.
Variable ino : inode.
Variable bufs : gmap Z (list Z).
Variable offs : list Z.

Lemma chain_at_single (t : Indirect) : chain_at [t] 0 = t.
Proof. reflexivity. Qed.

Lemma linked_snoc (chain : list Indirect) (t : Indirect) :
  linked ino bufs offs chain ->
  1 <= Z.of_nat (length chain) ->
  ind_p t = entry offs (Z.of_nat (length chain)) ->
  ind_key t = read_slot (holder_data ino bufs (ind_bh t)) (ind_p t) ->
  ind_bh t = Some (ind_key (chain_at chain (Z.of_nat (length chain) - 1))) ->
  linked ino bufs offs (chain ++ [t]).
Proof.
  intros Hl Hlen Hp Hk Hb i Hi. rewrite length_app in Hi. cbn [length] in Hi.
  destruct (Z.eq_dec i (Z.of_nat (length chain))) as [-> | Hne].
  - rewrite chain_at_app_last. cbn zeta.
    split; [exact Hp|]. split; [exact Hk|].
    destruct (Z.eqb_spec (Z.of_nat (length chain)) 0); [lia|].
    rewrite chain_at_app_before by lia. exact Hb.
  - rewrite chain_at_app_before by lia.
    destruct (Hl i ltac:(lia)) as (H1 & H2 & H3).
    split; [exact H1|]. split; [exact H2|].
    rewrite H3. destruct (Z.eqb_spec i 0); [reflexivity|].
    rewrite chain_at_app_before by lia. reflexivity.
Qed.

Lemma verify_chain_loop_linked (chain : list Indirect) (fuel : nat) :
  linked ino bufs offs chain ->
  forall from to,
    0 <= from -> to < Z.of_nat (length chain) -> to - from + 1 <= Z.of_nat fuel ->
    verify_chain_loop fuel ino bufs chain from to = true.
Proof.
  intros Hl. induction fuel as [|fuel IH]; intros from to Hf Ht Hfuel; cbn [verify_chain_loop].
  - apply Z.ltb_lt. lia.
  - destruct (Z.leb_spec from to) as [Hle | Hgt]; cbn [andb].
    + destruct (Hl from ltac:(lia)) as (_ & Hk & _). cbn zeta in Hk.
      rewrite <- Hk, Z.eqb_refl. apply IH; lia.
    + apply Z.ltb_lt. lia.
Qed.

Lemma get_branch_loop_spec (steps : nat) :
  forall (k : Z) (chain : list Indirect) (key : Z),
    linked ino bufs offs chain ->
    1 <= k -> k = Z.of_nat (length chain) ->
    key = ind_key (chain_at chain (k - 1)) ->
    (forall i, 0 <= i < k -> ind_key (chain_at chain i) <> 0) ->
    let '(chain', partial, err) := get_branch_loop steps bufs offs k chain key in
    linked ino bufs offs chain'
    /\ match partial with
       | None =>
         err = 0 /\ Z.of_nat (length chain') = k + Z.of_nat steps
         /\ forall i, 0 <= i < Z.of_nat (length chain') -> ind_key (chain_at chain' i) <> 0
       | Some j =>
         Z.of_nat (length chain') = j + 1 /\ k - 1 <= j < k + Z.of_nat steps
         /\ (forall i, 0 <= i < j -> ind_key (chain_at chain' i) <> 0)
         /\ ((err = 0 /\ ind_key (chain_at chain' j) = 0)
             \/ (err = - EIO /\ ind_key (chain_at chain' j) <> 0
                 /\ bufs !! ind_key (chain_at chain' j) = None))
       end.
Proof.
  induction steps as [|steps IH]; intros k chain key Hl Hk Hlen Hkey Hnz; cbn [get_branch_loop].
  - split; [exact Hl|]. split; [reflexivity|]. split; [lia|].
    intros i Hi. apply Hnz. lia.
  - destruct (bufs !! key) as [data|] eqn:Hbuf.
    2:{ split; [exact Hl|]. split; [lia|]. split; [lia|].
        split; [intros i Hi; apply Hnz; lia|].
        right. split; [reflexivity|]. rewrite <- Hkey.
        split; [rewrite Hkey; apply Hnz; lia | exact Hbuf]. }
    set (t := {| ind_p := entry offs k;
                 ind_key := read_slot data (entry offs k);
                 ind_bh := Some key |}).
    assert (Hl' : linked ino bufs offs (chain ++ [t])).
    { apply linked_snoc; [exact Hl | lia | cbn; rewrite <- Hlen; reflexivity
                         | cbn; rewrite Hbuf; reflexivity
                         | cbn; rewrite <- Hlen, Hkey; reflexivity]. }
    assert (Hlast : chain_at (chain ++ [t]) k = t)
      by (rewrite Hlen; apply chain_at_app_last).
    assert (Hlen' : Z.of_nat (length (chain ++ [t])) = k + 1)
      by (rewrite length_app; cbn; lia).
    change (ind_key t) with (read_slot data (entry offs k)).
    destruct (Z.eqb_spec (read_slot data (entry offs k)) 0) as [Hz | Hz].
    + split; [exact Hl'|]. split; [exact Hlen'|]. split; [lia|].
      split.
      * intros i Hi. rewrite chain_at_app_before by lia. apply Hnz. lia.
      * left. split; [reflexivity|]. rewrite Hlast. exact Hz.
    + specialize (IH (k + 1) (chain ++ [t]) (read_slot data (entry offs k)) Hl'
                     ltac:(lia) ltac:(lia)).
      replace (k + 1 - 1) with k in IH by lia. rewrite Hlast in IH.
      specialize (IH eq_refl).
      assert (Hnz' : forall i, 0 <= i < k + 1 -> ind_key (chain_at (chain ++ [t]) i) <> 0).
      { intros i Hi. destruct (Z.eq_dec i k) as [-> | Hne].
        - rewrite Hlast. exact Hz.
        - rewrite chain_at_app_before by lia. apply Hnz. lia. }
      specialize (IH Hnz').
      destruct (get_branch_loop steps bufs offs (k + 1) (chain ++ [t])
                  (read_slot data (entry offs k))) as [[chain' partial] err].
      destruct IH as [Hl2 Hcase]. split; [exact Hl2|].
      destruct partial as [j|].
      * destruct Hcase as (H1 & H2 & H3 & H4).
        split; [exact H1|]. split; [lia|]. split; [exact H3 | exact H4].
      * destruct Hcase as (H1 & H2 & H3). split; [exact H1|]. split; [lia | exact H3].
Qed.

End BranchWalkFacts.

(** The chain [next3_get_branch] fills, and where it stops. *)
Lemma get_branch_spec
    (ino : inode) (bufs : gmap Z (list Z)) (depth : Z) (offs : list Z) :
  1 <= depth ->
  let '(chain, partial, err) := next3_get_branch ino bufs depth offs in
  linked ino bufs offs chain
  /\ verify_chain ino bufs chain 0 (Z.of_nat (length chain) - 1) = true
  /\ match partial with
     | None =>
       err = 0 /\ Z.of_nat (length chain) = depth
       /\ forall i, 0 <= i < depth -> ind_key (chain_at chain i) <> 0
     | Some j =>
       Z.of_nat (length chain) = j + 1 /\ 0 <= j < depth
       /\ (forall i, 0 <= i < j -> ind_key (chain_at chain i) <> 0)
       /\ ((err = 0 /\ ind_key (chain_at chain j) = 0)
           \/ (err = - EIO /\ ind_key (chain_at chain j) <> 0
               /\ bufs !! ind_key (chain_at chain j) = None))
     end.
Proof.
  intros Hd. unfold next3_get_branch.
  set (c0 := {| ind_p := entry offs 0;
                ind_key := read_slot (i_data ino) (entry offs 0);
                ind_bh := None |}).
  assert (Hl0 : linked ino bufs offs [c0]).
  { intros i Hi. cbn [length] in Hi. assert (i = 0) as -> by lia.
    rewrite chain_at_single. cbn. auto. }
  assert (Hverify : forall chain, linked ino bufs offs chain ->
                      verify_chain ino bufs chain 0 (Z.of_nat (length chain) - 1) = true).
  { intros chain Hl. unfold verify_chain.
    apply (verify_chain_loop_linked ino bufs offs chain _ Hl); lia. }
  change (ind_key c0) with (read_slot (i_data ino) (entry offs 0)).
  destruct (Z.eqb_spec (read_slot (i_data ino) (entry offs 0)) 0) as [Hz | Hz].
  - split; [exact Hl0|]. split; [apply Hverify; exact Hl0|].
    split; [reflexivity|]. split; [lia|]. split; [intros i Hi; lia|].
    left. split; [reflexivity | exact Hz].
  - pose proof (get_branch_loop_spec ino bufs offs (Z.to_nat (depth - 1)) 1 [c0]
                  (read_slot (i_data ino) (entry offs 0)) Hl0 ltac:(lia) eq_refl eq_refl)
      as Hspec.
    assert (Hnz : forall i, 0 <= i < 1 -> ind_key (chain_at [c0] i) <> 0).
    { intros i Hi. assert (i = 0) as -> by lia. exact Hz. }
    specialize (Hspec Hnz).
    destruct (get_branch_loop (Z.to_nat (depth - 1)) bufs offs 1 [c0]
                (read_slot (i_data ino) (entry offs 0))) as [[chain partial] err].
    destruct Hspec as [Hl Hcase].
    split; [exact Hl|]. split; [apply Hverify; exact Hl|].
    destruct partial as [j|].
    + destruct Hcase as (H1 & H2 & H3 & H4).
      split; [exact H1|]. split; [lia|]. split; [exact H3 | exact H4].
    + destruct Hcase as (H1 & H2 & H3).
      split; [exact H1|]. split; [lia|]. intros i Hi. apply H3. lia.
Qed.

(** X5. What [next3_get_branch] returns for a depth of at least 1. The
    chain it fills is linked: each triple carries the number stored at its
    offset of its holder (so [verify_chain] accepts the whole chain), the
    first holder being the inode and each further one the block named by
    the previous triple. When it returns NULL the chain has [depth] triples
    and no key is zero. When it returns a triple, that one is the last of
    the chain and all keys before it are non-zero; it is either a hole (its
    key is zero, [*err = 0]) or names an indirect block that could not be
    read ([*err = -EIO]). *)
Theorem get_branch_walks_linked_chain
    (ino : inode) (bufs : gmap Z (list Z)) (depth : Z) (offs : list Z) :
  1 <= depth ->
  let '(chain, partial, err) := next3_get_branch ino bufs depth offs in
  linked ino bufs offs chain
  /\ verify_chain ino bufs chain 0 (Z.of_nat (length chain) - 1) = true
  /\ match partial with
     | None =>
       err = 0 /\ Z.of_nat (length chain) = depth
       /\ forall i, 0 <= i < depth -> ind_key (chain_at chain i) <> 0
     | Some j =>
       Z.of_nat (length chain) = j + 1 /\ 0 <= j < depth
       /\ (forall i, 0 <= i < j -> ind_key (chain_at chain i) <> 0)
       /\ ((err = 0 /\ ind_key (chain_at chain j) = 0)
           \/ (err = - EIO /\ ind_key (chain_at chain j) <> 0
               /\ bufs !! ind_key (chain_at chain j) = None))
     end.
Proof. exact (get_branch_spec ino bufs depth offs). Qed.

Lemma get_branch_walks_linked_chain_witness :
  1 <= 3
  /\ let '(chain, partial, err) :=
       next3_get_branch Sim.snapshot_inode (m_bufs Sim.snapshot_fs) 3 [13; 0; 255] in
     linked Sim.snapshot_inode (m_bufs Sim.snapshot_fs) [13; 0; 255] chain
     /\ verify_chain Sim.snapshot_inode (m_bufs Sim.snapshot_fs) chain 0
          (Z.of_nat (length chain) - 1) = true
     /\ match partial with
        | None =>
          err = 0 /\ Z.of_nat (length chain) = 3
          /\ forall i, 0 <= i < 3 -> ind_key (chain_at chain i) <> 0
        | Some j =>
          Z.of_nat (length chain) = j + 1 /\ 0 <= j < 3
          /\ (forall i, 0 <= i < j -> ind_key (chain_at chain i) <> 0)
          /\ ((err = 0 /\ ind_key (chain_at chain j) = 0)
              \/ (err = - EIO /\ ind_key (chain_at chain j) <> 0
                  /\ m_bufs Sim.snapshot_fs !! ind_key (chain_at chain j) = None))
        end.
Proof.
  split; [lia|].
  apply (get_branch_walks_linked_chain Sim.snapshot_inode (m_bufs Sim.snapshot_fs) 3
           [13; 0; 255]).
  lia.
Defined.

(** ** Building a branch *)

Lemma read_slot_insert (l : list Z) (i v j : Z) :
  0 <= i ->
  read_slot (<[Z.to_nat i := v]> l) j
  = if (j =? i) && (i <? Z.of_nat (length l)) then v else read_slot l j.
Proof.
  intros Hi. unfold read_slot.
  destruct (Z.ltb_spec j 0) as [Hj | Hj].
  { destruct (Z.eqb_spec j i); [lia | reflexivity]. }
  destruct (Z.eqb_spec j i) as [-> | Hne]; cbn [andb].
  - destruct (Z.ltb_spec i (Z.of_nat (length l))) as [Hlt | Hge].
    + rewrite list_lookup_insert_eq by lia. reflexivity.
    + rewrite list_insert_ge by lia. reflexivity.
  - rewrite list_lookup_insert_ne by lia. reflexivity.
Qed.

Lemma read_slot_replicate (n : nat) (j : Z) : read_slot (replicate n 0) j = 0.
Proof.
  unfold read_slot. destruct (j <? 0); [reflexivity|].
  destruct (replicate n 0 !! Z.to_nat j) as [x|] eqn:Hx; [|reflexivity].
  apply lookup_replicate in Hx as [-> _]. reflexivity.
Qed.

Lemma store_slot_buf (b idx v : Z) (st : mstate) (data : list Z) :
  0 <= idx -> m_bufs st !! b = Some data ->
  m_bufs (store_slot (Some b) idx v st) !! b = Some (<[Z.to_nat idx := v]> data).
Proof.
  intros Hi Hb. unfold store_slot. destruct (Z.ltb_spec idx 0); [lia|].
  cbn [m_bufs]. rewrite lookup_alter_eq, Hb. reflexivity.
Qed.

Lemma store_run_buf (n : nat) :
  forall (b p i cur : Z) (st : mstate) (data : list Z),
    0 <= p + i -> m_bufs st !! b = Some data ->
    exists data',
      m_bufs (store_run n (Some b) p i cur st) !! b = Some data'
      /\ length data' = length data
      /\ forall j, read_slot data' j
                   = if (p + i <=? j) && (j <? p + i + Z.of_nat n)
                        && (j <? Z.of_nat (length data))
                     then cur + 1 + (j - (p + i)) else read_slot data j.
Proof.
  induction n as [|n IH]; intros b p i cur st data Hpi Hb; cbn [store_run].
  - exists data. split; [exact Hb|]. split; [reflexivity|].
    intros j. destruct (Z.leb_spec (p + i) j), (Z.ltb_spec j (p + i + Z.of_nat 0));
      cbn [andb]; try reflexivity; lia.
  - pose proof (store_slot_buf b (p + i) (cur + 1) st data Hpi Hb) as Hb1.
    destruct (IH b p (i + 1) (cur + 1) _ _ ltac:(lia) Hb1) as (data' & Hd & Hlen & Hread).
    exists data'. split; [exact Hd|].
    rewrite length_insert in Hlen. split; [exact Hlen|].
    intros j. rewrite Hread, length_insert, read_slot_insert by lia.
    destruct (Z.leb_spec (p + (i + 1)) j), (Z.ltb_spec j (p + (i + 1) + Z.of_nat n)),
      (Z.ltb_spec j (Z.of_nat (length data))), (Z.leb_spec (p + i) j),
      (Z.ltb_spec j (p + i + Z.of_nat (S n))), (Z.eqb_spec j (p + i)),
      (Z.ltb_spec (p + i) (Z.of_nat (length data)));
      cbn [andb]; try reflexivity; lia.
Qed.

Section BuildFacts.
Variable cfg : config.
Variable sb : super_block.
Variable jbd : list event -> event -> Z.

Local Abbreviation p := (NEXT3_ADDR_PER_BLOCK sb).

(** The stores of one step of the linking loop. *)
Lemma step_builds_block (bh off key num : Z) (last : bool) (s : mstate) :
  0 <= off < p -> (last = true -> off + num <= p) -> 1 <= num ->
  let s1 := store_slot (Some bh) off key (zero_buffer sb bh s) in
  let s2 := if last then store_run (Z.to_nat (num - 1)) (Some bh) off 1 key s1 else s1 in
  exists data,
    m_bufs s2 !! bh = Some data
    /\ holds_only_run sb data off key (if last then num else 1).
Proof.
  intros Hoff Hlast Hnum s1 s2.
  assert (Hz : m_bufs (zero_buffer sb bh s) !! bh = Some (replicate (Z.to_nat p) 0)).
  { unfold zero_buffer. cbn [m_bufs]. apply lookup_insert_eq. }
  pose proof (store_slot_buf bh off key _ _ ltac:(lia) Hz) as H1. fold s1 in H1.
  assert (Hlen1 : Z.of_nat (length (<[Z.to_nat off := key]> (replicate (Z.to_nat p) 0))) = p).
  { rewrite length_insert, length_replicate. lia. }
  assert (Hread1 : forall j, read_slot (<[Z.to_nat off := key]> (replicate (Z.to_nat p) 0)) j
                             = if j =? off then key else 0).
  { intros j. rewrite read_slot_insert by lia. rewrite length_replicate, read_slot_replicate.
    destruct (Z.eqb_spec j off), (Z.ltb_spec off (Z.of_nat (Z.to_nat p)));
      cbn [andb]; try reflexivity; lia. }
  destruct last; subst s2.
  - destruct (store_run_buf (Z.to_nat (num - 1)) bh off 1 key s1 _ ltac:(lia) H1)
      as (data & Hd & Hlen & Hread).
    exists data. split; [exact Hd|]. split.
    + rewrite Hlen, length_insert, length_replicate. reflexivity.
    + intros j. rewrite Hread, Hread1. specialize (Hlast eq_refl).
      rewrite Hlen1.
      destruct (Z.leb_spec (off + 1) j), (Z.ltb_spec j (off + 1 + Z.of_nat (Z.to_nat (num - 1)))),
        (Z.ltb_spec j p), (Z.leb_spec off j), (Z.ltb_spec j (off + num)), (Z.eqb_spec j off);
        cbn [andb]; try reflexivity; lia.
  - eexists. split; [exact H1|]. split.
    + rewrite length_insert, length_replicate. reflexivity.
    + intros j. rewrite Hread1.
      destruct (Z.leb_spec off j), (Z.ltb_spec j (off + 1)), (Z.eqb_spec j off);
        cbn [andb]; try reflexivity; lia.
Qed.

Lemma link_loop_builds (steps : nat) :
  forall (cmd indirect_blks num n : Z) (offs new_blocks : list Z)
         (branch : list Indirect) (st : mstate),
    Z.of_nat steps = indirect_blks - n + 1 -> 1 <= n ->
    Z.of_nat (length branch) = n -> 1 <= num ->
    (forall i, n <= i <= indirect_blks -> 0 <= entry offs i < p) ->
    entry offs indirect_blks + num <= p ->
    let r := link_loop cfg sb jbd steps cmd indirect_blks num n offs new_blocks branch st in
    fst (fst (fst r)) = 0 ->
    Z.of_nat (length (snd (fst r))) = indirect_blks + 1
    /\ (forall i, n <= i <= indirect_blks ->
          chain_at (snd (fst r)) i
          = {| ind_p := entry offs i; ind_key := entry new_blocks i;
               ind_bh := Some (entry new_blocks (i - 1)) |})
    /\ ((forall a b, n <= a < b /\ b <= indirect_blks ->
                     entry new_blocks (a - 1) <> entry new_blocks (b - 1)) ->
        forall i, n <= i <= indirect_blks ->
          exists data,
            m_bufs (snd r) !! entry new_blocks (i - 1) = Some data
            /\ holds_only_run sb data (entry offs i) (entry new_blocks i)
                 (if i =? indirect_blks then num else 1)).
Proof.
  induction steps as [|steps IH];
    intros cmd ib num n offs nb branch st Hsteps Hn Hlen Hnum Hoffs Hrun r Herr;
    subst r.
  { cbn [link_loop fst snd]. split; [lia|]. split; intros; lia. }
  set (bh := entry nb (n - 1)) in *.
  set (t := {| ind_p := entry offs n; ind_key := entry nb n; ind_bh := Some bh |}) in *.
  (* whatever the journal does, a successful step continues from a state
     [s2] whose buffers are those after the stores *)
  assert (Hstep : exists s s2,
             link_loop cfg sb jbd (S steps) cmd ib num n offs nb branch st
             = link_loop cfg sb jbd steps cmd ib num (n + 1) offs nb (branch ++ [t]) s2
             /\ m_bufs s2
                = m_bufs (let s1 := store_slot (Some bh) (entry offs n) (entry nb n)
                                      (zero_buffer sb bh s) in
                          if n =? ib
                          then store_run (Z.to_nat (num - 1)) (Some bh) (entry offs n) 1
                                 (entry nb n) s1
                          else s1)).
  { cbn [link_loop] in Herr |- *. fold bh in Herr |- *. fold t in Herr |- *.
    destruct (bypass cfg cmd).
    - cbn [negb Z.eqb] in Herr |- *. eexists st, _. split; [reflexivity|]. reflexivity.
    - unfold journal_call in Herr |- *. cbn [fst snd] in Herr |- *.
      destruct (jbd (m_log st) (EvGetCreateAccess bh) =? 0) eqn:Hc; cbn [negb] in Herr |- *.
      2:{ cbn [fst] in Herr. apply Z.eqb_neq in Hc. contradiction. }
      match type of Herr with
      | context [jbd ?l (EvDirtyMetadata bh) =? 0] =>
        destruct (jbd l (EvDirtyMetadata bh) =? 0) eqn:Hd
      end; cbn [negb] in Herr |- *.
      2:{ cbn [fst] in Herr. apply Z.eqb_neq in Hd. contradiction. }
      eexists (log_event (EvGetCreateAccess bh) st), _. split; [reflexivity|]. reflexivity. }
  destruct Hstep as (s & s2 & Heq & Hbufs).
  rewrite Heq in Herr |- *.
  assert (Hlen' : Z.of_nat (length (branch ++ [t])) = n + 1)
    by (rewrite length_app; cbn; lia).
  assert (Hoffs' : forall i, n + 1 <= i <= ib -> 0 <= entry offs i < p)
    by (intros i Hi; apply Hoffs; lia).
  destruct (IH cmd ib num (n + 1) offs nb (branch ++ [t]) s2
              ltac:(lia) ltac:(lia) Hlen' Hnum Hoffs' Hrun Herr) as (IHlen & IHchain & IHbuf).
  destruct (link_loop_spec cfg sb jbd steps cmd ib num (n + 1) offs nb (branch ++ [t]) s2
              ltac:(lia) ltac:(lia) Hlen') as [Hpost Hchain].
  split; [exact IHlen|]. split.
  - intros i Hi. destruct (Z.eq_dec i n) as [-> | Hne]; [|apply IHchain; lia].
    rewrite Hchain by lia.
    pose proof (chain_at_app_last branch t) as Hx. rewrite Hlen in Hx. exact Hx.
  - intros Hdist i Hi.
    assert (Hdist' : forall a b, n + 1 <= a < b /\ b <= ib ->
                                 entry nb (a - 1) <> entry nb (b - 1))
      by (intros a b Hab; apply Hdist; lia).
    destruct (Z.eq_dec i n) as [-> | Hne]; [|apply (IHbuf Hdist'); lia].
    unfold link_loop_post in Hpost.
    destruct (link_loop cfg sb jbd steps cmd ib num (n + 1) offs nb (branch ++ [t]) s2)
      as [[[e n'] br] st'].
    destruct Hpost as (added & _ & _ & _ & _ & _ & _ & Hframe & _).
    cbn [snd]. fold bh.
    rewrite Hframe.
    2:{ intros j Hj. replace (j - 1) with ((j - 1 + 1) - 1) by lia.
        apply Hdist. lia. }
    rewrite Hbufs.
    destruct (step_builds_block bh (entry offs n) (entry nb n) num (n =? ib) s
                ltac:(apply Hoffs; lia)) as (data & Hd & Hrun').
    { intros Hl. apply Z.eqb_eq in Hl. subst ib. exact Hrun. }
    { exact Hnum. }
    exists data. split; [exact Hd | exact Hrun'].
Qed.

End BuildFacts.

Section BranchSuccess.
Variable cfg : config.
Variable sb : super_block.
Variable new_blocks_oracle : list event -> Z -> Z -> Z -> Z * Z * Z.
Variable jbd : list event -> event -> Z.

(** The allocation part of [next3_alloc_branch_cow]: on success it has not
    written to the inode or to a buffer, and it hands on between 1 and
    [blks] direct blocks; in move mode these are the [blks] blocks from
    [iblock] on. *)
Lemma alloc_part_success (iblock indirect_blks blks goal cmd : Z) (st : mstate)
    (num : Z) (nb : list Z) (st1 : mstate) :
  0 <= indirect_blks -> 1 <= blks ->
  (if moving cfg cmd then
     let current_block := SNAPSHOT_BLOCK iblock in
     let '(err, new_blocks, st0) :=
       if 0 <? indirect_blks then
         let '(err, _, nb, log) :=
           next3_alloc_blocks cfg new_blocks_oracle (i_ino (m_inode st)) goal
             indirect_blks 0 (m_log st) in
         (err, nb, {| m_inode := m_inode st; m_bufs := m_bufs st; m_log := log |})
       else (0, [], st) in
     if negb (err =? 0) then (err, 0, new_blocks, st0)
     else
       let st0 := log_event (EvDquotAlloc (i_ino (m_inode st)) blks) st0 in
       (0, blks, take (Z.to_nat indirect_blks) new_blocks ++ [current_block], st0)
   else
     let '(err, num, nb, log) :=
       next3_alloc_blocks cfg new_blocks_oracle (i_ino (m_inode st)) goal
         indirect_blks blks (m_log st) in
     (err, num, nb, {| m_inode := m_inode st; m_bufs := m_bufs st; m_log := log |}))
  = (0, num, nb, st1) ->
  m_inode st1 = m_inode st /\ m_bufs st1 = m_bufs st
  /\ 1 <= num <= blks
  /\ (moving cfg cmd = true -> num = blks /\ entry nb indirect_blks = iblock).
Proof.
  intros Hib Hblks Halloc.
  destruct (moving cfg cmd) eqn:Hmv.
  - assert (Hcm : cfg_block_move cfg = true).
    { unfold moving in Hmv. apply andb_prop in Hmv. tauto. }
    cbn zeta in Halloc.
    destruct (Z.ltb_spec 0 indirect_blks) as [Hpos | Hzero].
    + pose proof (next3_alloc_blocks_spec cfg new_blocks_oracle (i_ino (m_inode st)) goal
                    indirect_blks 0 (m_log st) Hib ltac:(lia) ltac:(lia) (or_intror Hcm))
        as Hpost.
      destruct (next3_alloc_blocks cfg new_blocks_oracle (i_ino (m_inode st)) goal
                  indirect_blks 0 (m_log st)) as [[[e ret] nb0] log'].
      destruct (Z.eqb_spec e 0) as [-> | Hne]; cbn [negb] in Halloc;
        [|injection Halloc as He _ _ _; contradiction].
      injection Halloc as <- <- <-. cbn.
      split; [reflexivity|]. split; [reflexivity|]. split; [lia|].
      intros _. split; [reflexivity|].
      unfold alloc_loop_post in Hpost.
      destruct Hpost as (added & G & _ & _ & Hcases).
      destruct Hcases as [(He & _) | [(_ & Hr & _) | (_ & _ & _ & _ & Hnb & Hlen & _)]];
        [contradiction | lia |].
      cbn [app] in Hnb. subst nb0.
      rewrite firstn_all2 by lia. rewrite <- Hlen. apply entry_app_r.
    + assert (indirect_blks = 0) as -> by lia.
      cbn in Halloc. injection Halloc as <- <- <-. cbn.
      split; [reflexivity|]. split; [reflexivity|]. split; [lia|].
      intros _. split; reflexivity.
  - pose proof (next3_alloc_blocks_spec cfg new_blocks_oracle (i_ino (m_inode st)) goal
                  indirect_blks blks (m_log st) Hib ltac:(lia) ltac:(lia) (or_introl Hblks))
      as Hpost.
    destruct (next3_alloc_blocks cfg new_blocks_oracle (i_ino (m_inode st)) goal
                indirect_blks blks (m_log st)) as [[[e ret] nb0] log'].
    injection Halloc as -> <- <- <-. cbn.
    split; [reflexivity|]. split; [reflexivity|]. split; [|intros H; discriminate H].
    unfold alloc_loop_post in Hpost.
    destruct Hpost as (added & G & _ & _ & Hcases).
    destruct Hcases as [(He & _) | [(_ & Hr & _) | (_ & _ & Hb & _)]];
      [contradiction | lia | lia].
Qed.

End BranchSuccess.

(** What a successful [next3_alloc_branch_cow] has built. *)
Lemma alloc_branch_success
    (cfg : config) (sb : super_block)
    (new_blocks_oracle : list event -> Z -> Z -> Z -> Z * Z * Z)
    (jbd : list event -> event -> Z)
    (iblock indirect_blks blks goal : Z) (offs : list Z) (branch0 : Indirect)
    (cmd : Z) (st : mstate) (blks' : Z) (branch' : list Indirect) (st' : mstate) :
  0 <= indirect_blks -> 1 <= blks ->
  (forall i, 1 <= i <= indirect_blks -> 0 <= entry offs i < NEXT3_ADDR_PER_BLOCK sb) ->
  (1 <= indirect_blks -> entry offs indirect_blks + blks <= NEXT3_ADDR_PER_BLOCK sb) ->
  next3_alloc_branch_cow cfg sb new_blocks_oracle jbd iblock indirect_blks blks goal
    offs branch0 cmd st = (0, blks', branch', st') ->
  1 <= blks' <= blks
  /\ Z.of_nat (length branch') = indirect_blks + 1
  /\ ind_p (chain_at branch' 0) = ind_p branch0
  /\ ind_bh (chain_at branch' 0) = ind_bh branch0
  /\ (forall n, 1 <= n <= indirect_blks ->
        ind_p (chain_at branch' n) = entry offs n
        /\ ind_bh (chain_at branch' n) = Some (ind_key (chain_at branch' (n - 1))))
  /\ ((forall a b, 0 <= a < b /\ b < indirect_blks ->
         ind_key (chain_at branch' a) <> ind_key (chain_at branch' b)) ->
      forall n, 1 <= n <= indirect_blks ->
        exists data,
          m_bufs st' !! ind_key (chain_at branch' (n - 1)) = Some data
          /\ holds_only_run sb data (entry offs n) (ind_key (chain_at branch' n))
               (if n =? indirect_blks then blks' else 1))
  /\ m_inode st' = m_inode st
  /\ (forall b, (forall a, 0 <= a < indirect_blks -> b <> ind_key (chain_at branch' a)) ->
                m_bufs st' !! b = m_bufs st !! b)
  /\ (moving cfg cmd = true ->
      blks' = blks /\ ind_key (chain_at branch' indirect_blks) = iblock).
Proof.
  intros Hib Hblks Hoffs Hrun Hcall.
  unfold next3_alloc_branch_cow in Hcall. cbv zeta in Hcall.
  match type of Hcall with
  | context [match ?X with _ => _ end] =>
    destruct X as [[[e num] nb] st1] eqn:Halloc
  end.
  destruct (Z.eqb_spec e 0) as [-> | Hne]; cbn [negb] in Hcall;
    [|injection Hcall as He _ _ _; contradiction].
  destruct (alloc_part_success cfg new_blocks_oracle iblock indirect_blks blks goal cmd st
              num nb st1 Hib Hblks Halloc) as (Hi1 & Hb1 & Hnum & Hmove).
  set (b0 := set_key branch0 (entry nb 0)) in *.
  assert (Hlen0 : Z.of_nat (length [b0]) = 1) by reflexivity.
  destruct (link_loop_spec cfg sb jbd (Z.to_nat indirect_blks) cmd indirect_blks num 1
              offs nb [b0] st1 ltac:(lia) ltac:(lia) Hlen0) as [Hpost Hkeep].
  assert (Hbuild : 1 <= indirect_blks ->
            fst (fst (fst (link_loop cfg sb jbd (Z.to_nat indirect_blks) cmd indirect_blks
                             num 1 offs nb [b0] st1))) = 0 ->
            Z.of_nat (length (snd (fst (link_loop cfg sb jbd (Z.to_nat indirect_blks) cmd
                                          indirect_blks num 1 offs nb [b0] st1))))
            = indirect_blks + 1
            /\ (forall i, 1 <= i <= indirect_blks ->
                  chain_at (snd (fst (link_loop cfg sb jbd (Z.to_nat indirect_blks) cmd
                                        indirect_blks num 1 offs nb [b0] st1))) i
                  = {| ind_p := entry offs i; ind_key := entry nb i;
                       ind_bh := Some (entry nb (i - 1)) |})
            /\ ((forall a b, 1 <= a < b /\ b <= indirect_blks ->
                   entry nb (a - 1) <> entry nb (b - 1)) ->
                forall i, 1 <= i <= indirect_blks ->
                  exists data,
                    m_bufs (snd (link_loop cfg sb jbd (Z.to_nat indirect_blks) cmd
                                   indirect_blks num 1 offs nb [b0] st1))
                      !! entry nb (i - 1) = Some data
                    /\ holds_only_run sb data (entry offs i) (entry nb i)
                         (if i =? indirect_blks then num else 1))).
  { intros Hpos. specialize (Hrun Hpos).
    apply (link_loop_builds cfg sb jbd); try lia; try assumption. }
  assert (Hzero : indirect_blks = 0 ->
            snd (fst (link_loop cfg sb jbd (Z.to_nat indirect_blks) cmd indirect_blks
                        num 1 offs nb [b0] st1)) = [b0]).
  { intros ->. reflexivity. }
  destruct (link_loop cfg sb jbd (Z.to_nat indirect_blks) cmd indirect_blks num 1
              offs nb [b0] st1) as [[[e n] br] st2].
  cbn [fst snd] in Hkeep, Hbuild, Hzero.
  destruct (Z.eqb_spec e 0) as [-> | Hne]; cbn [negb] in Hcall;
    [|injection Hcall as He _ _ _; contradiction].
  injection Hcall as <- <- <-.
  unfold link_loop_post in Hpost.
  destruct Hpost as (added & _ & Hino & _ & _ & _ & _ & Hframe & _).
  assert (Hk0 : chain_at br 0 = b0) by (rewrite Hkeep by lia; reflexivity).
  assert (Hshape : Z.of_nat (length br) = indirect_blks + 1
                   /\ forall i, 0 <= i <= indirect_blks -> ind_key (chain_at br i) = entry nb i).
  { destruct (Z.eq_dec indirect_blks 0) as [Hz | Hz].
    - rewrite (Hzero Hz). subst indirect_blks.
      split; [reflexivity|]. intros i Hi. assert (i = 0) as -> by lia. reflexivity.
    - destruct (Hbuild ltac:(lia) eq_refl) as (Hl & Hc & _).
      split; [exact Hl|]. intros i Hi.
      destruct (Z.eq_dec i 0) as [-> | Hi0]; [rewrite Hk0; reflexivity|].
      rewrite Hc by lia. reflexivity. }
  destruct Hshape as [Hl Hkeys].
  split; [exact Hnum|]. split; [exact Hl|].
  split; [rewrite Hk0; reflexivity|]. split; [rewrite Hk0; reflexivity|].
  split.
  { intros i Hi. destruct (Hbuild ltac:(lia) eq_refl) as (_ & Hc & _).
    rewrite Hc by lia. cbn [ind_p ind_bh]. rewrite Hkeys by lia. auto. }
  split.
  { intros Hdist i Hi. destruct (Hbuild ltac:(lia) eq_refl) as (_ & _ & Hbuf).
    rewrite !Hkeys by lia. apply Hbuf; [|exact Hi].
    intros a b Hab. rewrite <- !Hkeys by lia. apply Hdist. lia. }
  split; [rewrite Hino; exact Hi1|].
  split.
  { intros b Hb. rewrite Hframe; [rewrite Hb1; reflexivity|].
    intros i Hi. rewrite <- Hkeys by lia. apply Hb. lia. }
  intros Hmv. destruct (Hmove Hmv) as [-> Hk]. split; [reflexivity|].
  rewrite Hkeys by lia. exact Hk.
Qed.

(** X6. A successful [next3_alloc_branch_cow] builds the missing branch off
    to the side. It hands on between 1 and [blks] direct blocks and fills
    [indirect_blks + 1] triples: the first is [partial] with the new key,
    and each further one sits at its offset in the block named by the
    previous one. Provided the blocks granted for the indirect blocks are
    distinct and the offsets fit into a block, each new indirect block is
    all zero except for the pointer to the next block of the branch (in the
    last one, the run of direct blocks). Nothing reachable from the inode
    is written: the inode is unchanged, and so is every buffer other than
    those of the new indirect blocks. In move mode the direct blocks are
    the blocks being moved. *)
Theorem alloc_branch_builds_the_branch
    (cfg : config) (sb : super_block)
    (new_blocks_oracle : list event -> Z -> Z -> Z -> Z * Z * Z)
    (jbd : list event -> event -> Z)
    (iblock indirect_blks blks goal : Z) (offs : list Z) (branch0 : Indirect)
    (cmd : Z) (st : mstate) (blks' : Z) (branch' : list Indirect) (st' : mstate) :
  0 <= indirect_blks -> 1 <= blks ->
  (forall i, 1 <= i <= indirect_blks -> 0 <= entry offs i < NEXT3_ADDR_PER_BLOCK sb) ->
  (1 <= indirect_blks -> entry offs indirect_blks + blks <= NEXT3_ADDR_PER_BLOCK sb) ->
  next3_alloc_branch_cow cfg sb new_blocks_oracle jbd iblock indirect_blks blks goal
    offs branch0 cmd st = (0, blks', branch', st') ->
  1 <= blks' <= blks
  /\ Z.of_nat (length branch') = indirect_blks + 1
  /\ ind_p (chain_at branch' 0) = ind_p branch0
  /\ ind_bh (chain_at branch' 0) = ind_bh branch0
  /\ (forall n, 1 <= n <= indirect_blks ->
        ind_p (chain_at branch' n) = entry offs n
        /\ ind_bh (chain_at branch' n) = Some (ind_key (chain_at branch' (n - 1))))
  /\ ((forall a b, 0 <= a < b /\ b < indirect_blks ->
         ind_key (chain_at branch' a) <> ind_key (chain_at branch' b)) ->
      forall n, 1 <= n <= indirect_blks ->
        exists data,
          m_bufs st' !! ind_key (chain_at branch' (n - 1)) = Some data
          /\ holds_only_run sb data (entry offs n) (ind_key (chain_at branch' n))
               (if n =? indirect_blks then blks' else 1))
  /\ m_inode st' = m_inode st
  /\ (forall b, (forall a, 0 <= a < indirect_blks -> b <> ind_key (chain_at branch' a)) ->
                m_bufs st' !! b = m_bufs st !! b)
  /\ (moving cfg cmd = true ->
      blks' = blks /\ ind_key (chain_at branch' indirect_blks) = iblock).
Proof. exact (alloc_branch_success cfg sb new_blocks_oracle jbd iblock indirect_blks blks goal offs branch0 cmd st blks' branch' st'). Qed.

Lemma alloc_branch_builds_the_branch_witness :
  exists blks' branch' st',
    next3_alloc_branch_cow cfg_all sb1k grant_from_2000 Sim.journal_ok 65804 3 1 0
      [14; 0; 0; 0] {| ind_p := 14; ind_key := 0; ind_bh := None |} SNAPMAP_WRITE
      fresh_state = (0, blks', branch', st')
    /\ Z.of_nat (length branch') = 3 + 1
    /\ m_inode st' = m_inode fresh_state
    /\ forall n, 1 <= n <= 3 ->
         ind_p (chain_at branch' n) = entry [14; 0; 0; 0] n
         /\ ind_bh (chain_at branch' n) = Some (ind_key (chain_at branch' (n - 1))).
Proof.
  destruct (next3_alloc_branch_cow cfg_all sb1k grant_from_2000 Sim.journal_ok 65804 3 1 0
              [14; 0; 0; 0] {| ind_p := 14; ind_key := 0; ind_bh := None |} SNAPMAP_WRITE
              fresh_state) as [[[e blks'] branch'] st'] eqn:Hcall.
  assert (He : e = 0).
  { apply (f_equal (fun x => fst (fst (fst x)))) in Hcall. vm_compute in Hcall. congruence. }
  subst e.
  assert (Hoffs : forall i, 1 <= i <= 3 ->
                    0 <= entry [14; 0; 0; 0] i < NEXT3_ADDR_PER_BLOCK sb1k).
  { intros i Hi. assert (i = 1 \/ i = 2 \/ i = 3) as [-> | [-> | ->]] by lia;
      vm_compute; split; first [discriminate | reflexivity]. }
  assert (Hrun : 1 <= 3 -> entry [14; 0; 0; 0] 3 + 1 <= NEXT3_ADDR_PER_BLOCK sb1k).
  { intros _. vm_compute. discriminate. }
  destruct (alloc_branch_builds_the_branch cfg_all sb1k grant_from_2000 Sim.journal_ok
              65804 3 1 0 [14; 0; 0; 0] {| ind_p := 14; ind_key := 0; ind_bh := None |}
              SNAPMAP_WRITE fresh_state blks' branch' st'
              ltac:(lia) ltac:(lia) Hoffs Hrun Hcall)
    as (_ & Hlen & _ & _ & Hlinks & _ & Hino & _).
  exists blks', branch', st'. split; [reflexivity|].
  split; [exact Hlen|]. split; [exact Hino | exact Hlinks].
Defined.

(** ** Splicing a branch *)

Lemma store_slot_holder (bh : option Z) (idx v : Z) (st : mstate) :
  0 <= idx ->
  holder_data (m_inode (store_slot bh idx v st)) (m_bufs (store_slot bh idx v st)) bh
  = <[Z.to_nat idx := v]> (holder_data (m_inode st) (m_bufs st) bh).
Proof.
  intros Hi. unfold store_slot. destruct (Z.ltb_spec idx 0); [lia|].
  destruct bh as [b|]; cbn [holder_data m_inode m_bufs].
  - rewrite lookup_alter_eq. destruct (m_bufs st !! b); reflexivity.
  - reflexivity.
Qed.

Lemma store_slot_other (bh : option Z) (idx v : Z) (st : mstate) :
  m_log (store_slot bh idx v st) = m_log st
  /\ i_block_alloc_info (m_inode (store_slot bh idx v st)) = i_block_alloc_info (m_inode st)
  /\ i_ino (m_inode (store_slot bh idx v st)) = i_ino (m_inode st)
  /\ (bh <> None -> m_inode (store_slot bh idx v st) = m_inode st)
  /\ (forall b, bh <> Some b -> m_bufs (store_slot bh idx v st) !! b = m_bufs st !! b).
Proof.
  unfold store_slot. destruct (idx <? 0); [auto 6|].
  destruct bh as [b0|]; cbn.
  - split; [reflexivity|]. split; [reflexivity|]. split; [reflexivity|].
    split; [reflexivity|]. intros b Hb. apply lookup_alter_ne. congruence.
  - split; [reflexivity|]. split; [reflexivity|]. split; [reflexivity|].
    split; [intros H; contradiction | reflexivity].
Qed.

Lemma store_run_holder (n : nat) :
  forall (bh : option Z) (p i cur : Z) (st : mstate),
    0 <= p + i ->
    let st' := store_run n bh p i cur st in
    let old := holder_data (m_inode st) (m_bufs st) bh in
    let new := holder_data (m_inode st') (m_bufs st') bh in
    length new = length old
    /\ (forall j, read_slot new j
                  = if (p + i <=? j) && (j <? p + i + Z.of_nat n)
                       && (j <? Z.of_nat (length old))
                    then cur + 1 + (j - (p + i)) else read_slot old j)
    /\ m_log st' = m_log st
    /\ i_block_alloc_info (m_inode st') = i_block_alloc_info (m_inode st)
    /\ i_ino (m_inode st') = i_ino (m_inode st)
    /\ (bh <> None -> m_inode st' = m_inode st)
    /\ (forall b, bh <> Some b -> m_bufs st' !! b = m_bufs st !! b).
Proof.
  induction n as [|n IH]; intros bh p i cur st Hpi; cbn [store_run]; cbn zeta.
  - split; [reflexivity|]. split.
    { intros j. destruct (Z.leb_spec (p + i) j), (Z.ltb_spec j (p + i + Z.of_nat 0));
        cbn [andb]; try reflexivity; lia. }
    auto 6.
  - destruct (IH bh p (i + 1) (cur + 1) (store_slot bh (p + i) (cur + 1) st) ltac:(lia))
      as (Hlen & Hread & Hlog & Hai & Hino & Hinode & Hbufs).
    destruct (store_slot_other bh (p + i) (cur + 1) st) as (Hl1 & Ha1 & Hi1 & Hin1 & Hb1).
    rewrite store_slot_holder in Hlen, Hread by lia.
    rewrite length_insert in Hlen, Hread.
    split; [exact Hlen|]. split.
    { intros j. rewrite Hread, read_slot_insert by lia.
      set (len := Z.of_nat (length (holder_data (m_inode st) (m_bufs st) bh))).
      destruct (Z.leb_spec (p + (i + 1)) j), (Z.ltb_spec j (p + (i + 1) + Z.of_nat n)),
        (Z.ltb_spec j len), (Z.leb_spec (p + i) j),
        (Z.ltb_spec j (p + i + Z.of_nat (S n))), (Z.eqb_spec j (p + i)),
        (Z.ltb_spec (p + i) len);
        cbn [andb]; try reflexivity; lia. }
    split; [rewrite Hlog; exact Hl1|]. split; [rewrite Hai; exact Ha1|].
    split; [rewrite Hino; exact Hi1|].
    split; [intros Hne; rewrite (Hinode Hne); apply Hin1; exact Hne|].
    intros b Hb. rewrite (Hbufs b Hb). apply Hb1. exact Hb.
Qed.

(** What a successful [next3_splice_branch_cow] has written. *)
Lemma splice_success
    (cfg : config) (jbd : list event -> event -> Z)
    (block : Z) (where_ : list Indirect) (num blks cmd : Z) (st st' : mstate) :
  let w := chain_at where_ 0 in
  let holder := holder_data (m_inode st) (m_bufs st) (ind_bh w) in
  let cnt := if (num =? 0) && (1 <? blks) then blks else 1 in
  let last_key := ind_key (chain_at where_ num) in
  0 <= ind_p w -> ind_p w + cnt <= Z.of_nat (length holder) ->
  next3_splice_branch_cow cfg jbd block where_ num blks cmd st = (0, st') ->
  let holder' := holder_data (m_inode st') (m_bufs st') (ind_bh w) in
  (forall j, read_slot holder' j
             = if (ind_p w <=? j) && (j <? ind_p w + cnt)
               then ind_key w + (j - ind_p w) else read_slot holder j)
  /\ (forall b, ind_bh w <> Some b -> m_bufs st' !! b = m_bufs st !! b)
  /\ (ind_bh w <> None -> i_data (m_inode st') = i_data (m_inode st))
  /\ (moving cfg cmd = true \/ i_block_alloc_info (m_inode st) = None ->
      i_block_alloc_info (m_inode st') = i_block_alloc_info (m_inode st))
  /\ (moving cfg cmd = false -> i_block_alloc_info (m_inode st) <> None ->
      i_block_alloc_info (m_inode st')
      = Some {| last_alloc_logical_block := block + blks - 1;
                last_alloc_physical_block := last_key + blks - 1 |}
      /\ (last_key + blks - 1 <> 0 ->
          forall cfg' sb gfb pid bufs partial,
            next3_find_goal cfg' sb gfb pid (m_inode st') bufs (block + blks) partial
            = last_key + blks)).
Proof.
  intros w holder cnt last_key Hp Hfit Hcall holder'.
  unfold next3_splice_branch_cow in Hcall. cbv zeta in Hcall. fold w in Hcall.
  (* the state [st0] after the write access, with the tree of [st] *)
  assert (Hst0 : exists st0,
             m_inode st0 = m_inode st /\ m_bufs st0 = m_bufs st
             /\ (match ind_bh w with
                 | Some b => journal_call jbd (EvGetWriteAccess b) st
                 | None => (0, st)
                 end = (0, st0)
                 \/ exists e, e <> 0
                    /\ match ind_bh w with
                       | Some b => journal_call jbd (EvGetWriteAccess b) st
                       | None => (0, st)
                       end = (e, st0))).
  { destruct (ind_bh w) as [b|].
    - unfold journal_call.
      destruct (Z.eq_dec (jbd (m_log st) (EvGetWriteAccess b)) 0) as [-> | Hne].
      + eexists. split; [|split; [|left; reflexivity]]; reflexivity.
      + eexists. split; [|split; [|right; eexists; split; [exact Hne | reflexivity]]];
          reflexivity.
    - exists st. split; [|split; [|left]]; reflexivity. }
  destruct Hst0 as (st0 & Hi0 & Hb0 & [Hj | (e & He & Hj)]); rewrite Hj in Hcall.
  2:{ destruct (Z.eqb_spec e 0); [contradiction|]. cbn [negb] in Hcall.
      injection Hcall as Hz _. contradiction. }
  cbn [negb Z.eqb] in Hcall.
  set (s1 := store_slot (ind_bh w) (ind_p w) (ind_key w) st0) in *.
  set (s2 := if (num =? 0) && (1 <? blks)
             then store_run (Z.to_nat (blks - 1)) (ind_bh w) (ind_p w) 1 (ind_key w) s1
             else s1) in *.
  (* what the stores did *)
  assert (Hs2 : (forall j, read_slot (holder_data (m_inode s2) (m_bufs s2) (ind_bh w)) j
                           = if (ind_p w <=? j) && (j <? ind_p w + cnt)
                             then ind_key w + (j - ind_p w) else read_slot holder j)
                /\ i_block_alloc_info (m_inode s2) = i_block_alloc_info (m_inode st)
                /\ i_ino (m_inode s2) = i_ino (m_inode st)
                /\ (ind_bh w <> None -> m_inode s2 = m_inode st)
                /\ (forall b, ind_bh w <> Some b -> m_bufs s2 !! b = m_bufs st !! b)).
  { pose proof (store_slot_holder (ind_bh w) (ind_p w) (ind_key w) st0 Hp) as Hh1.
    fold s1 in Hh1. rewrite Hi0, Hb0 in Hh1. fold holder in Hh1.
    destruct (store_slot_other (ind_bh w) (ind_p w) (ind_key w) st0)
      as (_ & Ha1 & Hn1 & Hin1 & Hbf1).
    fold s1 in Ha1, Hn1, Hin1, Hbf1. rewrite Hi0 in Ha1, Hn1, Hin1. rewrite Hb0 in Hbf1.
    subst s2 cnt.
    destruct ((num =? 0) && (1 <? blks)) eqn:Hmulti.
    - destruct (store_run_holder (Z.to_nat (blks - 1)) (ind_bh w) (ind_p w) 1 (ind_key w) s1
                  ltac:(lia)) as (Hlen & Hread & _ & Ha2 & Hn2 & Hin2 & Hbf2).
      cbn zeta in Hlen, Hread, Ha2, Hn2, Hin2, Hbf2.
      rewrite Hh1 in Hlen, Hread. rewrite length_insert in Hlen, Hread.
      apply andb_prop in Hmulti as [_ Hgt]. apply Z.ltb_lt in Hgt.
      split.
      { intros j. rewrite Hread, read_slot_insert by lia. fold holder.
        destruct (Z.leb_spec (ind_p w + 1) j),
          (Z.ltb_spec j (ind_p w + 1 + Z.of_nat (Z.to_nat (blks - 1)))),
          (Z.ltb_spec j (Z.of_nat (length holder))), (Z.leb_spec (ind_p w) j),
          (Z.ltb_spec j (ind_p w + blks)), (Z.eqb_spec j (ind_p w)),
          (Z.ltb_spec (ind_p w) (Z.of_nat (length holder)));
          cbn [andb]; try reflexivity; lia. }
      split; [rewrite Ha2; exact Ha1|]. split; [rewrite Hn2; exact Hn1|].
      split; [intros Hne; rewrite (Hin2 Hne); apply Hin1; exact Hne|].
      intros b Hb. rewrite (Hbf2 b Hb). apply Hbf1. exact Hb.
    - split.
      { intros j. rewrite Hh1, read_slot_insert by lia. fold holder.
        destruct (Z.leb_spec (ind_p w) j), (Z.ltb_spec j (ind_p w + 1)),
          (Z.eqb_spec j (ind_p w)), (Z.ltb_spec (ind_p w) (Z.of_nat (length holder)));
          cbn [andb]; try reflexivity; lia. }
      auto. }
  destruct Hs2 as (Hread & Hai & Hino & Hinode & Hbufs).
  (* the record that is written, and the state [s3] that carries it *)
  set (block_i := if moving cfg cmd then None else i_block_alloc_info (m_inode st)) in *.
  set (s3 := match block_i with
             | Some _ =>
               set_alloc_info_st
                 (Some {| last_alloc_logical_block := block + blks - 1;
                          last_alloc_physical_block :=
                            ind_key (chain_at where_ num) + blks - 1 |}) s2
             | None => s2
             end) in *.
  assert (Hs3 : i_data (m_inode s3) = i_data (m_inode s2) /\ m_bufs s3 = m_bufs s2).
  { subst s3. destruct block_i; split; reflexivity. }
  destruct Hs3 as [Hd3 Hb3].
  assert (Hfinal : i_data (m_inode st') = i_data (m_inode s2)
                   /\ m_bufs st' = m_bufs s2
                   /\ i_block_alloc_info (m_inode st') = i_block_alloc_info (m_inode s3)).
  { destruct (ind_bh w) as [b|].
    - unfold journal_call in Hcall. cbn [fst snd] in Hcall.
      match type of Hcall with
      | context [negb (?c =? 0)] => destruct (Z.eqb_spec c 0) as [Hz | Hz]
      end; cbn [negb] in Hcall.
      + injection Hcall as <-. cbn [log_event m_inode m_bufs]. rewrite Hd3, Hb3. auto.
      + injection Hcall as Hc _. contradiction.
    - injection Hcall as <-. cbn [log_event m_inode m_bufs]. rewrite Hd3, Hb3. auto. }
  destruct Hfinal as (Hdf & Hbf & Haf).
  assert (Hholder' : holder' = holder_data (m_inode s2) (m_bufs s2) (ind_bh w)).
  { subst holder'. unfold holder_data. rewrite Hdf, Hbf. reflexivity. }
  split; [intros j; rewrite Hholder'; apply Hread|].
  split; [intros b Hb; rewrite Hbf; apply Hbufs; exact Hb|].
  split; [intros Hne; rewrite Hdf, (Hinode Hne); reflexivity|].
  split.
  - intros Hcase. rewrite Haf. subst s3 block_i.
    destruct Hcase as [Hmv | Hnone].
    + rewrite Hmv. exact Hai.
    + rewrite Hnone. destruct (moving cfg cmd); rewrite Hai; exact Hnone.
  - intros Hmv Hsome.
    assert (Hrec : i_block_alloc_info (m_inode st')
                   = Some {| last_alloc_logical_block := block + blks - 1;
                             last_alloc_physical_block := last_key + blks - 1 |}).
    { rewrite Haf. subst s3 block_i. rewrite Hmv.
      destruct (i_block_alloc_info (m_inode st)); [reflexivity | contradiction]. }
    split; [exact Hrec|].
    intros Hnz cfg' sb gfb pid bufs partial.
    unfold next3_find_goal. rewrite Hrec. cbn [last_alloc_logical_block last_alloc_physical_block].
    replace (block + blks =? block + blks - 1 + 1) with true by (symmetry; apply Z.eqb_eq; lia).
    destruct (Z.eqb_spec (last_key + blks - 1) 0); [contradiction|].
    cbn [andb negb]. lia.
Qed.

(** X7. A successful [next3_splice_branch_cow] sets the missing link and
    nothing else in the tree: the slot [where->p] of its holder now holds
    [where->key] (for a direct allocation of several blocks, the slots after
    it hold the following block numbers), every other slot of the holder and
    every other buffer is as before. Unless blocks are being moved, an
    allocation record the inode has is updated to the last block mapped, so
    that [next3_find_goal] sends the allocation of the next logical block
    to the next physical block. *)
Theorem splice_sets_the_link
    (cfg : config) (jbd : list event -> event -> Z)
    (block : Z) (where_ : list Indirect) (num blks cmd : Z) (st st' : mstate) :
  let w := chain_at where_ 0 in
  let holder := holder_data (m_inode st) (m_bufs st) (ind_bh w) in
  let cnt := if (num =? 0) && (1 <? blks) then blks else 1 in
  let last_key := ind_key (chain_at where_ num) in
  0 <= ind_p w -> ind_p w + cnt <= Z.of_nat (length holder) ->
  next3_splice_branch_cow cfg jbd block where_ num blks cmd st = (0, st') ->
  let holder' := holder_data (m_inode st') (m_bufs st') (ind_bh w) in
  (forall j, read_slot holder' j
             = if (ind_p w <=? j) && (j <? ind_p w + cnt)
               then ind_key w + (j - ind_p w) else read_slot holder j)
  /\ (forall b, ind_bh w <> Some b -> m_bufs st' !! b = m_bufs st !! b)
  /\ (ind_bh w <> None -> i_data (m_inode st') = i_data (m_inode st))
  /\ (moving cfg cmd = true \/ i_block_alloc_info (m_inode st) = None ->
      i_block_alloc_info (m_inode st') = i_block_alloc_info (m_inode st))
  /\ (moving cfg cmd = false -> i_block_alloc_info (m_inode st) <> None ->
      i_block_alloc_info (m_inode st')
      = Some {| last_alloc_logical_block := block + blks - 1;
                last_alloc_physical_block := last_key + blks - 1 |}
      /\ (last_key + blks - 1 <> 0 ->
          forall cfg' sb gfb pid bufs partial,
            next3_find_goal cfg' sb gfb pid (m_inode st') bufs (block + blks) partial
            = last_key + blks)).
Proof. exact (splice_success cfg jbd block where_ num blks cmd st st'). Qed.

Lemma splice_sets_the_link_witness :
  exists st',
    next3_splice_branch_cow cfg_all Sim.journal_ok 271 new_branch 1 1 SNAPMAP_WRITE
      parent_state = (0, st')
    /\ read_slot (holder_data (m_inode st') (m_bufs st') (Some 50)) 3 = 60
    /\ read_slot (holder_data (m_inode st') (m_bufs st') (Some 50)) 4 = 0
    /\ m_bufs st' !! 60 = m_bufs parent_state !! 60.
Proof.
  destruct (next3_splice_branch_cow cfg_all Sim.journal_ok 271 new_branch 1 1 SNAPMAP_WRITE
              parent_state) as [e st'] eqn:Hcall.
  assert (He : e = 0).
  { apply (f_equal fst) in Hcall. vm_compute in Hcall. congruence. }
  subst e.
  assert (Hp : 0 <= ind_p (chain_at new_branch 0)) by (vm_compute; discriminate).
  assert (Hfit : ind_p (chain_at new_branch 0) + (if (1 =? 0) && (1 <? 1) then 1 else 1)
                 <= Z.of_nat (length (holder_data (m_inode parent_state)
                                        (m_bufs parent_state)
                                        (ind_bh (chain_at new_branch 0)))))
    by (vm_compute; discriminate).
  destruct (splice_sets_the_link cfg_all Sim.journal_ok 271 new_branch 1 1 SNAPMAP_WRITE
              parent_state st' Hp Hfit Hcall) as (Hread & Hbufs & _).
  exists st'. split; [reflexivity|].
  split; [exact (Hread 3)|]. split; [exact (Hread 4)|].
  apply Hbufs. discriminate.
Defined.

(** ** From the splice back to the lookup *)

Lemma read_slot_nil (j : Z) : read_slot [] j = 0.
Proof. unfold read_slot. destruct (j <? 0); reflexivity. Qed.

Lemma chain_at_lookup (c : list Indirect) (i : Z) :
  0 <= i < Z.of_nat (length c) -> c !! Z.to_nat i = Some (chain_at c i).
Proof.
  intros Hi. unfold chain_at. destruct (Z.ltb_spec i 0); [lia|].
  destruct (c !! Z.to_nat i) as [x|] eqn:Hx; [reflexivity|].
  apply lookup_ge_None in Hx. lia.
Qed.

Lemma chain_at_take (c : list Indirect) (n : nat) (i : Z) :
  0 <= i < Z.of_nat n -> chain_at (take n c) i = chain_at c i.
Proof.
  intros Hi. unfold chain_at. destruct (Z.ltb_spec i 0); [lia|].
  rewrite lookup_take_lt by lia. reflexivity.
Qed.

Lemma chain_at_app_r (c c' : list Indirect) (i : Z) :
  Z.of_nat (length c) <= i -> chain_at (c ++ c') i = chain_at c' (i - Z.of_nat (length c)).
Proof.
  intros Hi. unfold chain_at.
  destruct (Z.ltb_spec i 0); [lia|].
  destruct (Z.ltb_spec (i - Z.of_nat (length c)) 0); [lia|].
  rewrite lookup_app_r by lia. do 2 f_equal. lia.
Qed.

Lemma entry_drop (l : list Z) (k : nat) (n : Z) :
  0 <= n -> entry (drop k l) n = entry l (Z.of_nat k + n).
Proof.
  intros Hn. unfold entry, read_slot.
  destruct (Z.ltb_spec n 0); [lia|]. destruct (Z.ltb_spec (Z.of_nat k + n) 0); [lia|].
  rewrite lookup_drop. do 2 f_equal. lia.
Qed.

(** A full linked chain without a zero key is what [next3_get_branch]
    finds. *)
Lemma get_branch_loop_of_linked (ino : inode) (bufs : gmap Z (list Z)) (offs : list Z)
    (c : list Indirect) (steps : nat) :
  forall k,
    linked ino bufs offs c ->
    1 <= k -> Z.of_nat (length c) = k + Z.of_nat steps ->
    (forall i, 0 <= i < Z.of_nat (length c) -> ind_key (chain_at c i) <> 0) ->
    get_branch_loop steps bufs offs k (take (Z.to_nat k) c) (ind_key (chain_at c (k - 1)))
    = (c, None, 0).
Proof.
  induction steps as [|steps IH]; intros k Hl Hk Hlen Hnz; cbn [get_branch_loop].
  - rewrite firstn_all2 by lia. reflexivity.
  - destruct (Hl k ltac:(lia)) as (Hp & Hkey & Hbh). cbn zeta in Hp, Hkey, Hbh.
    destruct (Z.eqb_spec k 0); [lia|].
    pose proof (Hnz k ltac:(lia)) as Hnzk.
    rewrite Hbh in Hkey. cbn [holder_data] in Hkey.
    destruct (bufs !! ind_key (chain_at c (k - 1))) as [data|] eqn:Hbuf.
    2:{ cbn in Hkey. rewrite read_slot_nil in Hkey. contradiction. }
    cbn [default] in Hkey. rewrite Hp in Hkey.
    assert (Ht : {| ind_p := entry offs k; ind_key := read_slot data (entry offs k);
                    ind_bh := Some (ind_key (chain_at c (k - 1))) |} = chain_at c k).
    { destruct (chain_at c k) as [pp kk bb]. cbn in Hp, Hkey, Hbh. subst. reflexivity. }
    rewrite Ht.
    destruct (Z.eqb_spec (ind_key (chain_at c k)) 0); [contradiction|].
    assert (Htake : take (Z.to_nat k) c ++ [chain_at c k] = take (Z.to_nat (k + 1)) c).
    { replace (Z.to_nat (k + 1)) with (S (Z.to_nat k)) by lia.
      symmetry. apply take_S_r. apply chain_at_lookup. lia. }
    rewrite Htake.
    specialize (IH (k + 1) Hl ltac:(lia) ltac:(lia) Hnz).
    replace (k + 1 - 1) with k in IH by lia. exact IH.
Qed.

Lemma get_branch_of_linked (ino : inode) (bufs : gmap Z (list Z)) (offs : list Z)
    (c : list Indirect) (depth : Z) :
  linked ino bufs offs c ->
  1 <= depth -> Z.of_nat (length c) = depth ->
  (forall i, 0 <= i < depth -> ind_key (chain_at c i) <> 0) ->
  next3_get_branch ino bufs depth offs = (c, None, 0).
Proof.
  intros Hl Hd Hlen Hnz. unfold next3_get_branch.
  destruct (Hl 0 ltac:(lia)) as (Hp & Hkey & Hbh). cbn zeta in Hp, Hkey, Hbh.
  cbn [Z.eqb] in Hbh. rewrite Hbh in Hkey. cbn [holder_data] in Hkey. rewrite Hp in Hkey.
  assert (Ht : {| ind_p := entry offs 0; ind_key := read_slot (i_data ino) (entry offs 0);
                  ind_bh := None |} = chain_at c 0).
  { destruct (chain_at c 0) as [pp kk bb]. cbn in Hp, Hkey, Hbh. subst. reflexivity. }
  rewrite Ht.
  destruct (Z.eqb_spec (ind_key (chain_at c 0)) 0) as [Hz | _].
  { exfalso. apply (Hnz 0); [lia | exact Hz]. }
  assert (Htake : [chain_at c 0] = take (Z.to_nat 1) c).
  { change (Z.to_nat 1) with 1%nat.
    destruct c as [|x c']; [cbn in Hlen; lia|]. reflexivity. }
  rewrite Htake.
  apply (get_branch_loop_of_linked ino bufs offs c (Z.to_nat (depth - 1)) 1 Hl);
    [lia | lia | intros i Hi; apply Hnz; lia].
Qed.

Lemma keys_distinct (c : list Indirect) (i j : Z) :
  NoDup (ind_key <$> c) ->
  0 <= i < Z.of_nat (length c) -> 0 <= j < Z.of_nat (length c) -> i <> j ->
  ind_key (chain_at c i) <> ind_key (chain_at c j).
Proof.
  intros Hnd Hi Hj Hij Heq.
  assert (Z.to_nat i = Z.to_nat j); [|lia].
  apply (NoDup_lookup _ _ _ (ind_key (chain_at c i)) Hnd).
  - rewrite list_lookup_fmap, (chain_at_lookup c i Hi). reflexivity.
  - rewrite list_lookup_fmap, (chain_at_lookup c j Hj), Heq. reflexivity.
Qed.

(** X8 (round trip of lookup, allocation and splice, as
    [next3_get_blocks_handle] chains them): when [next3_get_branch] stops
    at a hole at level [k], and [next3_alloc_branch_cow] for the missing
    [depth - k - 1] indirect blocks followed by [next3_splice_branch_cow]
    both succeed with non-zero block numbers that differ from each other
    and from the indirect blocks already on the path, then a second
    [next3_get_branch] on the resulting state walks the whole path: it
    returns the old triples up to the hole followed by the new branch, no
    partial pointer and no error; and the [blks'] slots from the last
    offset on hold consecutive block numbers starting at the new data
    block. *)
Theorem spliced_branch_is_found
    (cfg : config) (sb : super_block)
    (new_blocks_oracle : list event -> Z -> Z -> Z -> Z * Z * Z)
    (jbd : list event -> event -> Z)
    (iblock blks goal cmd depth : Z) (offs : list Z) (st st1 st2 : mstate)
    (chain : list Indirect) (k blks' : Z) (branch : list Indirect) :
  let p := NEXT3_ADDR_PER_BLOCK sb in
  let full := take (Z.to_nat k) chain ++ branch in
  1 <= depth -> 1 <= blks ->
  0 <= entry offs 0 ->
  entry offs 0 + (if depth =? 1 then blks else 1)
    <= Z.of_nat (length (i_data (m_inode st))) ->
  (forall i, 1 <= i < depth -> 0 <= entry offs i < p) ->
  (1 < depth -> entry offs (depth - 1) + blks <= p) ->
  next3_get_branch (m_inode st) (m_bufs st) depth offs = (chain, Some k, 0) ->
  (1 <= k ->
   length (holder_data (m_inode st) (m_bufs st) (ind_bh (chain_at chain k)))
   = Z.to_nat p) ->
  next3_alloc_branch_cow cfg sb new_blocks_oracle jbd iblock (depth - k - 1) blks goal
    (drop (Z.to_nat k) offs) (chain_at chain k) cmd st = (0, blks', branch, st1) ->
  next3_splice_branch_cow cfg jbd iblock branch (depth - k - 1) blks' cmd st1 = (0, st2) ->
  NoDup (ind_key <$> (take (Z.to_nat k) chain ++ take (Z.to_nat (depth - k - 1)) branch)) ->
  (forall i, 0 <= i <= depth - k - 1 -> ind_key (chain_at branch i) <> 0) ->
  next3_get_branch (m_inode st2) (m_bufs st2) depth offs = (full, None, 0)
  /\ forall c, 0 <= c < blks' ->
       let t := chain_at full (depth - 1) in
       read_slot (holder_data (m_inode st2) (m_bufs st2) (ind_bh t)) (ind_p t + c)
       = ind_key t + c.
Proof.
  intros p full Hd Hblks Hp0 Hfit0 Hoffs Hrun Hget Hwf Halloc Hsplice Hnd Hnz.
  pose proof (get_branch_spec (m_inode st) (m_bufs st) depth offs Hd) as Hspec.
  rewrite Hget in Hspec.
  destruct Hspec as (Hlinked & _ & Hlen & Hk & Hnzc & _).
  set (kn := Z.to_nat k) in *. set (ib := depth - k - 1) in *.
  assert (Hkn : Z.of_nat kn = k) by (subst kn; lia).
  assert (Hib : 0 <= ib) by (subst ib; lia).
  assert (Hdrop : forall n, 0 <= n -> entry (drop kn offs) n = entry offs (k + n)).
  { intros n Hn. rewrite entry_drop by exact Hn. rewrite Hkn. reflexivity. }
  assert (Hoffs' : forall i, 1 <= i <= ib -> 0 <= entry (drop kn offs) i < p).
  { intros i Hi. rewrite Hdrop by lia. apply Hoffs. subst ib. lia. }
  assert (Hrun' : 1 <= ib -> entry (drop kn offs) ib + blks <= p).
  { intros Hi. rewrite Hdrop by lia. replace (k + ib) with (depth - 1) by (subst ib; lia).
    apply Hrun. subst ib. lia. }
  destruct (alloc_branch_success cfg sb new_blocks_oracle jbd iblock ib blks goal
              (drop kn offs) (chain_at chain k) cmd st blks' branch st1
              Hib Hblks Hoffs' Hrun' Halloc)
    as (A1 & A2 & A3 & A4 & A5 & A6 & A7 & A8 & _).
  (* the block numbers along the path *)
  assert (Hlt : Z.of_nat (length (take kn chain)) = k).
  { rewrite length_take. lia. }
  assert (Hlb : Z.of_nat (length (take (Z.to_nat ib) branch)) = ib).
  { rewrite length_take. lia. }
  set (path := take kn chain ++ take (Z.to_nat ib) branch) in *.
  assert (Hpl : Z.of_nat (length path) = k + ib).
  { subst path. rewrite length_app. lia. }
  assert (Hpc : forall i, 0 <= i < k -> chain_at path i = chain_at chain i).
  { intros i Hi. subst path. rewrite chain_at_app_before by lia.
    apply chain_at_take. lia. }
  assert (Hpb : forall a, 0 <= a < ib -> chain_at path (k + a) = chain_at branch a).
  { intros a Ha. subst path. rewrite chain_at_app_r by lia. rewrite Hlt.
    replace (k + a - k) with a by lia. apply chain_at_take. lia. }
  assert (Dcc : forall i j, 0 <= i < k -> 0 <= j < k -> i <> j ->
                  ind_key (chain_at chain i) <> ind_key (chain_at chain j)).
  { intros i j Hi Hj Hij. rewrite <- (Hpc i Hi), <- (Hpc j Hj).
    apply keys_distinct; [exact Hnd | lia | lia | exact Hij]. }
  assert (Dcb : forall i a, 0 <= i < k -> 0 <= a < ib ->
                  ind_key (chain_at chain i) <> ind_key (chain_at branch a)).
  { intros i a Hi Ha. rewrite <- (Hpc i Hi), <- (Hpb a Ha).
    apply keys_distinct; [exact Hnd | lia | lia | lia]. }
  assert (Dbb : forall a b, 0 <= a < ib -> 0 <= b < ib -> a <> b ->
                  ind_key (chain_at branch a) <> ind_key (chain_at branch b)).
  { intros a b Ha Hb Hab. rewrite <- (Hpb a Ha), <- (Hpb b Hb).
    apply keys_distinct; [exact Hnd | lia | lia | lia]. }
  specialize (A6 ltac:(intros a b Hab; apply Dbb; lia)).
  (* the triple of the hole *)
  set (w := chain_at branch 0) in *.
  destruct (Hlinked k ltac:(lia)) as (Wp & _ & Wbh). cbn zeta in Wp, Wbh.
  assert (Wp' : ind_p w = entry offs k) by (rewrite A3; exact Wp).
  assert (Wbh' : ind_bh w = if k =? 0 then None
                            else Some (ind_key (chain_at chain (k - 1))))
    by (rewrite A4; exact Wbh).
  set (cnt := if (ib =? 0) && (1 <? blks') then blks' else 1).
  assert (Hcnt : 1 <= cnt <= blks).
  { subst cnt. destruct (ib =? 0), (Z.ltb_spec 1 blks'); cbn [andb]; lia. }
  assert (Hcnt1 : ib <> 0 -> cnt = 1).
  { intros Hne. subst cnt. destruct (Z.eqb_spec ib 0); [contradiction | reflexivity]. }
  assert (Hcnt0 : ib = 0 -> forall c, 0 <= c < blks' -> c < cnt).
  { intros He c Hc. subst cnt. rewrite He. cbn [Z.eqb andb].
    destruct (Z.ltb_spec 1 blks'); lia. }
  assert (Hholder1 : holder_data (m_inode st1) (m_bufs st1) (ind_bh w)
                     = holder_data (m_inode st) (m_bufs st) (ind_bh w)).
  { rewrite Wbh'. destruct (Z.eqb_spec k 0) as [Hk0 | Hk0]; cbn [holder_data].
    - rewrite A7. reflexivity.
    - rewrite A8; [reflexivity|]. intros a Ha. apply Dcb; lia. }
  assert (Hp : 0 <= ind_p w).
  { rewrite Wp'. destruct (Z.eq_dec k 0) as [Hk0 | Hk0]; [rewrite Hk0; exact Hp0|].
    apply Hoffs. lia. }
  assert (Hfit : ind_p w + cnt
                 <= Z.of_nat (length (holder_data (m_inode st1) (m_bufs st1) (ind_bh w)))).
  { rewrite Hholder1, Wp'. destruct (Z.eq_dec k 0) as [Hk0 | Hk0].
    - rewrite Wbh'. destruct (Z.eqb_spec k 0); [|lia]. cbn [holder_data]. rewrite Hk0.
      revert Hfit0. destruct (Z.eqb_spec depth 1) as [Hd1 | Hd1]; intros Hfit0; [lia|].
      rewrite Hcnt1 by (subst ib; lia). exact Hfit0.
    - rewrite <- A4 in Hwf. rewrite (Hwf ltac:(lia)).
      destruct (Z.eq_dec ib 0) as [Hi0 | Hi0].
      + assert (k = depth - 1) as Hkd by (subst ib; lia).
        rewrite Hkd. specialize (Hrun ltac:(lia)). subst p. lia.
      + rewrite (Hcnt1 Hi0). pose proof (Hoffs k ltac:(lia)). subst p. lia. }
  destruct (splice_success cfg jbd iblock branch ib blks' cmd st1 st2 Hp Hfit Hsplice)
    as (S1 & S2 & S3 & _).
  fold w in S1, S2, S3. fold cnt in S1.
  (* buffers of the path after the splice *)
  assert (Hbuf_old : forall i, 0 <= i < k - 1 ->
            m_bufs st2 !! ind_key (chain_at chain i)
            = m_bufs st !! ind_key (chain_at chain i)).
  { intros i Hi. rewrite S2.
    - apply A8. intros a Ha. apply Dcb; lia.
    - rewrite Wbh'. destruct (Z.eqb_spec k 0); [discriminate|].
      intros Heq. injection Heq as Heq. revert Heq. apply Dcc; lia. }
  assert (Hbuf_new : forall a, 0 <= a < ib ->
            m_bufs st2 !! ind_key (chain_at branch a)
            = m_bufs st1 !! ind_key (chain_at branch a)).
  { intros a Ha. apply S2. rewrite Wbh'.
    destruct (Z.eqb_spec k 0); [discriminate|].
    intros Heq. injection Heq as Heq. revert Heq. apply Dcb; lia. }
  assert (Hfl : Z.of_nat (length full) = depth).
  { subst full. rewrite length_app. subst ib. lia. }
  assert (Hfc : forall i, 0 <= i < k -> chain_at full i = chain_at chain i).
  { intros i Hi. subst full. rewrite chain_at_app_before by lia.
    apply chain_at_take. lia. }
  assert (Hfb : forall n, 0 <= n <= ib -> chain_at full (k + n) = chain_at branch n).
  { intros n Hn. subst full. rewrite chain_at_app_r by lia. rewrite Hlt.
    f_equal. lia. }
  assert (Hnew : forall n, 1 <= n <= ib ->
            forall c, 0 <= c < (if n =? ib then blks' else 1) ->
              read_slot (holder_data (m_inode st2) (m_bufs st2)
                           (Some (ind_key (chain_at branch (n - 1)))))
                (entry offs (k + n) + c)
              = ind_key (chain_at branch n) + c).
  { intros n Hn c Hc. cbn [holder_data]. rewrite Hbuf_new by lia.
    destruct (A6 n Hn) as (data & Hdata & _ & Hslots). rewrite Hdata. cbn [default].
    rewrite Hslots. rewrite Hdrop by lia.
    destruct (Z.leb_spec (entry offs (k + n)) (entry offs (k + n) + c)); [|lia].
    destruct (Z.ltb_spec (entry offs (k + n) + c)
                (entry offs (k + n) + (if n =? ib then blks' else 1))); [|lia].
    cbn [andb]. lia. }
  assert (Hhole : forall c, 0 <= c < cnt ->
            read_slot (holder_data (m_inode st2) (m_bufs st2) (ind_bh w)) (ind_p w + c)
            = ind_key w + c).
  { intros c Hc. rewrite S1.
    destruct (Z.leb_spec (ind_p w) (ind_p w + c)); [|lia].
    destruct (Z.ltb_spec (ind_p w + c) (ind_p w + cnt)); [|lia].
    cbn [andb]. lia. }
  split.
  - apply get_branch_of_linked; [|exact Hd | exact Hfl|].
    + intros i Hi. rewrite Hfl in Hi. cbn zeta.
      destruct (Z.lt_ge_cases i k) as [Hik | Hik].
      * (* an old triple *)
        rewrite (Hfc i ltac:(lia)).
        destruct (Hlinked i ltac:(lia)) as (Op & Okey & Obh). cbn zeta in Op, Okey, Obh.
        split; [exact Op|]. split.
        -- rewrite Okey at 1. rewrite Obh.
           destruct (Z.eqb_spec i 0) as [Hi0 | Hi0]; cbn [holder_data].
           ++ rewrite S3, A7; [reflexivity|].
              rewrite Wbh'. destruct (Z.eqb_spec k 0); [lia | discriminate].
           ++ rewrite Hbuf_old by lia. reflexivity.
        -- rewrite Obh. destruct (Z.eqb_spec i 0); [reflexivity|].
           rewrite (Hfc (i - 1) ltac:(lia)). reflexivity.
      * replace i with (k + (i - k)) by lia.
        rewrite (Hfb (i - k)) by (subst ib; lia).
        destruct (Z.eq_dec i k) as [Hik' | Hik'].
        -- (* the triple of the hole *)
           replace (i - k) with 0 by lia. fold w. rewrite Z.add_0_r.
           split; [exact Wp'|]. split.
           ++ pose proof (Hhole 0 ltac:(lia)) as Hh.
              rewrite !Z.add_0_r in Hh. symmetry. exact Hh.
           ++ rewrite Wbh'. destruct (Z.eqb_spec k 0); [reflexivity|].
              rewrite (Hfc (k - 1) ltac:(lia)). reflexivity.
        -- (* a new triple *)
           assert (Hn : 1 <= i - k <= ib) by (subst ib; lia).
           destruct (A5 (i - k) Hn) as (Np & Nbh).
           split; [rewrite Np; apply Hdrop; lia|]. split.
           ++ rewrite Nbh, Np, Hdrop by lia.
              pose proof (Hnew (i - k) Hn 0) as Hh.
              rewrite !Z.add_0_r in Hh. symmetry. apply Hh.
              destruct (i - k =? ib); lia.
           ++ rewrite Nbh. destruct (Z.eqb_spec (k + (i - k)) 0); [lia|].
              replace (k + (i - k) - 1) with (k + (i - k - 1)) by lia.
              rewrite (Hfb (i - k - 1)) by lia. reflexivity.
    + intros i Hi. destruct (Z.lt_ge_cases i k) as [Hik | Hik].
      * rewrite (Hfc i ltac:(lia)). apply Hnzc. lia.
      * replace i with (k + (i - k)) by lia.
        rewrite (Hfb (i - k)) by (subst ib; lia). apply Hnz. lia.
  - intros c Hc. cbn zeta.
    replace (depth - 1) with (k + ib) by (subst ib; lia).
    rewrite (Hfb ib) by lia.
    destruct (Z.eq_dec ib 0) as [Hi0 | Hi0].
    + rewrite Hi0. fold w. apply Hhole. pose proof (Hcnt0 Hi0 c Hc). lia.
    + destruct (A5 ib ltac:(lia)) as (Np & Nbh). rewrite Nbh, Np, Hdrop by lia.
      apply (Hnew ib ltac:(lia)). rewrite Z.eqb_refl. exact Hc.
Qed.

Lemma spliced_branch_is_found_witness :
  exists chain branch st1 st2,
    next3_get_branch (m_inode fresh_state) (m_bufs fresh_state) 3 [13; 2; 7]
    = (chain, Some 0, 0)
    /\ next3_alloc_branch_cow cfg_all sb1k grant_from_2000 Sim.journal_ok 787 (3 - 0 - 1) 2 0
         (drop (Z.to_nat 0) [13; 2; 7]) (chain_at chain 0) SNAPMAP_WRITE fresh_state
       = (0, 2, branch, st1)
    /\ next3_splice_branch_cow cfg_all Sim.journal_ok 787 branch (3 - 0 - 1) 2
         SNAPMAP_WRITE st1 = (0, st2)
    /\ next3_get_branch (m_inode st2) (m_bufs st2) 3 [13; 2; 7]
       = (take (Z.to_nat 0) chain ++ branch, None, 0)
    /\ forall c, 0 <= c < 2 ->
         let t := chain_at (take (Z.to_nat 0) chain ++ branch) (3 - 1) in
         read_slot (holder_data (m_inode st2) (m_bufs st2) (ind_bh t)) (ind_p t + c)
         = ind_key t + c.
Proof.
  set (chain := [{| ind_p := 13; ind_key := 0; ind_bh := None |}]).
  set (A := next3_alloc_branch_cow cfg_all sb1k grant_from_2000 Sim.journal_ok 787
              (3 - 0 - 1) 2 0 (drop (Z.to_nat 0) [13; 2; 7]) (chain_at chain 0)
              SNAPMAP_WRITE fresh_state).
  set (branch := snd (fst A)). set (st1 := snd A).
  set (S := next3_splice_branch_cow cfg_all Sim.journal_ok 787 branch (3 - 0 - 1) 2
              SNAPMAP_WRITE st1).
  set (st2 := snd S).
  assert (Hget : next3_get_branch (m_inode fresh_state) (m_bufs fresh_state) 3 [13; 2; 7]
                 = (chain, Some 0, 0)) by (vm_compute; reflexivity).
  assert (Halloc : A = (0, 2, branch, st1)) by (vm_compute; reflexivity).
  assert (Hsplice : S = (0, st2)) by (vm_compute; reflexivity).
  assert (Hoffs : forall i, 1 <= i < 3 -> 0 <= entry [13; 2; 7] i < NEXT3_ADDR_PER_BLOCK sb1k).
  { intros i Hi. assert (i = 1 \/ i = 2) as [-> | ->] by lia;
      vm_compute; split; first [discriminate | reflexivity]. }
  assert (Hnd : NoDup (ind_key <$> (take (Z.to_nat 0) chain
                                      ++ take (Z.to_nat (3 - 0 - 1)) branch))).
  { assert (Hkeys : ind_key <$> (take (Z.to_nat 0) chain
                                   ++ take (Z.to_nat (3 - 0 - 1)) branch)
                    = [2000; 2001]) by (vm_compute; reflexivity).
    rewrite Hkeys. apply NoDup_cons. split; [|apply NoDup_singleton].
    intros Hin. apply list_elem_of_singleton in Hin. discriminate. }
  assert (Hnz : forall i, 0 <= i <= 3 - 0 - 1 -> ind_key (chain_at branch i) <> 0).
  { intros i Hi. assert (i = 0 \/ i = 1 \/ i = 2) as [-> | [-> | ->]] by lia;
      vm_compute; discriminate. }
  exists chain, branch, st1, st2.
  split; [exact Hget|]. split; [exact Halloc|]. split; [exact Hsplice|].
  apply (spliced_branch_is_found cfg_all sb1k grant_from_2000 Sim.journal_ok 787 2 0
           SNAPMAP_WRITE 3 [13; 2; 7] fresh_state st1 st2 chain 0 2 branch);
    [lia | lia | vm_compute; discriminate | vm_compute; discriminate | exact Hoffs
     | intros _; vm_compute; discriminate | exact Hget | intros H; lia
     | exact Halloc | exact Hsplice | exact Hnd | exact Hnz].
Defined.

(** ** The COW engine *)

Section EngineTests.
Variable ccfg : cow_config.
Variable W : Type.
Variable B : Type.
Variable svc : services W B.
Variable ext4_get_group_desc_ok : Z -> bool.
Variable ext4_block_bitmap : Z -> Z.
Variable sb_bread_ok : Z -> W -> bool.
Variable ext4_bread : handle -> inode -> Z -> Z -> W -> option Z * Z * W.
Variable ext4_read_block_bitmap : Z -> W -> option Z.
Variable memcpy_bitmap : Z -> Z -> W -> W.
Variable cow_bitmap_data : Z -> W -> B.

Local Abbreviation over s :=
  (with_cow_bitmap W B s ext4_get_group_desc_ok ext4_block_bitmap sb_bread_ok
     ext4_bread ext4_read_block_bitmap memcpy_bitmap cow_bitmap_data).

(** A cached COW bitmap is read without any of the collaborators of the
    engine, and the cache stays as it is. *)
Lemma bitmap_testing_only h a block maxblocks (cache : gmap Z Z) (w : W) :
  bg_cow_bitmap cache (SNAPSHOT_BLOCK_GROUP ccfg block) <> 0 ->
  ext4_snapshot_test_cow_bitmap ccfg (over (testing_only svc)) h a block maxblocks
    (cache, w)
  = ext4_snapshot_test_cow_bitmap ccfg (over svc) h a block maxblocks (cache, w)
  /\ fst (snd (ext4_snapshot_test_cow_bitmap ccfg (over svc) h a block maxblocks
                 (cache, w))) = cache.
Proof.
  intros Hcached. unfold ext4_snapshot_test_cow_bitmap.
  destruct (SNAPSHOT_BLOCKS ccfg a <=? block); [split; reflexivity|].
  cbn [with_cow_bitmap svc_read_cow_bitmap svc_test_bit_range fst snd].
  unfold ext4_snapshot_read_cow_bitmap.
  destruct (negb (ext4_get_group_desc_ok (SNAPSHOT_BLOCK_GROUP ccfg block)));
    [split; reflexivity|].
  cbv zeta.
  destruct (Z.eqb_spec (bg_cow_bitmap cache (SNAPSHOT_BLOCK_GROUP ccfg block)) 0)
    as [Hz | _]; [contradiction|].
  cbn [negb].
  destruct (sb_bread_ok (bg_cow_bitmap cache (SNAPSHOT_BLOCK_GROUP ccfg block)) w);
    [|split; reflexivity].
  cbn [testing_only svc_test_bit_range].
  destruct (svc_test_bit_range svc (SNAPSHOT_BLOCK_GROUP_OFFSET ccfg block) _ maxblocks).
  split; reflexivity.
Qed.

Lemma map_read_testing_only h a block maxblocks mapped (cw : gmap Z Z * W) :
  ext4_snapshot_map_blocks (over (testing_only svc)) h a block maxblocks mapped
    SNAPMAP_READ cw
  = ext4_snapshot_map_blocks (over svc) h a block maxblocks mapped SNAPMAP_READ cw.
Proof. reflexivity. Qed.

Lemma excluded_file (ino : option inode) :
  ext4_snapshot_excluded ino <> 0 ->
  ext4_snapshot_excluded ino < 0 /\ exists i, ino = Some i.
Proof.
  destruct ino as [i|]; cbn; [|lia].
  destruct (negb (S_ISREG (i_mode i))); [lia|].
  destruct (ext4_snapshot_file i); [|lia].
  intros _. split; [lia | eexists; reflexivity].
Qed.

Lemma cow_testing_only (st : cstate W) (cache : gmap Z Z) h ino block bh cow :
  bg_cow_bitmap cache (SNAPSHOT_BLOCK_GROUP ccfg block) <> 0 ->
  cow = false \/ ext4_snapshot_excluded ino <> 0 ->
  ext4_snapshot_test_and_cow ccfg (over (testing_only svc)) (with_cache st cache) h ino
    block bh cow
  = ext4_snapshot_test_and_cow ccfg (over svc) (with_cache st cache) h ino block bh cow.
Proof.
  intros Hcached Htest. unfold ext4_snapshot_test_and_cow.
  destruct (ext4_snapshot_has_active (with_cache st cache)) as [a|]; [|reflexivity].
  destruct (IS_COWING h); [reflexivity|].
  destruct (same_inode ino a); [reflexivity|].
  destruct (ext4_snapshot_test_cowed ccfg (with_cache st cache) h bh); [reflexivity|].
  change (c_world (with_cache st cache)) with (cache, c_world st).
  destruct (bitmap_testing_only (ext4_snapshot_cow_begin h) a block 1 cache (c_world st)
              Hcached) as [Heq _].
  rewrite Heq.
  destruct (ext4_snapshot_test_cow_bitmap ccfg (over svc) (ext4_snapshot_cow_begin h) a
              block 1 (cache, c_world st)) as [[e c] w].
  destruct (e <? 0); [reflexivity|]. destruct (e =? 0); [reflexivity|].
  cbv zeta. rewrite map_read_testing_only.
  match goal with
  | |- context [ext4_snapshot_map_blocks (over svc) ?a1 ?a2 ?a3 ?a4 ?a5 ?a6 ?a7] =>
    destruct (ext4_snapshot_map_blocks (over svc) a1 a2 a3 a4 a5 a6 a7) as [[e2 blk] w2]
  end.
  destruct (e2 <? 0); [reflexivity|]. destruct (0 <? e2); [reflexivity|].
  assert (Hcow : (if match ino with
                     | Some _ => ext4_snapshot_excluded ino
                     | None => 0
                     end <? 0 then false else cow) = false).
  { destruct Htest as [-> | Hex]; [destruct (_ <? 0); reflexivity|].
    destruct (excluded_file ino Hex) as (Hneg & i & ->).
    destruct (Z.ltb_spec (ext4_snapshot_excluded (Some i)) 0); [reflexivity | lia]. }
  rewrite Hcow. reflexivity.
Qed.

Lemma move_testing_only (st : cstate W) (cache : gmap Z Z) h ino block maxblocks move :
  bg_cow_bitmap cache (SNAPSHOT_BLOCK_GROUP ccfg block) <> 0 ->
  move = false \/ ext4_snapshot_excluded ino <> 0 ->
  ext4_snapshot_test_and_move ccfg (over (testing_only svc)) (with_cache st cache) h ino
    block maxblocks move
  = ext4_snapshot_test_and_move ccfg (over svc) (with_cache st cache) h ino block
      maxblocks move.
Proof.
  intros Hcached Htest. unfold ext4_snapshot_test_and_move.
  destruct (ext4_snapshot_has_active (with_cache st cache)) as [a|]; [|reflexivity].
  destruct (IS_COWING h || same_inode ino a); [reflexivity|].
  change (c_world (with_cache st cache)) with (cache, c_world st).
  destruct (bitmap_testing_only (ext4_snapshot_cow_begin h) a block maxblocks cache
              (c_world st) Hcached) as [Heq _].
  rewrite Heq.
  destruct (ext4_snapshot_test_cow_bitmap ccfg (over svc) (ext4_snapshot_cow_begin h) a
              block maxblocks (cache, c_world st)) as [[e c] w].
  destruct (e <? 0); [reflexivity|]. destruct (e =? 0); [reflexivity|].
  match goal with |- context [if ?c then move_out 0 _ _ _ else _] => destruct c end;
    [reflexivity|].
  cbv zeta. rewrite map_read_testing_only.
  match goal with
  | |- context [ext4_snapshot_map_blocks (over svc) ?a1 ?a2 ?a3 ?a4 ?a5 ?a6 ?a7] =>
    destruct (ext4_snapshot_map_blocks (over svc) a1 a2 a3 a4 a5 a6 a7) as [[e2 blk] w2]
  end.
  destruct (e2 <? 0); [reflexivity|]. destruct (0 <? e2); [reflexivity|].
  assert (Hmove : (if negb (match ino with
                            | Some _ => ext4_snapshot_excluded ino
                            | None => 0
                            end =? 0) then false else move) = false).
  { destruct Htest as [-> | Hex]; [destruct (negb _); reflexivity|].
    destruct (excluded_file ino Hex) as (Hneg & i & ->).
    destruct (Z.eqb_spec (ext4_snapshot_excluded (Some i)) 0); [lia | reflexivity]. }
  rewrite Hmove. reflexivity.
Qed.

End EngineTests.

(** X9 (a test is a lookup, once the COW bitmap is there). The engine is
    run over the code of [ext4_snapshot_read_cow_bitmap], and the COW bitmap
    of the group of the block is in the cache. Then a call of
    [ext4_snapshot_test_and_cow] with [cow = 0], or for a file ignored by
    snapshots, and a call of [ext4_snapshot_test_and_move] with [move = 0],
    or for such a file, only read: with [ext4_getblk], mapping with another
    command than [SNAPMAP_READ], reading and copying buffers, filing the
    inode, dirtying and syncing buffers and [dquot_free_block] replaced by
    collaborators that fail or do nothing, the calls give the same result,
    handle and state. So does [ext4_snapshot_get_create_access]. (Without
    the bitmap in the cache the first test of a group creates it.) *)
Theorem test_only_calls_are_lookups
    (ccfg : cow_config) (W B : Type) (svc : services W B)
    (ext4_get_group_desc_ok : Z -> bool) (ext4_block_bitmap : Z -> Z)
    (sb_bread_ok : Z -> W -> bool)
    (ext4_bread : handle -> inode -> Z -> Z -> W -> option Z * Z * W)
    (ext4_read_block_bitmap : Z -> W -> option Z)
    (memcpy_bitmap : Z -> Z -> W -> W) (cow_bitmap_data : Z -> W -> B)
    (st : cstate W) (cache : gmap Z Z) (h : handle) (ino : option inode) (block : Z) :
  bg_cow_bitmap cache (SNAPSHOT_BLOCK_GROUP ccfg block) <> 0 ->
  let over s :=
    with_cow_bitmap W B s ext4_get_group_desc_ok ext4_block_bitmap sb_bread_ok
      ext4_bread ext4_read_block_bitmap memcpy_bitmap cow_bitmap_data in
  (forall bh cow,
      cow = false \/ ext4_snapshot_excluded ino <> 0 ->
      ext4_snapshot_test_and_cow ccfg (over (testing_only svc)) (with_cache st cache) h
        ino block bh cow
      = ext4_snapshot_test_and_cow ccfg (over svc) (with_cache st cache) h ino block
          bh cow)
  /\ (forall maxblocks move,
         move = false \/ ext4_snapshot_excluded ino <> 0 ->
         ext4_snapshot_test_and_move ccfg (over (testing_only svc)) (with_cache st cache)
           h ino block maxblocks move
         = ext4_snapshot_test_and_move ccfg (over svc) (with_cache st cache) h ino block
             maxblocks move)
  /\ (forall bh,
         b_blocknr (get_bh st bh) = block ->
         ext4_snapshot_get_create_access ccfg (over (testing_only svc))
           (with_cache st cache) h bh
         = ext4_snapshot_get_create_access ccfg (over svc) (with_cache st cache) h bh).
Proof.
  intros Hcached over.
  split; [intros bh cow; apply cow_testing_only; exact Hcached|].
  split; [intros maxblocks move; apply move_testing_only; exact Hcached|].
  intros bh Hblock. unfold ext4_snapshot_get_create_access, ext4_snapshot_cow.
  destruct (negb (EXT4_SNAPSHOTS (with_cache st cache))); [reflexivity|].
  change (get_bh (with_cache st cache) bh) with (get_bh st bh). rewrite Hblock.
  subst over. cbv beta.
  rewrite cow_testing_only by (first [exact Hcached | left; reflexivity]). reflexivity.
Qed.

Lemma test_only_calls_are_lookups_witness :
  let over s :=
    with_cow_bitmap Sim.world (list Z) s (fun _ => true) (fun g => 300 + g)
      (fun _ _ => true) (fun _ _ _ _ w => (None, 0, w)) (fun _ _ => Some 5)
      (fun _ _ w => w) (fun _ w => Sim.sw_cow_bits w) in
  let st := with_cache (Sim.state0 [523; 524] 1 ∅) {[ 0 := 2000 ]} in
  ext4_snapshot_excluded (Some Sim.old_snapshot) <> 0
  /\ ext4_snapshot_test_and_move Sim.ccfg (over (testing_only Sim.svc)) st
       (Sim.handle0 5) (Some Sim.old_snapshot) 523 2 true
     = ext4_snapshot_test_and_move Sim.ccfg (over Sim.svc) st
         (Sim.handle0 5) (Some Sim.old_snapshot) 523 2 true
  /\ exists h' st',
       ext4_snapshot_test_and_move Sim.ccfg (over Sim.svc) st
         (Sim.handle0 5) (Some Sim.old_snapshot) 523 2 true = Some (2, 2, h', st').
Proof.
  intros over st.
  assert (Hex : ext4_snapshot_excluded (Some Sim.old_snapshot) <> 0)
    by (vm_compute; discriminate).
  split; [exact Hex|].
  split.
  - assert (Hcached : bg_cow_bitmap {[ 0 := 2000 ]} (SNAPSHOT_BLOCK_GROUP Sim.ccfg 523)
                      <> 0) by (vm_compute; discriminate).
    destruct (test_only_calls_are_lookups Sim.ccfg Sim.world (list Z) Sim.svc
                (fun _ => true) (fun g => 300 + g)
                (fun _ _ => true) (fun _ _ _ _ w => (None, 0, w)) (fun _ _ => Some 5)
                (fun _ _ w => w) (fun _ w => Sim.sw_cow_bits w)
                (Sim.state0 [523; 524] 1 ∅) {[ 0 := 2000 ]} (Sim.handle0 5)
                (Some Sim.old_snapshot) 523 Hcached)
      as (_ & Hmove & _).
    apply Hmove. right. exact Hex.
  - destruct (ext4_snapshot_test_and_move Sim.ccfg (over Sim.svc) st
                (Sim.handle0 5) (Some Sim.old_snapshot) 523 2 true)
      as [[[[e c] h'] st']|] eqn:Hrun; vm_compute in Hrun; [|discriminate Hrun].
    injection Hrun as <- <- <- <-. eexists _, _. reflexivity.
Defined.

Section EngineMoves.
Variable ccfg : cow_config.
Variable W : Type.
Variable B : Type.
Variable svc : services W B.

(** The loop of [ext4_snapshot_test_and_move] keeps the sum of the blocks
    moved and the blocks left; it leaves through [goto out] only with a
    value that is not positive. *)
Lemma move_loop_result (fuel : nat) :
  forall h snapshot blk count moved w completed e m w',
    move_loop svc fuel h snapshot blk count moved w = Some (completed, e, m, w') ->
    if completed then e = moved + count /\ m = moved + count else e <= 0.
Proof.
  induction fuel as [|fuel IH]; intros h snapshot blk count moved w completed e m w' Hrun;
    [discriminate Hrun|].
  cbn [move_loop] in Hrun.
  destruct (Z.eqb_spec count 0) as [Hz | Hz].
  - injection Hrun as <- <- <- <-. lia.
  - destruct (ext4_snapshot_map_blocks svc h snapshot blk count 0 SNAPMAP_MOVE w)
      as [[err p] w1].
    destruct (Z.leb_spec err 0) as [Hle | Hgt].
    + injection Hrun as <- <- <- <-. exact Hle.
    + apply IH in Hrun. destruct completed; lia.
Qed.

End EngineMoves.

(** X10 (a move is never reported half done): whenever
    [ext4_snapshot_test_and_move] returns a positive value, that value is
    also what it leaves in [*maxblocks], and it is the number of blocks the
    COW bitmap reported in use from [block] on: the loop that maps the
    blocks into the snapshot file has moved all of them, or, for a test,
    none was moved and all of them need to be. A move that stops half way
    returns the error of [ext4_map_blocks], never a count. *)
Theorem positive_move_is_complete
    (ccfg : cow_config) (W B : Type) (svc : services W B)
    (st : cstate W) (h : handle) (ino : option inode) (block maxblocks : Z)
    (move : bool) (a : inode) (e c : Z) (h1 : handle) (st1 : cstate W) :
  c_active_snapshot st = Some a ->
  ext4_snapshot_test_and_move ccfg svc st h ino block maxblocks move
  = Some (e, c, h1, st1) ->
  0 < e ->
  e = c
  /\ 0 < fst (fst (ext4_snapshot_test_cow_bitmap ccfg svc (ext4_snapshot_cow_begin h) a
                     block maxblocks (c_world st)))
  /\ c = snd (fst (ext4_snapshot_test_cow_bitmap ccfg svc (ext4_snapshot_cow_begin h) a
                     block maxblocks (c_world st))).
Proof.
  intros Ha Hcall Hpos.
  unfold ext4_snapshot_test_and_move, ext4_snapshot_has_active, move_out in Hcall.
  rewrite Ha in Hcall.
  destruct (IS_COWING h || same_inode ino a); [discriminate Hcall|].
  destruct (ext4_snapshot_test_cow_bitmap ccfg svc (ext4_snapshot_cow_begin h) a block
              maxblocks (c_world st)) as [[r count] w].
  cbn [fst snd].
  destruct (Z.ltb_spec r 0) as [Hneg | Hnn]; [injection Hcall as <- _ _ _; lia|].
  destruct (Z.eqb_spec r 0) as [Hz | Hnz]; [injection Hcall as <- _ _ _; lia|].
  match type of Hcall with
  | context [if ?c then Some (0, _, _, _) else _] => destruct c
  end; [injection Hcall as <- _ _ _; lia|].
  cbv zeta in Hcall.
  match type of Hcall with
  | context [ext4_snapshot_map_blocks svc ?a1 ?a2 ?a3 ?a4 ?a5 ?a6 ?a7] =>
    destruct (ext4_snapshot_map_blocks svc a1 a2 a3 a4 a5 a6 a7) as [[e2 blk] w2]
  end.
  destruct (Z.ltb_spec e2 0); [injection Hcall as <- _ _ _; lia|].
  destruct (Z.ltb_spec 0 e2); [injection Hcall as <- _ _ _; lia|].
  match type of Hcall with
  | context [if negb ?c then _ else _] => destruct c
  end; cbn [negb] in Hcall.
  - cbn [c_world with_world] in Hcall.
    destruct (move_loop svc (S (Z.to_nat count)) (ext4_snapshot_cow_begin h) a block count
                0 w2) as [[[[completed e3] m] w3]|] eqn:Hloop; [|discriminate Hcall].
    apply move_loop_result in Hloop.
    destruct completed; cbn [negb] in Hcall.
    + injection Hcall as <- <- _ _. lia.
    + injection Hcall as <- _ _ _. lia.
  - injection Hcall as <- <- _ _. lia.
Qed.

Lemma positive_move_is_complete_witness :
  exists h1 st1,
    ext4_snapshot_test_and_move Sim.ccfg Sim.svc (Sim.state0 [523; 524] 1 ∅)
      (Sim.handle0 5) (Some plain_file) 523 2 true = Some (2, 2, h1, st1)
    /\ snd (fst (ext4_snapshot_test_cow_bitmap Sim.ccfg Sim.svc
                   (ext4_snapshot_cow_begin (Sim.handle0 5)) Sim.snapshot_inode 523 2
                   (c_world (Sim.state0 [523; 524] 1 ∅)))) = 2.
Proof.
  destruct (ext4_snapshot_test_and_move Sim.ccfg Sim.svc (Sim.state0 [523; 524] 1 ∅)
              (Sim.handle0 5) (Some plain_file) 523 2 true)
    as [[[[e c] h1] st1]|] eqn:Hrun.
  2:{ vm_compute in Hrun. discriminate Hrun. }
  assert (He : e = 2).
  { apply (f_equal (fun r => match r with
                             | Some (x, _, _, _) => x
                             | None => 0
                             end)) in Hrun.
    vm_compute in Hrun. symmetry. exact Hrun. }
  subst e.
  destruct (positive_move_is_complete Sim.ccfg Sim.world (list Z) Sim.svc
              (Sim.state0 [523; 524] 1 ∅) (Sim.handle0 5) (Some plain_file) 523 2 true
              Sim.snapshot_inode 2 c h1 st1 eq_refl Hrun ltac:(lia))
    as (Hc & _ & Hcount).
  exists h1, st1. split; [rewrite Hc; reflexivity|].
  rewrite <- Hcount, <- Hc. reflexivity.
Defined.

Section EngineCache.
Variable ccfg : cow_config.
Variable W : Type.
Variable B : Type.
Variable svc : services W B.

(** The journal heads of two states agree. *)
Local Abbreviation same_heads st st' :=
  (forall b' : Z, b_jbd (get_bh st' b') = b_jbd (get_bh st b')
                  /\ b_jh (get_bh st' b') = b_jh (get_bh st b')).

Lemma read_if_stale_heads (st : cstate W) b :
  same_heads st (snd (read_if_stale svc st b)).
Proof.
  intros b'. unfold read_if_stale.
  destruct (b_uptodate (get_bh st b)); [split; reflexivity|].
  destruct (svc_read_block svc (b_blocknr (get_bh st b)) (c_world st)) as [ok w].
  cbn [snd]. unfold set_uptodate, get_bh, with_bufs, with_world. cbn [c_bufs].
  destruct (Z.eq_dec b b') as [<- | Hne].
  - rewrite lookup_insert_eq. split; reflexivity.
  - rewrite lookup_insert_ne by exact Hne. split; reflexivity.
Qed.

Lemma test_cowed_heads (st st' : cstate W) :
  same_heads st st' ->
  forall h bh, ext4_snapshot_test_cowed ccfg st' h bh = ext4_snapshot_test_cowed ccfg st h bh.
Proof.
  intros Hsame h bh. unfold ext4_snapshot_test_cowed.
  destruct (negb (cow_cache_enabled ccfg)); [reflexivity|].
  destruct bh as [b|]; [|reflexivity].
  destruct (Hsame b) as [-> ->]. reflexivity.
Qed.

Lemma failed_cow_heads (st : cstate W) h ino block bh cow e h1 st1 :
  ext4_snapshot_test_and_cow ccfg svc st h ino block bh cow = (e, h1, st1) ->
  e <> 0 ->
  same_heads st st1.
Proof.
  intros Hcall Hne.
  unfold ext4_snapshot_test_and_cow, cow_cowed, cow_out in Hcall.
  destruct (ext4_snapshot_has_active st) as [a|];
    [|injection Hcall as <- _ _; contradiction].
  destruct (IS_COWING h); [injection Hcall as <- _ _; contradiction|].
  destruct (same_inode ino a); [injection Hcall as _ _ <-; split; reflexivity|].
  destruct (ext4_snapshot_test_cowed ccfg st h bh);
    [injection Hcall as <- _ _; contradiction|].
  cbv zeta in Hcall.
  destruct (ext4_snapshot_test_cow_bitmap ccfg svc (ext4_snapshot_cow_begin h) a block 1
              (c_world st)) as [[r c] w].
  destruct (r <? 0); [injection Hcall as _ _ <-; split; reflexivity|].
  destruct (Z.eqb_spec r 0) as [Hr | Hr]; [injection Hcall as <- _ _; contradiction|].
  match type of Hcall with
  | context [ext4_snapshot_map_blocks svc ?a1 ?a2 ?a3 ?a4 ?a5 ?a6 ?a7] =>
    destruct (ext4_snapshot_map_blocks svc a1 a2 a3 a4 a5 a6 a7) as [[e2 blk] w2]
  end.
  destruct (e2 <? 0); [injection Hcall as _ _ <-; split; reflexivity|].
  destruct (0 <? e2); [injection Hcall as <- _ _; contradiction|].
  match type of Hcall with
  | context [if negb ?c then _ else _] => destruct c
  end; cbn [negb] in Hcall; [|injection Hcall as _ _ <-; split; reflexivity].
  destruct bh as [b|]; [|injection Hcall as _ _ <-; split; reflexivity].
  match type of Hcall with
  | context [if negb ?c then _ else _] => destruct c
  end; cbn [negb] in Hcall; [|injection Hcall as _ _ <-; split; reflexivity].
  pose proof (read_if_stale_heads (with_world (with_world st w) w2) b) as Hread.
  destruct (read_if_stale svc (with_world (with_world st w) w2) b) as [uptodate st2].
  cbn [snd] in Hread.
  destruct uptodate; cbn [negb] in Hcall; [|injection Hcall as _ _ <-; exact Hread].
  match type of Hcall with
  | context [svc_getblk svc ?a1 ?a2 ?a3 ?a4 ?a5] =>
    destruct (svc_getblk svc a1 a2 a3 a4 a5) as [[sbh e3] w3]
  end.
  destruct sbh as [s|]; [|injection Hcall as _ _ <-; exact Hread].
  destruct (Z.eqb_spec e3 0) as [He3 | He3]; [injection Hcall as <- _ _; contradiction|].
  match type of Hcall with
  | context [ext4_snapshot_copy_buffer_cow svc ?a1 ?a2 ?a3 ?a4 ?a5] =>
    destruct (ext4_snapshot_copy_buffer_cow svc a1 a2 a3 a4 a5) as [e4 w4]
  end.
  destruct (Z.eqb_spec e4 0) as [He4 | He4]; cbn [negb] in Hcall;
    [injection Hcall as <- _ _; contradiction|].
  injection Hcall as _ _ <-. exact Hread.
Qed.

Lemma cow_past_snapshot (st : cstate W) h ino block bh cow a :
  c_active_snapshot st = Some a -> h_cowing h = false ->
  same_inode ino a = false -> ext4_snapshot_test_cowed ccfg st h bh = false ->
  SNAPSHOT_BLOCKS ccfg a <= block ->
  ext4_snapshot_test_and_cow ccfg svc st h ino block bh cow
  = (0, h, ext4_snapshot_mark_cowed ccfg st h bh).
Proof.
  intros Ha Hc Hs Ht Hpast.
  unfold ext4_snapshot_test_and_cow, ext4_snapshot_has_active, IS_COWING.
  rewrite Ha, Hc, Hs, Ht. cbv zeta. unfold ext4_snapshot_test_cow_bitmap.
  destruct (Z.leb_spec (SNAPSHOT_BLOCKS ccfg a) block) as [_ | Hlt]; [|lia].
  cbn [Z.ltb Z.eqb Z.compare]. unfold cow_cowed, cow_out.
  destruct h as [cowing tid bc uc]. cbn in Hc. subst cowing.
  destruct st as [w bufs act has]. reflexivity.
Qed.

Lemma move_past_snapshot (st : cstate W) h ino block maxblocks move a :
  c_active_snapshot st = Some a -> h_cowing h = false ->
  same_inode ino a = false ->
  SNAPSHOT_BLOCKS ccfg a <= block ->
  ext4_snapshot_test_and_move ccfg svc st h ino block maxblocks move
  = Some (0, maxblocks, h, st).
Proof.
  intros Ha Hc Hs Hpast.
  unfold ext4_snapshot_test_and_move, ext4_snapshot_has_active, IS_COWING.
  rewrite Ha, Hc, Hs. cbn [orb]. cbv zeta. unfold ext4_snapshot_test_cow_bitmap.
  destruct (Z.leb_spec (SNAPSHOT_BLOCKS ccfg a) block) as [_ | Hlt]; [|lia].
  cbn [Z.ltb Z.eqb Z.compare]. unfold move_out.
  destruct h as [cowing tid bc uc]. cbn in Hc. subst cowing.
  destruct st as [w bufs act has]. reflexivity.
Qed.

End EngineCache.

(** X11 (a failed COW is not remembered): when
    [ext4_snapshot_test_and_cow] returns anything but 0 (an error, or the
    answer 1 of a test), no journal head has been touched: every buffer
    is attached to the journal and tagged as before, so the COW cache
    [ext4_snapshot_test_cowed] answers in the state left as it did before,
    and the next call for the buffer in the same transaction runs the
    test again. *)
Theorem failed_cow_leaves_cache
    (ccfg : cow_config) (W B : Type) (svc : services W B)
    (st : cstate W) (h : handle) (ino : option inode) (block : Z)
    (bh : option Z) (cow : bool) (e : Z) (h1 : handle) (st1 : cstate W) :
  ext4_snapshot_test_and_cow ccfg svc st h ino block bh cow = (e, h1, st1) ->
  e <> 0 ->
  (forall b, b_jbd (get_bh st1 b) = b_jbd (get_bh st b)
             /\ b_jh (get_bh st1 b) = b_jh (get_bh st b))
  /\ forall h2 bh2,
       ext4_snapshot_test_cowed ccfg st1 h2 bh2 = ext4_snapshot_test_cowed ccfg st h2 bh2.
Proof.
  intros Hcall Hne.
  pose proof (failed_cow_heads ccfg W B svc st h ino block bh cow e h1 st1 Hcall Hne)
    as Hsame.
  split; [exact Hsame|]. apply test_cowed_heads. exact Hsame.
Qed.

Lemma failed_cow_leaves_cache_witness :
  exists h1 st1,
    ext4_snapshot_test_and_cow Sim.ccfg Sim.svc
      (Sim.state0 [300] 5 {[ 1 := Sim.journalled 300 4 ]}) (Sim.handle0 5)
      None 300 (Some 1) false = (1, h1, st1)
    /\ ext4_snapshot_test_cowed Sim.ccfg st1 (Sim.handle0 5) (Some 1) = false.
Proof.
  destruct (ext4_snapshot_test_and_cow Sim.ccfg Sim.svc
              (Sim.state0 [300] 5 {[ 1 := Sim.journalled 300 4 ]}) (Sim.handle0 5)
              None 300 (Some 1) false) as [[e h1] st1] eqn:Hrun.
  assert (He : e = 1).
  { apply (f_equal (fun r => fst (fst r))) in Hrun. vm_compute in Hrun.
    symmetry. exact Hrun. }
  subst e.
  destruct (failed_cow_leaves_cache Sim.ccfg Sim.world (list Z) Sim.svc
              (Sim.state0 [300] 5 {[ 1 := Sim.journalled 300 4 ]}) (Sim.handle0 5)
              None 300 (Some 1) false 1 h1 st1 Hrun ltac:(lia)) as (_ & Hcache).
  exists h1, st1. split; [reflexivity|].
  rewrite Hcache. vm_compute. reflexivity.
Defined.

(** X12 (blocks past the end of the snapshot): a block at or past
    [SNAPSHOT_BLOCKS] of the active snapshot, that is, one the file system
    got after the snapshot was taken, is never copied or moved. Past the
    guards, [ext4_snapshot_test_and_cow] returns 0 with the world untouched
    (no bitmap is read, nothing is looked up or allocated) and only tags the
    buffer as COWed, and [ext4_snapshot_test_and_move] returns 0 and leaves
    [*maxblocks] and the state as they were. *)
Theorem blocks_past_snapshot_are_skipped
    (ccfg : cow_config) (W B : Type) (svc : services W B)
    (st : cstate W) (h : handle) (ino : option inode) (block : Z) (a : inode) :
  c_active_snapshot st = Some a -> h_cowing h = false ->
  same_inode ino a = false ->
  SNAPSHOT_BLOCKS ccfg a <= block ->
  (forall bh cow,
      ext4_snapshot_test_cowed ccfg st h bh = false ->
      ext4_snapshot_test_and_cow ccfg svc st h ino block bh cow
      = (0, h, ext4_snapshot_mark_cowed ccfg st h bh)
      /\ c_world (ext4_snapshot_mark_cowed ccfg st h bh) = c_world st)
  /\ forall maxblocks move,
       ext4_snapshot_test_and_move ccfg svc st h ino block maxblocks move
       = Some (0, maxblocks, h, st).
Proof.
  intros Ha Hc Hs Hpast. split.
  - intros bh cow Ht. split; [apply (cow_past_snapshot ccfg W B svc) with a; assumption|].
    unfold ext4_snapshot_mark_cowed.
    repeat match goal with
           | |- context [match ?x with _ => _ end] => destruct x
           end; reflexivity.
  - intros maxblocks move.
    apply (move_past_snapshot ccfg W B svc) with a; assumption.
Qed.

Lemma blocks_past_snapshot_are_skipped_witness :
  SNAPSHOT_BLOCKS Sim.ccfg Sim.snapshot_inode <= 9000
  /\ ext4_snapshot_test_and_move Sim.ccfg Sim.svc (Sim.state0 [300] 5 ∅) (Sim.handle0 5)
       (Some plain_file) 9000 4 true
     = Some (0, 4, Sim.handle0 5, Sim.state0 [300] 5 ∅).
Proof.
  assert (Hpast : SNAPSHOT_BLOCKS Sim.ccfg Sim.snapshot_inode <= 9000)
    by (vm_compute; discriminate).
  split; [exact Hpast|].
  destruct (blocks_past_snapshot_are_skipped Sim.ccfg Sim.world (list Z) Sim.svc
              (Sim.state0 [300] 5 ∅) (Sim.handle0 5) (Some plain_file) 9000
              Sim.snapshot_inode eq_refl eq_refl eq_refl Hpast) as (_ & Hmove).
  apply Hmove.
Defined.

(** ** Block addresses of the snapshot image ([snapshot.h]) *)

Lemma wrap_loff_small (x : Z) : - 2 ^ 63 <= x < 2 ^ 63 -> wrap_loff x = x.
Proof.
  intros Hx. unfold wrap_loff. rewrite Z.mod_small by lia. lia.
Qed.

Lemma blocks_per_group_pow (ccfg : cow_config) :
  0 <= SNAPSHOT_BLOCKS_PER_GROUP_BITS ccfg ->
  SNAPSHOT_BLOCKS_PER_GROUP ccfg = 2 ^ SNAPSHOT_BLOCKS_PER_GROUP_BITS ccfg
  /\ 0 < SNAPSHOT_BLOCKS_PER_GROUP ccfg.
Proof.
  intros Hb. unfold SNAPSHOT_BLOCKS_PER_GROUP. rewrite Z.shiftl_1_l.
  split; [reflexivity | apply Z.pow_pos_nonneg; lia].
Qed.

(** X13 (group and offset of a block): [SNAPSHOT_BLOCK_GROUP] and
    [SNAPSHOT_BLOCK_GROUP_OFFSET] split a block address into the number of
    its group and its bit in the group's bitmap, with the offset below
    [SNAPSHOT_BLOCKS_PER_GROUP]; the address is recovered as
    group * blocks per group + offset, and every pair of a group and an
    offset in range is the split of exactly that address. A group has as
    many blocks as a bitmap block has bits. *)
Theorem block_group_decomposition (ccfg : cow_config) (block : Z) :
  0 <= SNAPSHOT_BLOCK_SIZE_BITS ccfg ->
  let per_group := SNAPSHOT_BLOCKS_PER_GROUP ccfg in
  block = SNAPSHOT_BLOCK_GROUP ccfg block * per_group
          + SNAPSHOT_BLOCK_GROUP_OFFSET ccfg block
  /\ 0 <= SNAPSHOT_BLOCK_GROUP_OFFSET ccfg block < per_group
  /\ (forall g o, 0 <= o < per_group ->
        SNAPSHOT_BLOCK_GROUP ccfg (g * per_group + o) = g
        /\ SNAPSHOT_BLOCK_GROUP_OFFSET ccfg (g * per_group + o) = o)
  /\ per_group = 8 * Z.shiftl 1 (SNAPSHOT_BLOCK_SIZE_BITS ccfg).
Proof.
  intros Hbits per_group.
  assert (Hb : 0 <= SNAPSHOT_BLOCKS_PER_GROUP_BITS ccfg)
    by (unfold SNAPSHOT_BLOCKS_PER_GROUP_BITS; lia).
  destruct (blocks_per_group_pow ccfg Hb) as [Hpow Hpos]. fold per_group in Hpow, Hpos.
  assert (Hgroup : forall x, SNAPSHOT_BLOCK_GROUP ccfg x = x / per_group).
  { intros x. unfold SNAPSHOT_BLOCK_GROUP. rewrite Hpow.
    apply Z.shiftr_div_pow2. exact Hb. }
  assert (Hoff : forall x, SNAPSHOT_BLOCK_GROUP_OFFSET ccfg x = x mod per_group).
  { intros x. unfold SNAPSHOT_BLOCK_GROUP_OFFSET. fold per_group. rewrite Hpow.
    rewrite <- Z.land_ones by exact Hb. f_equal. rewrite Z.ones_equiv. lia. }
  split; [|split; [|split]].
  - rewrite Hgroup, Hoff. rewrite (Z.div_mod block per_group) at 1 by lia. lia.
  - rewrite Hoff. apply Z.mod_pos_bound. exact Hpos.
  - intros g o Ho. rewrite Hgroup, Hoff. split.
    + rewrite Z.add_comm, Z.div_add by lia. rewrite Z.div_small by lia. lia.
    + rewrite Z.add_comm, Z.mod_add by lia. apply Z.mod_small. lia.
  - rewrite Hpow. unfold SNAPSHOT_BLOCKS_PER_GROUP_BITS. rewrite Z.shiftl_1_l.
    rewrite Z.pow_add_r by lia. lia.
Qed.

Lemma block_group_decomposition_witness :
  0 <= SNAPSHOT_BLOCK_SIZE_BITS Sim.ccfg
  /\ SNAPSHOT_BLOCK_GROUP Sim.ccfg 20000 = 2
  /\ SNAPSHOT_BLOCK_GROUP_OFFSET Sim.ccfg 20000 = 3616
  /\ 20000 = SNAPSHOT_BLOCK_GROUP Sim.ccfg 20000 * SNAPSHOT_BLOCKS_PER_GROUP Sim.ccfg
             + SNAPSHOT_BLOCK_GROUP_OFFSET Sim.ccfg 20000.
Proof.
  assert (Hbits : 0 <= SNAPSHOT_BLOCK_SIZE_BITS Sim.ccfg) by (vm_compute; discriminate).
  split; [exact Hbits|]. split; [reflexivity|]. split; [reflexivity|].
  destruct (block_group_decomposition Sim.ccfg 20000 Hbits) as (Hsplit & _).
  exact Hsplit.
Defined.

(** X14 (the recorded size of the snapshot image): what
    [SNAPSHOT_SET_BLOCKS] records in [i_disksize] is what [SNAPSHOT_BLOCKS]
    reads back, as long as the byte size fits the signed 64 bits of
    [loff_t]; and for the snapshot so sized, [ext4_snapshot_test_cow_bitmap]
    reports every block from that count on as not in use, without reading a
    bitmap. *)
Theorem snapshot_blocks_round_trip
    (ccfg : cow_config) (W B : Type) (svc : services W B) (ino : inode) (blocks : Z) :
  0 <= SNAPSHOT_BLOCK_SIZE_BITS ccfg ->
  0 <= blocks ->
  blocks * 2 ^ SNAPSHOT_BLOCK_SIZE_BITS ccfg + SNAPSHOT_BYTES_OFFSET ccfg < 2 ^ 63 ->
  SNAPSHOT_BLOCKS ccfg (SNAPSHOT_SET_BLOCKS ccfg ino blocks) = blocks
  /\ i_size (SNAPSHOT_SET_BLOCKS ccfg ino blocks) = i_size ino
  /\ forall h block maxblocks (w : W),
       blocks <= block ->
       ext4_snapshot_test_cow_bitmap ccfg svc h (SNAPSHOT_SET_BLOCKS ccfg ino blocks)
         block maxblocks w = (0, maxblocks, w).
Proof.
  intros Hbits Hblocks Hfit.
  assert (Hpow : 0 < 2 ^ SNAPSHOT_BLOCK_SIZE_BITS ccfg) by (apply Z.pow_pos_nonneg; lia).
  assert (Hoff : 0 <= SNAPSHOT_BYTES_OFFSET ccfg).
  { unfold SNAPSHOT_BYTES_OFFSET. apply Z.shiftl_nonneg.
    unfold SNAPSHOT_BLOCK_OFFSET, SNAPSHOT_ADDR_PER_BLOCK.
    assert (0 <= Z.shiftl 1 (SNAPSHOT_ADDR_PER_BLOCK_BITS ccfg))
      by (apply Z.shiftl_nonneg; lia).
    unfold NEXT3_NDIR_BLOCKS. lia. }
  assert (Hread : SNAPSHOT_BLOCKS ccfg (SNAPSHOT_SET_BLOCKS ccfg ino blocks) = blocks).
  { unfold SNAPSHOT_BLOCKS, SNAPSHOT_SIZE, SNAPSHOT_SET_BLOCKS, SNAPSHOT_SET_SIZE,
      SNAPSHOT_ISIZE, set_disksize. cbn [i_disksize].
    rewrite Z.shiftl_mul_pow2 by exact Hbits.
    rewrite (wrap_loff_small (blocks * _)) by nia.
    rewrite wrap_loff_small by nia.
    replace (blocks * 2 ^ SNAPSHOT_BLOCK_SIZE_BITS ccfg + SNAPSHOT_BYTES_OFFSET ccfg
             - SNAPSHOT_BYTES_OFFSET ccfg)
      with (blocks * 2 ^ SNAPSHOT_BLOCK_SIZE_BITS ccfg) by lia.
    rewrite Z.shiftr_div_pow2 by exact Hbits.
    rewrite Z.div_mul by lia. apply Z.mod_small. nia. }
  split; [exact Hread|]. split; [reflexivity|].
  intros h block maxblocks w Hpast. unfold ext4_snapshot_test_cow_bitmap.
  rewrite Hread. destruct (Z.leb_spec blocks block); [reflexivity | lia].
Qed.

Lemma snapshot_blocks_round_trip_witness :
  SNAPSHOT_BLOCKS Sim.ccfg (SNAPSHOT_SET_BLOCKS Sim.ccfg Sim.old_snapshot 8192) = 8192
  /\ ext4_snapshot_test_cow_bitmap Sim.ccfg Sim.svc (Sim.handle0 5)
       (SNAPSHOT_SET_BLOCKS Sim.ccfg Sim.old_snapshot 8192) 8192 3
       (Sim.world0 [8192] 0)
     = (0, 3, Sim.world0 [8192] 0).
Proof.
  assert (Hbits : 0 <= SNAPSHOT_BLOCK_SIZE_BITS Sim.ccfg) by (vm_compute; discriminate).
  assert (Hfit : 8192 * 2 ^ SNAPSHOT_BLOCK_SIZE_BITS Sim.ccfg
                 + SNAPSHOT_BYTES_OFFSET Sim.ccfg < 2 ^ 63) by (vm_compute; reflexivity).
  destruct (snapshot_blocks_round_trip Sim.ccfg Sim.world (list Z) Sim.svc
              Sim.old_snapshot 8192 Hbits ltac:(lia) Hfit) as (Hread & _ & Hpast).
  split; [exact Hread|]. apply Hpast. lia.
Defined.

(** ** The lookup of [next3_get_blocks_handle] *)

(** The loop that maps more blocks: it counts slots that hold consecutive
    block numbers, and stops at [maxblocks], past the boundary or at the
    first slot that breaks the run. *)
Lemma mapped_run_spec (l : list Z) (p first_block maxblocks btb : Z) (fuel : nat) :
  forall count,
    btb - count + 1 <= Z.of_nat fuel ->
    let c := mapped_run fuel l p first_block maxblocks btb count in
    count <= c
    /\ c <= Z.max count (Z.min maxblocks (btb + 1))
    /\ (forall j, count <= j < c -> read_slot l (p + j) = first_block + j)
    /\ (maxblocks <= c \/ btb < c \/ read_slot l (p + c) <> first_block + c).
Proof.
  induction fuel as [|fuel IH]; intros count Hfuel; cbn [mapped_run].
  - cbn zeta. split; [lia|]. split; [lia|]. split; [intros j Hj; lia|].
    right. left. lia.
  - destruct (Z.ltb_spec count maxblocks) as [Hm | Hm]; cbn [andb].
    2:{ cbn zeta. split; [lia|]. split; [lia|]. split; [intros j Hj; lia|]. left. lia. }
    destruct (Z.leb_spec count btb) as [Hb | Hb]; cbn [andb].
    2:{ cbn zeta. split; [lia|]. split; [lia|]. split; [intros j Hj; lia|].
        right. left. lia. }
    destruct (Z.eqb_spec (read_slot l (p + count)) (first_block + count)) as [He | He].
    2:{ cbn zeta. split; [lia|]. split; [lia|]. split; [intros j Hj; lia|].
        right. right. exact He. }
    destruct (IH (count + 1) ltac:(lia)) as (H1 & H2 & H3 & H4).
    cbn zeta. split; [lia|]. split; [lia|]. split; [|exact H4].
    intros j Hj. destruct (Z.eq_dec j count) as [-> | Hne]; [exact He|].
    apply H3. lia.
Qed.

Lemma path_depth_length (cfg : config) (sb : super_block) (ino : inode) (i : Z) :
  depth (next3_block_to_path cfg sb ino i)
  = Z.of_nat (length (offsets (next3_block_to_path cfg sb ino i))).
Proof.
  unfold next3_block_to_path, block_to_path_body.
  repeat match goal with
         | |- context [if ?c then _ else _] => destruct c
         end; reflexivity.
Qed.



(** ** The block count of an inode on disk *)

(** X17 (the block count survives the trip to disk): for a block count
    below 2^64 and blocks of at least 512 bytes, [next3_inode_blocks_set]
    either stores the count or fails with [-EFBIG] and leaves the fields
    alone. It fails exactly when the count needs more than 32 bits and the
    inode is not a snapshot file, or the count in file system blocks still
    needs more than 32 bits. What [next3_inode_blocks] reads back after a
    store is the count itself when it was stored in 512-byte units, and the
    count rounded down to whole file system blocks when it was stored with
    the huge-file flag; the high field is left 0. *)
Theorem inode_blocks_round_trip (i_blkbits : Z) (ino : inode) (raw : blocks_fields) :
  9 <= i_blkbits -> 0 <= i_blocks ino < 2 ^ 64 ->
  let err := fst (next3_inode_blocks_set i_blkbits ino raw) in
  let raw' := snd (next3_inode_blocks_set i_blkbits ino raw) in
  let unit := 2 ^ (i_blkbits - 9) in
  (err = 0 \/ err = - EFBIG)
  /\ (err = - EFBIG <->
      2 ^ 32 <= i_blocks ino
      /\ (next3_snapshot_file ino = false \/ 2 ^ 32 <= i_blocks ino / unit))
  /\ (err = - EFBIG -> raw' = raw)
  /\ (err = 0 ->
      i_blocks_high raw' = 0 /\ 0 <= i_blocks_lo raw' < 2 ^ 32
      /\ next3_inode_blocks i_blkbits ino raw'
         = (if huge_file_fl raw' then i_blocks ino - i_blocks ino mod unit
            else i_blocks ino)).
Proof.
  intros Hbits Hrange err raw' unit. subst err raw'.
  assert (Hunit : 0 < unit) by (apply Z.pow_pos_nonneg; lia).
  assert (Hshr : Z.shiftr (i_blocks ino) (i_blkbits - 9) = i_blocks ino / unit)
    by (apply Z.shiftr_div_pow2; lia).
  assert (Hlor : forall x, Z.lor (Z.shiftl 0 32) x = x)
    by (intros x; rewrite Z.shiftl_0_l; apply Z.lor_0_l).
  unfold next3_inode_blocks_set, next3_inode_blocks.
  destruct (Z.leb_spec (i_blocks ino) (2 ^ 32 - 1)) as [Hsmall | Hbig]; cbn [fst snd].
  - cbn [i_blocks_high i_blocks_lo huge_file_fl].
    assert (Hw : wrap32 (i_blocks ino) = i_blocks ino)
      by (unfold wrap32; apply Z.mod_small; lia).
    split; [left; reflexivity|].
    split; [split; [unfold EFBIG; lia | intros [H _]; lia]|].
    split; [unfold EFBIG; lia|].
    intros _. split; [reflexivity|]. split; [rewrite Hw; lia|].
    rewrite Hlor, Hw. destruct (next3_snapshot_file ino); reflexivity.
  - destruct (next3_snapshot_file ino) eqn:Hsnap; cbn [negb fst snd].
    2:{ split; [right; reflexivity|].
        split; [split; [intros _; split; [lia | left; reflexivity] | reflexivity]|].
        split; [reflexivity|]. unfold EFBIG. lia. }
    rewrite Hshr.
    destruct (Z.leb_spec (i_blocks ino / unit) (2 ^ 32 - 1)) as [Hfits | Hnot];
      cbn [fst snd].
    + cbn [i_blocks_high i_blocks_lo huge_file_fl].
      assert (Hq : 0 <= i_blocks ino / unit) by (apply Z.div_pos; lia).
      assert (Hw : wrap32 (i_blocks ino / unit) = i_blocks ino / unit)
        by (unfold wrap32; apply Z.mod_small; lia).
      split; [left; reflexivity|].
      split; [split; [unfold EFBIG; lia | intros [_ [H | H]]; [discriminate H | lia]]|].
      split; [unfold EFBIG; lia|].
      intros _. split; [reflexivity|]. split; [rewrite Hw; lia|].
      rewrite Hlor, Hw. rewrite Z.shiftl_mul_pow2 by lia. fold unit.
      pose proof (Z.div_mod (i_blocks ino) unit ltac:(lia)) as Hdm.
      pose proof (Z.mod_pos_bound (i_blocks ino) unit Hunit) as Hmod.
      rewrite Z.mod_small by nia. lia.
    + split; [right; reflexivity|].
      split; [split; [intros _; split; [lia | right; lia] | reflexivity]|].
      split; [reflexivity|]. unfold EFBIG. lia.
Qed.

Lemma inode_blocks_round_trip_witness :
  next3_inode_blocks_set 12 (with_blocks Sim.snapshot_inode (2 ^ 33 + 8))
    {| i_blocks_lo := 0; i_blocks_high := 0; huge_file_fl := false |}
  = (0, {| i_blocks_lo := 2 ^ 30 + 1; i_blocks_high := 0; huge_file_fl := true |})
  /\ next3_inode_blocks 12 (with_blocks Sim.snapshot_inode (2 ^ 33 + 8))
       {| i_blocks_lo := 2 ^ 30 + 1; i_blocks_high := 0; huge_file_fl := true |}
     = 2 ^ 33 + 8.
Proof.
  assert (Hset : next3_inode_blocks_set 12 (with_blocks Sim.snapshot_inode (2 ^ 33 + 8))
                   {| i_blocks_lo := 0; i_blocks_high := 0; huge_file_fl := false |}
                 = (0, {| i_blocks_lo := 2 ^ 30 + 1; i_blocks_high := 0;
                          huge_file_fl := true |})) by (vm_compute; reflexivity).
  split; [exact Hset|].
  destruct (inode_blocks_round_trip 12 (with_blocks Sim.snapshot_inode (2 ^ 33 + 8))
              {| i_blocks_lo := 0; i_blocks_high := 0; huge_file_fl := false |}
              ltac:(lia) ltac:(vm_compute; split; [discriminate | reflexivity]))
    as (_ & _ & _ & Hback).
  rewrite Hset in Hback. cbn [fst snd] in Hback.
  destruct (Hback eq_refl) as (_ & _ & Hread).
  rewrite Hread. vm_compute. reflexivity.
Defined.

(** ** The COW bitmap cache *)

Section CowBitmapFacts.
Variable W : Type.
Variable B : Type.
Variable svc : services W B.
Variable ext4_get_group_desc_ok : Z -> bool.
Variable ext4_block_bitmap : Z -> Z.
Variable sb_bread_ok : Z -> W -> bool.
Variable ext4_bread : handle -> inode -> Z -> Z -> W -> option Z * Z * W.
Variable ext4_read_block_bitmap : Z -> W -> option Z.
Variable memcpy_bitmap : Z -> Z -> W -> W.

Local Abbreviation read_cow_bitmap :=
  (ext4_snapshot_read_cow_bitmap W B svc ext4_get_group_desc_ok ext4_block_bitmap
     sb_bread_ok ext4_bread ext4_read_block_bitmap memcpy_bitmap).

Lemma bg_cow_bitmap_insert (cache : gmap Z Z) (g b : Z) :
  bg_cow_bitmap (<[g := b]> cache) g = b.
Proof. unfold bg_cow_bitmap. rewrite lookup_insert_eq. reflexivity. Qed.

Lemma read_cow_bitmap_hit h snapshot g (cache : gmap Z Z) (w : W) :
  ext4_get_group_desc_ok g = true -> bg_cow_bitmap cache g <> 0 ->
  read_cow_bitmap h snapshot g cache w
  = ((if sb_bread_ok (bg_cow_bitmap cache g) w then Some (bg_cow_bitmap cache g) else None),
     cache, w).
Proof.
  intros Hd Hc. unfold ext4_snapshot_read_cow_bitmap. rewrite Hd. cbn [negb].
  destruct (Z.eqb_spec (bg_cow_bitmap cache g) 0); [contradiction | reflexivity].
Qed.

Lemma read_cow_bitmap_miss h snapshot g (cache : gmap Z Z) (w : W) :
  ext4_get_group_desc_ok g = true -> bg_cow_bitmap cache g = 0 ->
  exists bh w',
    read_cow_bitmap h snapshot g cache w
    = (bh, <[g := match bh with Some b => b | None => 0 end]> cache, w').
Proof.
  intros Hd Hc. unfold ext4_snapshot_read_cow_bitmap. rewrite Hd, Hc. cbn [negb Z.eqb].
  destruct (ext4_bread h snapshot (SNAPSHOT_IBLOCK (ext4_block_bitmap g)) SNAPMAP_READ w)
    as [[cow_bh err] w1].
  destruct (match cow_bh with
            | Some _ => (cow_bh, err, w1)
            | None => create_cow_bitmap W B svc ext4_read_block_bitmap memcpy_bitmap h
                        snapshot g (ext4_block_bitmap g) w1
            end) as [[cow_bh2 err2] w2].
  destruct cow_bh2 as [b|]; [|eexists None, _; reflexivity].
  destruct (err2 =? 0); [eexists (Some b), _ | eexists None, _]; reflexivity.
Qed.

End CowBitmapFacts.

(** X18 (the COW bitmap of a group is created once): a call of
    [ext4_snapshot_read_cow_bitmap] for a group touches the cache entry of
    no other group. With a block cached for the group it only reads that
    block: the cache and the world stay as they are, nothing is looked up
    or allocated. Without one, it leaves in the cache the block of the
    buffer it returns, or 0 when it returns no buffer. So after a call that
    returned a buffer of a block other than 0, every later call for the
    group finds that block in the cache and returns the same buffer or,
    when the block cannot be read, none, leaving the cache and its world
    alone. Without a group descriptor nothing happens at all. *)
Theorem cow_bitmap_is_created_once
    (W B : Type) (svc : services W B)
    (group_desc_ok : Z -> bool) (block_bitmap : Z -> Z) (bread_ok : Z -> W -> bool)
    (bread : handle -> inode -> Z -> Z -> W -> option Z * Z * W)
    (read_block_bitmap : Z -> W -> option Z) (memcpy_bitmap : Z -> Z -> W -> W)
    (h : handle) (snapshot : inode) (g : Z) (cache : gmap Z Z) (w : W)
    (bh : option Z) (cache' : gmap Z Z) (w' : W) :
  let read :=
    ext4_snapshot_read_cow_bitmap W B svc group_desc_ok block_bitmap bread_ok bread
      read_block_bitmap memcpy_bitmap in
  read h snapshot g cache w = (bh, cache', w') ->
  (forall g', g' <> g -> cache' !! g' = cache !! g')
  /\ (group_desc_ok g = false -> bh = None /\ cache' = cache /\ w' = w)
  /\ (group_desc_ok g = true -> bg_cow_bitmap cache g <> 0 ->
      cache' = cache /\ w' = w
      /\ bh = if bread_ok (bg_cow_bitmap cache g) w
              then Some (bg_cow_bitmap cache g) else None)
  /\ (group_desc_ok g = true -> bg_cow_bitmap cache g = 0 ->
      bg_cow_bitmap cache' g = match bh with Some b => b | None => 0 end)
  /\ (forall b, bh = Some b -> b <> 0 ->
      forall h2 w2,
        read h2 snapshot g cache' w2
        = ((if bread_ok b w2 then Some b else None), cache', w2)).
Proof.
  intros read Hcall. subst read.
  destruct (group_desc_ok g) eqn:Hd.
  2:{ unfold ext4_snapshot_read_cow_bitmap in Hcall. rewrite Hd in Hcall.
      cbn [negb] in Hcall. injection Hcall as <- <- <-.
      split; [reflexivity|]. split; [auto|].
      split; [discriminate|]. split; [discriminate|]. discriminate. }
  destruct (Z.eq_dec (bg_cow_bitmap cache g) 0) as [Hzero | Hcached].
  - destruct (read_cow_bitmap_miss W B svc group_desc_ok block_bitmap bread_ok bread
                read_block_bitmap memcpy_bitmap h snapshot g cache w Hd Hzero)
      as (bh0 & w0 & Hmiss).
    rewrite Hmiss in Hcall. injection Hcall as <- <- <-.
    split; [intros g' Hg; apply lookup_insert_ne; congruence|].
    split; [discriminate|].
    split; [intros _ Hne; contradiction|].
    split; [intros _ _; apply bg_cow_bitmap_insert|].
    intros b -> Hb h2 w2.
    rewrite (read_cow_bitmap_hit W B svc group_desc_ok block_bitmap bread_ok bread
               read_block_bitmap memcpy_bitmap h2 snapshot g _ w2 Hd);
      rewrite bg_cow_bitmap_insert; [reflexivity | exact Hb].
  - rewrite (read_cow_bitmap_hit W B svc group_desc_ok block_bitmap bread_ok bread
               read_block_bitmap memcpy_bitmap h snapshot g cache w Hd Hcached) in Hcall.
    injection Hcall as <- <- <-.
    split; [reflexivity|]. split; [discriminate|].
    split; [intros _ _; auto|].
    split; [intros _ Hz; contradiction|].
    intros b Hbh Hb h2 w2.
    assert (Hbc : bg_cow_bitmap cache g = b).
    { destruct (bread_ok (bg_cow_bitmap cache g) w); [congruence | discriminate]. }
    rewrite (read_cow_bitmap_hit W B svc group_desc_ok block_bitmap bread_ok bread
               read_block_bitmap memcpy_bitmap h2 snapshot g cache w2 Hd Hcached).
    rewrite Hbc. reflexivity.
Qed.

Lemma cow_bitmap_is_created_once_witness :
  let read :=
    ext4_snapshot_read_cow_bitmap Sim.world (list Z) Sim.svc (fun _ => true)
      (fun g => 300 + g) (fun _ _ => true) (fun _ _ _ _ w => (None, 0, w))
      (fun _ _ => Some 5) (fun _ _ w => w) in
  exists b cache' w',
    read (ext4_snapshot_cow_begin (Sim.handle0 5)) Sim.snapshot_inode 0 ∅
      (Sim.world0 [] 3) = (Some b, cache', w')
    /\ b <> 0
    /\ read (Sim.handle0 6) Sim.snapshot_inode 0 cache' w' = (Some b, cache', w').
Proof.
  intros read.
  destruct (read (ext4_snapshot_cow_begin (Sim.handle0 5)) Sim.snapshot_inode 0 ∅
              (Sim.world0 [] 3)) as [[bh cache'] w'] eqn:Hcall.
  assert (Hbh : bh = Some 2000).
  { apply (f_equal (fun r => fst (fst r))) in Hcall. vm_compute in Hcall.
    symmetry. exact Hcall. }
  subst bh.
  destruct (cow_bitmap_is_created_once Sim.world (list Z) Sim.svc (fun _ => true)
              (fun g => 300 + g) (fun _ _ => true) (fun _ _ _ _ w => (None, 0, w))
              (fun _ _ => Some 5) (fun _ _ w => w)
              (ext4_snapshot_cow_begin (Sim.handle0 5)) Sim.snapshot_inode 0 ∅
              (Sim.world0 [] 3) (Some 2000) cache' w' Hcall)
    as (_ & _ & _ & _ & Hagain).
  exists 2000, cache', w'. split; [reflexivity|]. split; [lia|].
  apply (Hagain 2000 eq_refl ltac:(lia) (Sim.handle0 6) w').
Defined.

(** ** The flags of an inode *)

Lemma land_pow2 (x k : Z) :
  0 <= k -> Z.land x (2 ^ k) = if Z.testbit x k then 2 ^ k else 0.
Proof.
  intros Hk. apply Z.bits_inj'. intros n Hn.
  rewrite Z.land_spec, Z.pow2_bits_eqb by lia.
  destruct (Z.eqb_spec k n) as [-> | Hne].
  - destruct (Z.testbit x n);
      [rewrite Z.pow2_bits_eqb by lia; rewrite Z.eqb_refl; reflexivity|].
    rewrite Z.bits_0. reflexivity.
  - rewrite andb_false_r. destruct (Z.testbit x k); [|rewrite Z.bits_0; reflexivity].
    rewrite Z.pow2_bits_eqb by lia. symmetry. apply Z.eqb_neq. exact Hne.
Qed.

Lemma flag_set_bit (x k : Z) : 0 <= k -> flag_set x (2 ^ k) = Z.testbit x k.
Proof.
  intros Hk. unfold flag_set. rewrite land_pow2 by exact Hk.
  destruct (Z.testbit x k); [|reflexivity].
  assert (0 < 2 ^ k) by (apply Z.pow_pos_nonneg; lia).
  destruct (Z.eqb_spec (2 ^ k) 0); [lia | reflexivity].
Qed.

Lemma lor_bit (f k n : Z) :
  0 <= k -> 0 <= n -> Z.testbit (Z.lor f (2 ^ k)) n = Z.testbit f n || (n =? k).
Proof.
  intros Hk Hn. rewrite Z.lor_spec, Z.pow2_bits_eqb by lia.
  rewrite (Z.eqb_sym k n). reflexivity.
Qed.

Lemma bits_of_vfs_mask (n : Z) :
  0 <= n ->
  Z.testbit 79 n = ((n =? 0) || (n =? 1) || (n =? 2) || (n =? 3) || (n =? 6)).
Proof.
  intros Hn.
  destruct (Z.eqb_spec n 0) as [-> | ?]; [reflexivity|].
  destruct (Z.eqb_spec n 1) as [-> | ?]; [reflexivity|].
  destruct (Z.eqb_spec n 2) as [-> | ?]; [reflexivity|].
  destruct (Z.eqb_spec n 3) as [-> | ?]; [reflexivity|].
  destruct (Z.eqb_spec n 4) as [-> | ?]; [reflexivity|].
  destruct (Z.eqb_spec n 5) as [-> | ?]; [reflexivity|].
  destruct (Z.eqb_spec n 6) as [-> | ?]; [reflexivity|].
  cbn [orb]. apply Z.bits_above_log2; [lia|]. change (Z.log2 79) with 6. lia.
Qed.

Lemma bits_of_disk_mask (n : Z) :
  0 <= n ->
  Z.testbit 65720 n = ((n =? 3) || (n =? 5) || (n =? 4) || (n =? 7) || (n =? 16)).
Proof.
  intros Hn.
  destruct (Z.eqb_spec n 3) as [-> | ?]; [reflexivity|].
  destruct (Z.eqb_spec n 5) as [-> | ?]; [reflexivity|].
  destruct (Z.eqb_spec n 4) as [-> | ?]; [reflexivity|].
  destruct (Z.eqb_spec n 7) as [-> | ?]; [reflexivity|].
  destruct (Z.eqb_spec n 16) as [-> | ?]; [reflexivity|].
  cbn [orb].
  destruct (Z.le_gt_cases n 16) as [Hle | Hgt].
  - assert (Hcase : n = 0 \/ n = 1 \/ n = 2 \/ n = 6 \/ n = 8 \/ n = 9 \/ n = 10
                    \/ n = 11 \/ n = 12 \/ n = 13 \/ n = 14 \/ n = 15) by lia.
    repeat destruct Hcase as [-> | Hcase]; try reflexivity. subst n. reflexivity.
  - apply Z.bits_above_log2; [lia|]. change (Z.log2 65720) with 16. lia.
Qed.

(** The bits of the VFS flags after [next3_set_inode_flags]. *)
Lemma set_inode_flags_bits (ei : Z) (ino : inode) (n : Z) :
  0 <= n ->
  Z.testbit (i_flags (next3_set_inode_flags ei ino)) n
  = if n =? 0 then Z.testbit ei 3
    else if n =? 2 then Z.testbit ei 5
    else if n =? 3 then Z.testbit ei 4
    else if n =? 1 then Z.testbit ei 7
    else if n =? 6 then Z.testbit ei 16
    else Z.testbit (i_flags ino) n.
Proof.
  intros Hn.
  unfold next3_set_inode_flags, set_i_flags, S_SYNC, S_APPEND, S_IMMUTABLE, S_NOATIME,
    S_DIRSYNC, NEXT3_SYNC_FL, NEXT3_APPEND_FL, NEXT3_IMMUTABLE_FL, NEXT3_NOATIME_FL,
    NEXT3_DIRSYNC_FL.
  cbv zeta. cbn [i_flags].
  pose proof (flag_set_bit ei 3 ltac:(lia)) as F3. change (2 ^ 3) with 8 in F3.
  pose proof (flag_set_bit ei 5 ltac:(lia)) as F5. change (2 ^ 5) with 32 in F5.
  pose proof (flag_set_bit ei 4 ltac:(lia)) as F4. change (2 ^ 4) with 16 in F4.
  pose proof (flag_set_bit ei 7 ltac:(lia)) as F7. change (2 ^ 7) with 128 in F7.
  pose proof (flag_set_bit ei 16 ltac:(lia)) as F16. change (2 ^ 16) with 65536 in F16.
  rewrite F3, F5, F4, F7, F16.
  pose proof (fun f => lor_bit f 0 n ltac:(lia) Hn) as B0. change (2 ^ 0) with 1 in B0.
  pose proof (fun f => lor_bit f 2 n ltac:(lia) Hn) as B2. change (2 ^ 2) with 4 in B2.
  pose proof (fun f => lor_bit f 3 n ltac:(lia) Hn) as B3. change (2 ^ 3) with 8 in B3.
  pose proof (fun f => lor_bit f 1 n ltac:(lia) Hn) as B1. change (2 ^ 1) with 2 in B1.
  pose proof (fun f => lor_bit f 6 n ltac:(lia) Hn) as B6. change (2 ^ 6) with 64 in B6.
  change (Z.lor (Z.lor (Z.lor (Z.lor 1 4) 8) 2) 64) with 79.
  pose proof (bits_of_vfs_mask n Hn) as Hmask.
  destruct (Z.testbit ei 3), (Z.testbit ei 5), (Z.testbit ei 4), (Z.testbit ei 7),
    (Z.testbit ei 16);
    repeat (rewrite B0 || rewrite B1 || rewrite B2 || rewrite B3 || rewrite B6);
    rewrite Z.land_spec, Z.lnot_spec, Hmask by lia;
    destruct (Z.eqb_spec n 0), (Z.eqb_spec n 1), (Z.eqb_spec n 2), (Z.eqb_spec n 3),
      (Z.eqb_spec n 6); try lia; cbn [orb andb negb];
    rewrite ?andb_true_r, ?andb_false_r, ?orb_false_r, ?orb_true_r; reflexivity.
Qed.

(** The bits of [ei->i_flags] after [next3_get_inode_flags]. *)
Lemma get_inode_flags_bits (ei : Z) (ino : inode) (n : Z) :
  0 <= n ->
  Z.testbit (next3_get_inode_flags ei ino) n
  = if n =? 3 then Z.testbit (i_flags ino) 0
    else if n =? 5 then Z.testbit (i_flags ino) 2
    else if n =? 4 then Z.testbit (i_flags ino) 3
    else if n =? 7 then Z.testbit (i_flags ino) 1
    else if n =? 16 then Z.testbit (i_flags ino) 6
    else Z.testbit ei n.
Proof.
  intros Hn.
  unfold next3_get_inode_flags, S_SYNC, S_APPEND, S_IMMUTABLE, S_NOATIME,
    S_DIRSYNC, NEXT3_SYNC_FL, NEXT3_APPEND_FL, NEXT3_IMMUTABLE_FL, NEXT3_NOATIME_FL,
    NEXT3_DIRSYNC_FL.
  cbv zeta. set (v := i_flags ino).
  pose proof (flag_set_bit v 0 ltac:(lia)) as F0. change (2 ^ 0) with 1 in F0.
  pose proof (flag_set_bit v 2 ltac:(lia)) as F2. change (2 ^ 2) with 4 in F2.
  pose proof (flag_set_bit v 3 ltac:(lia)) as F3. change (2 ^ 3) with 8 in F3.
  pose proof (flag_set_bit v 1 ltac:(lia)) as F1. change (2 ^ 1) with 2 in F1.
  pose proof (flag_set_bit v 6 ltac:(lia)) as F6. change (2 ^ 6) with 64 in F6.
  rewrite F0, F2, F3, F1, F6.
  pose proof (fun f => lor_bit f 3 n ltac:(lia) Hn) as B3. change (2 ^ 3) with 8 in B3.
  pose proof (fun f => lor_bit f 5 n ltac:(lia) Hn) as B5. change (2 ^ 5) with 32 in B5.
  pose proof (fun f => lor_bit f 4 n ltac:(lia) Hn) as B4. change (2 ^ 4) with 16 in B4.
  pose proof (fun f => lor_bit f 7 n ltac:(lia) Hn) as B7. change (2 ^ 7) with 128 in B7.
  pose proof (fun f => lor_bit f 16 n ltac:(lia) Hn) as B16.
  change (2 ^ 16) with 65536 in B16.
  change (Z.lor (Z.lor (Z.lor (Z.lor 8 32) 16) 128) 65536) with 65720.
  pose proof (bits_of_disk_mask n Hn) as Hmask.
  destruct (Z.testbit v 0), (Z.testbit v 2), (Z.testbit v 3), (Z.testbit v 1),
    (Z.testbit v 6);
    repeat (rewrite B3 || rewrite B5 || rewrite B4 || rewrite B7 || rewrite B16);
    rewrite Z.land_spec, Z.lnot_spec, Hmask by lia;
    destruct (Z.eqb_spec n 3), (Z.eqb_spec n 5), (Z.eqb_spec n 4), (Z.eqb_spec n 7),
      (Z.eqb_spec n 16); try lia; cbn [orb andb negb];
    rewrite ?andb_true_r, ?andb_false_r, ?orb_false_r, ?orb_true_r; reflexivity.
Qed.

(** X19 (the two copies of the inode flags agree): after
    [next3_set_inode_flags] the VFS tests [IS_APPEND] and [IS_IMMUTABLE]
    answer what the on-disk flags [NEXT3_APPEND_FL] and
    [NEXT3_IMMUTABLE_FL] say, so an inode with one of them on disk is
    refused by [next3_can_truncate]; and the two functions undo each other:
    [next3_get_inode_flags] after [next3_set_inode_flags] gives back the
    on-disk flags, and [next3_set_inode_flags] after
    [next3_get_inode_flags] gives back the inode. *)
Theorem inode_flags_agree (sb : super_block) (ei : Z) (ino : inode) :
  IS_APPEND (next3_set_inode_flags ei ino) = flag_set ei NEXT3_APPEND_FL
  /\ IS_IMMUTABLE (next3_set_inode_flags ei ino) = flag_set ei NEXT3_IMMUTABLE_FL
  /\ (flag_set ei NEXT3_APPEND_FL = true \/ flag_set ei NEXT3_IMMUTABLE_FL = true ->
      next3_can_truncate sb (next3_set_inode_flags ei ino) = false)
  /\ next3_get_inode_flags ei (next3_set_inode_flags ei ino) = ei
  /\ next3_set_inode_flags (next3_get_inode_flags ei ino) ino = ino.
Proof.
  assert (Happ : IS_APPEND (next3_set_inode_flags ei ino) = flag_set ei NEXT3_APPEND_FL).
  { unfold IS_APPEND.
    change (negb (Z.land (i_flags (next3_set_inode_flags ei ino)) S_APPEND =? 0))
      with (flag_set (i_flags (next3_set_inode_flags ei ino)) (2 ^ 2)).
    change NEXT3_APPEND_FL with (2 ^ 5).
    rewrite !flag_set_bit by lia. rewrite set_inode_flags_bits by lia. reflexivity. }
  assert (Himm : IS_IMMUTABLE (next3_set_inode_flags ei ino)
                 = flag_set ei NEXT3_IMMUTABLE_FL).
  { unfold IS_IMMUTABLE.
    change (negb (Z.land (i_flags (next3_set_inode_flags ei ino)) S_IMMUTABLE =? 0))
      with (flag_set (i_flags (next3_set_inode_flags ei ino)) (2 ^ 3)).
    change NEXT3_IMMUTABLE_FL with (2 ^ 4).
    rewrite !flag_set_bit by lia. rewrite set_inode_flags_bits by lia. reflexivity. }
  split; [exact Happ|]. split; [exact Himm|]. split; [|split].
  - intros Hflag. unfold next3_can_truncate. rewrite Happ, Himm.
    destruct Hflag as [-> | ->]; [reflexivity | rewrite orb_true_r; reflexivity].
  - apply Z.bits_inj'. intros n Hn.
    rewrite get_inode_flags_bits by exact Hn.
    rewrite !set_inode_flags_bits by lia. cbn [Z.eqb].
    destruct (Z.eqb_spec n 3) as [-> | ?]; [reflexivity|].
    destruct (Z.eqb_spec n 5) as [-> | ?]; [reflexivity|].
    destruct (Z.eqb_spec n 4) as [-> | ?]; [reflexivity|].
    destruct (Z.eqb_spec n 7) as [-> | ?]; [reflexivity|].
    destruct (Z.eqb_spec n 16) as [-> | ?]; reflexivity.
  - assert (Hflags : i_flags (next3_set_inode_flags (next3_get_inode_flags ei ino) ino)
                     = i_flags ino).
    { apply Z.bits_inj'. intros n Hn.
      rewrite set_inode_flags_bits by exact Hn.
      rewrite !get_inode_flags_bits by lia. cbn [Z.eqb].
      destruct (Z.eqb_spec n 0) as [-> | ?]; [reflexivity|].
      destruct (Z.eqb_spec n 2) as [-> | ?]; [reflexivity|].
      destruct (Z.eqb_spec n 3) as [-> | ?]; [reflexivity|].
      destruct (Z.eqb_spec n 1) as [-> | ?]; [reflexivity|].
      destruct (Z.eqb_spec n 6) as [-> | ?]; reflexivity. }
    unfold next3_set_inode_flags in *. cbv zeta in *. unfold set_i_flags in *.
    cbn [i_flags] in Hflags. rewrite Hflags. destruct ino. reflexivity.
Qed.

Lemma inode_flags_agree_witness :
  flag_set 32 NEXT3_APPEND_FL = true
  /\ next3_can_truncate sb1k (next3_set_inode_flags 32 (with_mode_flags plain_file 33188 0))
     = false
  /\ next3_can_truncate sb1k (with_mode_flags plain_file 33188 0) = true.
Proof.
  assert (Hflag : flag_set 32 NEXT3_APPEND_FL = true) by reflexivity.
  split; [exact Hflag|]. split; [|reflexivity].
  destruct (inode_flags_agree sb1k 32 (with_mode_flags plain_file 33188 0))
    as (_ & _ & Hrefuse & _).
  apply Hrefuse. left. exact Hflag.
Defined.

(** ** The branch shared with the part of the file that stays *)

Lemma deepest_offset_spec (offs : list Z) (fuel : nat) :
  forall k0,
    1 <= k0 ->
    let k := deepest_offset fuel offs k0 in
    1 <= k <= k0 /\ forall i, k <= i < k0 -> entry offs i = 0.
Proof.
  induction fuel as [|fuel IH]; intros k0 Hk0; cbn [deepest_offset].
  - cbn zeta. split; [lia | intros i Hi; lia].
  - destruct (Z.ltb_spec 1 k0) as [Hgt | Hle]; cbn [andb].
    2:{ cbn zeta. split; [lia | intros i Hi; lia]. }
    destruct (Z.eqb_spec (entry offs (k0 - 1)) 0) as [Hz | Hnz].
    2:{ cbn zeta. split; [lia | intros i Hi; lia]. }
    destruct (IH (k0 - 1) ltac:(lia)) as [Hr Hzero]. cbn zeta.
    split; [lia|]. intros i Hi.
    destruct (Z.eq_dec i (k0 - 1)) as [-> | Hne]; [exact Hz | apply Hzero; lia].
Qed.

Lemma all_zeroes_loop_spec (l : list Z) (n : nat) :
  forall p, all_zeroes_loop n l p = true ->
            forall s, p <= s < p + Z.of_nat n -> read_slot l s = 0.
Proof.
  induction n as [|n IH]; intros p Hall s Hs; [lia|].
  cbn [all_zeroes_loop] in Hall.
  destruct (Z.eqb_spec (read_slot l p) 0) as [Hz | Hnz]; [|discriminate Hall].
  cbn [negb] in Hall.
  destruct (Z.eq_dec s p) as [-> | Hne]; [exact Hz|].
  apply (IH (p + 1) Hall). lia.
Qed.

Lemma all_zeroes_spec (l : list Z) (q : Z) :
  all_zeroes l 0 q = true -> forall s, 0 <= s < q -> read_slot l s = 0.
Proof.
  intros Hall s Hs. unfold all_zeroes in Hall.
  apply (all_zeroes_loop_spec l _ 0 Hall). lia.
Qed.

Lemma last_survivor_spec (ino : inode) (bufs : gmap Z (list Z)) (chain : list Indirect)
    (fuel : nat) :
  forall p0,
    0 <= p0 <= Z.of_nat fuel ->
    let p := last_survivor fuel ino bufs chain p0 in
    0 <= p <= p0
    /\ (forall i, p < i <= p0 ->
          all_zeroes (holder_data ino bufs (ind_bh (chain_at chain i))) 0
            (ind_p (chain_at chain i)) = true)
    /\ (0 < p ->
        all_zeroes (holder_data ino bufs (ind_bh (chain_at chain p))) 0
          (ind_p (chain_at chain p)) = false).
Proof.
  induction fuel as [|fuel IH]; intros p0 Hp0; cbn [last_survivor].
  - cbn zeta. split; [lia|]. split; [intros i Hi; lia | intros Hp; lia].
  - cbv zeta.
    destruct (Z.ltb_spec 0 p0) as [Hpos | Hzero]; cbn [andb].
    2:{ split; [lia|]. split; [intros i Hi; lia | intros Hp; lia]. }
    destruct (all_zeroes (holder_data ino bufs (ind_bh (chain_at chain p0))) 0
                (ind_p (chain_at chain p0))) eqn:Hall.
    2:{ split; [lia|]. split; [intros i Hi; lia | intros _; exact Hall]. }
    destruct (IH (p0 - 1) ltac:(lia)) as (Hr & Hz & Hs). cbn zeta in Hr, Hz, Hs.
    split; [lia|]. split; [|exact Hs].
    intros i Hi. destruct (Z.eq_dec i p0) as [-> | Hne]; [exact Hall | apply Hz; lia].
Qed.

(** Two walks along offsets that agree up to a level meet the same
    triples up to that level. *)
Lemma linked_agree (ino : inode) (bufs : gmap Z (list Z)) (offs offs' : list Z)
    (c c' : list Indirect) (j : Z) :
  linked ino bufs offs c -> linked ino bufs offs' c' ->
  (forall i, 0 <= i < j -> entry offs' i = entry offs i) ->
  j <= Z.of_nat (length c) -> j <= Z.of_nat (length c') ->
  forall i, 0 <= i < j -> chain_at c' i = chain_at c i.
Proof.
  intros Hl Hl' Hoffs Hc Hc' i Hi.
  assert (Hind : forall n : nat, Z.of_nat n < j -> chain_at c' (Z.of_nat n) = chain_at c (Z.of_nat n)).
  { induction n as [|n IH]; intros Hn.
    - destruct (Hl 0 ltac:(lia)) as (Hp & Hk & Hb).
      destruct (Hl' 0 ltac:(lia)) as (Hp' & Hk' & Hb').
      cbn zeta in Hp, Hk, Hb, Hp', Hk', Hb'. cbn [Z.eqb] in Hb, Hb'.
      change (Z.of_nat 0) with 0.
      destruct (chain_at c 0) as [p k b], (chain_at c' 0) as [p' k' b'].
      cbn [ind_p ind_key ind_bh] in *. subst b b'. cbn [holder_data] in Hk, Hk'.
      rewrite Hoffs in Hp' by lia. congruence.
    - specialize (IH ltac:(lia)).
      destruct (Hl (Z.of_nat (S n)) ltac:(lia)) as (Hp & Hk & Hb).
      destruct (Hl' (Z.of_nat (S n)) ltac:(lia)) as (Hp' & Hk' & Hb').
      cbn zeta in Hp, Hk, Hb, Hp', Hk', Hb'.
      destruct (Z.eqb_spec (Z.of_nat (S n)) 0); [lia|].
      replace (Z.of_nat (S n) - 1) with (Z.of_nat n) in Hb, Hb' by lia.
      rewrite IH in Hb'.
      destruct (chain_at c (Z.of_nat (S n))) as [p k b],
        (chain_at c' (Z.of_nat (S n))) as [p' k' b'].
      cbn [ind_p ind_key ind_bh] in *. subst b b'.
      rewrite Hoffs in Hp' by lia. congruence. }
  specialize (Hind (Z.to_nat i)). rewrite Z2Nat.id in Hind by lia. apply Hind. lia.
Qed.

Lemma chain_at_insert_eq (c : list Indirect) (p : Z) (x : Indirect) :
  0 <= p < Z.of_nat (length c) -> chain_at (<[Z.to_nat p := x]> c) p = x.
Proof.
  intros Hp. unfold chain_at. destruct (Z.ltb_spec p 0); [lia|].
  rewrite list_lookup_insert_eq by lia. reflexivity.
Qed.

(** X20 (what [next3_find_shared] detaches lies past the cut): for the
    path [offsets] of the first block to go, the function returns the index
    [partial] of the last triple on the path whose holder must survive and
    the block number [top] of the subtree to free as a whole; the caller
    also frees whatever hangs right of the returned position [p] in the
    holder. The triple returned is on the path: its [p] is the offset of the
    path at that level, or one less with [top] left 0 when the block at the
    deepest non-zero offset has entries to keep. [top], when set, is the
    number stored at the returned position. A holder below the inode that is
    returned has an entry left of the path, so it stays in use. And nothing
    before the cut is lost: every path that leaves [offsets] below the level
    returned, towards a smaller offset, that is, every block before the cut
    under the detached subtree, is not mapped, so [next3_get_branch] along
    it does not reach a data block. *)
Theorem find_shared_detaches_past_the_cut
    (ino : inode) (bufs : gmap Z (list Z)) (depth : Z) (offs : list Z)
    (chain : list Indirect) (partial top : Z) :
  1 <= depth ->
  next3_find_shared ino bufs depth offs = (chain, partial, top) ->
  let t := chain_at chain partial in
  let holder := holder_data ino bufs (ind_bh t) in
  0 <= partial < depth
  /\ (ind_p t = entry offs partial
      \/ (top = 0 /\ 0 < partial /\ ind_p t = entry offs partial - 1))
  /\ (top <> 0 -> top = read_slot holder (ind_p t))
  /\ (0 < partial -> all_zeroes holder 0 (entry offs partial) = false)
  /\ forall offs' j,
       partial < j < depth ->
       (forall i, 0 <= i < j -> entry offs' i = entry offs i) ->
       0 <= entry offs' j < entry offs j ->
       top <> 0 \/ ind_p t < entry offs partial ->
       snd (fst (next3_get_branch ino bufs depth offs')) <> None.
Proof.
  intros Hd Hcall. unfold next3_find_shared in Hcall. cbv zeta in Hcall.
  destruct (deepest_offset_spec offs (Z.to_nat depth) depth Hd) as [Hk Hzero].
  cbn zeta in Hk, Hzero.
  set (k := deepest_offset (Z.to_nat depth) offs depth) in *.
  pose proof (get_branch_spec ino bufs k offs ltac:(lia)) as Hwalk.
  destruct (next3_get_branch ino bufs k offs) as [[chain0 partial0] err].
  destruct Hwalk as (Hlinked & _ & Hstop).
  set (po := match partial0 with Some j => j | None => k - 1 end) in *.
  assert (Hpo : 0 <= po < k /\ Z.of_nat (length chain0) = po + 1).
  { subst po. destruct partial0 as [j0|]; [destruct Hstop as (Hlen & Hj & _) |
                                           destruct Hstop as (_ & Hlen & _)]; lia. }
  destruct Hpo as [Hpo Hlen0].
  assert (Hon : forall i, 0 <= i <= po ->
                  ind_p (chain_at chain0 i) = entry offs i
                  /\ ind_key (chain_at chain0 i)
                     = read_slot (holder_data ino bufs (ind_bh (chain_at chain0 i)))
                         (ind_p (chain_at chain0 i))).
  { intros i Hi. destruct (Hlinked i ltac:(lia)) as (Hp & Hkey & _).
    split; [exact Hp | exact Hkey]. }
  (* the branch cannot have acquired a continuation *)
  destruct (Hon po ltac:(lia)) as [_ Hkeypo]. rewrite <- Hkeypo in Hcall.
  assert (Hno : (ind_key (chain_at chain0 po) =? 0)
                && negb (ind_key (chain_at chain0 po) =? 0) = false)
    by (destruct (ind_key (chain_at chain0 po) =? 0); reflexivity).
  rewrite Hno in Hcall. clear Hno Hkeypo.
  destruct (last_survivor_spec ino bufs chain0 (Z.to_nat po) po ltac:(lia))
    as (Hp & Hzeros & Hsurvives).
  cbn zeta in Hp, Hzeros, Hsurvives.
  set (p := last_survivor (Z.to_nat po) ino bufs chain0 po) in *.
  destruct (Hon p ltac:(lia)) as [Hpp Hpkey].
  destruct (Z.eqb_spec p (k - 1)) as [Hlast | Hnot]; cbn [andb] in Hcall.
  - destruct (Z.ltb_spec 0 p) as [Hpos | Hz].
    + (* the deepest block on the path keeps entries *)
      injection Hcall as <- <- <-. cbv zeta.
      rewrite chain_at_insert_eq by lia. cbn [set_p ind_p ind_bh].
      split; [lia|]. split; [right; split; [reflexivity|]; split; [lia|]; lia|].
      split; [intros Hne; contradiction|].
      split; [intros _; rewrite <- Hpp; apply Hsurvives; exact Hpos|].
      intros offs' j Hj _ Hless _. rewrite (Hzero j ltac:(lia)) in Hless. lia.
    + injection Hcall as <- <- <-. cbv zeta.
      split; [lia|]. split; [left; exact Hpp|]. split; [intros _; reflexivity|].
      split; [intros Hpos; lia|].
      intros offs' j Hj _ Hless _. rewrite (Hzero j ltac:(lia)) in Hless. lia.
  - injection Hcall as <- <- <-. cbv zeta.
    split; [lia|]. split; [left; exact Hpp|]. split; [intros _; reflexivity|].
    split; [intros Hpos; rewrite <- Hpp; apply Hsurvives; exact Hpos|].
    intros offs' j Hj Hsame Hless _ Hfull.
    assert (Hjk : j < k).
    { destruct (Z.lt_ge_cases j k) as [Hlt | Hge]; [exact Hlt|].
      rewrite (Hzero j ltac:(lia)) in Hless. lia. }
    pose proof (get_branch_spec ino bufs depth offs' Hd) as Hwalk'.
    destruct (next3_get_branch ino bufs depth offs') as [[chain' partial'] err'].
    cbn [fst snd] in Hfull. subst partial'.
    destruct Hwalk' as (Hlinked' & _ & _ & Hlen' & Hnz').
    destruct (Z.le_gt_cases j po) as [Hin | Hout].
    + (* the path leaves inside the branch that was read *)
      pose proof (linked_agree ino bufs offs offs' chain0 chain' j Hlinked Hlinked' Hsame
                    ltac:(lia) ltac:(lia)) as Hagree.
      destruct (Hlinked' j ltac:(lia)) as (Hp' & Hkey' & Hbh').
      destruct (Hlinked j ltac:(lia)) as (Hp0 & _ & Hbh0).
      cbn zeta in Hp', Hkey', Hbh', Hp0, Hbh0.
      destruct (Z.eqb_spec j 0); [lia|].
      rewrite (Hagree (j - 1) ltac:(lia)), <- Hbh0 in Hbh'.
      rewrite Hbh', Hp' in Hkey'.
      apply (Hnz' j ltac:(lia)). rewrite Hkey'.
      apply (all_zeroes_spec _ (ind_p (chain_at chain0 j))); [apply Hzeros; lia|].
      rewrite Hp0. exact Hless.
    + (* the path leaves below the place the walk stopped at *)
      destruct partial0 as [j0|]; [|subst po; lia].
      subst po. destruct Hstop as (_ & _ & _ & Hend).
      pose proof (linked_agree ino bufs offs offs' chain0 chain' (j0 + 1) Hlinked Hlinked'
                    ltac:(intros i Hi; apply Hsame; lia) ltac:(lia) ltac:(lia)
                    j0 ltac:(lia)) as Hagree.
      destruct Hend as [(_ & Hhole) | (_ & Hkey0 & Hunread)].
      * apply (Hnz' j0 ltac:(lia)). rewrite Hagree. exact Hhole.
      * destruct (Hlinked' (j0 + 1) ltac:(lia)) as (_ & Hkey' & Hbh').
        cbn zeta in Hkey', Hbh'.
        destruct (Z.eqb_spec (j0 + 1) 0); [lia|].
        replace (j0 + 1 - 1) with j0 in Hbh' by lia.
        rewrite Hagree in Hbh'. rewrite Hbh' in Hkey'. cbn [holder_data] in Hkey'.
        rewrite Hunread in Hkey'. cbn [default] in Hkey'. rewrite read_slot_nil in Hkey'.
        apply (Hnz' (j0 + 1) ltac:(lia)). exact Hkey'.
Qed.

Lemma find_shared_detaches_past_the_cut_witness :
  let grown :=
    let A := next3_alloc_branch_cow cfg_all sb1k grant_from_2000 Sim.journal_ok 787 2 2 0
               [13; 2; 7] {| ind_p := 13; ind_key := 0; ind_bh := None |}
               SNAPMAP_WRITE fresh_state in
    snd (next3_splice_branch_cow cfg_all Sim.journal_ok 787 (snd (fst A)) 2 2
           SNAPMAP_WRITE (snd A)) in
  exists chain,
    next3_find_shared (m_inode grown) (m_bufs grown) 3 [13; 2; 7] = (chain, 0, 2000)
    /\ snd (fst (next3_get_branch (m_inode grown) (m_bufs grown) 3 [13; 1; 5])) <> None.
Proof.
  intros grown.
  destruct (next3_find_shared (m_inode grown) (m_bufs grown) 3 [13; 2; 7])
    as [[chain partial] top] eqn:Hcall.
  assert (Hpartial : partial = 0).
  { apply (f_equal (fun r => snd (fst r))) in Hcall. vm_compute in Hcall.
    symmetry. exact Hcall. }
  assert (Htop : top = 2000).
  { apply (f_equal snd) in Hcall. vm_compute in Hcall. symmetry. exact Hcall. }
  subst partial top.
  destruct (find_shared_detaches_past_the_cut (m_inode grown) (m_bufs grown) 3 [13; 2; 7]
              chain 0 2000 ltac:(lia) Hcall) as (_ & _ & _ & _ & Hlost).
  exists chain. split; [reflexivity|].
  apply (Hlost [13; 1; 5] 1); [lia | | vm_compute; split; [discriminate | reflexivity]
                               | left; lia].
  intros i Hi. assert (i = 0) as -> by lia. reflexivity.
Defined.

(** ** Freeing the data blocks of a holder *)

Lemma freed_by_app (a b : list free_call) : freed_by (a ++ b) = freed_by a ++ freed_by b.
Proof. apply flat_map_app. Qed.

Lemma forgotten_by_app (a b : list free_call) :
  forgotten_by (a ++ b) = forgotten_by a ++ forgotten_by b.
Proof. apply flat_map_app. Qed.

Lemma blocks_from_ext (l l' : list Z) (n : nat) :
  forall p,
    (forall j, p <= j < p + Z.of_nat n -> read_slot l j = read_slot l' j) ->
    blocks_from n l p = blocks_from n l' p.
Proof.
  induction n as [|n IH]; intros p Hsame; [reflexivity|].
  cbn [blocks_from]. rewrite (Hsame p) by lia. f_equal.
  apply IH. intros j Hj. apply Hsame. lia.
Qed.

Lemma blocks_from_snoc (l : list Z) (n : nat) :
  forall p,
    blocks_from (S n) l p
    = blocks_from n l p
      ++ (if read_slot l (p + Z.of_nat n) =? 0 then []
          else [read_slot l (p + Z.of_nat n)]).
Proof.
  induction n as [|n IH]; intros p.
  - cbn [blocks_from]. rewrite Z.add_0_r, app_nil_r. reflexivity.
  - change (blocks_from (S (S n)) l p)
      with ((if read_slot l p =? 0 then [] else [read_slot l p])
            ++ blocks_from (S n) l (p + 1)).
    rewrite (IH (p + 1)). cbn [blocks_from]. rewrite <- app_assoc.
    replace (p + 1 + Z.of_nat n) with (p + Z.of_nat (S n)) by lia. reflexivity.
Qed.

Lemma blocks_in_empty (l : list Z) (p : Z) : blocks_in l p p = [].
Proof. unfold blocks_in. rewrite Z.sub_diag. reflexivity. Qed.

Lemma blocks_in_snoc (l : list Z) (first p : Z) :
  first <= p ->
  blocks_in l first (p + 1)
  = blocks_in l first p ++ (if read_slot l p =? 0 then [] else [read_slot l p]).
Proof.
  intros Hp. unfold blocks_in.
  replace (Z.to_nat (p + 1 - first)) with (S (Z.to_nat (p - first))) by lia.
  rewrite blocks_from_snoc. replace (first + Z.of_nat (Z.to_nat (p - first))) with p by lia.
  reflexivity.
Qed.

Lemma blocks_in_ext (l l' : list Z) (first last : Z) :
  (forall j, first <= j < last -> read_slot l j = read_slot l' j) ->
  blocks_in l first last = blocks_in l' first last.
Proof.
  intros Hsame. unfold blocks_in. apply blocks_from_ext.
  intros j Hj. apply Hsame. lia.
Qed.

Section FreeDataFacts.
Variable get_write_access_err : list free_call -> Z -> Z.
Variable must_restart : list free_call -> bool.
Variable is_handle_aborted : list free_call -> bool.
Variable bh2jh : list free_call -> Z -> bool.
Hypothesis never_aborted : forall calls, is_handle_aborted calls = false.

Local Abbreviation clear_blocks := (next3_clear_blocks must_restart is_handle_aborted).
Local Abbreviation data_loop := (free_data_loop must_restart is_handle_aborted).

(** Slots zeroed in the range and left alone outside it. *)
Local Abbreviation cleared l l' first last :=
  (length l' = length l
   /\ forall j, read_slot l' j
                = if (first <=? j) && (j <? last) then 0 else read_slot l j).

Lemma clear_loop_spec (n : nat) :
  forall p st,
    0 <= p -> p + Z.of_nat n <= Z.of_nat (length (f_slots st)) ->
    cleared (f_slots st) (f_slots (clear_loop n p st)) p (p + Z.of_nat n)
    /\ f_calls (clear_loop n p st)
       = f_calls st ++ map (FcForget false) (blocks_from n (f_slots st) p).
Proof.
  induction n as [|n IH]; intros p st Hp Hfit.
  - cbn [clear_loop blocks_from map]. rewrite app_nil_r.
    split; [|reflexivity]. split; [reflexivity|].
    intros j. destruct (Z.leb_spec p j), (Z.ltb_spec j (p + Z.of_nat 0));
      cbn [andb]; try reflexivity; lia.
  - cbn [clear_loop blocks_from]. cbv zeta.
    set (nr := read_slot (f_slots st) p).
    set (st1 := if negb (nr =? 0) then call (FcForget false nr) (set_slot p 0 st) else st).
    assert (Hst1 : length (f_slots st1) = length (f_slots st)
                   /\ (forall j, read_slot (f_slots st1) j
                                 = if j =? p then 0 else read_slot (f_slots st) j)
                   /\ f_calls st1
                      = f_calls st
                        ++ map (FcForget false) (if nr =? 0 then [] else [nr])).
    { subst st1. destruct (Z.eqb_spec nr 0) as [Hz | Hnz]; cbn [negb].
      - split; [reflexivity|]. split; [|rewrite app_nil_r; reflexivity].
        intros j. destruct (Z.eqb_spec j p) as [-> | ?]; [exact Hz | reflexivity].
      - cbn [call set_slot f_slots f_calls map].
        split; [apply length_insert|]. split; [|reflexivity].
        intros j. rewrite read_slot_insert by exact Hp.
        destruct (Z.eqb_spec j p); cbn [andb]; [|reflexivity].
        destruct (Z.ltb_spec p (Z.of_nat (length (f_slots st)))); [reflexivity | lia]. }
    destruct Hst1 as (Hlen1 & Hslots1 & Hcalls1).
    destruct (IH (p + 1) st1 ltac:(lia) ltac:(rewrite Hlen1; lia))
      as ((Hlen & Hslots) & Hcalls).
    split; [split|].
    + rewrite Hlen. exact Hlen1.
    + intros j. rewrite Hslots, Hslots1.
      destruct (Z.leb_spec (p + 1) j), (Z.ltb_spec j (p + 1 + Z.of_nat n)),
        (Z.leb_spec p j), (Z.ltb_spec j (p + Z.of_nat (S n))), (Z.eqb_spec j p);
        cbn [andb]; try reflexivity; lia.
    + rewrite Hcalls, Hcalls1, <- app_assoc, <- map_app. do 2 f_equal.
      fold nr. f_equal. apply blocks_from_ext.
      intros j Hj. rewrite Hslots1. destruct (Z.eqb_spec j p); [lia | reflexivity].
Qed.

Lemma forgotten_by_forgets (l : list Z) : forgotten_by (map (FcForget false) l) = l.
Proof. induction l as [|x l IH]; [reflexivity|]. cbn. f_equal. exact IH. Qed.

Lemma freed_by_forgets (l : list Z) : freed_by (map (FcForget false) l) = [].
Proof. induction l as [|x l IH]; [reflexivity|]. cbn. exact IH. Qed.

Lemma clear_blocks_spec (bh : option Z) (block_to_free count first last : Z)
    (st : fstate) :
  0 <= first -> first <= last -> last <= Z.of_nat (length (f_slots st)) ->
  let st' := clear_blocks bh block_to_free count first last st in
  cleared (f_slots st) (f_slots st') first last
  /\ freed_by (f_calls st') = freed_by (f_calls st) ++ seqZ block_to_free count
  /\ forgotten_by (f_calls st')
     = forgotten_by (f_calls st) ++ blocks_in (f_slots st) first last.
Proof.
  intros Hfirst Hle Hfit. unfold next3_clear_blocks.
  assert (Htail : forall st0,
             f_slots st0 = f_slots st ->
             freed_by (f_calls st0) = freed_by (f_calls st) ->
             forgotten_by (f_calls st0) = forgotten_by (f_calls st) ->
             let st' := call (FcFreeBlocks block_to_free count)
                          (clear_loop (Z.to_nat (last - first)) first st0) in
             cleared (f_slots st) (f_slots st') first last
             /\ freed_by (f_calls st') = freed_by (f_calls st) ++ seqZ block_to_free count
             /\ forgotten_by (f_calls st')
                = forgotten_by (f_calls st) ++ blocks_in (f_slots st) first last).
  { intros st0 Hslots0 Hfreed0 Hforg0.
    destruct (clear_loop_spec (Z.to_nat (last - first)) first st0 Hfirst
                ltac:(rewrite Hslots0; lia)) as (Hcleared & Hcalls).
    replace (first + Z.of_nat (Z.to_nat (last - first))) with last in Hcleared by lia.
    cbn [call f_slots f_calls]. rewrite Hslots0 in Hcleared, Hcalls.
    split; [exact Hcleared|].
    rewrite Hcalls, !freed_by_app, !forgotten_by_app.
    rewrite freed_by_forgets, forgotten_by_forgets, Hfreed0, Hforg0.
    cbn. rewrite !app_nil_r. split; reflexivity. }
  (* the restart of the transaction touches no slot and frees nothing *)
  destruct (must_restart (f_calls st)); [|apply Htail; reflexivity].
  destruct bh as [b|].
  - rewrite never_aborted. apply Htail; cbn [call f_slots f_calls]; [reflexivity| |];
      rewrite ?freed_by_app, ?forgotten_by_app; cbn; rewrite !app_nil_r; reflexivity.
  - apply Htail; cbn [call f_slots f_calls]; [reflexivity| |];
      rewrite ?freed_by_app, ?forgotten_by_app; cbn; rewrite !app_nil_r; reflexivity.
Qed.

End FreeDataFacts.

Lemma blocks_in_split (l : list Z) (a b c : Z) :
  a <= b -> b <= c -> blocks_in l a c = blocks_in l a b ++ blocks_in l b c.
Proof.
  intros Hab Hbc.
  assert (Hind : forall n : nat,
             blocks_in l a (b + Z.of_nat n)
             = blocks_in l a b ++ blocks_in l b (b + Z.of_nat n)).
  { induction n as [|n IH].
    - rewrite Z.add_0_r, blocks_in_empty, app_nil_r. reflexivity.
    - replace (b + Z.of_nat (S n)) with (b + Z.of_nat n + 1) by lia.
      rewrite !blocks_in_snoc by lia. rewrite IH, app_assoc. reflexivity. }
  specialize (Hind (Z.to_nat (c - b))).
  replace (b + Z.of_nat (Z.to_nat (c - b))) with c in Hind by lia. exact Hind.
Qed.

Lemma seqZ_snoc (m n : Z) : 0 <= n -> seqZ m (n + 1) = seqZ m n ++ [m + n].
Proof.
  intros Hn. rewrite seqZ_app by lia. reflexivity.
Qed.

Section FreeDataLoop.
Variable get_write_access_err : list free_call -> Z -> Z.
Variable must_restart : list free_call -> bool.
Variable is_handle_aborted : list free_call -> bool.
Variable bh2jh : list free_call -> Z -> bool.
Hypothesis never_aborted : forall calls, is_handle_aborted calls = false.
Variable l0 : list Z.
Variable calls0 : list free_call.
Variable this_bh : option Z.
Variable first : Z.
Hypothesis first_nonneg : 0 <= first.

(** What holds when the loop of [next3_free_data] stands at [p]: the slots
    up to the start [q] of the pending run are cleared and their blocks
    freed and forgotten, the other slots are as they were, and the blocks
    of the pending run are [count] consecutive numbers from
    [block_to_free] on. *)
Local Abbreviation loop_inv p block_to_free count block_to_free_p st :=
  (0 <= count
   /\ first <= (if count =? 0 then p else block_to_free_p) <= p
   /\ length (f_slots st) = length l0
   /\ (forall j, read_slot (f_slots st) j
                 = if (first <=? j) && (j <? (if count =? 0 then p else block_to_free_p))
                   then 0 else read_slot l0 j)
   /\ freed_by (f_calls st)
      = freed_by calls0
        ++ blocks_in l0 first (if count =? 0 then p else block_to_free_p)
   /\ forgotten_by (f_calls st)
      = forgotten_by calls0
        ++ blocks_in l0 first (if count =? 0 then p else block_to_free_p)
   /\ blocks_in l0 (if count =? 0 then p else block_to_free_p) p
      = seqZ block_to_free count).

Lemma free_data_loop_spec (n : nat) :
  forall p block_to_free count block_to_free_p st,
    first <= p -> p + Z.of_nat n <= Z.of_nat (length l0) ->
    loop_inv p block_to_free count block_to_free_p st ->
    exists block_to_free' count' block_to_free_p' st',
      free_data_loop must_restart is_handle_aborted n this_bh p block_to_free count
        block_to_free_p st
      = (false, block_to_free', count', block_to_free_p', st')
      /\ loop_inv (p + Z.of_nat n) block_to_free' count' block_to_free_p' st'.
Proof.
  induction n as [|n IH]; intros p btf count btfp st Hp Hfit Hinv.
  - cbn [free_data_loop]. exists btf, count, btfp, st.
    split; [reflexivity|]. rewrite Z.add_0_r. exact Hinv.
  - cbn [free_data_loop]. cbv zeta.
    destruct Hinv as (Hcount & Hq & Hlen & Hslots & Hfreed & Hforg & Hrun).
    set (q := if count =? 0 then p else btfp) in *.
    assert (Hnr : read_slot (f_slots st) p = read_slot l0 p).
    { rewrite Hslots. destruct (Z.leb_spec first p), (Z.ltb_spec p q);
        cbn [andb]; try reflexivity; lia. }
    rewrite Hnr.
    replace (p + Z.of_nat (S n)) with (p + 1 + Z.of_nat n) by lia.
    destruct (Z.eqb_spec (read_slot l0 p) 0) as [Hz | Hnz]; cbn [negb].
    + (* a hole *)
      apply IH; [lia | lia|].
      split; [exact Hcount|].
      destruct (Z.eqb_spec count 0) as [Hc0 | Hc0].
      * subst q. split; [lia|]. split; [exact Hlen|]. split.
        { intros j. rewrite Hslots.
          destruct (Z.leb_spec first j), (Z.ltb_spec j p), (Z.ltb_spec j (p + 1));
            cbn [andb]; try reflexivity; try lia.
          assert (j = p) as -> by lia. exact Hz. }
        rewrite blocks_in_snoc by lia. rewrite Hz. cbn [Z.eqb]. rewrite app_nil_r.
        split; [exact Hfreed|]. split; [exact Hforg|].
        rewrite blocks_in_empty. subst count. reflexivity.
      * subst q. split; [lia|]. split; [exact Hlen|]. split; [exact Hslots|].
        split; [exact Hfreed|]. split; [exact Hforg|].
        rewrite blocks_in_snoc by lia. rewrite Hz. cbn [Z.eqb]. rewrite app_nil_r.
        exact Hrun.
    + assert (Hone : blocks_in l0 p (p + 1) = seqZ (read_slot l0 p) 1).
      { rewrite blocks_in_snoc, blocks_in_empty by lia.
        destruct (Z.eqb_spec (read_slot l0 p) 0); [contradiction | reflexivity]. }
      destruct (Z.eqb_spec count 0) as [Hc0 | Hc0].
      * (* the first block of a run *)
        subst q. apply IH; [lia | lia|].
        cbn [Z.eqb]. split; [lia|]. split; [lia|]. split; [exact Hlen|].
        split; [exact Hslots|]. split; [exact Hfreed|]. split; [exact Hforg|].
        exact Hone.
      * subst q.
        destruct (Z.eqb_spec (read_slot l0 p) (btf + count)) as [Hnext | Hbreak].
        -- (* the run goes on *)
           apply IH; [lia | lia|].
           destruct (Z.eqb_spec (count + 1) 0); [lia|].
           split; [lia|]. split; [lia|]. split; [exact Hlen|].
           split; [exact Hslots|]. split; [exact Hfreed|]. split; [exact Hforg|].
           rewrite blocks_in_snoc by lia. rewrite Hrun.
           destruct (Z.eqb_spec (read_slot l0 p) 0); [contradiction|].
           rewrite Hnext. symmetry. apply seqZ_snoc. exact Hcount.
        -- (* the run ends: free it and start the next one *)
           destruct (clear_blocks_spec must_restart is_handle_aborted never_aborted
                       this_bh btf count btfp p st ltac:(lia) ltac:(lia)
                       ltac:(rewrite Hlen; lia))
             as ((Hlen1 & Hslots1) & Hfreed1 & Hforg1).
           rewrite never_aborted.
           apply IH; [lia | lia|].
           assert (Hsame : blocks_in (f_slots st) btfp p = blocks_in l0 btfp p).
           { apply blocks_in_ext. intros j Hj. rewrite Hslots.
             destruct (Z.leb_spec first j), (Z.ltb_spec j btfp);
               cbn [andb]; try reflexivity; lia. }
           cbn [Z.eqb]. split; [lia|]. split; [lia|].
           split; [rewrite Hlen1; exact Hlen|]. split.
           { intros j. rewrite Hslots1, Hslots.
             destruct (Z.leb_spec btfp j), (Z.ltb_spec j p), (Z.leb_spec first j),
               (Z.ltb_spec j btfp); cbn [andb]; try reflexivity; lia. }
           split; [rewrite Hfreed1, Hfreed, <- app_assoc, <- Hrun,
                     <- blocks_in_split by lia; reflexivity|].
           split; [rewrite Hforg1, Hforg, Hsame, <- app_assoc,
                     <- blocks_in_split by lia; reflexivity|].
           exact Hone.
Qed.

End FreeDataLoop.

(** What [next3_free_data] leaves behind. *)
Lemma free_data_spec
    (get_write_access_err : list free_call -> Z -> Z)
    (must_restart is_handle_aborted : list free_call -> bool)
    (bh2jh : list free_call -> Z -> bool)
    (this_bh : option Z) (first last : Z) (st : fstate) :
  (forall calls, is_handle_aborted calls = false) ->
  0 <= first -> first <= last -> last <= Z.of_nat (length (f_slots st)) ->
  let st' := next3_free_data get_write_access_err must_restart is_handle_aborted bh2jh
               this_bh first last st in
  let granted := match this_bh with
                 | Some b => get_write_access_err (f_calls st) b =? 0
                 | None => true
                 end in
  if granted then
    (forall j, read_slot (f_slots st') j
               = if (first <=? j) && (j <? last) then 0 else read_slot (f_slots st) j)
    /\ freed_by (f_calls st')
       = freed_by (f_calls st) ++ blocks_in (f_slots st) first last
    /\ forgotten_by (f_calls st')
       = forgotten_by (f_calls st) ++ blocks_in (f_slots st) first last
  else
    f_slots st' = f_slots st
    /\ freed_by (f_calls st') = freed_by (f_calls st)
    /\ forgotten_by (f_calls st') = forgotten_by (f_calls st).
Proof.
  intros Hnever Hfirst Hle Hfit st' granted. subst st' granted.
  unfold next3_free_data.
  (* the state [st0] in which the loop starts *)
  assert (Hstart : forall st0,
             f_slots st0 = f_slots st ->
             freed_by (f_calls st0) = freed_by (f_calls st) ->
             forgotten_by (f_calls st0) = forgotten_by (f_calls st) ->
             let st' :=
               let '(returned, block_to_free, count, block_to_free_p, st1) :=
                 free_data_loop must_restart is_handle_aborted (Z.to_nat (last - first))
                   this_bh first 0 0 0 st0 in
               if returned then st1
               else
                 let st2 := if 0 <? count
                            then next3_clear_blocks must_restart is_handle_aborted this_bh
                                   block_to_free count block_to_free_p last st1
                            else st1 in
                 if is_handle_aborted (f_calls st2) then st2
                 else
                   match this_bh with
                   | Some b =>
                     if bh2jh (f_calls st2) b then call (FcDirtyMetadata b) st2
                     else call (FcCircularError b) st2
                   | None => st2
                   end in
             (forall j, read_slot (f_slots st') j
                        = if (first <=? j) && (j <? last) then 0
                          else read_slot (f_slots st) j)
             /\ freed_by (f_calls st')
                = freed_by (f_calls st) ++ blocks_in (f_slots st) first last
             /\ forgotten_by (f_calls st')
                = forgotten_by (f_calls st) ++ blocks_in (f_slots st) first last).
  { intros st0 Hslots0 Hfreed0 Hforg0.
    destruct (free_data_loop_spec must_restart is_handle_aborted Hnever (f_slots st)
                (f_calls st) this_bh first Hfirst (Z.to_nat (last - first))
                first 0 0 0 st0 ltac:(lia) ltac:(lia))
      as (btf & count & btfp & st1 & Hloop & Hinv).
    { cbn [Z.eqb]. split; [lia|]. split; [lia|]. split; [rewrite Hslots0; reflexivity|].
      split.
      { intros j. rewrite Hslots0.
        destruct (Z.leb_spec first j), (Z.ltb_spec j first); cbn [andb];
          try reflexivity; lia. }
      rewrite blocks_in_empty, !app_nil_r.
      split; [exact Hfreed0|]. split; [exact Hforg0 | reflexivity]. }
    replace (first + Z.of_nat (Z.to_nat (last - first))) with last in Hinv by lia.
    cbv zeta. rewrite Hloop.
    destruct Hinv as (Hcount & Hq & Hlen & Hslots & Hfreed & Hforg & Hrun).
    (* the last run *)
    assert (Hend : forall st2,
               st2 = (if 0 <? count
                      then next3_clear_blocks must_restart is_handle_aborted this_bh
                             btf count btfp last st1
                      else st1) ->
               (forall j, read_slot (f_slots st2) j
                          = if (first <=? j) && (j <? last) then 0
                            else read_slot (f_slots st) j)
               /\ freed_by (f_calls st2)
                  = freed_by (f_calls st) ++ blocks_in (f_slots st) first last
               /\ forgotten_by (f_calls st2)
                  = forgotten_by (f_calls st) ++ blocks_in (f_slots st) first last).
    { intros st2 ->.
      destruct (Z.ltb_spec 0 count) as [Hpos | Hzero].
      - destruct (Z.eqb_spec count 0) as [Hc0 | _]; [lia|].
        destruct (clear_blocks_spec must_restart is_handle_aborted Hnever this_bh btf
                    count btfp last st1 ltac:(lia) ltac:(lia) ltac:(rewrite Hlen; lia))
          as ((_ & Hslots1) & Hfreed1 & Hforg1).
        assert (Hsame : blocks_in (f_slots st1) btfp last
                        = blocks_in (f_slots st) btfp last).
        { apply blocks_in_ext. intros j Hj. rewrite Hslots.
          destruct (Z.leb_spec first j), (Z.ltb_spec j btfp);
            cbn [andb]; try reflexivity; lia. }
        split.
        { intros j. rewrite Hslots1, Hslots.
          destruct (Z.leb_spec btfp j), (Z.ltb_spec j last), (Z.leb_spec first j),
            (Z.ltb_spec j btfp); cbn [andb]; try reflexivity; lia. }
        split; [rewrite Hfreed1, Hfreed, <- app_assoc, <- Hrun,
                  <- blocks_in_split by lia; reflexivity|].
        rewrite Hforg1, Hforg, Hsame, <- app_assoc, <- blocks_in_split by lia.
        reflexivity.
      - assert (count = 0) as -> by lia. cbn [Z.eqb] in *.
        split; [exact Hslots|]. split; [exact Hfreed | exact Hforg]. }
    set (st2 := if 0 <? count
                then next3_clear_blocks must_restart is_handle_aborted this_bh
                       btf count btfp last st1
                else st1) in *.
    destruct (Hend st2 eq_refl) as (Hs2 & Hf2 & Hg2).
    rewrite Hnever.
    destruct this_bh as [b|]; [|split; [exact Hs2|]; split; [exact Hf2 | exact Hg2]].
    destruct (bh2jh (f_calls st2) b); cbn [call f_slots f_calls];
      rewrite freed_by_app, forgotten_by_app; cbn; rewrite !app_nil_r;
      (split; [exact Hs2|]; split; [exact Hf2 | exact Hg2]). }
  destruct this_bh as [b|].
  - destruct (Z.eqb_spec (get_write_access_err (f_calls st) b) 0) as [Hok | Hbad];
      cbn [negb].
    + apply Hstart; cbn [call f_slots f_calls]; [reflexivity| |];
        rewrite ?freed_by_app, ?forgotten_by_app; cbn; rewrite app_nil_r; reflexivity.
    + cbn [call f_slots f_calls]. rewrite freed_by_app, forgotten_by_app. cbn.
      rewrite !app_nil_r. auto.
  - cbn [Z.eqb negb]. apply Hstart; reflexivity.
Qed.

(** X21 ([next3_free_data] frees what it clears): on a handle that is not
    aborted, a call for the slots [first .. last - 1] of a holder, with
    write access to the holder granted, sets every slot of the range to 0
    and leaves all other slots alone; the blocks it frees, run by run, are
    exactly the block numbers that were in those slots, each once and in
    the order of the slots, and the same blocks are handed to
    [next3_forget]. When write access to the indirect block is refused,
    no slot changes and nothing is freed or forgotten. *)
Theorem free_data_frees_what_it_clears
    (get_write_access_err : list free_call -> Z -> Z)
    (must_restart is_handle_aborted : list free_call -> bool)
    (bh2jh : list free_call -> Z -> bool)
    (this_bh : option Z) (first last : Z) (st : fstate) :
  (forall calls, is_handle_aborted calls = false) ->
  0 <= first -> first <= last -> last <= Z.of_nat (length (f_slots st)) ->
  let st' := next3_free_data get_write_access_err must_restart is_handle_aborted bh2jh
               this_bh first last st in
  let granted := match this_bh with
                 | Some b => get_write_access_err (f_calls st) b =? 0
                 | None => true
                 end in
  if granted then
    (forall j, read_slot (f_slots st') j
               = if (first <=? j) && (j <? last) then 0 else read_slot (f_slots st) j)
    /\ freed_by (f_calls st')
       = freed_by (f_calls st) ++ blocks_in (f_slots st) first last
    /\ forgotten_by (f_calls st')
       = forgotten_by (f_calls st) ++ blocks_in (f_slots st) first last
  else
    f_slots st' = f_slots st
    /\ freed_by (f_calls st') = freed_by (f_calls st)
    /\ forgotten_by (f_calls st') = forgotten_by (f_calls st).
Proof.
  exact (free_data_spec get_write_access_err must_restart is_handle_aborted bh2jh this_bh
           first last st).
Qed.

Lemma free_data_frees_what_it_clears_witness :
  let st := {| f_slots := [7; 40; 41; 0; 42; 90; 0; 91; 5]; f_calls := [] |} in
  let st' := next3_free_data (fun _ _ => 0) (fun _ => false) (fun _ => false)
               (fun _ _ => true) (Some 60) 1 8 st in
  f_slots st' = [7; 0; 0; 0; 0; 0; 0; 0; 5]
  /\ freed_by (f_calls st') = [40; 41; 42; 90; 91]
  /\ forgotten_by (f_calls st') = [40; 41; 42; 90; 91].
Proof.
  intros st st'.
  pose proof (free_data_frees_what_it_clears (fun _ _ => 0) (fun _ => false)
                (fun _ => false) (fun _ _ => true) (Some 60) 1 8 st
                (fun _ => eq_refl) ltac:(lia) ltac:(lia)
                ltac:(vm_compute; discriminate)) as Hspec.
  cbv zeta in Hspec. cbn [Z.eqb] in Hspec. fold st' in Hspec.
  destruct Hspec as (_ & Hfreed & Hforg).
  split; [reflexivity|]. split; [rewrite Hfreed | rewrite Hforg]; reflexivity.
Defined.

(** ** Freeing branches *)

Lemma range_values_empty (l : list Z) (p : Z) : range_values l p p = [].
Proof. unfold range_values. rewrite Z.sub_diag. reflexivity. Qed.

Lemma range_values_cons (l : list Z) (p last : Z) :
  p <= last ->
  range_values l (p - 1) last = read_slot l (p - 1) :: range_values l p last.
Proof.
  intros Hp. unfold range_values. rewrite seqZ_cons by lia. cbn [map].
  replace (Z.succ (p - 1)) with p by lia.
  replace (Z.pred (last - (p - 1))) with (last - p) by lia. reflexivity.
Qed.

Lemma range_values_full (l : list Z) : range_values l 0 (Z.of_nat (length l)) = l.
Proof.
  unfold range_values. rewrite Z.sub_0_r.
  apply list_eq. intros i.
  change (map (read_slot l) (seqZ 0 (Z.of_nat (length l))))
    with (read_slot l <$> seqZ 0 (Z.of_nat (length l))).
  rewrite list_lookup_fmap.
  destruct (Nat.lt_ge_cases i (length l)) as [Hlt | Hge].
  - rewrite lookup_seqZ_lt by lia. cbn [fmap option_fmap option_map].
    replace (0 + Z.of_nat i) with (Z.of_nat i) by lia.
    unfold read_slot. destruct (Z.ltb_spec (Z.of_nat i) 0); [lia|].
    rewrite Nat2Z.id.
    destruct (l !! i) as [x|] eqn:Hx; [reflexivity|].
    apply lookup_ge_None in Hx. lia.
  - rewrite lookup_seqZ_ge by lia. symmetry. apply lookup_ge_None. exact Hge.
Qed.

Lemma blocks_in_values (l : list Z) (first last : Z) :
  blocks_in l first last = nonzero (range_values l first last).
Proof.
  unfold blocks_in, range_values.
  generalize (last - first) as n. intros n.
  assert (Hind : forall (k : nat) p,
             blocks_from k l p = nonzero (map (read_slot l) (seqZ p (Z.of_nat k)))).
  { induction k as [|k IH]; intros p; [reflexivity|].
    rewrite seqZ_cons by lia. cbn [blocks_from map nonzero flat_map].
    f_equal. rewrite IH.
    replace (Z.succ p) with (p + 1) by lia.
    replace (Z.pred (Z.of_nat (S k))) with (Z.of_nat k) by lia. reflexivity. }
  destruct (Z.le_gt_cases 0 n) as [Hn | Hn].
  - rewrite Hind. rewrite Z2Nat.id by exact Hn. reflexivity.
  - rewrite seqZ_nil by lia. replace (Z.to_nat n) with 0%nat by lia. reflexivity.
Qed.

Lemma flat_map_same {A C : Type} (f g : A -> list C) (l : list A) :
  (forall x, In x l -> f x = g x) -> flat_map f l = flat_map g l.
Proof.
  induction l as [|a l IH]; intros Hsame; [reflexivity|].
  cbn [flat_map]. rewrite (Hsame a) by (left; reflexivity). f_equal.
  apply IH. intros x Hx. apply Hsame. right. exact Hx.
Qed.

(** The branches below a list of numbers are read from the indirect blocks
    among them only. *)
Lemma branches_ext (per_block : Z) (bufs bufs' : gmap Z (list Z)) (depth : nat) :
  forall vals,
    (forall x, In x (indirect_blocks depth bufs vals) -> bufs' !! x = bufs !! x) ->
    indirect_blocks depth bufs' vals = indirect_blocks depth bufs vals
    /\ freed_order depth bufs' vals = freed_order depth bufs vals
    /\ (readable_tree per_block depth bufs vals ->
        readable_tree per_block depth bufs' vals).
Proof.
  induction depth as [|depth IH]; intros vals Hsame; [auto|].
  assert (Hchild : forall nr, In nr vals -> nr <> 0 ->
            bufs' !! nr = bufs !! nr
            /\ forall x, In x (indirect_blocks depth bufs (default [] (bufs !! nr))) ->
                         bufs' !! x = bufs !! x).
  { intros nr Hin Hnz.
    assert (Hsub : forall x,
               In x (nr :: indirect_blocks depth bufs (default [] (bufs !! nr))) ->
               bufs' !! x = bufs !! x).
    { intros x Hx. apply Hsame. cbn [indirect_blocks]. apply in_flat_map.
      exists nr. split; [exact Hin|].
      destruct (Z.eqb_spec nr 0); [contradiction | exact Hx]. }
    split; [apply Hsub; left; reflexivity | intros x Hx; apply Hsub; right; exact Hx]. }
  split; [|split].
  - cbn [indirect_blocks]. apply flat_map_same. intros nr Hin.
    destruct (Z.eqb_spec nr 0) as [Hz | Hnz]; [reflexivity|].
    destruct (Hchild nr Hin Hnz) as [Hnr Hsub]. rewrite Hnr. f_equal.
    apply (IH _ Hsub).
  - cbn [freed_order]. apply flat_map_same. intros nr Hin.
    apply in_rev in Hin.
    destruct (Z.eqb_spec nr 0) as [Hz | Hnz]; [reflexivity|].
    destruct (Hchild nr Hin Hnz) as [Hnr Hsub]. rewrite Hnr. f_equal.
    apply (IH _ Hsub).
  - cbn [readable_tree]. intros Hread nr Hin Hnz.
    destruct (Hread nr Hin Hnz) as (data & Hdata & Hlen & Hsubtree).
    destruct (Hchild nr Hin Hnz) as [Hnr Hsub].
    exists data. split; [rewrite Hnr; exact Hdata|]. split; [exact Hlen|].
    rewrite Hdata in Hsub. cbn [default] in Hsub.
    apply (IH _ Hsub). exact Hsubtree.
Qed.

Lemma range_values_split (l : list Z) (a b c : Z) :
  a <= b -> b <= c -> range_values l a c = range_values l a b ++ range_values l b c.
Proof.
  intros Hab Hbc. unfold range_values.
  replace (c - a) with ((b - a) + (c - b)) by lia.
  rewrite seqZ_app by lia. rewrite map_app. do 3 f_equal. lia.
Qed.

Lemma indirect_blocks_app (depth : nat) (bufs : gmap Z (list Z)) (v w : list Z) :
  indirect_blocks depth bufs (v ++ w)
  = indirect_blocks depth bufs v ++ indirect_blocks depth bufs w.
Proof.
  destruct depth as [|depth]; [reflexivity|]. cbn [indirect_blocks]. apply flat_map_app.
Qed.

Lemma read_slot_insert_zero (l : list Z) (i j : Z) :
  0 <= i -> read_slot (<[Z.to_nat i := 0]> l) j = if j =? i then 0 else read_slot l j.
Proof.
  intros Hi. rewrite read_slot_insert by exact Hi.
  destruct (Z.eqb_spec j i) as [-> | Hne]; cbn [andb]; [|reflexivity].
  destruct (Z.ltb_spec i (Z.of_nat (length l))) as [Hlt | Hge]; [reflexivity|].
  unfold read_slot. destruct (Z.ltb_spec i 0); [reflexivity|].
  rewrite (proj2 (lookup_ge_None l (Z.to_nat i))) by lia. reflexivity.
Qed.

Section BranchesFacts.
Variable sb : super_block.
Variable get_write_access_err : list free_call -> Z -> Z.
Variable must_restart : list free_call -> bool.
Variable is_handle_aborted : list free_call -> bool.
Variable bh2jh : list free_call -> Z -> bool.
Hypothesis never_aborted : forall calls, is_handle_aborted calls = false.
Hypothesis always_granted : forall calls b, get_write_access_err calls b = 0.

Local Abbreviation per_block := (NEXT3_ADDR_PER_BLOCK sb).
Local Abbreviation free_branches :=
  (next3_free_branches sb get_write_access_err must_restart is_handle_aborted bh2jh).

(** What a call needs: the range lies in the array, the parent block is
    not one of the blocks below it, and the branches are readable and
    share no indirect block. *)
Local Abbreviation branches_pre depth a first last st :=
  (0 <= first /\ first <= last
   /\ last <= Z.of_nat (length (array_slots st a))
   /\ (forall b, a = InBuffer b ->
         is_Some (t_bufs st !! b)
         /\ ~ In b (indirect_blocks depth (t_bufs st)
                      (range_values (array_slots st a) first last)))
   /\ readable_tree per_block depth (t_bufs st)
        (range_values (array_slots st a) first last)
   /\ NoDup (indirect_blocks depth (t_bufs st)
               (range_values (array_slots st a) first last))).

(** What it leaves: the blocks freed, the buffers it did not touch, and
    the slots of the parent block. *)
Local Abbreviation branches_post depth a first last st st' :=
  (freed_by (t_calls st')
   = freed_by (t_calls st)
     ++ freed_order depth (t_bufs st) (range_values (array_slots st a) first last)
   /\ (forall x,
         ~ In x (indirect_blocks depth (t_bufs st)
                   (range_values (array_slots st a) first last)) ->
         a <> InBuffer x -> t_bufs st' !! x = t_bufs st !! x)
   /\ (forall b, a = InBuffer b ->
         exists l',
           t_bufs st' !! b = Some l'
           /\ forall j, read_slot l' j
                        = if (first <=? j) && (j <? last) then 0
                          else read_slot (array_slots st a) j)).

Lemma free_data_in_spec (a : array_ref) (first last : Z) (st : tstate) :
  branches_pre 0%nat a first last st ->
  branches_post 0%nat a first last st
    (free_data_in get_write_access_err must_restart is_handle_aborted bh2jh a first last st).
Proof.
  intros (Hfirst & Hle & Hfit & Hparent & _ & _).
  pose proof (free_data_spec get_write_access_err must_restart is_handle_aborted bh2jh
                (array_bh a) first last
                {| f_slots := array_slots st a; f_calls := t_calls st |}
                never_aborted Hfirst Hle Hfit) as Hspec.
  cbv zeta in Hspec. cbn [f_slots f_calls] in Hspec.
  assert (Hgranted : match array_bh a with
                     | Some b => get_write_access_err (t_calls st) b =? 0
                     | None => true
                     end = true).
  { destruct (array_bh a); [rewrite always_granted|]; reflexivity. }
  rewrite Hgranted in Hspec. destruct Hspec as (Hslots & Hfreed & _).
  unfold free_data_in. cbn [t_calls t_bufs freed_order].
  split; [rewrite Hfreed, blocks_in_values; reflexivity|].
  split.
  - intros x _ Hx. destruct a as [b|nr]; [|reflexivity].
    apply lookup_alter_ne. congruence.
  - intros b ->. destruct (Hparent b eq_refl) as [[l Hl] _].
    eexists. split; [rewrite lookup_alter_eq, Hl; reflexivity | exact Hslots].
Qed.

Section BranchesLoop.
Variable d : nat.
Hypothesis below_spec :
  forall a first last st,
    branches_pre d a first last st ->
    branches_post d a first last st (free_branches d a first last st).
Variable a : array_ref.
Variable first : Z.
Variable last : Z.
Variable st0 : tstate.
Hypothesis pre0 : branches_pre (S d) a first last st0.

Local Abbreviation vals p := (range_values (array_slots st0 a) p last).

(** What holds when the loop stands at [p]: the branches of the slots
    [p .. last - 1] are freed and those slots are cleared. *)
Local Abbreviation branches_inv p st :=
  (freed_by (t_calls st)
   = freed_by (t_calls st0) ++ freed_order (S d) (t_bufs st0) (vals p)
   /\ (forall x,
         ~ In x (indirect_blocks (S d) (t_bufs st0) (vals p)) ->
         a <> InBuffer x -> t_bufs st !! x = t_bufs st0 !! x)
   /\ (forall b, a = InBuffer b ->
         exists l',
           t_bufs st !! b = Some l'
           /\ forall j, read_slot l' j
                        = if (p <=? j) && (j <? last) then 0
                          else read_slot (array_slots st0 a) j)).

Lemma vals_suffix (p : Z) :
  first <= p <= last ->
  exists pre, vals first = pre ++ vals p.
Proof.
  intros Hp. exists (range_values (array_slots st0 a) first p).
  apply range_values_split; lia.
Qed.

Lemma branches_loop_spec (n : nat) :
  forall p st,
    Z.of_nat n = p - first -> p <= last ->
    branches_inv p st ->
    branches_inv first
      (branches_loop get_write_access_err must_restart is_handle_aborted
         (fun nr st => free_branches d (InBuffer nr) 0 per_block st) n a p st).
Proof.
  destruct pre0 as (Hfirst & Hle & Hfit & Hparent & Hreadable & Hnodup).
  induction n as [|n IH]; intros p st Hn Hp Hinv.
  - cbn [branches_loop]. replace first with p by lia. exact Hinv.
  - cbn [branches_loop]. cbv zeta.
    destruct Hinv as (Hfreed & Hframe & Hslots).
    set (v := read_slot (array_slots st0 a) (p - 1)).
    assert (Hv : read_slot (array_slots st a) (p - 1) = v).
    { destruct a as [b|nr0]; [|reflexivity].
      destruct (Hslots b eq_refl) as (l' & Hl' & Hread).
      cbn [array_slots]. rewrite Hl'. unfold default, from_option, id. rewrite Hread.
      destruct (Z.leb_spec p (p - 1)); [lia | reflexivity]. }
    rewrite Hv.
    assert (Hcons : vals (p - 1) = v :: vals p) by (apply range_values_cons; lia).
    assert (Horder : freed_order (S d) (t_bufs st0) (vals (p - 1))
                     = freed_order (S d) (t_bufs st0) (vals p)
                       ++ (if v =? 0 then []
                           else freed_order d (t_bufs st0) (default [] (t_bufs st0 !! v))
                                ++ [v])).
    { rewrite Hcons. cbn [freed_order rev]. rewrite flat_map_app. cbn [flat_map].
      rewrite app_nil_r. reflexivity. }
    assert (Hind : indirect_blocks (S d) (t_bufs st0) (vals (p - 1))
                   = (if v =? 0 then []
                      else v :: indirect_blocks d (t_bufs st0)
                                  (default [] (t_bufs st0 !! v)))
                     ++ indirect_blocks (S d) (t_bufs st0) (vals p)).
    { rewrite Hcons. reflexivity. }
    destruct (vals_suffix (p - 1) ltac:(lia)) as (pre & Hpre).
    destruct (Z.eqb_spec v 0) as [Hz | Hnz].
    + (* A hole *)
      apply IH; [lia | lia|].
      split; [rewrite Horder, app_nil_r; exact Hfreed|].
      split; [rewrite Hind; exact Hframe|].
      intros b Hb. destruct (Hslots b Hb) as (l' & Hl' & Hread).
      exists l'. split; [exact Hl'|]. intros j. rewrite Hread.
      destruct (Z.leb_spec p j), (Z.leb_spec (p - 1) j), (Z.ltb_spec j last);
        cbn [andb]; try reflexivity; try lia.
      assert (j = p - 1) as -> by lia. exact Hz.
    + (* the branch below [v] *)
      assert (Hin : In v (vals first)).
      { rewrite Hpre, Hcons. apply in_or_app. right. left. reflexivity. }
      destruct (Hreadable v Hin Hnz) as (data & Hdata & Hlen & Hsubtree).
      rewrite Hdata in Horder, Hind. unfold default, from_option, id in Horder, Hind.
      set (sub := indirect_blocks d (t_bufs st0) data) in *.
      set (rest := indirect_blocks (S d) (t_bufs st0) (vals p)) in *.
      assert (Hwhole : indirect_blocks (S d) (t_bufs st0) (vals first)
                       = indirect_blocks (S d) (t_bufs st0) pre ++ (v :: sub) ++ rest).
      { rewrite Hpre, indirect_blocks_app, Hind. reflexivity. }
      rewrite Hwhole in Hnodup, Hparent.
      apply NoDup_app in Hnodup as (_ & _ & Hnodup).
      change ((v :: sub) ++ rest) with (v :: (sub ++ rest)) in Hnodup.
      apply NoDup_cons in Hnodup as [Hvnot Hnodup].
      rewrite list_elem_of_In in Hvnot.
      assert (Hvsub : ~ In v sub) by (intros H; apply Hvnot, in_or_app; left; exact H).
      assert (Hvrest : ~ In v rest) by (intros H; apply Hvnot, in_or_app; right; exact H).
      apply NoDup_app in Hnodup as (Hsubnd & Hdisj' & _).
      assert (Hdisj : forall x, In x sub -> ~ In x rest).
      { intros x Hx Hr. apply (Hdisj' x); apply list_elem_of_In; assumption. }
      assert (Hnotparent : forall x, In x (v :: sub) -> a <> InBuffer x).
      { intros x Hx ->. destruct (Hparent x eq_refl) as [_ Hnot]. apply Hnot.
        apply in_or_app. right. apply in_or_app. left. exact Hx. }
      assert (Hcur_v : t_bufs st !! v = Some data).
      { rewrite (Hframe v Hvrest (Hnotparent v ltac:(left; reflexivity))). exact Hdata. }
      assert (Hcur_sub : forall x, In x sub -> t_bufs st !! x = t_bufs st0 !! x).
      { intros x Hx. apply Hframe; [apply Hdisj; exact Hx|].
        apply Hnotparent. right. exact Hx. }
      destruct (branches_ext per_block (t_bufs st0) (t_bufs st) d data Hcur_sub)
        as (Hsub' & Horder' & Hread').
      fold sub in Hsub'.
      rewrite Hcur_v.
      assert (Hfull : range_values data 0 per_block = data)
        by (rewrite <- Hlen; apply range_values_full).
      destruct (below_spec (InBuffer v) 0 per_block st) as (Bfreed & Bframe & _).
      { cbn [array_slots]. rewrite Hcur_v. unfold default, from_option, id. rewrite Hfull.
        split; [lia|]. split; [lia|]. split; [lia|]. split.
        { intros b Hb. injection Hb as <-. split; [eexists; exact Hcur_v|].
          rewrite Hsub'. exact Hvsub. }
        split; [apply Hread'; exact Hsubtree|]. rewrite Hsub'. exact Hsubnd. }
      cbn [array_slots] in Bfreed, Bframe. rewrite Hcur_v in Bfreed, Bframe.
      unfold default, from_option, id in Bfreed, Bframe. rewrite Hfull in Bfreed, Bframe.
      rewrite Hsub' in Bframe. rewrite Horder' in Bfreed.
      set (st1 := free_branches d (InBuffer v) 0 per_block st) in *.
      rewrite never_aborted.
      (* the calls that free the block itself *)
      set (st2 := if must_restart (t_calls st1)
                  then tcall FcRestartTransaction (tcall FcMarkInodeDirty st1) else st1).
      assert (Hst2 : t_bufs st2 = t_bufs st1 /\ freed_by (t_calls st2) = freed_by (t_calls st1)).
      { subst st2. destruct (must_restart (t_calls st1)); [|auto].
        cbn [tcall t_bufs t_calls]. rewrite !freed_by_app. cbn. rewrite !app_nil_r. auto. }
      destruct Hst2 as [Hb2 Hf2].
      set (st4 := tcall (FcFreeBlocks v 1) (tcall (FcForget true v) st2)).
      assert (Hst4 : t_bufs st4 = t_bufs st1
                     /\ freed_by (t_calls st4) = freed_by (t_calls st1) ++ [v]).
      { subst st4. cbn [tcall t_bufs t_calls]. rewrite !freed_by_app, Hf2. cbn.
        rewrite !app_nil_r. auto. }
      destruct Hst4 as [Hb4 Hf4].
      apply IH; [lia | lia|].
      assert (Hkept : forall x, ~ In x ((v :: sub) ++ rest) -> a <> InBuffer x ->
                        t_bufs st1 !! x = t_bufs st0 !! x).
      { intros x Hx Hax. rewrite Bframe.
        - apply Hframe; [|exact Hax]. intros H. apply Hx. apply in_or_app. right. exact H.
        - intros H. apply Hx. apply in_or_app. left. right. exact H.
        - intros Heq. injection Heq as <-. apply Hx. left. reflexivity. }
      destruct a as [b|nr0].
      * (* the slot of the parent block is cleared *)
        rewrite always_granted. cbn [Z.eqb]. cbn [tcall t_bufs t_calls].
        destruct (Hslots b eq_refl) as (l' & Hl' & Hread).
        assert (Hb1 : t_bufs st1 !! b = Some l').
        { rewrite Bframe; [exact Hl'| |].
          - intros H. apply (Hnotparent b ltac:(right; exact H)). reflexivity.
          - intros Heq. injection Heq as ->.
            apply (Hnotparent b ltac:(left; reflexivity)). reflexivity. }
        split.
        { rewrite !freed_by_app, Hf4, Bfreed, Hfreed, Horder. cbn.
          rewrite !app_nil_r, <- !app_assoc. reflexivity. }
        split.
        { intros x Hx Hax. rewrite Hind in Hx.
          rewrite lookup_alter_ne by congruence. rewrite Hb4. apply Hkept; assumption. }
        intros b' Hb'. injection Hb' as <-.
        exists (<[Z.to_nat (p - 1) := 0]> l').
        split; [rewrite lookup_alter_eq, Hb4, Hb1; reflexivity|].
        intros j. rewrite read_slot_insert_zero by lia. rewrite Hread.
        destruct (Z.eqb_spec j (p - 1)), (Z.leb_spec p j), (Z.leb_spec (p - 1) j),
          (Z.ltb_spec j last); cbn [andb]; try reflexivity; lia.
      * split.
        { rewrite Hf4, Bfreed, Hfreed, Horder, <- !app_assoc. reflexivity. }
        split.
        { intros x Hx Hax. rewrite Hind in Hx. rewrite Hb4. apply Hkept; assumption. }
        intros b' Hb'. discriminate Hb'.
Qed.

End BranchesLoop.

(** What [next3_free_branches] leaves behind. *)
Lemma free_branches_spec (depth : nat) :
  forall a first last st,
    branches_pre depth a first last st ->
    branches_post depth a first last st (free_branches depth a first last st).
Proof.
  induction depth as [|depth IH]; intros a first last st Hpre.
  - cbn [next3_free_branches]. rewrite never_aborted.
    apply free_data_in_spec. exact Hpre.
  - cbn [next3_free_branches]. rewrite never_aborted.
    apply (branches_loop_spec depth IH a first last st Hpre (Z.to_nat (last - first))).
    + destruct Hpre as (_ & Hle & _). lia.
    + lia.
    + destruct Hpre as (_ & _ & _ & Hparent & _).
      rewrite range_values_empty.
      split; [cbn [freed_order rev flat_map]; rewrite app_nil_r; reflexivity|].
      split; [reflexivity|].
      intros b Hb. destruct (Hparent b Hb) as [[l Hl] _].
      exists l. split; [exact Hl|]. intros j. subst a. cbn [array_slots]. rewrite Hl.
      destruct (Z.leb_spec last j), (Z.ltb_spec j last); cbn [andb]; try reflexivity; lia.
Qed.

End BranchesFacts.

Lemma readable_treeb_sound (per_block : Z) (depth : nat) (bufs : gmap Z (list Z)) :
  forall vals,
    readable_treeb per_block depth bufs vals = true ->
    readable_tree per_block depth bufs vals.
Proof.
  induction depth as [|depth IH]; intros vals Hb; [exact I|].
  cbn [readable_treeb] in Hb. cbn [readable_tree]. intros nr Hin Hnz.
  rewrite forallb_forall in Hb. specialize (Hb nr Hin).
  apply orb_true_iff in Hb as [Hz | Hb]; [apply Z.eqb_eq in Hz; contradiction|].
  destruct (bufs !! nr) as [data|]; [|discriminate].
  apply andb_true_iff in Hb as [Hlen Hsub]. apply Z.eqb_eq in Hlen.
  exists data. split; [reflexivity|]. split; [exact Hlen|]. apply IH. exact Hsub.
Qed.

(** X22. [next3_free_branches], when it actually deletes (no block counter),
    on a handle that is never aborted and with write access to the parent
    blocks always granted: if every indirect block below the slots
    [first .. last - 1] can be read and holds a full block of slots, no
    indirect block is reached twice and the parent block is not among them,
    then the blocks passed to [next3_free_blocks] are exactly the blocks of
    the subtrees, slot by slot from the last to the first, everything below
    an indirect block before the block itself; no buffer outside the
    subtrees is changed, and in the parent block the slots of the range are
    cleared and the others are kept. *)
Theorem free_branches_frees_the_subtrees
    (sb : super_block) (get_write_access_err : list free_call -> Z -> Z)
    (must_restart is_handle_aborted : list free_call -> bool)
    (bh2jh : list free_call -> Z -> bool)
    (depth : nat) (a : array_ref) (first last : Z) (st : tstate) :
  (forall calls, is_handle_aborted calls = false) ->
  (forall calls b, get_write_access_err calls b = 0) ->
  0 <= first -> first <= last ->
  last <= Z.of_nat (length (array_slots st a)) ->
  (forall b, a = InBuffer b ->
     is_Some (t_bufs st !! b)
     /\ ~ In b (indirect_blocks depth (t_bufs st)
                  (range_values (array_slots st a) first last))) ->
  readable_tree (NEXT3_ADDR_PER_BLOCK sb) depth (t_bufs st)
    (range_values (array_slots st a) first last) ->
  NoDup (indirect_blocks depth (t_bufs st)
           (range_values (array_slots st a) first last)) ->
  let st' := next3_free_branches sb get_write_access_err must_restart
               is_handle_aborted bh2jh depth a first last st in
  freed_by (t_calls st')
  = freed_by (t_calls st)
    ++ freed_order depth (t_bufs st) (range_values (array_slots st a) first last)
  /\ (forall x,
        ~ In x (indirect_blocks depth (t_bufs st)
                  (range_values (array_slots st a) first last)) ->
        a <> InBuffer x ->
        t_bufs st' !! x = t_bufs st !! x)
  /\ (forall b, a = InBuffer b ->
        exists l',
          t_bufs st' !! b = Some l'
          /\ forall j, read_slot l' j
                       = if (first <=? j) && (j <? last) then 0
                         else read_slot (array_slots st a) j).
Proof.
  intros Hnever Hgranted Hfirst Hle Hfit Hparent Hreadable Hnodup st'.
  apply (free_branches_spec sb get_write_access_err must_restart is_handle_aborted
           bh2jh Hnever Hgranted depth a first last st).
  repeat split; try assumption; apply Hparent; assumption.
Qed.

Lemma free_branches_frees_the_subtrees_witness :
  let zeroes := replicate 256 0 in
  let bufs : gmap Z (list Z) :=
    <[50 := <[2%nat := 100]> zeroes]>
      (<[100 := <[3%nat := 200]> (<[7%nat := 201]> zeroes)]>
         (<[200 := <[0%nat := 300]> (<[1%nat := 301]> zeroes)]>
            (<[201 := <[255%nat := 310]> zeroes]> ∅))) in
  let st := {| t_bufs := bufs; t_calls := [] |} in
  let st' := next3_free_branches sb1k (fun _ _ => 0) (fun _ => false)
               (fun _ => false) (fun _ _ => true) 2 (InBuffer 50) 0 256 st in
  freed_by (t_calls st') = [310; 201; 300; 301; 200; 100]
  /\ t_bufs st' !! 300 = None
  /\ exists l', t_bufs st' !! 50 = Some l' /\ read_slot l' 2 = 0.
Proof.
  intros zeroes bufs st st'.
  assert (Hvals : indirect_blocks 2 (t_bufs st)
                    (range_values (array_slots st (InBuffer 50)) 0 256)
                  = [100; 200; 201]) by (vm_compute; reflexivity).
  assert (Hnodup : NoDup [100; 200; 201]).
  { repeat (apply NoDup_cons_2;
            [intros H; apply list_elem_of_In in H; cbn in H; lia|]).
    apply NoDup_nil_2. }
  pose proof (free_branches_frees_the_subtrees sb1k (fun _ _ => 0) (fun _ => false)
                (fun _ => false) (fun _ _ => true) 2 (InBuffer 50) 0 256 st
                (fun _ => eq_refl) (fun _ _ => eq_refl) ltac:(lia) ltac:(lia)) as Hspec.
  rewrite Hvals in Hspec.
  specialize (Hspec ltac:(vm_compute; discriminate)).
  specialize (Hspec ltac:(intros b Hb; injection Hb as <-;
                          split; [eexists; vm_compute; reflexivity
                                 | cbn; lia])).
  specialize (Hspec ltac:(apply readable_treeb_sound; vm_compute; reflexivity) Hnodup).
  cbv zeta in Hspec. fold st' in Hspec.
  destruct Hspec as (Hfreed & Hframe & Hslots).
  split; [rewrite Hfreed; vm_compute; reflexivity|].
  split; [rewrite Hframe; [vm_compute; reflexivity | cbn; lia | discriminate]|].
  destruct (Hslots 50 eq_refl) as (l' & Hl' & Hread).
  exists l'. split; [exact Hl'|]. rewrite Hread. reflexivity.
Defined.

(** ** Tracked readers and the largest file size *)

Lemma wrap_int_small (x : Z) : - 2 ^ 31 <= x < 2 ^ 31 -> wrap_int x = x.
Proof. intros H. unfold wrap_int. rewrite Z.mod_small by lia. lia. Qed.

(** X23. The tracked readers of a block device buffer are counted apart
    from its plain references: while fewer than 0x10000 plain references
    are held and the counter does not overflow,
    [buffer_tracked_readers_count] is the number of tracked readers,
    [get_bh_tracked_reader] adds one reader and keeps the plain references,
    and [put_bh_tracked_reader] undoes it. *)
Theorem tracked_readers_are_counted_apart (refs readers : Z) :
  0 <= refs < 2 ^ 16 -> 0 <= readers ->
  refs + (readers + 1) * 2 ^ 16 < 2 ^ 31 ->
  let b_count := refs + readers * 2 ^ 16 in
  buffer_tracked_readers_count b_count = readers
  /\ buffer_tracked_readers_count (get_bh_tracked_reader b_count) = readers + 1
  /\ get_bh_tracked_reader b_count mod 2 ^ 16 = refs
  /\ put_bh_tracked_reader (get_bh_tracked_reader b_count) = b_count.
Proof.
  intros Hrefs Hreaders Hfit b_count.
  unfold buffer_tracked_readers_count, get_bh_tracked_reader, put_bh_tracked_reader,
    BH_TRACKED_READERS_COUNT_SHIFT.
  change (Z.shiftl 1 16) with (2 ^ 16).
  rewrite (wrap_int_small (b_count + 2 ^ 16)) by (subst b_count; lia).
  rewrite wrap_int_small by (subst b_count; lia).
  rewrite !Z.shiftr_div_pow2 by lia.
  subst b_count.
  split; [rewrite Z.div_add by lia; rewrite Z.div_small by lia; lia|].
  split.
  { replace (refs + readers * 2 ^ 16 + 2 ^ 16) with (refs + (readers + 1) * 2 ^ 16) by lia.
    rewrite Z.div_add by lia. rewrite Z.div_small by lia. lia. }
  split; [|lia].
  replace (refs + readers * 2 ^ 16 + 2 ^ 16) with (refs + (readers + 1) * 2 ^ 16) by lia.
  rewrite Z.mod_add by lia. apply Z.mod_small. lia.
Qed.

Lemma tracked_readers_are_counted_apart_witness :
  buffer_tracked_readers_count (3 + 2 * 2 ^ 16) = 2
  /\ buffer_tracked_readers_count (get_bh_tracked_reader (3 + 2 * 2 ^ 16)) = 3
  /\ get_bh_tracked_reader (3 + 2 * 2 ^ 16) mod 2 ^ 16 = 3
  /\ put_bh_tracked_reader (get_bh_tracked_reader (3 + 2 * 2 ^ 16)) = 3 + 2 * 2 ^ 16.
Proof.
  apply (tracked_readers_are_counted_apart 3 2); lia.
Defined.

(** X24. [next3_max_size] for the block sizes of 1 KiB to 64 KiB, with a
    kernel limit [MAX_LFS_FILESIZE] of at least 2^41. Up to 16 KiB the
    result is a positive whole number of blocks that the block map of an
    inode can address, and these blocks together with all their indirect
    blocks take at most 2^32 - 1 sectors of 512 bytes. For 32 KiB and
    64 KiB blocks the indirect blocks alone exceed the sector limit and the
    result is negative. *)
Theorem max_size_respects_both_limits (MAX_LFS_FILESIZE bits : Z) :
  10 <= bits <= 16 ->
  2 ^ 41 <= MAX_LFS_FILESIZE ->
  let res := next3_max_size MAX_LFS_FILESIZE bits in
  let addr_per_block := 2 ^ (bits - 2) in
  if bits <=? 14 then
    0 < res
    /\ res mod 2 ^ bits = 0
    /\ res / 2 ^ bits
       <= NEXT3_NDIR_BLOCKS + addr_per_block + addr_per_block ^ 2 + addr_per_block ^ 3
    /\ (res / 2 ^ bits
        + (1 + (1 + addr_per_block) + (1 + addr_per_block + addr_per_block ^ 2)))
       * 2 ^ (bits - 9) <= 2 ^ 32 - 1
  else res < 0.
Proof.
  intros Hbits Hmax res addr_per_block. subst res addr_per_block.
  assert (Hcases : bits = 10 \/ bits = 11 \/ bits = 12 \/ bits = 13 \/ bits = 14
                   \/ bits = 15 \/ bits = 16) by lia.
  unfold next3_max_size.
  destruct Hcases as [-> | [-> | [-> | [-> | [-> | [-> | ->]]]]]];
    match goal with
    | |- context [if ?r >? MAX_LFS_FILESIZE then _ else _] =>
      let v := eval vm_compute in r in
      change r with v;
      destruct (Z.gtb_spec v MAX_LFS_FILESIZE); [lia|]
    end;
    vm_compute; repeat split; intros; discriminate.
Qed.

Lemma max_size_respects_both_limits_witness :
  0 < next3_max_size (2 ^ 63 - 1) 12
  /\ next3_max_size (2 ^ 63 - 1) 12 mod 2 ^ 12 = 0
  /\ next3_max_size (2 ^ 63 - 1) 12 / 2 ^ 12
     <= NEXT3_NDIR_BLOCKS + 2 ^ 10 + (2 ^ 10) ^ 2 + (2 ^ 10) ^ 3
  /\ (next3_max_size (2 ^ 63 - 1) 12 / 2 ^ 12
      + (1 + (1 + 2 ^ 10) + (1 + 2 ^ 10 + (2 ^ 10) ^ 2))) * 2 ^ 3 <= 2 ^ 32 - 1.
Proof.
  apply (max_size_respects_both_limits (2 ^ 63 - 1) 12); lia.
Defined.

(** ** The layout of a block group *)

Lemma wrap_ulong_small (BITS_PER_LONG x : Z) :
  0 <= x < 2 ^ BITS_PER_LONG -> wrap_ulong BITS_PER_LONG x = x.
Proof. intros H. unfold wrap_ulong. apply Z.mod_small. exact H. Qed.

Section DescriptorFacts.
Variable BITS_PER_LONG : Z.
Variable sb : super_block.
Variable next3_group_first_block_no : Z -> Z.
Variable next3_get_group_desc : Z -> next3_group_desc.
Variable sbi : next3_sb_info.

Local Abbreviation in_group :=
  (descriptor_in_group sb next3_group_first_block_no next3_get_group_desc sbi).

(** The numbers are in the range of their types and the sums of the check
    do not wrap around. *)
Local Abbreviation sane :=
  (32 <= BITS_PER_LONG
   /\ s_groups_count sbi <= 2 ^ BITS_PER_LONG
   /\ 1 <= es_blocks_count sbi < 2 ^ 32
   /\ 1 <= s_itb_per_group sbi
   /\ 1 <= s_blocks_per_group sb
   /\ forall i, 0 <= i < s_groups_count sbi ->
        0 <= bg_inode_table (next3_get_group_desc i)
        /\ bg_inode_table (next3_get_group_desc i) + s_itb_per_group sbi
           < 2 ^ BITS_PER_LONG
        /\ 0 <= next3_group_first_block_no i
        /\ next3_group_first_block_no i + s_blocks_per_group sb <= 2 ^ BITS_PER_LONG).

Lemma check_group_spec (i : Z) :
  sane -> 0 <= i < s_groups_count sbi ->
  check_group BITS_PER_LONG sb next3_group_first_block_no next3_get_group_desc sbi i = None
  <-> in_group i.
Proof.
  intros (Hbits & Hcount & Hblocks & Hitb & Hbpg & Hgroups) Hi.
  destruct (Hgroups i Hi) as (Htable & Hsum & Hfirst & Hfit).
  assert (Hpow : 2 ^ 32 <= 2 ^ BITS_PER_LONG) by (apply Z.pow_le_mono_r; lia).
  unfold check_group, descriptor_in_group, group_last_block. cbv zeta.
  rewrite (wrap_ulong_small _ (s_groups_count sbi - 1)) by lia.
  rewrite (wrap_ulong_small _ (s_blocks_per_group sb - 1)) by lia.
  rewrite (wrap_ulong_small _ (next3_group_first_block_no i + _)) by lia.
  unfold wrap32. rewrite (Z.mod_small (es_blocks_count sbi - 1)) by lia.
  rewrite (wrap_ulong_small _ (bg_inode_table _ + _)) by lia.
  rewrite (wrap_ulong_small _ (bg_inode_table _ + _ - 1)) by lia.
  replace (next3_group_first_block_no i + (s_blocks_per_group sb - 1))
    with (next3_group_first_block_no i + s_blocks_per_group sb - 1) by lia.
  set (last := if i =? s_groups_count sbi - 1 then _ else _).
  destruct (Z.ltb_spec (bg_block_bitmap (next3_get_group_desc i))
              (next3_group_first_block_no i)),
    (Z.gtb_spec (bg_block_bitmap (next3_get_group_desc i)) last);
    cbn [orb]; try (split; [discriminate | lia]).
  destruct (Z.ltb_spec (bg_inode_bitmap (next3_get_group_desc i))
              (next3_group_first_block_no i)),
    (Z.gtb_spec (bg_inode_bitmap (next3_get_group_desc i)) last);
    cbn [orb]; try (split; [discriminate | lia]).
  destruct (Z.ltb_spec (bg_inode_table (next3_get_group_desc i))
              (next3_group_first_block_no i)),
    (Z.gtb_spec (bg_inode_table (next3_get_group_desc i) + s_itb_per_group sbi - 1) last);
    cbn [orb]; try (split; [discriminate | lia]).
  split; [lia | reflexivity].
Qed.

Lemma check_group_names_group (i : Z) (e : descriptor_error) :
  check_group BITS_PER_LONG sb next3_group_first_block_no next3_get_group_desc sbi i = Some e ->
  error_group e = i.
Proof.
  unfold check_group. cbv zeta.
  repeat match goal with |- context [if ?c then _ else _] => destruct c end;
    intros H; inversion H; reflexivity.
Qed.

Lemma check_loop_spec (n : nat) :
  sane ->
  forall i, 0 <= i -> i + Z.of_nat n <= s_groups_count sbi ->
    match check_loop BITS_PER_LONG sb next3_group_first_block_no next3_get_group_desc
            sbi n i with
    | None => forall j, i <= j < i + Z.of_nat n -> in_group j
    | Some e =>
      i <= error_group e < i + Z.of_nat n
      /\ ~ in_group (error_group e)
      /\ forall j, i <= j < error_group e -> in_group j
    end.
Proof.
  intros Hsane. induction n as [|n IH]; intros i Hi Hn.
  - cbn [check_loop]. intros j Hj. lia.
  - cbn [check_loop].
    pose proof (check_group_spec i Hsane ltac:(lia)) as Hspec.
    pose proof (check_group_names_group i) as Hname.
    destruct (check_group _ _ _ _ _ i) as [e|].
    + rewrite (Hname e eq_refl).
      split; [lia|]. split; [|intros j Hj; lia].
      intros Hin. apply Hspec in Hin. discriminate Hin.
    + specialize (IH (i + 1) ltac:(lia) ltac:(lia)).
      destruct (check_loop _ _ _ _ _ n (i + 1)) as [e|].
      * destruct IH as (Hrange & Hbad & Hfirst).
        split; [lia|]. split; [exact Hbad|].
        intros j Hj. destruct (Z.eq_dec j i) as [-> | Hne].
        -- apply Hspec. reflexivity.
        -- apply Hfirst. lia.
      * intros j Hj. destruct (Z.eq_dec j i) as [-> | Hne].
        -- apply Hspec. reflexivity.
        -- apply IH. lia.
Qed.

End DescriptorFacts.

(** X25. [next3_check_descriptors], when the numbers are in the range of
    their types and the sums of the check do not wrap around: it returns 1
    exactly when in every group the block bitmap, the inode bitmap and the
    whole inode table lie inside the blocks of the group (the last group
    ends at the last block of the file system), and it then records the
    free counts. Otherwise it returns 0, reports one error, for the first
    group that fails, and leaves the super block as it was. *)
Theorem check_descriptors_accepts_contained_groups
    (BITS_PER_LONG : Z) (sb : super_block)
    (next3_group_first_block_no : Z -> Z)
    (next3_get_group_desc : Z -> next3_group_desc)
    (next3_count_free_blocks next3_count_free_inodes : Z)
    (sbi : next3_sb_info) :
  32 <= BITS_PER_LONG ->
  0 <= s_groups_count sbi <= 2 ^ 31 ->
  1 <= es_blocks_count sbi < 2 ^ 32 ->
  1 <= s_itb_per_group sbi ->
  1 <= s_blocks_per_group sb ->
  (forall i, 0 <= i < s_groups_count sbi ->
     0 <= bg_inode_table (next3_get_group_desc i)
     /\ bg_inode_table (next3_get_group_desc i) + s_itb_per_group sbi
        < 2 ^ BITS_PER_LONG
     /\ 0 <= next3_group_first_block_no i
     /\ next3_group_first_block_no i + s_blocks_per_group sb <= 2 ^ BITS_PER_LONG) ->
  let in_group :=
    descriptor_in_group sb next3_group_first_block_no next3_get_group_desc sbi in
  let '(ret, errors, sbi') :=
    next3_check_descriptors BITS_PER_LONG sb next3_group_first_block_no
      next3_get_group_desc next3_count_free_blocks next3_count_free_inodes sbi in
  (ret = 1 <-> forall i, 0 <= i < s_groups_count sbi -> in_group i)
  /\ (ret = 1 ->
      errors = []
      /\ es_free_blocks_count sbi' = wrap32 next3_count_free_blocks
      /\ es_free_inodes_count sbi' = wrap32 next3_count_free_inodes)
  /\ (ret <> 1 ->
      ret = 0 /\ sbi' = sbi
      /\ exists e,
           errors = [e]
           /\ 0 <= error_group e < s_groups_count sbi
           /\ ~ in_group (error_group e)
           /\ forall j, 0 <= j < error_group e -> in_group j).
Proof.
  intros Hbits Hcount Hblocks Hitb Hbpg Hgroups in_group.
  assert (Hpow : 2 ^ 31 <= 2 ^ BITS_PER_LONG) by (apply Z.pow_le_mono_r; lia).
  pose proof (check_loop_spec BITS_PER_LONG sb next3_group_first_block_no
                next3_get_group_desc sbi (Z.to_nat (s_groups_count sbi))
                ltac:(repeat split; try lia; apply Hgroups; assumption)
                0 ltac:(lia) ltac:(lia)) as Hloop.
  unfold next3_check_descriptors.
  destruct (check_loop _ _ _ _ _ _ 0) as [e|].
  - destruct Hloop as (Hrange & Hbad & Hfirst).
    split.
    { split; [discriminate|]. intros Hall. exfalso. apply Hbad, Hall. lia. }
    split; [discriminate|].
    intros _. split; [reflexivity|]. split; [reflexivity|].
    exists e. split; [reflexivity|]. split; [lia|]. split; [exact Hbad|].
    intros j Hj. apply Hfirst. lia.
  - split.
    { split; [|reflexivity]. intros _ i Hi. apply Hloop. lia. }
    split; [intros _; repeat split|]. intros H. contradiction.
Qed.

Lemma check_descriptors_accepts_contained_groups_witness :
  let first_block_no := fun i => 1 + i * 8192 in
  let group_desc := fun i =>
    {| bg_block_bitmap := first_block_no i + 2;
       bg_inode_bitmap := first_block_no i + 3;
       bg_inode_table := first_block_no i + 4 |} in
  let sbi :=
    {| s_groups_count := 2; s_itb_per_group := 32; s_inodes_per_group := 256;
       s_inode_size := 128; es_blocks_count := 16384;
       es_free_blocks_count := 0; es_free_inodes_count := 0 |} in
  fst (fst (next3_check_descriptors 64 sb1k first_block_no group_desc 100 200 sbi)) = 1
  /\ forall i, 0 <= i < 2 -> descriptor_in_group sb1k first_block_no group_desc sbi i.
Proof.
  intros first_block_no group_desc sbi.
  pose proof (check_descriptors_accepts_contained_groups 64 sb1k first_block_no
                group_desc 100 200 sbi ltac:(lia) ltac:(cbn; lia) ltac:(cbn; lia)
                ltac:(cbn; lia) ltac:(cbn; lia)
                ltac:(intros i Hi; cbn in *; unfold first_block_no; lia)) as Hspec.
  cbv zeta in Hspec.
  set (r := next3_check_descriptors _ _ _ _ _ _ _) in *.
  assert (Hr : r = (1, [],
                    {| s_groups_count := 2; s_itb_per_group := 32;
                       s_inodes_per_group := 256; s_inode_size := 128;
                       es_blocks_count := 16384; es_free_blocks_count := 100;
                       es_free_inodes_count := 200 |}))
    by (vm_compute; reflexivity).
  rewrite Hr in *. cbn [fst].
  destruct Hspec as [[Hall _] _].
  split; [reflexivity | exact (Hall eq_refl)].
Defined.

Lemma inode_offset_split (sb : super_block) (offset : Z) :
  0 <= s_blocksize_bits sb -> 0 <= offset ->
  Z.shiftr offset (NEXT3_BLOCK_SIZE_BITS sb) * s_blocksize sb
  + Z.land offset (s_blocksize sb - 1) = offset
  /\ Z.land offset (s_blocksize sb - 1) = offset mod s_blocksize sb.
Proof.
  intros Hbits Hoff. unfold NEXT3_BLOCK_SIZE_BITS, s_blocksize.
  rewrite Z.shiftl_1_l, Z.shiftr_div_pow2 by lia.
  replace (2 ^ s_blocksize_bits sb - 1) with (Z.ones (s_blocksize_bits sb))
    by (rewrite Z.ones_equiv; lia).
  rewrite Z.land_ones by lia.
  split; [|reflexivity].
  pose proof (Z.div_mod offset (2 ^ s_blocksize_bits sb)
                ltac:(pose proof (Z.pow_pos_nonneg 2 (s_blocksize_bits sb)); lia)). lia.
Qed.

(** X26. [next3_get_inode_block] for a valid inode number whose group
    descriptor is there, when the inode size divides the block size and
    nothing wraps around: it finds the group of the inode, the record it
    points at lies in one block of the inode table of this group, and the
    inode number can be computed back from the group, the block and the
    offset, so that no two inodes share a record. *)
Theorem inode_location_round_trip
    (BITS_PER_LONG : Z) (sb : super_block) (sbi : next3_sb_info)
    (next3_valid_inum : Z -> bool)
    (next3_get_group_desc : Z -> option next3_group_desc)
    (ino : Z) (iloc : next3_iloc) (gdp : next3_group_desc) :
  next3_valid_inum ino = true ->
  1 <= ino < 2 ^ BITS_PER_LONG ->
  0 < s_inodes_per_group sbi ->
  0 < s_inode_size sbi ->
  s_inodes_per_group sbi * s_inode_size sbi <= 2 ^ BITS_PER_LONG ->
  0 <= s_blocksize_bits sb ->
  s_blocksize sb mod s_inode_size sbi = 0 ->
  next3_get_group_desc ((ino - 1) / s_inodes_per_group sbi) = Some gdp ->
  0 <= bg_inode_table gdp ->
  bg_inode_table gdp + s_inodes_per_group sbi * s_inode_size sbi < 2 ^ BITS_PER_LONG ->
  let '(block, iloc') :=
    next3_get_inode_block BITS_PER_LONG sb sbi next3_valid_inum next3_get_group_desc
      ino iloc in
  iloc_block_group iloc' = (ino - 1) / s_inodes_per_group sbi
  /\ bg_inode_table gdp <= block
  /\ 0 <= iloc_offset iloc'
  /\ iloc_offset iloc' + s_inode_size sbi <= s_blocksize sb
  /\ ino = 1 + iloc_block_group iloc' * s_inodes_per_group sbi
           + ((block - bg_inode_table gdp) * s_blocksize sb + iloc_offset iloc')
             / s_inode_size sbi.
Proof.
  intros Hvalid Hino Hipg Hisz Hfit Hbits Hdiv Hgdp Htable Hsum.
  unfold next3_get_inode_block. rewrite Hvalid. cbn [negb].
  rewrite (wrap_ulong_small _ (ino - 1)) by lia.
  rewrite Hgdp.
  set (index := (ino - 1) mod s_inodes_per_group sbi).
  assert (Hindex : 0 <= index < s_inodes_per_group sbi)
    by (apply Z.mod_pos_bound; lia).
  set (offset := index * s_inode_size sbi).
  assert (Hoffset : 0 <= offset < s_inodes_per_group sbi * s_inode_size sbi)
    by (subst offset; nia).
  rewrite (wrap_ulong_small _ offset) by lia.
  destruct (inode_offset_split sb offset Hbits ltac:(lia)) as [Hsplit Hland].
  assert (Hblock : 0 < s_blocksize sb).
  { unfold s_blocksize. rewrite Z.shiftl_1_l. apply Z.pow_pos_nonneg; lia. }
  assert (Hshift : 0 <= Z.shiftr offset (NEXT3_BLOCK_SIZE_BITS sb) <= offset).
  { split; [apply Z.shiftr_nonneg; lia|].
    rewrite Z.shiftr_div_pow2 by (unfold NEXT3_BLOCK_SIZE_BITS; lia).
    apply Z.div_le_upper_bound.
    - apply Z.pow_pos_nonneg; unfold NEXT3_BLOCK_SIZE_BITS; lia.
    - pose proof (Z.pow_pos_nonneg 2 (NEXT3_BLOCK_SIZE_BITS sb) ltac:(lia)
                    ltac:(unfold NEXT3_BLOCK_SIZE_BITS; lia)). nia. }
  rewrite (wrap_ulong_small _ (bg_inode_table gdp + _)) by lia.
  cbn [iloc_block_group iloc_offset].
  split; [reflexivity|]. split; [lia|].
  rewrite Hland.
  split; [apply Z.mod_pos_bound; lia|].
  split.
  - (* a multiple of the inode size below the block size *)
    apply Z.mod_divide in Hdiv; [|lia]. destruct Hdiv as [k Hk].
    rewrite Hk. subst offset. rewrite Z.mul_mod_distr_r by nia.
    assert (0 < k) by nia.
    pose proof (Z.mod_pos_bound index k ltac:(lia)). nia.
  - rewrite <- Hland.
    replace ((bg_inode_table gdp + Z.shiftr offset (NEXT3_BLOCK_SIZE_BITS sb)
              - bg_inode_table gdp) * s_blocksize sb
             + Z.land offset (s_blocksize sb - 1)) with offset by lia.
    subst offset. rewrite Z.div_mul by lia. subst index.
    pose proof (Z.div_mod (ino - 1) (s_inodes_per_group sbi) ltac:(lia)). lia.
Qed.

Lemma inode_location_round_trip_witness :
  let sbi :=
    {| s_groups_count := 2; s_itb_per_group := 32; s_inodes_per_group := 256;
       s_inode_size := 128; es_blocks_count := 16384;
       es_free_blocks_count := 0; es_free_inodes_count := 0 |} in
  let gdp := {| bg_block_bitmap := 8195; bg_inode_bitmap := 8196;
                bg_inode_table := 8197 |} in
  let group_desc := fun g => if g =? 1 then Some gdp else None in
  next3_get_inode_block 64 sb1k sbi (fun _ => true) group_desc 300
    {| iloc_block_group := 0; iloc_offset := 0 |}
  = (8202, {| iloc_block_group := 1; iloc_offset := 384 |})
  /\ 300 = 1 + 1 * 256 + ((8202 - 8197) * 1024 + 384) / 128.
Proof.
  intros sbi gdp group_desc.
  pose proof (inode_location_round_trip 64 sb1k sbi (fun _ => true) group_desc 300
                {| iloc_block_group := 0; iloc_offset := 0 |} gdp
                eq_refl ltac:(lia) ltac:(cbn; lia) ltac:(cbn; lia) ltac:(cbn; lia)
                ltac:(cbn; lia) eq_refl eq_refl ltac:(cbn; lia) ltac:(cbn; lia))
    as Hspec.
  assert (Hr : next3_get_inode_block 64 sb1k sbi (fun _ => true) group_desc 300
                 {| iloc_block_group := 0; iloc_offset := 0 |}
               = (8202, {| iloc_block_group := 1; iloc_offset := 384 |}))
    by (vm_compute; reflexivity).
  rewrite Hr in Hspec. cbn [iloc_block_group iloc_offset] in Hspec.
  split; [exact Hr|]. apply Hspec.
Defined.

(** ** The snapshot flags of an overlay dentry *)

Lemma get_id_set_bit (nr snapflags : Z) :
  0 <= nr < 2 ->
  ovl_snapshot_get_id (set_bit nr snapflags) = ovl_snapshot_get_id snapflags.
Proof.
  intros Hnr. unfold ovl_snapshot_get_id, set_bit, OVL_SNAP_ID_SHIFT.
  rewrite Z.shiftr_lor.
  replace (Z.shiftr (Z.shiftl 1 nr) 2) with 0; [apply Z.lor_0_r|].
  assert (nr = 0 \/ nr = 1) as [-> | ->] by lia; reflexivity.
Qed.

Lemma test_bit_set_bit (nr m snapflags : Z) :
  0 <= nr -> 0 <= m ->
  test_bit m (set_bit nr snapflags) = (m =? nr) || test_bit m snapflags.
Proof.
  intros Hnr Hm. unfold test_bit, set_bit.
  rewrite Z.lor_spec, Z.shiftl_1_l, Z.pow2_bits_eqb by lia.
  rewrite orb_comm, (Z.eqb_sym nr m). reflexivity.
Qed.

Lemma get_id_reset_id (BITS_PER_LONG id : Z) :
  2 < BITS_PER_LONG -> 0 <= id < 2 ^ (BITS_PER_LONG - 2) ->
  ovl_snapshot_reset_id BITS_PER_LONG id = Z.shiftl id 2
  /\ ovl_snapshot_get_id (Z.shiftl id 2) = id
  /\ forall m, 0 <= m < 2 -> test_bit m (Z.shiftl id 2) = false.
Proof.
  intros Hbits Hid. split; [|split].
  - unfold ovl_snapshot_reset_id, OVL_SNAP_ID_SHIFT. apply wrap_ulong_small.
    rewrite Z.shiftl_mul_pow2 by lia.
    replace (2 ^ BITS_PER_LONG) with (2 ^ (BITS_PER_LONG - 2) * 2 ^ 2)
      by (rewrite <- Z.pow_add_r by lia; f_equal; lia).
    lia.
  - unfold ovl_snapshot_get_id, OVL_SNAP_ID_SHIFT.
    rewrite Z.shiftr_shiftl_l by lia. apply Z.shiftl_0_r.
  - intros m Hm. unfold test_bit. apply Z.shiftl_spec_low. lia.
Qed.

(** X27. Setting a snapshot flag of an overlay dentry for snapshot [id]
    (not 0): if the flags cached in the dentry belong to a newer snapshot
    the request is discarded; otherwise the dentry then carries [id], the
    flag reads as set for [id], the other flag is kept when the cached
    flags already belonged to [id] and is forgotten when they belonged to an
    older snapshot, and for every other snapshot id both flags read as
    clear, so that copy-on-write is needed again. *)
Theorem snapshot_flags_follow_the_newest_id
    (BITS_PER_LONG : Z) (nr snapflags id : Z) :
  2 < BITS_PER_LONG ->
  0 < id < 2 ^ (BITS_PER_LONG - 2) ->
  0 <= nr < OVL_SNAP_ID_SHIFT ->
  let snapflags' := ovl_snapshot_set_flag BITS_PER_LONG nr snapflags id in
  if ovl_snapshot_get_id snapflags <=? id then
    ovl_snapshot_get_id snapflags' = id
    /\ ovl_snapshot_test_flag nr snapflags' id = true
    /\ (forall m, 0 <= m < OVL_SNAP_ID_SHIFT -> m <> nr ->
          ovl_snapshot_test_flag m snapflags' id
          = if ovl_snapshot_get_id snapflags =? id
            then ovl_snapshot_test_flag m snapflags id else false)
    /\ (forall m id', id' <> id -> ovl_snapshot_test_flag m snapflags' id' = false)
  else snapflags' = snapflags.
Proof.
  intros Hbits Hid Hnr snapflags'. subst snapflags'.
  unfold OVL_SNAP_ID_SHIFT in *.
  destruct (get_id_reset_id BITS_PER_LONG id Hbits ltac:(lia)) as (Hreset & Hget & Hclear).
  unfold ovl_snapshot_set_flag. cbv zeta.
  destruct (Z.eqb_spec id 0) as [? | _]; [lia|]. cbn [negb orb andb].
  destruct (Z.leb_spec (ovl_snapshot_get_id snapflags) id) as [Hle | Hgt].
  2: { destruct (Z.ltb_spec (ovl_snapshot_get_id snapflags) id); [lia | reflexivity]. }
  set (base := if ovl_snapshot_get_id snapflags <? id
               then ovl_snapshot_reset_id BITS_PER_LONG id else snapflags).
  assert (Hbase : ovl_snapshot_get_id base = id
                  /\ forall m, 0 <= m < 2 ->
                       test_bit m base
                       = if ovl_snapshot_get_id snapflags =? id
                         then test_bit m snapflags else false).
  { subst base. destruct (Z.ltb_spec (ovl_snapshot_get_id snapflags) id) as [Hlt | Hge].
    - rewrite Hreset. split; [exact Hget|]. intros m Hm. rewrite (Hclear m Hm).
      destruct (Z.eqb_spec (ovl_snapshot_get_id snapflags) id); [lia | reflexivity].
    - split; [lia|]. intros m Hm.
      destruct (Z.eqb_spec (ovl_snapshot_get_id snapflags) id); [reflexivity | lia]. }
  destruct Hbase as [Hbid Hbits'].
  assert (Hid' : ovl_snapshot_get_id (set_bit nr base) = id)
    by (rewrite get_id_set_bit by lia; exact Hbid).
  split; [exact Hid'|].
  unfold ovl_snapshot_test_flag, OVL_SNAP_ID_SHIFT. cbv zeta. rewrite !Hid'.
  split; [|split].
  - destruct (Z.geb_spec nr 2); [lia|]. rewrite Z.eqb_refl. cbn [negb orb andb].
    rewrite test_bit_set_bit, Z.eqb_refl by lia. reflexivity.
  - intros m Hm Hne.
    destruct (Z.geb_spec m 2); [lia|]. rewrite Z.eqb_refl. cbn [negb orb andb].
    rewrite test_bit_set_bit by lia.
    destruct (Z.eqb_spec m nr); [contradiction|]. cbn [orb]. rewrite andb_true_r.
    rewrite (Hbits' m Hm).
    destruct (Z.eqb_spec (ovl_snapshot_get_id snapflags) id);
      cbn [negb orb andb]; [rewrite andb_true_r|]; reflexivity.
  - intros m id' Hne.
    destruct (Z.eqb_spec id id'); [congruence|]. cbn [negb]. rewrite orb_true_r. reflexivity.
Qed.

Lemma snapshot_flags_follow_the_newest_id_witness :
  let snapflags := ovl_snapshot_set_flag 64 OVL_SNAP_CHILDREN_NOCOW 0 5 in
  let snapflags' := ovl_snapshot_set_flag 64 OVL_SNAP_NOCOW snapflags 7 in
  ovl_snapshot_children_need_cow snapflags 5 = false
  /\ ovl_snapshot_get_id snapflags' = 7
  /\ ovl_snapshot_need_cow snapflags' 7 = false
  /\ ovl_snapshot_children_need_cow snapflags' 7 = true
  /\ ovl_snapshot_need_cow snapflags' 5 = true.
Proof.
  intros snapflags snapflags'.
  pose proof (snapshot_flags_follow_the_newest_id 64 OVL_SNAP_NOCOW snapflags 7
                ltac:(lia) ltac:(lia) ltac:(unfold OVL_SNAP_NOCOW, OVL_SNAP_CHILDREN_NOCOW, OVL_SNAP_ID_SHIFT; lia)) as Hspec.
  cbv zeta in Hspec. fold snapflags' in Hspec.
  change (ovl_snapshot_get_id snapflags <=? 7) with true in Hspec.
  destruct Hspec as (Hid & Hset & Hother & Hstale).
  split; [reflexivity|]. split; [exact Hid|].
  unfold ovl_snapshot_need_cow, ovl_snapshot_children_need_cow.
  split; [rewrite Hset; reflexivity|].
  split.
  - rewrite (Hother OVL_SNAP_CHILDREN_NOCOW ltac:(unfold OVL_SNAP_NOCOW, OVL_SNAP_CHILDREN_NOCOW, OVL_SNAP_ID_SHIFT; lia)
               ltac:(discriminate)). reflexivity.
  - rewrite (Hstale OVL_SNAP_NOCOW 5 ltac:(discriminate)). reflexivity.
Defined.

(** ** The boundary and the batch cap *)

(** A successful [next3_alloc_branch_cow] hands on between 1 and [blks]
    direct blocks. *)
Lemma alloc_branch_count
    (cfg : config) (sb : super_block)
    (new_blocks_oracle : list event -> Z -> Z -> Z -> Z * Z * Z)
    (jbd : list event -> event -> Z)
    (iblock indirect_blks blks goal : Z) (offs : list Z) (branch0 : Indirect)
    (cmd : Z) (st : mstate) (blks' : Z) (branch' : list Indirect) (st' : mstate) :
  0 <= indirect_blks -> 1 <= blks ->
  next3_alloc_branch_cow cfg sb new_blocks_oracle jbd iblock indirect_blks blks goal
    offs branch0 cmd st = (0, blks', branch', st') ->
  1 <= blks' <= blks.
Proof.
  intros Hib Hblks Hcall.
  unfold next3_alloc_branch_cow in Hcall. cbv zeta in Hcall.
  match type of Hcall with
  | context [match ?X with _ => _ end] =>
    destruct X as [[[e num] nb] st1] eqn:Halloc
  end.
  destruct (Z.eqb_spec e 0) as [-> | Hne]; cbn [negb] in Hcall;
    [|injection Hcall as He _ _ _; contradiction].
  destruct (alloc_part_success cfg new_blocks_oracle iblock indirect_blks blks goal cmd st
              num nb st1 Hib Hblks Halloc) as (_ & _ & Hnum & _).
  destruct (link_loop cfg sb jbd (Z.to_nat indirect_blks) cmd indirect_blks num 1
              offs nb [set_key branch0 (entry nb 0)] st1) as [[[e n] br] st2].
  destruct (Z.eqb_spec e 0) as [-> | Hne]; cbn [negb] in Hcall;
    [|injection Hcall as He _ _ _; contradiction].
  injection Hcall as <- _ _. exact Hnum.
Qed.

(** Whenever [next3_get_blocks_handle] reports a block, found or new, the
    number of blocks it returns stays within [maxblocks] and within the
    holder the path ends in. *)
Lemma get_blocks_capped
    (cfg : config) (sb : super_block)
    (new_blocks_oracle : list event -> Z -> Z -> Z -> Z * Z * Z)
    (jbd : list event -> event -> Z)
    (group_first_block_no : super_block -> Z -> Z) (pid : Z)
    (init_block_alloc_info : inode -> option block_alloc_info)
    (iblock maxblocks create : Z) (st : mstate)
    (ret blk : Z) (new : bool) (st' : mstate) :
  10 <= s_blocksize_bits sb -> 1 <= maxblocks ->
  next3_get_blocks_handle cfg sb new_blocks_oracle jbd group_first_block_no pid
    init_block_alloc_info iblock maxblocks create st = (ret, blk, new, st') ->
  new = true \/ blk <> 0 ->
  1 <= ret
    <= Z.min maxblocks (boundary (next3_block_to_path cfg sb (m_inode st) iblock) + 1).
Proof.
  intros Hbits Hmax Hcall Hsome.
  unfold next3_get_blocks_handle in Hcall. cbv zeta in Hcall.
  set (pth := next3_block_to_path cfg sb (m_inode st) iblock) in *.
  destruct (Z.eqb_spec (depth pth) 0) as [Hd0 | Hd].
  { injection Hcall as _ <- <- _. destruct Hsome; [discriminate | contradiction]. }
  destruct (boundary_formula cfg sb (m_inode st) iblock Hbits Hd) as [Hf Hl].
  fold pth in Hf, Hl.
  assert (Hbnd : 0 <= boundary pth) by lia.
  assert (Hd1 : 1 <= depth pth).
  { subst pth. rewrite path_depth_length in *. lia. }
  pose proof (get_branch_spec (m_inode st) (m_bufs st) (depth pth) (offsets pth) Hd1)
    as Hspec.
  destruct (next3_get_branch (m_inode st) (m_bufs st) (depth pth) (offsets pth))
    as [[chain partial] err].
  destruct Hspec as (_ & _ & Hpartial).
  destruct partial as [k|].
  - destruct ((create =? 0) || (err =? - EIO)).
    { injection Hcall as _ <- <- _. destruct Hsome; [discriminate | contradiction]. }
    destruct Hpartial as (_ & Hk & _).
    match type of Hcall with
    | context [next3_blks_to_allocate ?i ?b ?pa ?ib ?mb ?bt] =>
      pose proof (blks_to_allocate_capped i b pa ib mb bt Hbnd Hmax) as Hcap;
      set (count := next3_blks_to_allocate i b pa ib mb bt) in *
    end.
    match type of Hcall with
    | context [next3_alloc_branch_cow ?a1 ?a2 ?a3 ?a4 ?a5 ?a6 ?a7 ?a8 ?a9 ?a10 ?a11 ?a12] =>
      pose proof (alloc_branch_count a1 a2 a3 a4 a5 a6 a7 a8 a9 a10 a11 a12) as Hcount;
      destruct (next3_alloc_branch_cow a1 a2 a3 a4 a5 a6 a7 a8 a9 a10 a11 a12)
        as [[[e count'] branch] st1]
    end.
    destruct (Z.eqb_spec e 0) as [-> | Hne]; cbn [negb] in Hcall.
    2:{ injection Hcall as _ <- <- _. destruct Hsome; [discriminate | contradiction]. }
    specialize (Hcount count' branch st1 ltac:(lia) ltac:(lia) eq_refl).
    match type of Hcall with
    | context [next3_splice_branch_cow ?a1 ?a2 ?a3 ?a4 ?a5 ?a6 ?a7 ?a8] =>
      destruct (next3_splice_branch_cow a1 a2 a3 a4 a5 a6 a7 a8) as [e2 st2]
    end.
    destruct (Z.eqb_spec e2 0) as [-> | Hne]; cbn [negb] in Hcall.
    2:{ injection Hcall as _ <- <- _. destruct Hsome; [discriminate | contradiction]. }
    injection Hcall as <- _ _ _. lia.
  - injection Hcall as <- _ _ _.
    match goal with
    | |- context [mapped_run ?f ?l ?p ?fb ?mb ?bt 1] =>
      destruct (mapped_run_spec l p fb mb bt f 1 ltac:(lia)) as (H1 & H2 & _)
    end.
    cbn zeta in H1, H2. lia.
Qed.

(** C8 (amended). For every iblock the resolver accepts, on a file system
    with blocks of at least 1 KiB, the boundary value it returns is the
    number of leaf slots that follow the mapped position in the deepest
    holder (slots - 1 - offset): one less than the number of slots from the
    mapped position on. Batch allocation and mapping are capped at
    boundary + 1 blocks, so that they do not cross the indirect-block
    boundary: [next3_blks_to_allocate] counts at most boundary + 1 blocks,
    and whenever [next3_get_blocks_handle] reports a block, one it found
    mapped or a new one, the number of blocks it returns is at least 1, at
    most [maxblocks] and at most boundary + 1. *)
Theorem boundary_counts_slots_after_position
    (cfg : config) (sb : super_block) (ino : inode) (i : Z) :
  10 <= s_blocksize_bits sb ->
  let r := next3_block_to_path cfg sb ino i in
  depth r <> 0 ->
  boundary r = leaf_slots sb r - 1 - List.last (offsets r) 0
  /\ boundary r + 1 = slots_from_position sb r
  /\ 0 <= boundary r
  /\ (forall (owner : inode) (bufs : gmap Z (list Z)) (branch0 : Indirect) (k blks : Z),
        1 <= blks ->
        1 <= next3_blks_to_allocate owner bufs branch0 k blks (boundary r)
          <= Z.min blks (boundary r + 1))
  /\ (forall (new_blocks_oracle : list event -> Z -> Z -> Z -> Z * Z * Z)
             (jbd : list event -> event -> Z)
             (group_first_block_no : super_block -> Z -> Z) (pid : Z)
             (init_block_alloc_info : inode -> option block_alloc_info)
             (maxblocks create : Z) (st : mstate)
             (ret blk : Z) (new : bool) (st' : mstate),
        m_inode st = ino -> 1 <= maxblocks ->
        next3_get_blocks_handle cfg sb new_blocks_oracle jbd group_first_block_no pid
          init_block_alloc_info i maxblocks create st = (ret, blk, new, st') ->
        new = true \/ blk <> 0 ->
        1 <= ret <= Z.min maxblocks (boundary r + 1)).
Proof.
  intros Hbits r Hd.
  destruct (boundary_formula cfg sb ino i Hbits Hd) as [Hf Hl].
  fold r in Hf, Hl.
  split; [exact Hf|].
  split; [unfold slots_from_position; lia|].
  split; [lia|].
  split.
  - intros owner bufs branch0 k blks Hblks.
    apply blks_to_allocate_capped; lia.
  - intros nbo jbd gfb pid init maxblocks create st ret blk new st' Hino Hmax Hcall Hsome.
    subst r. rewrite <- Hino.
    exact (get_blocks_capped cfg sb nbo jbd gfb pid init i maxblocks create st
             ret blk new st' Hbits Hmax Hcall Hsome).
Qed.

Lemma boundary_counts_slots_after_position_witness :
  boundary (next3_block_to_path cfg_all sb1k plain_file 11) = 0
  /\ slots_from_position sb1k (next3_block_to_path cfg_all sb1k plain_file 11) = 1
  /\ exists blk st',
       next3_get_blocks_handle cfg_all sb1k grant_from_2000 Sim.journal_ok
         group_first_block 7 Sim.init_block_alloc_info 11 5 GET_BLOCKS_CREATE fresh_state
       = (1, blk, true, st').
Proof.
  assert (H1 : 10 <= s_blocksize_bits sb1k) by (vm_compute; discriminate).
  assert (H3 : depth (next3_block_to_path cfg_all sb1k plain_file 11) <> 0)
    by (vm_compute; discriminate).
  destruct (boundary_counts_slots_after_position cfg_all sb1k plain_file 11 H1 H3)
    as (Hb & Hs & _ & _ & Hmap).
  split; [rewrite Hb; reflexivity|]. split; [rewrite <- Hs, Hb; reflexivity|].
  destruct (next3_get_blocks_handle cfg_all sb1k grant_from_2000 Sim.journal_ok
              group_first_block 7 Sim.init_block_alloc_info 11 5 GET_BLOCKS_CREATE
              fresh_state) as [[[ret blk] new] st'] eqn:Hcall.
  assert (Hnew : new = true).
  { apply (f_equal (fun x => snd (fst x))) in Hcall. vm_compute in Hcall.
    symmetry. exact Hcall. }
  subst new.
  specialize (Hmap grant_from_2000 Sim.journal_ok group_first_block 7
                Sim.init_block_alloc_info 5 GET_BLOCKS_CREATE fresh_state ret blk true st'
                eq_refl ltac:(lia) Hcall ltac:(left; reflexivity)).
  assert (Hb0 : boundary (next3_block_to_path cfg_all sb1k plain_file 11) = 0)
    by (rewrite Hb; reflexivity).
  rewrite Hb0 in Hmap.
  assert (ret = 1) as -> by lia.
  exists blk, st'. reflexivity.
Defined.

(** C8 as stated fails: for the last direct block (iblock 11, 1 KiB blocks)
    one leaf slot remains from the mapped position on, but boundary is 0. *)
Lemma boundary_is_not_slots_from_position :
  ~ (forall (cfg : config) (sb : super_block) (ino : inode) (i : Z),
       10 <= s_blocksize_bits sb -> 0 <= i ->
       depth (next3_block_to_path cfg sb ino i) <> 0 ->
       boundary (next3_block_to_path cfg sb ino i)
       = slots_from_position sb (next3_block_to_path cfg sb ino i)).
Proof.
  intros H.
  specialize (H cfg_all sb1k plain_file 11).
  assert (H1 : 10 <= s_blocksize_bits sb1k) by (vm_compute; discriminate).
  assert (H3 : depth (next3_block_to_path cfg_all sb1k plain_file 11) <> 0)
    by (vm_compute; discriminate).
  specialize (H H1 ltac:(lia) H3). vm_compute in H. discriminate.
Qed.
